(* ===== verification/_CoqProject ===== *)
-Q . S2P
Prelude.v
StakingTypes.v
Primitives.v
Externals.v
TaylorSeries.v
Inflation.v
InflationPrecision.v
StakingPallet.v
StakingRounds.v
StakingMock.v
StakingCalls.v
StakingInvariant.v
StakingTyped.v
StakingPayout.v
StakingMoney.v
StakingMaintenance.v
StakingSchedule.v
StakingNominations.v
StakingReserves.v
StakingExits.v
StakingNominatorLedger.v
StakingElection.v
StakingRewards.v
StakingDefects.v
Treasury.v
CrowdloanRewards.v
RuntimeFunds.v
AuthorInherent.v
PalletTests.v
NodeMaintenance.v
Networks.v
Runtime.v
XcmConfig.v
RuntimeApi.v
RuntimeConfig.v
MockRuntimes.v
NodeStartup.v
NodeService.v
NodeInherents.v
NodeClient.v
NodeCommand.v
NodeSubcommand.v
