(* ===== verification/Prelude.v ===== *)
(** * Polkafoundry: a verification library

    Polkafoundry is a Substrate parachain node with three runtimes (PolkaFoundry,
    PolkaSmith, Halongbay) and the pallets it adds to them.  This development
    models the logic of those pallets and of the node, and proves what makes it
    correct, or shows where it is not.

    ** Parts of the program

    - [pallets/polkafoundry-staking]: collators bond, nominators back them, rounds
      of blocks elect collators, pay them and work off what was scheduled.  The
      pallet keeps a ledger per collator and per nominator, a queue of exits, and
      totals per round; it calls the currency, an election provider, the
      fixed-point arithmetic of [sp_arithmetic] and its own inflation curve.
    - [pallets/treasury]: an account that takes donations and that root allocates.
    - [pallets/crowdloan-rewards]: root writes down rewards, relay-chain accounts
      are associated with native ones by signature, and a contributor claims what
      has accrued per block out of the treasury's account.
    - [pallets/author-inherent]: every block states its author by an inherent.
    - [runtime/*]: the three runtimes, made of third-party pallets; Halongbay adds
      the treasury and the crowdloan rewards pallet, which share the balances.
      The staking and author inherent pallets are in no runtime.
    - [node/src]: which chain specification and runtime the node uses, what it
      serves over RPC, which maintenance tasks it runs, what its subcommands do
      and which inherents it puts into blocks.

    ** Files

    - [Prelude]: machine integers, sums, folds, the state-and-error monad of
      dispatchables, origins.
    - [StakingTypes]: the data of the staking pallet and the methods of
      [StakingCollators], [StakingNominators] and [RoundInfo]
      (lib.rs lines 116 to 598), each in a Module of the name of its type.
    - [Externals]: what the program calls but does not define, as type classes
      of operations ([Currency], [ReservableCurrency], [PerThing], [BigUint],
      [StorageIter]) with classes of laws, their documented behaviour, and a
      reference instance that satisfies the laws.
    - [TaylorSeries], [Inflation]: taylor_series.rs and inflation.rs;
      [InflationPrecision]: their curve against the documented one on the reals.
    - [StakingPallet]: storage, the configuration, every call, genesis;
      [StakingRounds]: [on_finalize], payouts, maintenance, elections, author hooks.
    - [StakingMock]: the configuration and genesis of mock.rs, replaying scenarios
      of tests.rs; the other files evaluate their witnesses on it.
    - [StakingCalls], [StakingInvariant], [StakingTyped], [StakingPayout],
      [StakingMoney], [StakingMaintenance], [StakingSchedule],
      [StakingNominations], [StakingReserves], [StakingExits],
      [StakingNominatorLedger], [StakingElection], [StakingRewards], [StakingDefects]: the theorems on the staking pallet.
    - [Treasury], [CrowdloanRewards], [AuthorInherent]: one pallet each.
    - [RuntimeFunds]: the crowdloan and treasury pallets on one ledger, as the
      Halongbay runtime composes them.
    - [PalletTests]: the mocks and tests of the treasury, crowdloan and author
      inherent pallets, replayed on the models.
    - [Primitives]: the integer types of primitives/src/lib.rs, the precompiled
      contracts, [MultiAddress].
    - [NodeMaintenance]: the pool maintenance tasks of service.rs.
    - [Networks]: constants.rs, common/src/lib.rs, chain_spec/*.rs, the election
      weights; [Runtime]: the pallets and constants of the runtimes' lib.rs;
      [XcmConfig]: its configuration of cross-chain messages; [RuntimeApi]: its
      transaction converter, signed extensions and runtime APIs, the Ethereum
      queries among them; [RuntimeConfig]: the [Config] of each pallet, the
      parameters for the staking pallet, the benchmarks; [MockRuntimes]: the
      runtimes the mocks of the pallets put together.
    - [NodeStartup]: starting a node as a sequence of requests that may fail, and
      plans of requests; [NodeService], [NodeCommand]: service.rs, rpc.rs,
      command.rs, cli.rs as such starts; [NodeInherents]: the inherent data
      providers of service.rs; [NodeClient]: client.rs; [NodeSubcommand]: the subcommands and [RelayChainCli].

    ** How the code is modelled

    - [u32], [u64], [u128] are integers in [[0, 2^w)].  The node is built in release
      mode, so [+], [-], [*] wrap around; [saturating_*] saturates.  Equations
      that survive wrapping are stated modulo [2^128] ([U.eqm]).
    - A dispatchable is a function of the state to an outcome (a value, an error or
      a panic) and a state.  The calls of this FRAME version are not
      transactional: what was written before an error stays, and the model keeps
      it.
    - [events] of a pallet is the list of what it passes to [deposit_event].
    - Iteration over a storage map goes over the entries as they are when it
      starts, in an arbitrary order that the theorems quantify over.
    - The only recursion that is not structural is [binary_search], with the length
      of the slice as fuel, which is proved to be enough; the Taylor loop has the
      299 iterations of the source, which are proved to be enough for [Perbill].
    - What the node asks of Substrate, Cumulus and Polkadot while it starts is
      recorded as a list of requests, with the arguments its own code decides;
      which request fails, and how, is a parameter.
    - A collator's [unlocking] chunks are bonds that become active in a later
      round, its [unbonding] chunks are released in one.

    ** What the theorems show

    - Ledgers: every operation of a collator keeps
      [total = active + unlocking + unbonding], and the pallet keeps it for all
      collators in every state reachable by calls, blocks and author notes.
    - Types: in the same states every stored number is within its width.
    - Refinement: a collator's record implements an abstract schedule of stake and
      held amount per round ([StakingSchedule]), a nominator's the sum of its
      calls ([StakingNominatorLedger]), a [nominate] that fails half-way
      included; claims of a crowdloan reward
      implement linear vesting.
    - Money: calls neither create nor destroy it, a block pays exactly the rewards
      it announces, and the reserve moves with stakes and releases.
    - Reserves: what is reserved for an account is what its records say, in every
      run in which no reserve fails and nobody leaves with nominations, a
      pending bond or an exit record behind; in such a run, who leaves has its
      stake locked until the bond duration has passed, and all of it back by
      then, unless root changes the settings or it bonds again; a nominator that
      is no collator has back what it took out in the round it was told.
    - Rounds: a round lasts its length; its end works off everything scheduled for
      it, in collators, nominators and the exit queue, and nothing else.
    - Nominations: the nominators' book and the collators' agree as long as no
      nominated collator leaves and no [nominate] fails half-way, and then the
      calls of nominators succeed exactly when they mean to.
    - Errors: which errors each staking call can raise; none panics; what
      [bond_less] and a crowdloan claim do on every branch.
    - Elections and payouts: the snapshots, the exposures and their record, bounds
      on the inflation rate, on a round's payout, on a reward and on what all
      rewards of a round cost while its exposures stay within the stake recorded
      for it; and from an election to the rewards: whoever was elected, and
      everyone behind it, is paid [PayoutDuration] rounds later if the reward is
      above the minimum balance and the account can receive it ([StakingRewards]).
    - Arithmetic: the big-integer code computes the series over the integers, and
      the inflation rate is the documented real curve to within 154 billionths, and
      a payout the documented one to within 356 billionths of the issuance, with
      [from_rational] scaling what does not fit the parts.
    - Treasury, crowdloan, author inherent: functional behaviour on every branch,
      safety of claims and associations, the round trip of the inherent.
    - Composition: the books of the treasury's account balance over calls of both
      pallets, and an account that covers the rewards serves every claim.
    - Configuration: every pallet that a configuration relies on is one of its
      runtime; the runtimes differ in what identifies them, in their block time,
      and in the two pallets of Halongbay.
    - Cross-chain messages: which origin a call in a message gets, that only the
      relay chain's token can enter, who is executed for free, where messages
      go, what they cost; three runtimes alike.
    - Extrinsics: one that is refused costs its sender nothing; queries for
      storage read the slot of their index and never panic.
    - Node: lifetimes in the pools, what is started, served and refused, that a
      start that fails starts no network and ends in the first error; chain
      operations cannot tell the enum of clients from the client inside; the
      exported wasm reads back as the code of the specification; no block states
      an author.
    - Defects: [StakingDefects] and the lemmas on failed claims, unfunded bonds,
      duplicated nominations, exits and mistaken identities show, on
      concrete states, where the code does not do what it means to.

    ** Not modelled

    The code that the macros of the runtimes generate; the parts of Halongbay's
    lib.rs that are commented out; what Substrate, Cumulus, Frontier and Polkadot
    do on the requests of the node and make of the files of a specification, and
    argument parsing, which is structopt's;
    the precompiled contracts themselves; build scripts. *)
From stdpp Require Export base tactics option list gmap numbers strings.
From Stdlib Require Export ZArith Lia.
From Stdlib Require Import Strings.Byte.

Declare Scope pallet_scope.
Delimit Scope pallet_scope with pallet.

#[global] Open Scope Z_scope.

(** ** Machine integers

    A Rust [u32], [u64] or [u128] is a [Z] in [[0, 2^w)].  The node is built
    with [cargo build --release] (README.md) and [Cargo.toml] does not turn
    [overflow-checks] on, so [+], [-] and [*] wrap around. *)
Module U.
Definition max (w : Z) : Z := 2 ^ w - 1.
Definition wrap (w x : Z) : Z := x mod 2 ^ w.
Definition add (w a b : Z) : Z := wrap w (a + b).
Definition sub (w a b : Z) : Z := wrap w (a - b).
Definition mul (w a b : Z) : Z := wrap w (a * b).
(** [saturating_add], [saturating_sub] and [saturating_mul]. *)
Definition sat_add (w a b : Z) : Z := Z.min (a + b) (max w).
Definition sat_sub (a b : Z) : Z := Z.max (a - b) 0.
Definition sat_mul (w a b : Z) : Z := Z.min (a * b) (max w).
(** The range of a [w]-bit unsigned integer. *)
Definition ok (w x : Z) : Prop := 0 <= x < 2 ^ w.

(** Equality of two numbers as [w]-bit integers. *)
Definition eqm (w a b : Z) : Prop := a mod 2 ^ w = b mod 2 ^ w.
End U.

Notation "a +32 b" := (U.add 32 a b) (at level 50, left associativity) : pallet_scope.
Notation "a *32 b" := (U.mul 32 a b) (at level 40, left associativity) : pallet_scope.
Notation "a -32 b" := (U.sub 32 a b) (at level 50, left associativity) : pallet_scope.
Notation "a +128 b" := (U.add 128 a b) (at level 50, left associativity) : pallet_scope.
Notation "a -128 b" := (U.sub 128 a b) (at level 50, left associativity) : pallet_scope.
#[global] Open Scope pallet_scope.

#[export] Instance byte_eq_decision : EqDecision byte := Byte.byte_eq_dec.

Create HintDb pallet.

Lemma U_ok_nonneg w x : U.ok w x -> 0 <= x.
Proof. by intros []. Qed.

Section UFacts.
Context (w : Z).

Lemma pow_pos : 0 <= w -> 0 < 2 ^ w.
Proof. intros. apply Z.pow_pos_nonneg; lia. Qed.

Lemma wrap_ok x : 0 <= w -> U.ok w (U.wrap w x).
Proof. intros. by apply Z.mod_pos_bound, pow_pos. Qed.

Lemma wrap_id x : U.ok w x -> U.wrap w x = x.
Proof. intros H. by apply Z.mod_small. Qed.

Lemma add_ok a b : 0 <= w -> U.ok w (U.add w a b).
Proof. apply wrap_ok. Qed.
Lemma sub_ok a b : 0 <= w -> U.ok w (U.sub w a b).
Proof. apply wrap_ok. Qed.
Lemma mul_ok a b : 0 <= w -> U.ok w (U.mul w a b).
Proof. apply wrap_ok. Qed.

Lemma add_exact a b : 0 <= a + b < 2 ^ w -> U.add w a b = a + b.
Proof. apply Z.mod_small. Qed.
Lemma sub_exact a b : 0 <= a - b < 2 ^ w -> U.sub w a b = a - b.
Proof. apply Z.mod_small. Qed.
Lemma mul_exact a b : 0 <= a * b < 2 ^ w -> U.mul w a b = a * b.
Proof. apply Z.mod_small. Qed.

Lemma sat_add_ok a b : U.ok w a -> U.ok w b -> U.ok w (U.sat_add w a b).
Proof. unfold U.ok, U.sat_add, U.max. lia. Qed.
Lemma sat_sub_ok a b : U.ok w a -> 0 <= b -> U.ok w (U.sat_sub a b).
Proof. unfold U.ok, U.sat_sub. lia. Qed.
Lemma sat_mul_ok a b : U.ok w a -> U.ok w b -> U.ok w (U.sat_mul w a b).
Proof.
  unfold U.ok, U.sat_mul, U.max. intros. assert (0 <= a * b) by nia. lia.
Qed.

Lemma eqm_exact a b : U.ok w a -> U.ok w b -> U.eqm w a b -> a = b.
Proof. unfold U.ok, U.eqm. intros ?? H. rewrite (Z.mod_small a), (Z.mod_small b) in H; lia. Qed.
End UFacts.

(** [U.eqm w] is a congruence: the ledger equations of the staking pallet are
    stated up to it, because the code's additions wrap. *)
#[export] Instance eqm_equivalence w : Equivalence (U.eqm w).
Proof. split; unfold U.eqm; red; intros; congruence. Qed.
#[export] Instance eqm_add w : Proper (U.eqm w ==> U.eqm w ==> U.eqm w) Z.add.
Proof.
  intros a a' Ha b b' Hb. unfold U.eqm in *.
  by rewrite Zplus_mod, Ha, Hb, <- Zplus_mod.
Qed.
#[export] Instance eqm_sub w : Proper (U.eqm w ==> U.eqm w ==> U.eqm w) Z.sub.
Proof.
  intros a a' Ha b b' Hb. unfold U.eqm in *.
  by rewrite Zminus_mod, Ha, Hb, <- Zminus_mod.
Qed.
Lemma eqm_wrap w x : U.eqm w (U.wrap w x) x.
Proof. unfold U.eqm, U.wrap. apply Zmod_mod. Qed.
Lemma eqm_u_add w a b : U.eqm w (U.add w a b) (a + b).
Proof. apply eqm_wrap. Qed.
Lemma eqm_u_sub w a b : U.eqm w (U.sub w a b) (a - b).
Proof. apply eqm_wrap. Qed.
Lemma eqm_eq w a b : a = b -> U.eqm w a b.
Proof. by intros ->. Qed.

(** ** Sums over lists *)
Definition sumZ {A} (f : A -> Z) (l : list A) : Z := foldr (fun x acc => f x + acc) 0 l.

Section SumZ.
Context {A : Type} (f : A -> Z).
Implicit Types l : list A.

Lemma sumZ_nil : sumZ f [] = 0.
Proof. done. Qed.
Lemma sumZ_cons x l : sumZ f (x :: l) = f x + sumZ f l.
Proof. done. Qed.
Lemma sumZ_app l1 l2 : sumZ f (l1 ++ l2) = sumZ f l1 + sumZ f l2.
Proof. induction l1 as [|x l1 IH]; simpl; [done | rewrite IH; lia]. Qed.
Lemma sumZ_nonneg l : Forall (fun x => 0 <= f x) l -> 0 <= sumZ f l.
Proof. induction 1; simpl; lia. Qed.
Lemma sumZ_ext (g : A -> Z) l : Forall (fun x => f x = g x) l -> sumZ f l = sumZ g l.
Proof. induction 1 as [|x l Hx _ IH]; simpl; [done|]. by rewrite Hx, IH. Qed.
Lemma sumZ_le (g : A -> Z) l : Forall (fun x => f x <= g x) l -> sumZ f l <= sumZ g l.
Proof. induction 1; simpl; lia. Qed.
#[export] Instance sumZ_perm : Proper ((≡ₚ) ==> (=)) (sumZ f).
Proof. induction 1; simpl; lia. Qed.
(** A sum splits along a decidable predicate. *)
Lemma sumZ_filter (P : A -> Prop) `{!forall x, Decision (P x)} l :
  sumZ f l = sumZ f (filter P l) + sumZ f (filter (fun x => ~ P x) l).
Proof.
  induction l as [|x l IH]; [done|].
  rewrite !filter_cons. destruct (decide (P x)), (decide (~ P x)); simpl; tauto || lia.
Qed.
End SumZ.

Lemma filter_all {A} (P : A -> Prop) `{!forall x, Decision (P x)} (l : list A) :
  Forall P l -> filter P l = l.
Proof.
  induction 1 as [|x l Hx _ IH]; [done|]. by rewrite filter_cons, decide_True, IH.
Qed.
Lemma filter_none {A} (P : A -> Prop) `{!forall x, Decision (P x)} (l : list A) :
  Forall (fun x => ~ P x) l -> filter P l = [].
Proof.
  induction 1 as [|x l Hx _ IH]; [done|]. by rewrite filter_cons, decide_False, IH.
Qed.

Lemma Forall_filter_keep {A} (Q P : A -> Prop) `{!forall x, Decision (P x)} (l : list A) :
  Forall Q l -> Forall Q (filter P l).
Proof.
  rewrite !Forall_forall. intros HQ x Hx. apply list_elem_of_filter in Hx as [_ Hx]. auto.
Qed.

Create Rewrite HintDb sums.
#[export] Hint Rewrite @sumZ_nil @sumZ_cons @sumZ_app : sums.

(** ** Effects

    A dispatchable runs on a state, may return [Err] and may panic.  The state
    is returned in all cases: FRAME 3.0.0 (the revision [Cargo.lock] pins)
    does not roll storage back on [Err] unless the call is marked
    [#[transactional]], and no call of this repository is. *)
Inductive outcome (E A : Type) :=
  | Ok (a : A)
  | Err (e : E)
  | Panic.
Arguments Ok {E A} a.
Arguments Err {E A} e.
Arguments Panic {E A}.

Definition M (S E A : Type) : Type := S -> outcome E A * S.

Section Monad.
Context {S E : Type}.
Definition ret {A} (a : A) : M S E A := fun s => (Ok a, s).
Definition throw {A} (e : E) : M S E A := fun s => (Err e, s).
Definition panic {A} : M S E A := fun s => (Panic, s).
Definition bind {A B} (m : M S E A) (k : A -> M S E B) : M S E B :=
  fun s => match m s with
           | (Ok a, s') => k a s'
           | (Err e, s') => (Err e, s')
           | (Panic, s') => (Panic, s')
           end.
Definition gets {A} (f : S -> A) : M S E A := fun s => (Ok (f s), s).
Definition modify (f : S -> S) : M S E unit := fun s => (Ok tt, f s).
(** [ensure!(b, e)] *)
Definition ensure (b : bool) (e : E) : M S E unit := if b then ret tt else throw e.
(** [o.ok_or(e)?] *)
Definition ok_or {A} (o : option A) (e : E) : M S E A :=
  match o with Some a => ret a | None => throw e end.
(** [assert!(b)] *)
Definition assert_ (b : bool) : M S E unit := if b then ret tt else panic.
(** A [for] loop over the elements an iterator yields. *)
Fixpoint for_each {A} (l : list A) (body : A -> M S E unit) : M S E unit :=
  match l with
  | [] => ret tt
  | x :: l => bind (body x) (fun _ => for_each l body)
  end.

Lemma bind_ret_l {A B} (a : A) (k : A -> M S E B) s : bind (ret a) k s = k a s.
Proof. done. Qed.
Lemma bind_assoc {A B C} (m : M S E A) (k : A -> M S E B) (h : B -> M S E C) s :
  bind (bind m k) h s = bind m (fun a => bind (k a) h) s.
Proof. unfold bind. by destruct (m s) as [[] ?]. Qed.
End Monad.

Notation "'let!' x := c 'in' k" := (bind c (fun x => k))
  (at level 10, x name, c at level 200, k at level 200) : pallet_scope.
Notation "c ;;; k" := (bind c (fun _ => k))
  (at level 100, k at level 200, right associativity) : pallet_scope.

(** Origins and dispatch errors of FRAME. *)
Inductive RawOrigin (AccountId : Type) :=
  | Root
  | Signed (who : AccountId)
  | NoOrigin.
Arguments Root {AccountId}.
Arguments Signed {AccountId} who.
Arguments NoOrigin {AccountId}.

Inductive DispatchError (E : Type) :=
  | BadOrigin
  | ModuleErr (e : E).
Arguments BadOrigin {E}.
Arguments ModuleErr {E} e.

Section Origins.
Context {S E AccountId : Type}.
Definition ensure_signed (o : RawOrigin AccountId) : M S (DispatchError E) AccountId :=
  match o with Signed who => ret who | _ => throw BadOrigin end.
Definition ensure_root (o : RawOrigin AccountId) : M S (DispatchError E) unit :=
  match o with Root => ret tt | _ => throw BadOrigin end.
Definition ensure_none (o : RawOrigin AccountId) : M S (DispatchError E) unit :=
  match o with NoOrigin => ret tt | _ => throw BadOrigin end.
End Origins.

(** A loop whose body never fails is the fold of the body's state change. *)
Lemma for_each_pure {S E A} (l : list A) (body : A -> M S E unit) (f : A -> S -> S) s :
  (forall x s', body x s' = (Ok tt, f x s')) ->
  for_each l body s = (Ok tt, foldl (fun s' x => f x s') s l).
Proof.
  intros Hb. revert s. induction l as [|x l IH]; intros s; [done|].
  simpl. unfold bind. by rewrite Hb, IH.
Qed.

(** ** Folds *)
Section Folds.
Context {S A : Type}.

(** What every step of a loop leaves alone, the loop leaves alone. *)
Lemma foldl_proj {B} (pi : S -> B) (f : S -> A -> S) s l :
  (forall s' x, pi (f s' x) = pi s') -> pi (foldl f s l) = pi s.
Proof. intros Hf. revert s. induction l as [|x l IH]; intros s; simpl; [done|]. by rewrite IH. Qed.

(** Rule of invariants for a loop. *)
Lemma foldl_inv (I : S -> Prop) (f : S -> A -> S) s l :
  I s -> (forall s' x, x ∈ l -> I s' -> I (f s' x)) -> I (foldl f s l).
Proof.
  revert s. induction l as [|x l IH]; intros s Hs Hf; simpl; [done|].
  apply IH; [|intros s' y Hy; apply Hf; by right]. apply Hf; [by left | done].
Qed.

(** A loop over the entries of a map whose iteration for [k] changes only what
    belongs to [k]. *)
Lemma foldl_keyed `{Countable K} {V Q} (q : K -> S -> Q) (h : K -> V -> Q -> Q)
    (f : S -> K * V -> S) (l : list (K * V)) s k :
  NoDup l.*1 ->
  (forall s' k v, q k (f s' (k, v)) = h k v (q k s')) ->
  (forall s' k k' v, k <> k' -> q k (f s' (k', v)) = q k s') ->
  q k (foldl f s l) =
    match (list_to_map l : gmap K V) !! k with Some v => h k v (q k s) | None => q k s end.
Proof.
  intros Hd Heq Hne. revert s. induction l as [|[k' v] l IH]; intros s; [done|].
  apply NoDup_cons in Hd as [Hk Hd]. simpl. rewrite (IH Hd).
  destruct (decide (k' = k)) as [->|Hkk].
  - rewrite lookup_insert_eq, (proj1 (not_elem_of_list_to_map l k) Hk). apply Heq.
  - rewrite lookup_insert_ne, Hne by done. done.
Qed.
End Folds.

(** ** Sums over maps *)
Definition map_sum `{Countable K} {V} (f : K * V -> Z) (m : gmap K V) : Z := sumZ f (map_to_list m).

Section MapSum.
Context `{Countable K} {V : Type} (f : K * V -> Z).
Implicit Types m : gmap K V.

Lemma map_sum_empty : map_sum f ∅ = 0.
Proof. unfold map_sum. by rewrite map_to_list_empty. Qed.

Lemma map_sum_insert_new k v m : m !! k = None -> map_sum f (<[k:=v]> m) = f (k, v) + map_sum f m.
Proof. intros Hk. unfold map_sum. by rewrite map_to_list_insert. Qed.

Lemma map_sum_delete k v m : m !! k = Some v -> map_sum f m = f (k, v) + map_sum f (delete k m).
Proof. intros Hk. unfold map_sum. by rewrite <- (map_to_list_delete m k v). Qed.

Lemma map_sum_insert k v m :
  map_sum f (<[k:=v]> m) =
  map_sum f m + f (k, v) - match m !! k with Some v' => f (k, v') | None => 0 end.
Proof.
  destruct (m !! k) as [v'|] eqn:Hk.
  - rewrite <- insert_delete_eq, map_sum_insert_new by apply lookup_delete_eq.
    rewrite (map_sum_delete k v' m) by done. lia.
  - rewrite map_sum_insert_new by done. lia.
Qed.
End MapSum.

(** ** Tactics *)

(** Symbolic execution of a dispatchable whose result is in hypothesis [H]. *)
Ltac unfold_monad :=
  unfold ensure_signed, ensure_root, ensure_none, ok_or, ensure, assert_,
    bind, ret, throw, panic, gets, modify in *.

Ltac run_step H :=
  first
    [ progress simplify_eq
    | progress simpl in H
    | match type of H with
      | context [match ?x with _ => _ end] =>
          lazymatch x with
          | context [match _ with _ => _ end] => fail
          | _ => destruct x eqn:?
          end
      end ].

Ltac run H := unfold_monad; repeat run_step H.
