(* ===== verification/StakingTypes.v ===== *)
(** * The data model of the staking pallet

    [pallets/polkafoundry-staking/src/lib.rs], the types and their [impl]
    blocks (lines 117 to 598): bonds, chunks, the two staking ledgers, the exit
    record, the round counter and exposures.  A method taking [&mut self]
    returns its result with the new value of [self]. *)
From S2P Require Import Prelude.

(** [AccountId]: in the runtimes a 32-byte key, whose derived [Ord] compares
    bytes left to right, that is, as big-endian numbers; [u64] in the mock. *)
Definition AccountId : Type := N.

(** [u32] *)
Definition RoundIndex : Type := Z.
(** [u32] *)
Definition RewardPoint : Type := Z.
(** [u128] *)
Definition Balance : Type := Z.
(** [u32] *)
Definition BlockNumber : Type := Z.

Record SettingStruct := mkSettingStruct {
  bond_duration : Z;
  blocks_per_round : Z;
  desired_target : Z;
}.

Record UnlockChunk := mkUnlockChunk {
  uc_value : Balance;
  uc_round : RoundIndex;
}.

Record UnBondChunk := mkUnBondChunk {
  ub_value : Balance;
  ub_round : RoundIndex;
}.

Module Bond.
Record t := mk { owner : AccountId; amount : Balance }.
(** [Ord] and [PartialEq] look at the owner alone. *)
Definition cmp (self other : t) : comparison := N.compare (owner self) (owner other).
Definition eq (self other : t) : bool := N.eqb (owner self) (owner other).
End Bond.
Abbreviation Bond := Bond.t.

Inductive StakerStatus := Validator | Nominator | Active | Onboarding | Idle | Leaving_.

#[export] Instance StakerStatus_eq_dec : EqDecision StakerStatus.
Proof. solve_decision. Defined.

Definition StakerStatus_default : StakerStatus := Onboarding.

(** ** [slice::binary_search] of the Rust standard library

    The loop on [left], [right] and [size]; it halves the window, so the
    length of the slice is enough fuel ([binary_search_terminates]). *)
Section BinarySearch.
Context {A : Type} (cmp : A -> A -> comparison).

Fixpoint bsearch_loop (fuel : nat) (l : list A) (x : A) (left right size : nat)
    : option (nat + nat) :=
  if decide (left < right)%nat then
    match fuel with
    | O => None
    | S fuel =>
        let mid := (left + size / 2)%nat in
        match l !! mid with
        | None => None
        | Some y =>
            match cmp y x with
            | Lt => bsearch_loop fuel l x (mid + 1) right (right - (mid + 1))
            | Gt => bsearch_loop fuel l x left mid (mid - left)
            | Eq => Some (inl mid)
            end
        end
    end
  else Some (inr left).

(** [Some (inl i)] is [Ok(i)], [Some (inr i)] is [Err(i)]. *)
Definition binary_search (l : list A) (x : A) : option (nat + nat) :=
  bsearch_loop (length l) l x 0 (length l) (length l).
End BinarySearch.

(** [matches!(l.binary_search(&b), Ok(_))] *)
Definition bond_found (l : list Bond) (b : Bond) : bool :=
  match binary_search Bond.cmp l b with Some (inl _) => true | _ => false end.

(** ** Loops over chunk lists *)

(** The [filter] of [consolidate_active]: chunks that are due are added to
    [active] and dropped. *)
Fixpoint drain_unlocking (current_round : RoundIndex) (active : Balance) (l : list UnlockChunk)
    : Balance * list UnlockChunk :=
  match l with
  | [] => (active, [])
  | chunk :: l =>
      if current_round <? uc_round chunk then
        let (active, kept) := drain_unlocking current_round active l in
        (active, chunk :: kept)
      else drain_unlocking current_round (active +128 uc_value chunk) l
  end.

(** The [filter] of both [consolidate_unbonded]: chunks that are due are taken
    off [total] and dropped. *)
Fixpoint drain_unbonding (current_round : RoundIndex) (total : Balance) (l : list UnBondChunk)
    : Balance * list UnBondChunk :=
  match l with
  | [] => (total, [])
  | chunk :: l =>
      if current_round <? ub_round chunk then
        let (total, kept) := drain_unbonding current_round total l in
        (total, chunk :: kept)
      else drain_unbonding current_round (total -128 ub_value chunk) l
  end.

(** ** Loops over nominations *)

(** The loop of both [nominate_extra]: the first bond of the owner grows. *)
Fixpoint bonds_extra (l : list Bond) (extra : Bond) : option (Balance * list Bond) :=
  match l with
  | [] => None
  | b :: l =>
      if N.eqb (Bond.owner b) (Bond.owner extra) then
        let a := Bond.amount b +128 Bond.amount extra in
        Some (a, Bond.mk (Bond.owner b) a :: l)
      else match bonds_extra l extra with
           | Some (a, l') => Some (a, b :: l')
           | None => None
           end
  end.

(** The loop of both [nominate_less]: the first bond of the owner shrinks if
    something is left of it. *)
Fixpoint bonds_less (l : list Bond) (less : Bond) : option (option (Balance * list Bond)) :=
  match l with
  | [] => None
  | b :: l =>
      if N.eqb (Bond.owner b) (Bond.owner less) then
        if Bond.amount less <? Bond.amount b then
          let a := Bond.amount b -128 Bond.amount less in
          Some (Some (a, Bond.mk (Bond.owner b) a :: l))
        else Some None
      else match bonds_less l less with
           | Some (Some (a, l')) => Some (Some (a, b :: l'))
           | r => r
           end
  end.

(** The [filter_map] of both [rm_nomination]: all bonds of the owner are
    dropped, [less] is the amount of the last one. *)
Fixpoint bonds_remove (less : option Balance) (l : list Bond) (who : AccountId)
    : option Balance * list Bond :=
  match l with
  | [] => (less, [])
  | b :: l =>
      if N.eqb (Bond.owner b) who then bonds_remove (Some (Bond.amount b)) l who
      else let (less, kept) := bonds_remove less l who in (less, b :: kept)
  end.

(** ** [impl StakingCollators] *)
Module StakingCollators.
Record t := mk {
  total : Balance;
  active : Balance;
  nominations : list Bond;
  unlocking : list UnlockChunk;
  unbonding : list UnBondChunk;
  status : StakerStatus;
  claimed_rewards : list RoundIndex;
}.

Definition new (amount : Balance) (next_round : RoundIndex) : t :=
  {| total := amount;
     active := 0;
     nominations := [];
     unlocking := [mkUnlockChunk amount next_round];
     unbonding := [];
     status := StakerStatus_default;
     claimed_rewards := [] |}.

Definition is_active (self : t) : bool := bool_decide (status self = Active).

Definition active_onboard (self : t) : t :=
  if decide (status self = Onboarding) then
    mk (total self) (active self) (nominations self) (unlocking self) (unbonding self)
       Active (claimed_rewards self)
  else self.

Definition bond_extra (self : t) (extra : Balance) (next_round : RoundIndex) : t :=
  mk (total self +128 extra) (active self) (nominations self)
     (unlocking self ++ [mkUnlockChunk extra next_round])
     (unbonding self) (status self) (claimed_rewards self).

Definition bond_less (self : t) (less : Balance) (can_withdraw_round : RoundIndex)
    : option Balance * t :=
  if less <? active self then
    let a := active self -128 less in
    (Some a,
     mk (total self) a (nominations self) (unlocking self)
        (unbonding self ++ [mkUnBondChunk less can_withdraw_round])
        (status self) (claimed_rewards self))
  else (None, self).

Definition consolidate_active (self : t) (current_round : RoundIndex) : t :=
  let (a, kept) := drain_unlocking current_round (active self) (unlocking self) in
  mk (total self) a (nominations self) kept (unbonding self) (status self)
     (claimed_rewards self).

Definition consolidate_unbonded (self : t) (current_round : RoundIndex) : t :=
  let (tot, kept) := drain_unbonding current_round (total self) (unbonding self) in
  mk tot (active self) (nominations self) (unlocking self) kept (status self)
     (claimed_rewards self).

Definition set_nominations (self : t) (l : list Bond) : t :=
  mk (total self) (active self) l (unlocking self) (unbonding self) (status self)
     (claimed_rewards self).

Definition add_nomination (self : t) (nomination : Bond) : bool * t :=
  if bond_found (nominations self) nomination then (false, self)
  else (true, set_nominations self (nominations self ++ [nomination])).

Definition nominate_extra (self : t) (extra : Bond) : option Balance * t :=
  match bonds_extra (nominations self) extra with
  | Some (a, l) => (Some a, set_nominations self l)
  | None => (None, self)
  end.

Definition nominate_less (self : t) (less : Bond) : option (option Balance) * t :=
  match bonds_less (nominations self) less with
  | Some (Some (a, l)) => (Some (Some a), set_nominations self l)
  | Some None => (Some None, self)
  | None => (None, self)
  end.

Definition force_bond (self : t) : t :=
  mk (total self) (total self) (nominations self) [] (unbonding self) Active
     (claimed_rewards self).

Definition rm_nomination (self : t) (nominator : AccountId) : option Balance * t :=
  match bonds_remove None (nominations self) nominator with
  | (Some _, l) => (Some (active self), set_nominations self l)
  | (None, _) => (None, self)
  end.
End StakingCollators.
Abbreviation StakingCollators := StakingCollators.t.

(** [pub struct Leaving] *)
Record Leaving := mkLeaving {
  remaining : Balance;
  leaving_unbonding : list UnBondChunk;
  when : RoundIndex;
}.

(** ** [impl StakingNominators] *)
Module StakingNominators.
Record t := mk {
  nominations : list Bond;
  total : Balance;
  unbonding : list UnBondChunk;
  claimed_rewards : list RoundIndex;
}.

Definition new (nominations : list Bond) (amount : Balance) : t :=
  mk nominations amount [] [].

Definition add_nomination (self : t) (nomination : Bond) : bool * t :=
  if bond_found (nominations self) nomination then (false, self)
  else (true, mk (nominations self ++ [nomination])
                 (total self +128 Bond.amount nomination)
                 (unbonding self) (claimed_rewards self)).

Definition nominate_extra (self : t) (extra : Bond) : option Balance * t :=
  match bonds_extra (nominations self) extra with
  | Some (a, l) => (Some a, mk l (total self +128 Bond.amount extra)
                               (unbonding self) (claimed_rewards self))
  | None => (None, self)
  end.

Definition nominate_less (self : t) (less : Bond) (can_withdraw_round : RoundIndex)
    : option (option Balance) * t :=
  match bonds_less (nominations self) less with
  | Some (Some (a, l)) =>
      (Some (Some a),
       mk l (total self)
          (unbonding self ++ [mkUnBondChunk (Bond.amount less) can_withdraw_round])
          (claimed_rewards self))
  | Some None => (Some None, self)
  | None => (None, self)
  end.

Definition consolidate_unbonded (self : t) (current_round : RoundIndex) : t :=
  let (tot, kept) := drain_unbonding current_round (total self) (unbonding self) in
  mk (nominations self) tot kept (claimed_rewards self).

Definition rm_nomination (self : t) (candidate : AccountId) (can_withdraw_round : RoundIndex)
    : option Balance * t :=
  match bonds_remove None (nominations self) candidate with
  | (Some less, l) =>
      (Some (total self),
       mk l (total self) (unbonding self ++ [mkUnBondChunk less can_withdraw_round])
          (claimed_rewards self))
  | (None, _) => (None, self)
  end.
End StakingNominators.
Abbreviation StakingNominators := StakingNominators.t.

(** ** [impl RoundInfo] *)
Module RoundInfo.
Record t := mk { index : RoundIndex; start_in : BlockNumber; length : Z }.
(** [#[derive(Default)]] *)
Definition default : t := mk 0 0 0.
Definition new (index : RoundIndex) (start_in : BlockNumber) (length : Z) : t :=
  mk index start_in length.
Definition next_round_index (self : t) : RoundIndex := index self +32 1.
Definition update (self : t) (now : BlockNumber) (len : Z) : t :=
  mk (index self +32 1) now len.
Definition should_goto_next_round (self : t) (now : BlockNumber) : bool :=
  length self <=? now -32 start_in self.
Definition next_election_prediction (self : t) : BlockNumber :=
  start_in self +32 length self.
End RoundInfo.
Abbreviation RoundInfo := RoundInfo.t.

Inductive Releases := V1_0_0.
Definition Releases_default : Releases := V1_0_0.

Record IndividualExposure := mkIndividualExposure {
  ie_who : AccountId;
  ie_value : Balance;
}.

Module Exposure.
Record t := mk { total : Balance; own : Balance; others : list IndividualExposure }.
(** [#[derive(Default)]] *)
Definition default : t := mk 0 0 [].
End Exposure.
Abbreviation Exposure := Exposure.t.

(** ** What the ledgers promise *)

Definition unlocking_sum (l : list UnlockChunk) : Z := sumZ uc_value l.
Definition unbonding_sum (l : list UnBondChunk) : Z := sumZ ub_value l.
Definition bonds_sum (l : list Bond) : Z := sumZ Bond.amount l.

(** The stake that counts in round [r] if nothing else happens. *)
Definition due_unlocking (r : RoundIndex) (l : list UnlockChunk) : list UnlockChunk :=
  filter (fun ch => ~ r < uc_round ch) l.
Definition due_unbonding (r : RoundIndex) (l : list UnBondChunk) : list UnBondChunk :=
  filter (fun ch => ~ r < ub_round ch) l.

Definition stake_at (c : StakingCollators) (r : RoundIndex) : Z :=
  StakingCollators.active c + unlocking_sum (due_unlocking r (StakingCollators.unlocking c)).
Definition locked_at (c : StakingCollators) (r : RoundIndex) : Z :=
  StakingCollators.total c - unbonding_sum (due_unbonding r (StakingCollators.unbonding c)).
Definition nominator_locked_at (n : StakingNominators) (r : RoundIndex) : Z :=
  StakingNominators.total n - unbonding_sum (due_unbonding r (StakingNominators.unbonding n)).

(** The ledger equation of a collator, as 128-bit integers. *)
Definition collator_balanced (c : StakingCollators) : Prop :=
  U.eqm 128 (StakingCollators.total c)
    (StakingCollators.active c + unlocking_sum (StakingCollators.unlocking c)
     + unbonding_sum (StakingCollators.unbonding c)).

(** A collator that is not active yet has bonded and done nothing else. *)
Definition collator_fresh (c : StakingCollators) : Prop :=
  StakingCollators.status c = Onboarding /\ StakingCollators.active c = 0 /\
  StakingCollators.unbonding c = [] /\ StakingCollators.nominations c = [].

Record collator_wf (c : StakingCollators) : Prop := {
  cwf_balanced : collator_balanced c;
  cwf_total : U.ok 128 (StakingCollators.total c);
  cwf_active : U.ok 128 (StakingCollators.active c);
  cwf_status : StakingCollators.status c = Active \/ collator_fresh c;
}.

(** The ledger equation of a nominator. *)
Definition nominator_balanced (n : StakingNominators) : Prop :=
  U.eqm 128 (StakingNominators.total n)
    (bonds_sum (StakingNominators.nominations n)
     + unbonding_sum (StakingNominators.unbonding n)).

(** The operations of a collator under the guards of their call sites:
    [bond_less], [add_nomination], [nominate_extra] and [nominate_less] are
    called on an active collator, [force_bond] on one that is not. *)
Inductive collator_step : StakingCollators -> StakingCollators -> Prop :=
  | cs_active_onboard c : collator_step c (StakingCollators.active_onboard c)
  | cs_bond_extra c e r :
      StakingCollators.is_active c = true ->
      collator_step c (StakingCollators.bond_extra c e r)
  | cs_bond_less c l r :
      StakingCollators.is_active c = true -> 0 <= l ->
      collator_step c (StakingCollators.bond_less c l r).2
  | cs_consolidate_active c r :
      StakingCollators.is_active c = true ->
      collator_step c (StakingCollators.consolidate_active c r)
  | cs_consolidate_unbonded c r : collator_step c (StakingCollators.consolidate_unbonded c r)
  | cs_add_nomination c b :
      StakingCollators.is_active c = true ->
      collator_step c (StakingCollators.add_nomination c b).2
  | cs_nominate_extra c b :
      StakingCollators.is_active c = true ->
      collator_step c (StakingCollators.nominate_extra c b).2
  | cs_nominate_less c b :
      StakingCollators.is_active c = true ->
      collator_step c (StakingCollators.nominate_less c b).2
  | cs_rm_nomination c who : collator_step c (StakingCollators.rm_nomination c who).2
  | cs_force_bond c :
      StakingCollators.is_active c = false ->
      collator_step c (StakingCollators.force_bond c).

(** The operations of a nominator.  [rm_nomination] is called for a candidate
    the nominator backs at most once. *)
Inductive nominator_step : StakingNominators -> StakingNominators -> Prop :=
  | ns_add n b : nominator_step n (StakingNominators.add_nomination n b).2
  | ns_extra n b : nominator_step n (StakingNominators.nominate_extra n b).2
  | ns_less n b r : nominator_step n (StakingNominators.nominate_less n b r).2
  | ns_consolidate n r : nominator_step n (StakingNominators.consolidate_unbonded n r)
  | ns_rm n who r :
      (length (filter (fun b => Bond.owner b = who) (StakingNominators.nominations n)) <= 1)%nat ->
      nominator_step n (StakingNominators.rm_nomination n who r).2.

(** ** Lemmas on the loops *)

Lemma drain_unlocking_kept r a l :
  (drain_unlocking r a l).2 = filter (fun ch => r < uc_round ch) l.
Proof.
  revert a. induction l as [|ch l IH]; intros a; [done|]; simpl.
  rewrite filter_cons. destruct (Z.ltb_spec r (uc_round ch)).
  - rewrite decide_True by done. specialize (IH a).
    by destruct (drain_unlocking r a l); simpl in *; subst.
  - by rewrite decide_False by lia.
Qed.

Lemma drain_unlocking_sum r a l :
  U.eqm 128 (drain_unlocking r a l).1 (a + unlocking_sum (due_unlocking r l)).
Proof.
  unfold unlocking_sum, due_unlocking.
  revert a. induction l as [|ch l IH]; intros a; simpl.
  - apply eqm_eq. lia.
  - rewrite filter_cons. destruct (Z.ltb_spec r (uc_round ch)).
    + rewrite decide_False by tauto. specialize (IH a).
      by destruct (drain_unlocking r a l).
    + rewrite decide_True by lia. rewrite IH, eqm_u_add, sumZ_cons.
      apply eqm_eq. lia.
Qed.

Lemma drain_unlocking_ok r a l : U.ok 128 a -> U.ok 128 (drain_unlocking r a l).1.
Proof.
  revert a. induction l as [|ch l IH]; intros a Ha; simpl; [done|].
  destruct (r <? uc_round ch).
  - specialize (IH a Ha). by destruct (drain_unlocking r a l).
  - apply IH, add_ok. lia.
Qed.

Lemma drain_unbonding_kept r a l :
  (drain_unbonding r a l).2 = filter (fun ch => r < ub_round ch) l.
Proof.
  revert a. induction l as [|ch l IH]; intros a; [done|]; simpl.
  rewrite filter_cons. destruct (Z.ltb_spec r (ub_round ch)).
  - rewrite decide_True by done. specialize (IH a).
    by destruct (drain_unbonding r a l); simpl in *; subst.
  - by rewrite decide_False by lia.
Qed.

Lemma drain_unbonding_sum r a l :
  U.eqm 128 (drain_unbonding r a l).1 (a - unbonding_sum (due_unbonding r l)).
Proof.
  unfold unbonding_sum, due_unbonding.
  revert a. induction l as [|ch l IH]; intros a; simpl.
  - apply eqm_eq. lia.
  - rewrite filter_cons. destruct (Z.ltb_spec r (ub_round ch)).
    + rewrite decide_False by tauto. specialize (IH a).
      by destruct (drain_unbonding r a l).
    + rewrite decide_True by lia. rewrite IH, eqm_u_sub, sumZ_cons.
      apply eqm_eq. lia.
Qed.

Lemma drain_unbonding_ok r a l : U.ok 128 a -> U.ok 128 (drain_unbonding r a l).1.
Proof.
  revert a. induction l as [|ch l IH]; intros a Ha; simpl; [done|].
  destruct (r <? ub_round ch).
  - specialize (IH a Ha). by destruct (drain_unbonding r a l).
  - apply IH, sub_ok. lia.
Qed.

Lemma unlocking_split r l :
  unlocking_sum l =
  unlocking_sum (filter (fun ch => r < uc_round ch) l) + unlocking_sum (due_unlocking r l).
Proof. apply sumZ_filter. Qed.

Lemma unbonding_split r l :
  unbonding_sum l =
  unbonding_sum (filter (fun ch => r < ub_round ch) l) + unbonding_sum (due_unbonding r l).
Proof. apply sumZ_filter. Qed.

Lemma due_unlocking_later r r' l :
  r <= r' ->
  unlocking_sum (due_unlocking r' l) =
  unlocking_sum (due_unlocking r l)
  + unlocking_sum (due_unlocking r' (filter (fun ch => r < uc_round ch) l)).
Proof.
  intros Hr. unfold unlocking_sum, due_unlocking. induction l as [|ch l IH]; [done|].
  rewrite !filter_cons. destruct (decide (r < uc_round ch)) as [H|H].
  - rewrite (decide_False (P := ~ r < uc_round ch)) by tauto. rewrite filter_cons.
    case_decide; rewrite ?sumZ_cons; lia.
  - rewrite (decide_True (P := ~ r' < uc_round ch)) by lia.
    rewrite (decide_True (P := ~ r < uc_round ch)) by done. rewrite !sumZ_cons. lia.
Qed.

Lemma due_unbonding_later r r' l :
  r <= r' ->
  unbonding_sum (due_unbonding r' l) =
  unbonding_sum (due_unbonding r l)
  + unbonding_sum (due_unbonding r' (filter (fun ch => r < ub_round ch) l)).
Proof.
  intros Hr. unfold unbonding_sum, due_unbonding. induction l as [|ch l IH]; [done|].
  rewrite !filter_cons. destruct (decide (r < ub_round ch)) as [H|H].
  - rewrite (decide_False (P := ~ r < ub_round ch)) by tauto. rewrite filter_cons.
    case_decide; rewrite ?sumZ_cons; lia.
  - rewrite (decide_True (P := ~ r' < ub_round ch)) by lia.
    rewrite (decide_True (P := ~ r < ub_round ch)) by done. rewrite !sumZ_cons. lia.
Qed.

Lemma bonds_extra_spec l extra a l' :
  bonds_extra l extra = Some (a, l') ->
  Bond.owner <$> l' = Bond.owner <$> l /\
  U.eqm 128 (bonds_sum l') (bonds_sum l + Bond.amount extra).
Proof.
  revert a l'. unfold bonds_sum. induction l as [|b l IH]; intros a l' H; simpl in H; [done|].
  destruct (N.eqb_spec (Bond.owner b) (Bond.owner extra)); simplify_eq; simpl.
  - split; [done|]. rewrite eqm_u_add. apply eqm_eq. lia.
  - destruct (bonds_extra l extra) as [[a' l'']|]; simplify_eq; simpl.
    destruct (IH _ _ eq_refl) as [Ho Hs]. split; [by f_equal|].
    rewrite Hs. apply eqm_eq. lia.
Qed.

Lemma bonds_less_spec l less a l' :
  bonds_less l less = Some (Some (a, l')) ->
  Bond.owner <$> l' = Bond.owner <$> l /\
  U.eqm 128 (bonds_sum l') (bonds_sum l - Bond.amount less).
Proof.
  revert a l'. unfold bonds_sum. induction l as [|b l IH]; intros a l' H; simpl in H; [done|].
  destruct (N.eqb_spec (Bond.owner b) (Bond.owner less)).
  - destruct (Bond.amount less <? Bond.amount b); simplify_eq; simpl.
    split; [done|]. rewrite eqm_u_sub. apply eqm_eq. lia.
  - destruct (bonds_less l less) as [[[a' l'']|]|]; simplify_eq; simpl.
    destruct (IH _ _ eq_refl) as [Ho Hs]. split; [by f_equal|].
    rewrite Hs. apply eqm_eq. lia.
Qed.

Lemma bonds_remove_kept less l who :
  (bonds_remove less l who).2 = filter (fun b => Bond.owner b <> who) l.
Proof.
  revert less. induction l as [|b l IH]; intros less; [done|]; simpl.
  rewrite filter_cons. destruct (N.eqb_spec (Bond.owner b) who).
  - by rewrite decide_False by tauto.
  - rewrite decide_True by done. specialize (IH less).
    by destruct (bonds_remove less l who); simpl in *; subst.
Qed.

Lemma bonds_remove_none less l who :
  Forall (fun b => Bond.owner b <> who) l -> (bonds_remove less l who).1 = less.
Proof.
  revert less. induction l as [|b l IH]; intros less H; [done|]; simpl.
  apply Forall_cons in H as [Hb Hl]. rewrite (proj2 (N.eqb_neq _ _) Hb).
  specialize (IH less Hl). by destruct (bonds_remove less l who).
Qed.

(** With at most one bond of [who], the amount reported is exactly what is
    removed. *)
Lemma bonds_remove_sum l who :
  (length (filter (fun b => Bond.owner b = who) l) <= 1)%nat ->
  bonds_sum l = bonds_sum (filter (fun b => Bond.owner b <> who) l)
                + default 0 (bonds_remove None l who).1.
Proof.
  unfold bonds_sum. induction l as [|b l IH]; intros H; [done|]; simpl.
  rewrite !filter_cons in *. destruct (N.eqb_spec (Bond.owner b) who).
  - rewrite decide_True in H by done. rewrite decide_False by tauto. simpl in *.
    assert (Hl : Forall (fun b => Bond.owner b <> who) l).
    { apply Forall_forall. intros x Hx Hw.
      assert (x ∈ filter (fun b => Bond.owner b = who) l) as Hin by by apply list_elem_of_filter.
      destruct (filter _ l); simpl in *; [set_solver | lia]. }
    rewrite bonds_remove_none by done. simpl.
    rewrite (filter_all _ l) by done. lia.
  - rewrite decide_False in H by done. rewrite decide_True by done. simpl.
    specialize (IH H). destruct (bonds_remove None l who) as [o ?]; simpl in *. lia.
Qed.

(** ** Binary search *)
Section BinarySearchFacts.
Context {A : Type} (key : A -> N).
Let cmp (x y : A) : comparison := N.compare (key x) (key y).

(** The slice is in increasing order of keys. *)
Definition sorted_by (l : list A) : Prop :=
  forall i j x y, (i < j)%nat -> l !! i = Some x -> l !! j = Some y -> (key x < key y)%N.

Lemma window_fuel (left right size fuel : nat) :
  right = (left + size)%nat -> (left < right)%nat -> (size <= S fuel)%nat ->
  (left + size / 2 < right)%nat /\
  (right - (left + size / 2 + 1) <= fuel)%nat /\
  (left + size / 2 - left <= fuel)%nat.
Proof. intros. pose proof (Nat.div_lt size 2). lia. Qed.

(** The loop returns as soon as its fuel covers the window; a hit is a hit,
    on a sorted slice a miss is a miss. *)
Lemma bsearch_loop_spec fuel l x left right size :
  right = (left + size)%nat -> (right <= length l)%nat -> (size <= fuel)%nat ->
  exists r, bsearch_loop cmp fuel l x left right size = Some r /\
    match r with
    | inl i => exists y, l !! i = Some y /\ key y = key x
    | inr i =>
        sorted_by l ->
        (forall j y, (j < left)%nat -> l !! j = Some y -> (key y < key x)%N) ->
        (forall j y, (right <= j)%nat -> l !! j = Some y -> (key x < key y)%N) ->
        (forall j y, (j < i)%nat -> l !! j = Some y -> (key y < key x)%N) /\
        (forall j y, (i <= j)%nat -> l !! j = Some y -> (key x < key y)%N)
    end.
Proof.
  revert left right size. induction fuel as [|fuel IH]; intros left right size Hr Hl Hf; cbn [bsearch_loop].
  { rewrite decide_False by lia. exists (inr left). split; [done|].
    intros _ H1 H2. split; [done|]. intros j y Hj. apply H2. lia. }
  case_decide as Hlt.
  2: { exists (inr left). split; [done|]. intros _ H1 H2. split; [done|].
       intros j y Hj. apply H2. lia. }
  destruct (window_fuel left right size fuel) as (Hm & Hf1 & Hf2); [done..|].
  set (mid := (left + size / 2)%nat) in *.
  destruct (lookup_lt_is_Some_2 l mid) as [y Hy]; [lia|]. rewrite Hy.
  unfold cmp at 1. destruct (N.compare_spec (key y) (key x)) as [He|He|He].
  - exists (inl mid). eauto.
  - destruct (IH (mid + 1)%nat right (right - (mid + 1))%nat) as (r & Hr' & Hs); [lia..|].
    exists r. split; [done|]. destruct r as [i|i]; [done|].
    intros Hsort H1 H2. apply Hs; [done| |done].
    intros j z Hj Hz. destruct (decide (j = mid)) as [->|]; [by simplify_eq|].
    assert (key z < key y)%N by (apply (Hsort j mid); [lia|done..]). lia.
  - destruct (IH left mid (mid - left)%nat) as (r & Hr' & Hs); [lia..|].
    exists r. split; [done|]. destruct r as [i|i]; [done|].
    intros Hsort H1 H2. apply Hs; [done|done|].
    intros j z Hj Hz. destruct (decide (j = mid)) as [->|]; [by simplify_eq|].
    assert (key y < key z)%N by (apply (Hsort mid j); [lia|done..]). lia.
Qed.
End BinarySearchFacts.

Lemma bond_found_sound l b :
  bond_found l b = true -> exists y, y ∈ l /\ Bond.owner y = Bond.owner b.
Proof.
  unfold bond_found, binary_search. intros H.
  destruct (bsearch_loop_spec Bond.owner (length l) l b 0 (length l) (length l))
    as (r & Hr & Hs); [lia..|].
  change (fun x y => N.compare (Bond.owner x) (Bond.owner y)) with Bond.cmp in Hr.
  rewrite Hr in H. destruct r as [i|i]; [|done].
  destruct Hs as (y & Hy & Ho). exists y. split; [|done]. by eapply list_elem_of_lookup_2.
Qed.

(** [slice::binary_search] on bonds returns within [len] steps; a hit is
    at a position whose bond has the searched owner, and on a slice sorted by
    owner a miss is the insertion point and the owner occurs nowhere. *)
Theorem binary_search_spec (l : list Bond) (b : Bond) :
  exists r, binary_search Bond.cmp l b = Some r /\
    match r with
    | inl i => exists y, l !! i = Some y /\ Bond.owner y = Bond.owner b
    | inr i =>
        sorted_by Bond.owner l ->
        (forall j y, (j < i)%nat -> l !! j = Some y -> (Bond.owner y < Bond.owner b)%N) /\
        (forall j y, (i <= j)%nat -> l !! j = Some y -> (Bond.owner b < Bond.owner y)%N)
    end.
Proof.
  destruct (bsearch_loop_spec Bond.owner (length l) l b 0 (length l) (length l))
    as (r & Hr & Hs); [lia..|].
  exists r. split; [exact Hr|]. destruct r as [i|i]; [done|].
  intros Hsort. apply Hs; [done| |].
  - intros j y Hj. lia.
  - intros j y Hj Hy. apply lookup_lt_Some in Hy. lia.
Qed.

(** [add_nomination] pushes at the end but searches as if the list were
    sorted: after nominating 2 and then 1, a nomination of 2 is accepted a
    second time. *)
Theorem add_nomination_duplicate (a b c : Balance) :
  let n := StakingNominators.new [Bond.mk 2%N a; Bond.mk 1%N b] (a +128 b) in
  (StakingNominators.add_nomination n (Bond.mk 2%N c)).1 = true /\
  Bond.owner <$> StakingNominators.nominations (StakingNominators.add_nomination n (Bond.mk 2%N c)).2
    = [2; 1; 2]%N.
Proof. done. Qed.

(** ** The ledgers *)

Lemma consolidate_active_fields c r :
  U.eqm 128 (StakingCollators.active (StakingCollators.consolidate_active c r)) (stake_at c r) /\
  StakingCollators.unlocking (StakingCollators.consolidate_active c r)
    = filter (fun ch => r < uc_round ch) (StakingCollators.unlocking c) /\
  StakingCollators.total (StakingCollators.consolidate_active c r) = StakingCollators.total c /\
  StakingCollators.unbonding (StakingCollators.consolidate_active c r)
    = StakingCollators.unbonding c /\
  StakingCollators.status (StakingCollators.consolidate_active c r) = StakingCollators.status c /\
  StakingCollators.nominations (StakingCollators.consolidate_active c r)
    = StakingCollators.nominations c.
Proof.
  unfold StakingCollators.consolidate_active, stake_at.
  pose proof (drain_unlocking_sum r (StakingCollators.active c) (StakingCollators.unlocking c)).
  pose proof (drain_unlocking_kept r (StakingCollators.active c) (StakingCollators.unlocking c)).
  by destruct (drain_unlocking r _ _); simpl in *; subst.
Qed.

Lemma consolidate_unbonded_fields c r :
  U.eqm 128 (StakingCollators.total (StakingCollators.consolidate_unbonded c r)) (locked_at c r) /\
  StakingCollators.unbonding (StakingCollators.consolidate_unbonded c r)
    = filter (fun ch => r < ub_round ch) (StakingCollators.unbonding c) /\
  StakingCollators.active (StakingCollators.consolidate_unbonded c r) = StakingCollators.active c /\
  StakingCollators.unlocking (StakingCollators.consolidate_unbonded c r)
    = StakingCollators.unlocking c /\
  StakingCollators.status (StakingCollators.consolidate_unbonded c r) = StakingCollators.status c /\
  StakingCollators.nominations (StakingCollators.consolidate_unbonded c r)
    = StakingCollators.nominations c.
Proof.
  unfold StakingCollators.consolidate_unbonded, locked_at.
  pose proof (drain_unbonding_sum r (StakingCollators.total c) (StakingCollators.unbonding c)).
  pose proof (drain_unbonding_kept r (StakingCollators.total c) (StakingCollators.unbonding c)).
  by destruct (drain_unbonding r _ _); simpl in *; subst.
Qed.

Lemma active_is_active c : StakingCollators.is_active c = true <-> StakingCollators.status c = Active.
Proof. unfold StakingCollators.is_active. apply bool_decide_eq_true. Qed.

Lemma set_nominations_wf c l :
  StakingCollators.status c = Active -> collator_wf c ->
  collator_wf (StakingCollators.set_nominations c l).
Proof. intros Ha [Hb Ht Hact _]. split; simpl; auto. Qed.

Lemma new_wf amount r : U.ok 128 amount -> collator_wf (StakingCollators.new amount r).
Proof.
  intros H. split; simpl; try done.
  - apply eqm_eq. unfold unlocking_sum, unbonding_sum. simpl. lia.
  - right. repeat split.
Qed.

Lemma active_onboard_wf c : collator_wf c -> collator_wf (StakingCollators.active_onboard c).
Proof.
  intros [Hb Ht Ha Hs]. unfold StakingCollators.active_onboard.
  case_decide; [|by split]. split; simpl; auto.
Qed.

Lemma active_onboard_active c :
  collator_wf c -> StakingCollators.status (StakingCollators.active_onboard c) = Active.
Proof.
  intros [_ _ _ Hs]. unfold StakingCollators.active_onboard, collator_fresh in *.
  case_decide; [done|]. tauto.
Qed.

Lemma bond_extra_wf c e r :
  StakingCollators.status c = Active -> collator_wf c ->
  collator_wf (StakingCollators.bond_extra c e r).
Proof.
  intros Hact [Hb Ht Ha Hs]. split; simpl; auto.
  - unfold collator_balanced in *; simpl. rewrite eqm_u_add, Hb.
    unfold unlocking_sum. rewrite sumZ_app. apply eqm_eq. simpl. lia.
  - apply add_ok. lia.
Qed.

Lemma bond_less_wf c l r :
  StakingCollators.status c = Active -> collator_wf c ->
  collator_wf (StakingCollators.bond_less c l r).2.
Proof.
  intros Hact [Hb Ht Ha Hs]. unfold StakingCollators.bond_less.
  destruct (l <? _) eqn:Hl; [|by split]. split; simpl; auto.
  - unfold collator_balanced in *; simpl. rewrite eqm_u_sub, Hb.
    unfold unbonding_sum. rewrite sumZ_app. apply eqm_eq. simpl. lia.
  - apply sub_ok. lia.
Qed.

Lemma consolidate_active_wf c r :
  StakingCollators.status c = Active -> collator_wf c ->
  collator_wf (StakingCollators.consolidate_active c r).
Proof.
  intros Hact [Hb Ht Ha Hs].
  destruct (consolidate_active_fields c r) as (E1 & E2 & E3 & E4 & E5 & E6).
  split; unfold collator_balanced in *.
  - rewrite E3, Hb, E1, E2, E4, (unlocking_split r (StakingCollators.unlocking c)).
    apply eqm_eq. unfold stake_at. lia.
  - by rewrite E3.
  - unfold StakingCollators.consolidate_active.
    pose proof (drain_unlocking_ok r _ (StakingCollators.unlocking c) Ha).
    by destruct (drain_unlocking r _ _).
  - rewrite E5. auto.
Qed.

Lemma consolidate_unbonded_wf c r :
  collator_wf c -> collator_wf (StakingCollators.consolidate_unbonded c r).
Proof.
  intros [Hb Ht Ha Hs].
  destruct (consolidate_unbonded_fields c r) as (E1 & E2 & E3 & E4 & E5 & E6).
  split; unfold collator_balanced, collator_fresh in *.
  - rewrite E1, E2, E3, E4. unfold locked_at. rewrite Hb.
    rewrite (unbonding_split r (StakingCollators.unbonding c)). apply eqm_eq. lia.
  - unfold StakingCollators.consolidate_unbonded.
    pose proof (drain_unbonding_ok r _ (StakingCollators.unbonding c) Ht).
    by destruct (drain_unbonding r _ _).
  - by rewrite E3.
  - rewrite E2, E3, E5, E6. destruct Hs as [Hs|(-> & -> & -> & ->)]; auto.
Qed.

Lemma force_bond_wf c :
  StakingCollators.is_active c = false -> collator_wf c ->
  collator_wf (StakingCollators.force_bond c).
Proof.
  intros Hn [Hb Ht Ha Hs].
  destruct Hs as [Hs|(Hst & Hz & Hu & Hnom)]; [by apply active_is_active in Hs; congruence|].
  split; simpl; auto. unfold collator_balanced; simpl. rewrite Hu.
  apply eqm_eq. unfold unlocking_sum, unbonding_sum. simpl. lia.
Qed.

Lemma rm_nomination_wf c who :
  collator_wf c -> collator_wf (StakingCollators.rm_nomination c who).2.
Proof.
  intros H. unfold StakingCollators.rm_nomination.
  pose proof (bonds_remove_kept None (StakingCollators.nominations c) who) as Hk.
  destruct (bonds_remove None _ who) as [[x|] l]; simpl in *; [|done].
  destruct H as [Hb Ht Ha [Hs|(H1 & H2 & H3 & H4)]]; split; simpl; auto.
  right. rewrite H4 in Hk. simpl in Hk. by repeat split.
Qed.

Create HintDb staking_wf.
#[export] Hint Resolve active_onboard_wf bond_extra_wf bond_less_wf consolidate_active_wf
  consolidate_unbonded_wf force_bond_wf rm_nomination_wf set_nominations_wf new_wf : staking_wf.

(** Every operation of a collator keeps the ledger equation
    [total = active + unlocking + unbonding] (as 128-bit integers), the range
    of its balances, and that a collator not yet active has bonded and done
    nothing else. *)
Theorem collator_step_wf c c' : collator_step c c' -> collator_wf c -> collator_wf c'.
Proof.
  intros Hstep Hwf.
  destruct Hstep; try (rewrite active_is_active in *); auto with staking_wf.
  - unfold StakingCollators.add_nomination. case_match; simpl; auto with staking_wf.
  - unfold StakingCollators.nominate_extra. repeat case_match; simpl; auto with staking_wf.
  - unfold StakingCollators.nominate_less. repeat case_match; simpl; auto with staking_wf.
Qed.

Lemma collator_step_wf_witness :
  let c := StakingCollators.mk 1000 850 [] [] [mkUnBondChunk 150 4] Active [] in
  collator_wf (StakingCollators.consolidate_unbonded c 4).
Proof.
  intros c. apply (collator_step_wf c _ (cs_consolidate_unbonded c 4)).
  split; simpl; [reflexivity | unfold U.ok; lia | unfold U.ok; lia | by left].
Defined.

Lemma nominator_new_balanced l amount :
  U.eqm 128 amount (bonds_sum l) -> nominator_balanced (StakingNominators.new l amount).
Proof.
  unfold nominator_balanced. simpl. intros ->. apply eqm_eq. unfold unbonding_sum. simpl. lia.
Qed.

(** Every operation of a nominator keeps the ledger equation
    [total = nominations + unbonding] (as 128-bit integers), as long as a
    removed candidate is backed by at most one bond. *)
Theorem nominator_step_balanced n n' :
  nominator_step n n' -> nominator_balanced n -> nominator_balanced n'.
Proof.
  unfold nominator_balanced, unbonding_sum.
  intros Hstep Hb. destruct Hstep as [n b|n b|n b r|n r|n who r Hone].
  - unfold StakingNominators.add_nomination. case_match; simpl; [done|].
    rewrite eqm_u_add, Hb. unfold bonds_sum. rewrite sumZ_app. apply eqm_eq. simpl. lia.
  - unfold StakingNominators.nominate_extra.
    destruct (bonds_extra _ b) as [[a l]|] eqn:He; simpl; [|done].
    apply bonds_extra_spec in He as [_ He]. rewrite eqm_u_add, Hb, He. apply eqm_eq. lia.
  - unfold StakingNominators.nominate_less.
    destruct (bonds_less _ b) as [[[a l]|]|] eqn:He; simpl; [|done..].
    apply bonds_less_spec in He as [_ He]. rewrite Hb, He, sumZ_app. apply eqm_eq. simpl. lia.
  - unfold StakingNominators.consolidate_unbonded.
    pose proof (drain_unbonding_sum r (StakingNominators.total n) (StakingNominators.unbonding n)).
    pose proof (drain_unbonding_kept r (StakingNominators.total n) (StakingNominators.unbonding n)).
    destruct (drain_unbonding r _ _); simpl in *; subst.
    pose proof (unbonding_split r (StakingNominators.unbonding n)) as Hsp.
    unfold unbonding_sum in *. rewrite H, Hb, Hsp. apply eqm_eq. lia.
  - unfold StakingNominators.rm_nomination.
    pose proof (bonds_remove_kept None (StakingNominators.nominations n) who) as Hk.
    pose proof (bonds_remove_sum (StakingNominators.nominations n) who Hone) as Hs.
    destruct (bonds_remove None _ who) as [[x|] l]; simpl in *; [|done]. subst l.
    rewrite Hb, Hs, sumZ_app. apply eqm_eq. simpl. lia.
Qed.

Lemma nominator_step_balanced_witness :
  let n := StakingNominators.new [Bond.mk 100%N 500; Bond.mk 200%N 500] 1000 in
  nominator_balanced (StakingNominators.rm_nomination n 100%N 4).2.
Proof.
  intros n. apply (nominator_step_balanced n _ (ns_rm n 100%N 4 ltac:(simpl; lia))).
  reflexivity.
Defined.

(** With a duplicated bond, leaving a collator loses money: both bonds of
    the candidate are dropped, only the last one is scheduled for unbonding,
    and the equation [total = nominations + unbonding] breaks. *)
Theorem rm_nomination_duplicate_loses :
  let n := StakingNominators.mk [Bond.mk 2%N 100; Bond.mk 1%N 100; Bond.mk 2%N 100] 300 [] [] in
  nominator_balanced n /\
  ~ nominator_balanced (StakingNominators.rm_nomination n 2%N 4).2.
Proof. split; [reflexivity|]. vm_compute. discriminate. Qed.

(** Consolidation of a round is exact and lossless: the active stake
    becomes what was active or due, exactly the later chunks stay, and the
    stake of every later round is unchanged. *)
Theorem consolidate_active_spec c r r' :
  r <= r' ->
  let c' := StakingCollators.consolidate_active c r in
  U.eqm 128 (StakingCollators.active c') (stake_at c r) /\
  Forall (fun ch => r < uc_round ch) (StakingCollators.unlocking c') /\
  U.eqm 128 (stake_at c' r') (stake_at c r').
Proof.
  intros Hr c'. destruct (consolidate_active_fields c r) as (E1 & E2 & _).
  split_and!; [done| |].
  - unfold c'. rewrite E2. apply Forall_forall. intros x Hx. by apply list_elem_of_filter in Hx as [? _].
  - unfold stake_at. unfold c'. rewrite E1, E2. unfold stake_at.
    rewrite (due_unlocking_later r r' (StakingCollators.unlocking c)) by done. unfold due_unlocking. apply eqm_eq. lia.
Qed.

Lemma consolidate_active_spec_witness :
  let c := StakingCollators.mk 800 500 [] [mkUnlockChunk 300 3] [] Active [] in
  1 <= 5 /\ U.eqm 128 (stake_at (StakingCollators.consolidate_active c 1) 5) (stake_at c 5).
Proof. split; [lia|]. apply (consolidate_active_spec _ 1 5). lia. Defined.

(** The round counter: a round ends exactly when [length] blocks have
    passed since it started, and the new round starts now, one index higher. *)
Theorem round_advances r now len :
  U.ok 32 (RoundInfo.index r) -> U.ok 32 (RoundInfo.start_in r) ->
  RoundInfo.start_in r <= now < 2 ^ 32 ->
  (RoundInfo.should_goto_next_round r now = true <->
     RoundInfo.start_in r + RoundInfo.length r <= now) /\
  RoundInfo.start_in (RoundInfo.update r now len) = now /\
  RoundInfo.length (RoundInfo.update r now len) = len /\
  RoundInfo.index (RoundInfo.update r now len) = RoundInfo.next_round_index r /\
  (RoundInfo.index r < 2 ^ 32 - 1 ->
     RoundInfo.next_round_index r = RoundInfo.index r + 1).
Proof.
  unfold U.ok. intros Hi Hs Hn. unfold RoundInfo.should_goto_next_round, RoundInfo.next_round_index.
  rewrite sub_exact by lia. rewrite Z.leb_le. split_and!; try done; [lia|].
  intros. apply add_exact. lia.
Qed.

Lemma round_advances_witness :
  RoundInfo.should_goto_next_round (RoundInfo.mk 1 0 10) 10 = true /\
  (RoundInfo.should_goto_next_round (RoundInfo.mk 1 0 10) 10 = true <-> 0 + 10 <= 10).
Proof.
  split; [reflexivity|].
  apply (round_advances (RoundInfo.mk 1 0 10) 10 10); unfold U.ok; simpl; lia.
Defined.
