(* ===== verification/Primitives.v ===== *)
(** * Primitive types, precompiled contracts, account addresses

    [primitives/src/lib.rs], [runtime/precompiles/src/lib.rs] and
    [runtime/*/src/multiaddress.rs], a copy of [sp_runtime::MultiAddress] that
    the three runtimes keep and do not include. *)
From Stdlib Require Import Strings.Byte.
From S2P Require Import Prelude StakingTypes.

(** ** Primitive types

    Unsigned integers all, [Moment] in milliseconds. *)
Inductive Primitive := PBlockNumber | PMoment | PAccountIndex | PChainId | PIndex | PNonce | PBalance.
(** The widths the source declares. *)
Definition width (p : Primitive) : Z :=
  match p with PMoment => 64 | PBalance => 128 | _ => 32 end.

(** What the comments say of the widths: block numbers last for 136 years of one
    block a second; 10^18 units growing by half for 51 years stay below 10^27,
    and such a total may be multiplied with any 32-bit number. *)
Theorem width_headroom :
  136 * 365 * 24 * 60 * 60 < 2 ^ width PBlockNumber /\
  10 ^ 18 * 3 ^ 51 <= 10 ^ 27 * 2 ^ 51 /\
  (forall total n, 0 <= total <= 10 ^ 27 -> U.ok (width PIndex) n -> U.ok (width PBalance) (total * n)).
Proof.
  split_and!; [by vm_compute | apply Z.leb_le; by vm_compute |].
  unfold U.ok, width. intros total n Ht Hn. split; [nia|].
  apply Z.le_lt_trans with (10 ^ 27 * 2 ^ 32); [nia | by vm_compute].
Qed.

(** ** [PolkafoundryPrecompiles] *)

Inductive Precompile := ECRecover | Sha256 | Ripemd160 | Identity | Modexp | Dispatch.
Definition PolkafoundryPrecompiles : list Precompile :=
  [ECRecover; Sha256; Ripemd160; Identity; Modexp; Dispatch].

(** The contract behind an address: a tuple of precompiles serves the addresses
    from 1 on, in order. *)
Definition precompile_at (address : N) : option Precompile :=
  if (address =? 0)%N then None else PolkafoundryPrecompiles !! N.to_nat (address - 1).

(** The contracts Ethereum has at its first addresses. *)
Inductive EthereumContract := Shared (p : Precompile) | AltBn128Add.
Definition ethereum_contracts : list EthereumContract :=
  [Shared ECRecover; Shared Sha256; Shared Ripemd160; Shared Identity; Shared Modexp; AltBn128Add].

(** The addresses 1 to 6 are precompiled and no other; the first five are
    Ethereum's, the sixth dispatches runtime calls where Ethereum adds points of
    a curve. *)
Theorem precompile_addresses address :
  (is_Some (precompile_at address) <-> (1 <= address <= 6)%N) /\
  ((1 <= address <= 5)%N ->
     Shared <$> precompile_at address = ethereum_contracts !! N.to_nat (address - 1)) /\
  precompile_at 6 = Some Dispatch /\ ethereum_contracts !! 5%nat = Some AltBn128Add.
Proof.
  unfold precompile_at. split_and!; [|intros Ha|done..].
  - destruct (N.eqb_spec address 0) as [->|Hn]; [split; [by intros [? ?] | lia]|].
    rewrite lookup_lt_is_Some. simpl. lia.
  - rewrite (proj2 (N.eqb_neq address 0)) by lia.
    assert (address = 1 \/ address = 2 \/ address = 3 \/ address = 4 \/ address = 5)%N as Hc by lia.
    destruct_or?; by subst.
Qed.

(** ** [MultiAddress] *)

Module MultiAddress.
Section MultiAddress.
Context {AccountId AccountIndex : Type}.

Inductive t :=
  | Id (a : AccountId)
  | Index (i : AccountIndex)
  | Raw (bytes : list byte)
  | Address32 (bytes : list byte)
  | Address20 (bytes : list byte).

(** [impl Display]: [HexDisplay] and the derived [Debug] are arguments. *)
Definition fmt (hex : list byte -> string) (debug : t -> string) (self : t) : string :=
  (match self with
   | Raw inner => "MultiAddress::Raw(" +:+ hex inner +:+ ")"
   | Address32 inner => "MultiAddress::Address32(" +:+ hex inner +:+ ")"
   | Address20 inner => "MultiAddress::Address20(" +:+ hex inner +:+ ")"
   | _ => debug self
   end)%string.

(** [impl From<AccountId>] and [impl Default] *)
Definition from (a : AccountId) : t := Id a.
Definition default (d : AccountId) : t := Id d.

(** [impl StaticLookup for AccountIdLookup]: [None] is [Err(LookupError)]. *)
Definition lookup (x : t) : option AccountId := match x with Id i => Some i | _ => None end.
Definition unlookup (x : AccountId) : t := Id x.

(** An address is looked up exactly if it is an account id: what [unlookup] and
    [from] make of an account comes back, and nothing else leads to it. *)
Theorem lookup_roundtrip (x : t) a : lookup x = Some a <-> x = unlookup a /\ x = from a.
Proof. unfold unlookup, from. destruct x; simpl; naive_solver. Qed.
End MultiAddress.
Arguments t : clear implicits.
End MultiAddress.
