(* ===== verification/Externals.v ===== *)
(** * Interfaces to the code outside the repository

    The pallets call [frame_support] (currencies, storage maps),
    [sp_arithmetic] ([PerThing], [BigUint]) and an election provider.  Each is
    a class of operations; the laws are the documented behaviour the theorems
    use.  The instances at the end of the file are concrete ledgers and numbers
    on which the witnesses evaluate. *)
From S2P Require Import Prelude StakingTypes.

(** ** [frame_support::traits::{Currency, ReservableCurrency}] *)

Class Currency (L : Type) := {
  minimum_balance : Z;
  total_issuance : L -> Z;
  free_balance : L -> AccountId -> Z;
  (** [Some (amount, l)]: [Ok(imbalance)] with [imbalance.peek() = amount]. *)
  deposit_into_existing : AccountId -> Z -> L -> option (Z * L);
  (** [transfer(.., AllowDeath)] *)
  transfer : AccountId -> AccountId -> Z -> L -> option L;
}.

Class ReservableCurrency (L : Type) := {
  reserved_balance : L -> AccountId -> Z;
  reserve : AccountId -> Z -> L -> option L;
  unreserve : AccountId -> Z -> L -> L;
}.

Class CurrencyLaws (L : Type) `{!Currency L} : Prop := {
  minimum_balance_nonneg : 0 <= minimum_balance;
  (** The issuance is a [u128]. *)
  total_issuance_range l : U.ok 128 (total_issuance l);
  free_balance_nonneg l a : 0 <= free_balance l a;
  transfer_enough src dst v l l' :
    transfer src dst v l = Some l' -> src <> dst -> v <= free_balance l src;
  transfer_receives src dst v l l' :
    transfer src dst v l = Some l' -> src <> dst ->
    free_balance l' dst = free_balance l dst + v;
  (** With [AllowDeath] what is left below the minimum may be removed too. *)
  transfer_sends src dst v l l' :
    transfer src dst v l = Some l' -> src <> dst ->
    free_balance l' src <= free_balance l src - v;
  (** An account that goes below the minimum is removed with what is left. *)
  transfer_reaps src dst v l l' :
    transfer src dst v l = Some l' -> src <> dst ->
    free_balance l' src = free_balance l src - v \/
    free_balance l' src = 0 /\ free_balance l src - v < minimum_balance;
  transfer_others src dst v l l' a :
    transfer src dst v l = Some l' -> a <> src -> a <> dst ->
    free_balance l' a = free_balance l a;
  deposit_amount to v l i l' : deposit_into_existing to v l = Some (i, l') -> i = v;
}.

Class ReservableLaws (L : Type) `{!Currency L, !ReservableCurrency L} : Prop := {
  reserved_balance_nonneg l a : 0 <= reserved_balance l a;
  (** "If the free balance is lower than [value], then no funds will be moved
      and an [Err] returned." *)
  reserve_fails who v l : free_balance l who < v -> reserve who v l = None;
  reserve_moves who v l l' :
    reserve who v l = Some l' ->
    free_balance l' who = free_balance l who - v /\
    reserved_balance l' who = reserved_balance l who + v;
  reserve_others who v l l' a :
    reserve who v l = Some l' -> a <> who -> reserved_balance l' a = reserved_balance l a;
  (** "As much funds up to [value] will be moved as possible." *)
  unreserve_moves who v l :
    0 <= v ->
    reserved_balance (unreserve who v l) who
      = reserved_balance l who - Z.min v (reserved_balance l who);
  unreserve_others who v l a :
    a <> who -> reserved_balance (unreserve who v l) a = reserved_balance l a;
  (** Reserving and unreserving moves an account's money between its two
      balances. *)
  reserve_keeps who v l l' a :
    reserve who v l = Some l' ->
    free_balance l' a + reserved_balance l' a = free_balance l a + reserved_balance l a;
  unreserve_keeps who v l a :
    free_balance (unreserve who v l) a + reserved_balance (unreserve who v l) a
      = free_balance l a + reserved_balance l a;
  deposit_pays to v l i l' a :
    deposit_into_existing to v l = Some (i, l') ->
    reserved_balance l' a = reserved_balance l a /\
    free_balance l' a = free_balance l a + if decide (a = to) then i else 0;
  (** "If [who] doesn't exist, nothing is done and an [Err] returned": an
      account that holds money exists, and its balance is a [u128]. *)
  deposit_succeeds to v l :
    0 <= v -> 0 < free_balance l to + reserved_balance l to ->
    free_balance l to + v < 2 ^ 128 -> is_Some (deposit_into_existing to v l);
}.

(** ** Storage maps

    [StorageMap::iter] enumerates the entries "in no particular order", each
    once; the order is the one of the hashed keys. *)
Class StorageIter := {
  storage_iter : forall {V : Type}, gmap AccountId V -> list (AccountId * V);
  storage_iter_perm : forall {V : Type} (m : gmap AccountId V), storage_iter m ≡ₚ map_to_list m;
}.

Lemma storage_iter_lookup `{StorageIter} {V} (m : gmap AccountId V) :
  NoDup (storage_iter m).*1 /\ list_to_map (storage_iter m) = m.
Proof.
  assert (NoDup (storage_iter m).*1) as Hd.
  { rewrite storage_iter_perm. apply NoDup_fst_map_to_list. }
  split; [done|]. rewrite (list_to_map_proper _ _ Hd (storage_iter_perm m)).
  apply list_to_map_to_list.
Qed.

Lemma elem_of_storage_iter `{StorageIter} {V} (m : gmap AccountId V) k v :
  (k, v) ∈ storage_iter m <-> m !! k = Some v.
Proof. rewrite storage_iter_perm. apply elem_of_map_to_list. Qed.

(** A loop over a storage map whose iteration for [k] changes only what
    belongs to [k]. *)
Lemma storage_loop `{StorageIter} {S V Q} (q : AccountId -> S -> Q)
    (h : AccountId -> V -> Q -> Q) (f : S -> AccountId * V -> S) (m : gmap AccountId V) s k :
  (forall s' k v, q k (f s' (k, v)) = h k v (q k s')) ->
  (forall s' k k' v, k <> k' -> q k (f s' (k', v)) = q k s') ->
  q k (foldl f s (storage_iter m)) =
    match m !! k with Some v => h k v (q k s) | None => q k s end.
Proof.
  intros Heq Hne. destruct (storage_iter_lookup m) as [Hd Hm].
  rewrite (foldl_keyed q h f _ s k Hd Heq Hne). by rewrite Hm.
Qed.

(** ** [sp_arithmetic::PerThing] *)

Class PerThing (P : Type) := {
  ACCURACY : Z;
  deconstruct : P -> Z;
  from_parts : Z -> P;
  from_percent : Z -> P;
  from_rational : Z -> Z -> P;
  pt_zero : P;
  pt_saturating_add : P -> P -> P;
  pt_saturating_sub : P -> P -> P;
  (** [P * P] *)
  pt_mul : P -> P -> P;
  (** [P / P] *)
  pt_div : P -> P -> P;
  (** [P * N] for a balance [N] *)
  pt_mul_balance : P -> Z -> Z;
}.

Class PerThingLaws (P : Type) `{!PerThing P} : Prop := {
  accuracy_range : 100 <= ACCURACY < 2 ^ 64;
  deconstruct_range p : 0 <= deconstruct p <= ACCURACY;
  (** "Build this type from a number of parts per thing", saturating. *)
  from_parts_deconstruct x : 0 <= x -> deconstruct (from_parts x) = Z.min x ACCURACY;
  pt_zero_deconstruct : deconstruct pt_zero = 0;
  from_percent_deconstruct x :
    0 <= x <= 100 -> deconstruct (from_percent x) = x * ACCURACY / 100;
  (** Exact, rounded down, while [q] fits the parts. *)
  from_rational_deconstruct p q :
    0 <= p <= q -> 0 < q <= ACCURACY -> deconstruct (from_rational p q) = p * ACCURACY / q;
  (** "Note that this always rounds _down_": a [q] that does not fit the parts
      is first scaled until it does, which costs at most one part in
      [ACCURACY - 1] of the quotient.  "[q] cannot be zero": zero counts as one. *)
  from_rational_down p q :
    0 <= p <= Z.max q 1 ->
    deconstruct (from_rational p q) * Z.max q 1 * (ACCURACY - 1) <= p * ACCURACY * ACCURACY;
  (** The scaling and the division each cost less than one part. *)
  from_rational_near p q :
    0 <= p <= Z.max q 1 -> p * ACCURACY <= (deconstruct (from_rational p q) + 2) * Z.max q 1;
  (** The product of two fractions is rounded down. *)
  pt_mul_down p q : deconstruct (pt_mul p q) * ACCURACY <= deconstruct p * deconstruct q;
  pt_mul_le_l p q : deconstruct (pt_mul p q) <= deconstruct p;
  pt_mul_le_r p q : deconstruct (pt_mul p q) <= deconstruct q;
  pt_saturating_add_deconstruct p q :
    deconstruct (pt_saturating_add p q) = Z.min (deconstruct p + deconstruct q) ACCURACY;
  pt_saturating_sub_deconstruct p q :
    deconstruct (pt_saturating_sub p q) = Z.max (deconstruct p - deconstruct q) 0;
  (** "The standard [Mul] rounds to the nearest whole number." *)
  pt_mul_balance_nearest p n :
    0 <= n -> Z.abs (ACCURACY * pt_mul_balance p n - deconstruct p * n) * 2 <= ACCURACY;
}.

(** ** [sp_arithmetic::biguint::BigUint], limbs of 32 bits *)

Class BigUint (B : Type) := {
  big_from : Z -> B;
  big_zero : B;
  big_len : B -> nat;
  big_lstrip : B -> B;
  (** [checked_get(i)] *)
  big_checked_get : B -> nat -> option Z;
  big_add : B -> B -> B;
  (** [Ok] is [inl], [Err] is [inr] *)
  big_sub : B -> B -> B + B;
  big_mul : B -> B -> B;
  big_div_unit : B -> Z -> B;
  (** [div(other, false)], quotient and remainder *)
  big_div : B -> B -> option (B * B);
  big_is_zero : B -> bool;
  (** [self >= other] *)
  big_ge : B -> B -> bool;
  (** [u128::try_from] *)
  big_to_u128 : B -> option Z;
}.

(** The number of 32-bit limbs of a number without leading zeros. *)
Definition nlimbs (v : Z) : nat := if decide (v = 0) then 1 else Z.to_nat (Z.log2 v / 32 + 1).

Class BigUintLaws (B : Type) `{!BigUint B} := {
  big_val : B -> Z;
  big_val_nonneg b : 0 <= big_val b;
  big_from_val x : 0 <= x < 2 ^ 128 -> big_val (big_from x) = x;
  big_zero_val : big_val big_zero = 0;
  big_lstrip_val b : big_val (big_lstrip b) = big_val b;
  (** "Strip zeros from the left side (the most significant limbs)." *)
  big_lstrip_len b : big_len b <> 0%nat -> big_len (big_lstrip b) = nlimbs (big_val b);
  (** "There is nothing to strip if the number already has 1 limb or less." *)
  big_lstrip_empty b : big_len b = 0%nat -> big_len (big_lstrip b) = 0%nat;
  big_len_bound b : big_val b < 2 ^ (32 * Z.of_nat (big_len b));
  big_get_single b : big_len b = 1%nat -> big_checked_get b 0 = Some (big_val b);
  big_add_val a b : big_val (big_add a b) = big_val a + big_val b;
  big_sub_val a b :
    big_val b <= big_val a -> exists c, big_sub a b = inl c /\ big_val c = big_val a - big_val b;
  big_mul_val a b : big_val (big_mul a b) = big_val a * big_val b;
  (** "The product has [n + m] limbs." *)
  big_mul_len a b : big_len (big_mul a b) = (big_len a + big_len b)%nat;
  big_from_len x : big_len (big_from x) <> 0%nat;
  big_div_unit_val a x : 0 < x < 2 ^ 32 -> big_val (big_div_unit a x) = big_val a / x;
  big_div_val a b :
    (1 < big_len b)%nat -> (big_len b < big_len a)%nat ->
    big_len a = nlimbs (big_val a) -> big_len b = nlimbs (big_val b) ->
    exists q r, big_div a b = Some (q, r) /\ big_val q = big_val a / big_val b;
  big_is_zero_val a : big_is_zero a = bool_decide (big_val a = 0);
  big_ge_val a b : big_ge a b = bool_decide (big_val b <= big_val a);
  (** [try_from] strips its argument first. *)
  big_to_u128_val a :
    big_to_u128 a = if decide (big_val a < 2 ^ 128) then Some (big_val a) else None;
}.

(** ** Elections *)

(** [frame_election_provider_support::Support] *)
Record Support := mkSupport {
  support_total : Z;
  support_voters : list (AccountId * Z);
}.
Definition Supports : Type := list (AccountId * Support).
Definition Voter : Type := AccountId * Z * list AccountId.
Definition Weight : Type := Z.

(** [frame_election_provider_support::ElectionDataProvider] *)
Record ElectionDataProvider := mkElectionDataProvider {
  edp_targets : option Z -> string + (list AccountId * Weight);
  edp_voters : option Z -> string + (list Voter * Weight);
  edp_desired_targets : string + (Z * Weight);
  edp_next_election_prediction : BlockNumber -> BlockNumber;
}.

(** ** Reference instances *)

(** A ledger of free and reserved balances. *)
Record Ledger := mkLedger {
  ledger_free : gmap AccountId N;
  ledger_reserved : gmap AccountId N;
  ledger_issuance : Z;
}.

Definition lget (m : gmap AccountId N) (a : AccountId) : Z := Z.of_N (default 0%N (m !! a)).
Definition lset (a : AccountId) (v : Z) (m : gmap AccountId N) : gmap AccountId N :=
  <[a := Z.to_N v]> m.

(** Over an existential deposit. *)
Definition ledger_currency (existential_deposit : Z) : Currency Ledger := {|
  minimum_balance := existential_deposit;
  total_issuance l := Z.max 0 (Z.min (ledger_issuance l) (U.max 128));
  free_balance l a := lget (ledger_free l) a;
  deposit_into_existing to v l :=
    if decide ((is_Some (ledger_free l !! to) \/ 0 < lget (ledger_reserved l) to) /\ 0 <= v) then
      Some (v, mkLedger (lset to (lget (ledger_free l) to + v) (ledger_free l))
                        (ledger_reserved l) (ledger_issuance l + v))
    else None;
  transfer src dst v l :=
    if decide (src = dst) then Some l
    else if decide (0 <= v <= lget (ledger_free l) src) then
      Some (mkLedger (lset dst (lget (ledger_free l) dst + v)
                       (lset src (lget (ledger_free l) src - v) (ledger_free l)))
                     (ledger_reserved l) (ledger_issuance l))
    else None;
|}.
#[export] Instance Ledger_Currency : Currency Ledger := ledger_currency 1.

#[export] Instance Ledger_Reservable : ReservableCurrency Ledger := {|
  reserved_balance l a := lget (ledger_reserved l) a;
  reserve who v l :=
    if decide (0 <= v <= lget (ledger_free l) who) then
      Some (mkLedger (lset who (lget (ledger_free l) who - v) (ledger_free l))
                     (lset who (lget (ledger_reserved l) who + v) (ledger_reserved l))
                     (ledger_issuance l))
    else None;
  unreserve who v l :=
    let moved := Z.max 0 (Z.min v (lget (ledger_reserved l) who)) in
    mkLedger (lset who (lget (ledger_free l) who + moved) (ledger_free l))
             (lset who (lget (ledger_reserved l) who - moved) (ledger_reserved l))
             (ledger_issuance l);
|}.

#[export] Instance map_order_iter : StorageIter := {|
  storage_iter V m := map_to_list m;
  storage_iter_perm V m := reflexivity (map_to_list m);
|}.

Definition div_ceil (x f : Z) : Z := if decide (0 < x mod f) then x / f + 1 else x / f.

(** The parts of [p / q], for [0 <= p <= q] and [q >= 1].  Both are first divided
    by a common factor, rounding down, so that [q] fits the parts; the factor is
    one for a [q] that fits already. *)
Definition scaled_parts (acc p q : Z) : Z :=
  let factor := Z.max (div_ceil q acc) 1 in p / factor * acc / (q / factor).

(** Parts per [acc], as the rounding rules above describe them. *)
Definition parts_instance (acc : Z) : PerThing Z := {|
  ACCURACY := acc;
  deconstruct p := Z.max 0 (Z.min p acc);
  from_parts x := Z.min x acc;
  from_percent x := Z.min (x * acc / 100) acc;
  from_rational p q := let q := Z.max q 1 in let p := Z.min p q in scaled_parts acc p q;
  pt_zero := 0;
  pt_saturating_add p q := Z.min (Z.max 0 (Z.min p acc) + Z.max 0 (Z.min q acc)) acc;
  pt_saturating_sub p q := Z.max (Z.max 0 (Z.min p acc) - Z.max 0 (Z.min q acc)) 0;
  pt_mul p q := Z.max 0 (Z.min p acc) * Z.max 0 (Z.min q acc) / acc;
  pt_div p q := let q := Z.max (Z.min q acc) 1 in Z.max 0 (Z.min p q) * acc / q;
  pt_mul_balance p n := (2 * (Z.max 0 (Z.min p acc) * n) + (acc - 1)) / (2 * acc);
|}.

(** [Perbill] *)
#[export] Instance Perbill_parts : PerThing Z := parts_instance 1000000000.

(** A number and how many leading zero limbs it carries. *)
Record Limbs := mkLimbs { limbs_val : N; limbs_pad : nat }.

Definition limbs_len (b : Limbs) : nat := (nlimbs (Z.of_N (limbs_val b)) + limbs_pad b)%nat.
(** The number [v] in [n] limbs. *)
Definition limbs_of (v : N) (n : nat) : Limbs := mkLimbs v (n - nlimbs (Z.of_N v)).

#[export] Instance Limbs_BigUint : BigUint Limbs := {|
  big_from x := limbs_of (Z.to_N x) 4;
  big_zero := mkLimbs 0 0;
  big_len := limbs_len;
  big_lstrip b := mkLimbs (limbs_val b) 0;
  big_checked_get b i :=
    if decide (limbs_len b = 1%nat /\ i = 0%nat) then Some (Z.of_N (limbs_val b)) else None;
  big_add a b := limbs_of (limbs_val a + limbs_val b) (S (Nat.max (limbs_len a) (limbs_len b)));
  big_sub a b := if decide (limbs_val b <= limbs_val a)%N
                 then inl (limbs_of (limbs_val a - limbs_val b) (limbs_len a)) else inr a;
  big_mul a b := limbs_of (limbs_val a * limbs_val b) (limbs_len a + limbs_len b);
  big_div_unit a x := limbs_of (limbs_val a / Z.to_N x) (limbs_len a);
  big_div a b :=
    if decide (1 < limbs_len b /\ limbs_len b < limbs_len a)%nat
    then Some (limbs_of (limbs_val a / limbs_val b) (limbs_len a), mkLimbs 0 0) else None;
  big_is_zero a := bool_decide (limbs_val a = 0%N);
  big_ge a b := bool_decide (limbs_val b <= limbs_val a)%N;
  big_to_u128 a :=
    if decide (Z.of_N (limbs_val a) < 2 ^ 128) then Some (Z.of_N (limbs_val a)) else None;
|}.

(** ** The reference instances obey the laws *)

Lemma lget_lset_eq a v m : 0 <= v -> lget (lset a v m) a = v.
Proof. intros. unfold lget, lset. rewrite lookup_insert_eq. simpl. lia. Qed.
Lemma lget_lset_ne a b v m : a <> b -> lget (lset a v m) b = lget m b.
Proof. intros. unfold lget, lset. by rewrite lookup_insert_ne. Qed.
Lemma lget_nonneg m a : 0 <= lget m a.
Proof. unfold lget. lia. Qed.

#[export] Instance Ledger_CurrencyLaws : CurrencyLaws Ledger.
Proof.
  split; simpl; intros; repeat case_decide; simplify_eq; simpl;
    pose proof lget_nonneg as Hn; auto; unfold U.ok, U.max; try lia.
  - rewrite lget_lset_eq; [done|]. specialize (Hn (ledger_free l) dst). lia.
  - rewrite lget_lset_ne, lget_lset_eq by (done || lia). lia.
  - left. rewrite lget_lset_ne, lget_lset_eq by (done || lia). lia.
  - by rewrite !lget_lset_ne.
Qed.

(** Two accounts' entries of a map updated at one of them. *)
Lemma lget_lset a b v m : 0 <= v -> lget (lset a v m) b = if decide (b = a) then v else lget m b.
Proof.
  intros Hv. case_decide as H; [subst; by apply lget_lset_eq | by apply lget_lset_ne].
Qed.

#[export] Instance Ledger_ReservableLaws : ReservableLaws Ledger.
Proof.
  pose proof lget_nonneg as Hn.
  split; simpl; intros; try (case_decide; simplify_eq; simpl); destruct_and?; auto; try lia;
    try pose proof (Hn (ledger_reserved l) who); try pose proof (Hn (ledger_free l) who);
    try pose proof (Hn (ledger_free l) to);
    rewrite ?lget_lset by lia; repeat case_decide; simplify_eq; try done; try lia.
  all: match goal with H : ~ (_ /\ _) |- _ => destruct H end.
  all: split; [|done]; unfold lget in *; destruct (ledger_free l !! to); [left; done | right; simpl in *; lia].
Qed.

Lemma clamp_range x acc : 0 <= acc -> 0 <= Z.max 0 (Z.min x acc) <= acc.
Proof. lia. Qed.

(** The common factor is the least one that makes [q] fit. *)
Lemma scale_factor acc q : 0 < acc -> 1 <= q ->
  1 <= Z.max (div_ceil q acc) 1 <= q /\
  (Z.max (div_ceil q acc) 1 - 1) * acc < q <= Z.max (div_ceil q acc) 1 * acc.
Proof.
  intros Ha Hq. unfold div_ceil. pose proof (Z.div_mod q acc ltac:(lia)).
  pose proof (Z.mod_pos_bound q acc Ha). pose proof (Z.div_pos q acc ltac:(lia) Ha).
  case_decide; nia.
Qed.

Lemma scaled_parts_fits acc p q : 0 < acc -> 1 <= q <= acc -> scaled_parts acc p q = p * acc / q.
Proof.
  intros Ha Hq. unfold scaled_parts. destruct (scale_factor acc q) as [Hf Hs]; [lia..|].
  replace (Z.max (div_ceil q acc) 1) with 1 by nia. by rewrite !Z.div_1_r.
Qed.

(** A part of one at most, at most one part in [acc - 1] too much, and less than
    two parts too little. *)
Lemma scaled_parts_spec acc p q : 1 < acc -> 1 <= q -> 0 <= p <= q ->
  let part := scaled_parts acc p q in
  0 <= part <= acc /\ part * q * (acc - 1) <= p * acc * acc /\ p * acc <= (part + 2) * q.
Proof.
  intros Ha Hq Hp. unfold scaled_parts. destruct (scale_factor acc q) as [Hf [Hl _]]; [lia..|].
  set (f := Z.max (div_ceil q acc) 1) in *. cbv zeta.
  pose proof (Z.div_mod p f ltac:(lia)) as Ep. pose proof (Z.mod_pos_bound p f ltac:(lia)).
  pose proof (Z.div_mod q f ltac:(lia)) as Eq. pose proof (Z.mod_pos_bound q f ltac:(lia)).
  pose proof (Z.div_le_mono p q f ltac:(lia) ltac:(lia)) as Hle.
  pose proof (Z.div_pos p f ltac:(lia) ltac:(lia)) as Hp0.
  pose proof (Z.div_le_mono f q f ltac:(lia) ltac:(lia)) as Hq1. rewrite Z.div_same in Hq1 by lia.
  set (p' := p / f) in *. set (q' := q / f) in *.
  pose proof (Z.div_mod (p' * acc) q' ltac:(lia)) as Ed.
  pose proof (Z.mod_pos_bound (p' * acc) q' ltac:(lia)) as Hr.
  assert (0 <= p' * acc / q' <= acc) as Hd
    by (split; [apply Z.div_pos; nia | apply Z.div_le_upper_bound; nia]).
  set (d := p' * acc / q') in *. split_and!; try lia.
  - (* the quotient of the scaled numbers, back at the size of the given ones *)
    assert (d * (f * q') <= f * p' * acc) by nia.
    assert (q * (acc - 1) <= f * q' * acc) by nia.
    assert (d * (q * (acc - 1)) <= d * (f * q' * acc)) by nia. nia.
  - assert (f * p' * acc <= (d + 1) * (f * q')) by nia.
    assert (p * acc <= f * p' * acc + (f - 1) * acc) by nia. nia.
Qed.

Lemma parts_instance_laws acc : 100 <= acc < 2 ^ 64 -> @PerThingLaws Z (parts_instance acc).
Proof.
  intros Ha. split; simpl; intros; try lia.
  - assert (0 <= x * acc / 100 <= acc); [|lia].
    split; [apply Z.div_pos; nia | apply Z.div_le_upper_bound; nia].
  - rewrite (Z.max_l q 1), (Z.min_l p q), scaled_parts_fits by lia.
    assert (0 <= p * acc / q <= acc); [|lia].
    split; [apply Z.div_pos; nia | apply Z.div_le_upper_bound; nia].
  - set (q' := Z.max q 1) in *. rewrite (Z.min_l p q') by lia.
    destruct (scaled_parts_spec acc p q') as (Hr & Hd & _); [lia..|].
    by rewrite (Z.min_l _ acc), Z.max_r by lia.
  - set (q' := Z.max q 1) in *. rewrite (Z.min_l p q') by lia.
    destruct (scaled_parts_spec acc p q') as (Hr & _ & Hn); [lia..|].
    by rewrite (Z.min_l _ acc), Z.max_r by lia.
  - pose proof (clamp_range p acc). pose proof (clamp_range q acc).
    set (a := Z.max 0 (Z.min p acc)) in *. set (b := Z.max 0 (Z.min q acc)) in *.
    assert (0 <= a * b / acc <= a) as Hr
      by (split; [apply Z.div_pos; nia | apply Z.div_le_upper_bound; nia]).
    pose proof (Z.mul_div_le (a * b) acc ltac:(lia)).
    rewrite Z.min_l, Z.max_r by lia. lia.
  - pose proof (clamp_range p acc). pose proof (clamp_range q acc).
    set (a := Z.max 0 (Z.min p acc)) in *. set (b := Z.max 0 (Z.min q acc)) in *.
    assert (0 <= a * b / acc <= a); [|lia].
    split; [apply Z.div_pos; nia | apply Z.div_le_upper_bound; nia].
  - pose proof (clamp_range p acc). pose proof (clamp_range q acc).
    set (a := Z.max 0 (Z.min p acc)) in *. set (b := Z.max 0 (Z.min q acc)) in *.
    assert (0 <= a * b / acc <= b); [|lia].
    split; [apply Z.div_pos; nia | apply Z.div_le_upper_bound; nia].
  - set (x := Z.max 0 (Z.min p acc) * n).
    pose proof (Z.div_mod (2 * x + (acc - 1)) (2 * acc) ltac:(lia)).
    pose proof (Z.mod_pos_bound (2 * x + (acc - 1)) (2 * acc) ltac:(lia)).
    set (d := (2 * x + (acc - 1)) / (2 * acc)) in *. nia.
Qed.

#[export] Instance Perbill_laws : PerThingLaws Z.
Proof. apply parts_instance_laws. lia. Qed.

Lemma nlimbs_pos v : (0 < nlimbs v)%nat.
Proof.
  unfold nlimbs. case_decide; [lia|]. pose proof (Z.log2_nonneg v).
  pose proof (Z.div_pos (Z.log2 v) 32). lia.
Qed.

Lemma nlimbs_bound v : 0 <= v -> v < 2 ^ (32 * Z.of_nat (nlimbs v)).
Proof.
  intros Hv. unfold nlimbs. case_decide as H; [subst; vm_compute; done|].
  pose proof (Z.log2_nonneg v). pose proof (Z.div_pos (Z.log2 v) 32).
  rewrite Z2Nat.id by lia. apply Z.log2_lt_pow2; [lia|].
  pose proof (Z.div_mod (Z.log2 v) 32). pose proof (Z.mod_pos_bound (Z.log2 v) 32). lia.
Qed.

(** A stripped number has its top limb set. *)
Lemma nlimbs_lower v : 0 < v -> 2 ^ (32 * (Z.of_nat (nlimbs v) - 1)) <= v.
Proof.
  intros Hv. unfold nlimbs. rewrite decide_False by lia.
  pose proof (Z.log2_nonneg v). pose proof (Z.div_pos (Z.log2 v) 32).
  rewrite Z2Nat.id by lia. apply Z.log2_le_pow2; [lia|].
  pose proof (Z.div_mod (Z.log2 v) 32). pose proof (Z.mod_pos_bound (Z.log2 v) 32). lia.
Qed.

Lemma nlimbs_le v n : 0 <= v < 2 ^ (32 * Z.of_nat n) -> (0 < n)%nat -> (nlimbs v <= n)%nat.
Proof.
  intros Hv Hn. destruct (decide (v = 0)) as [->|]; [unfold nlimbs; rewrite decide_True; lia|].
  pose proof (nlimbs_lower v ltac:(lia)) as Hl.
  assert (2 ^ (32 * (Z.of_nat (nlimbs v) - 1)) < 2 ^ (32 * Z.of_nat n)) as Hp by lia.
  apply Z.pow_lt_mono_r_iff in Hp; lia.
Qed.

Lemma limbs_of_len v n : (nlimbs (Z.of_N v) <= n)%nat -> limbs_len (limbs_of v n) = n.
Proof. unfold limbs_len, limbs_of. simpl. lia. Qed.

Lemma limbs_len_bound b : Z.of_N (limbs_val b) < 2 ^ (32 * Z.of_nat (limbs_len b)).
Proof.
  unfold limbs_len. pose proof (nlimbs_bound (Z.of_N (limbs_val b)) ltac:(lia)).
  eapply Z.lt_le_trans; [done|]. apply Z.pow_le_mono_r; lia.
Qed.

#[export] Instance Limbs_laws : BigUintLaws Limbs.
Proof.
  refine {| big_val b := Z.of_N (limbs_val b) |}; simpl.
  - lia.
  - intros x Hx. rewrite Z2N.id; lia.
  - done.
  - done.
  - intros b _. unfold limbs_len. simpl. lia.
  - intros b Hb. unfold limbs_len in Hb. pose proof (nlimbs_pos (Z.of_N (limbs_val b))). lia.
  - intros b. apply limbs_len_bound.
  - intros b Hb. by rewrite decide_True.
  - lia.
  - intros a b H. rewrite decide_True by lia. eexists. split; [done|]. simpl. lia.
  - lia.
  - intros a b. apply limbs_of_len.
    pose proof (limbs_len_bound a). pose proof (limbs_len_bound b).
    pose proof (nlimbs_pos (Z.of_N (limbs_val a))).
    apply nlimbs_le; [|unfold limbs_len; lia].
    rewrite Nat2Z.inj_add, Z.mul_add_distr_l, Z.pow_add_r by lia. nia.
  - intros x. unfold limbs_len.
    pose proof (nlimbs_pos (Z.of_N (limbs_val (limbs_of (Z.to_N x) 4)))). lia.
  - intros a x Hx. rewrite N2Z.inj_div, Z2N.id by lia. done.
  - intros a b H1 H2 _ _. rewrite decide_True by done.
    eexists _, _. split; [done|]. apply N2Z.inj_div.
  - intros a. apply bool_decide_ext. lia.
  - intros a b. apply bool_decide_ext. lia.
  - done.
Defined.
