(* ===== verification/TaylorSeries.v ===== *)
(** * The inflation curve

    [pallets/polkafoundry-staking/src/taylor_series.rs]: yearly inflation
    [2^((x_ideal - x) / d)] by a Taylor series over big integers.  The section
    is generic in the [PerThing] type and in the big integers, as the code is;
    the facts compare it with a series over [Z]. *)
From S2P Require Import Prelude Externals.

Section Taylor.
Context {P B : Type} `{!PerThing P, !BigUint B}.

Record INPoSParam := mkINPoSParam {
  ln2_div_d : B;
  x_ideal : B;
  x : B;
  accuracy : B;
}.

(** [a] div [b]; [b] has no leading zero limb. *)
Definition div_by_stripped (a b : B) : B :=
  let a := big_lstrip a in
  if (big_len b =? 0)%nat then big_zero
  else if (big_len b =? 1)%nat then big_div_unit a (default 1 (big_checked_get b 0))
  else if (big_len a <? big_len b)%nat then big_zero
  else if (big_len b =? big_len a)%nat then
    let new_a := big_lstrip (big_mul a (big_from (100000 ^ 2))) in
    let q := match big_div new_a b with Some res => res.1 | None => big_zero end in
    big_div_unit (big_div_unit q 100000) 100000
  else match big_div a b with Some res => res.1 | None => big_zero end.

(** The absolute value of the [k]-th term, from the previous one. *)
Definition compute_taylor_term (k : Z) (previous_taylor_term : B) (p : INPoSParam) : B :=
  let x_minus_x_ideal :=
    match big_sub (x p) (x_ideal p) with inl d => d | inr _ => big_zero end in
  let res :=
    big_div_unit (big_mul (big_mul previous_taylor_term x_minus_x_ideal) (ln2_div_d p)) k in
  let res := div_by_stripped res (accuracy p) in
  let res := div_by_stripped res (accuracy p) in
  big_lstrip res.

(** The body of [for k in 1..300]: the last term, the sign and the absolute
    value of the sum. *)
Fixpoint taylor_loop (p : INPoSParam) (ks : list Z)
    (last_taylor_term : B) (taylor_sum_positive : bool) (taylor_sum : B) : bool * B :=
  match ks with
  | [] => (taylor_sum_positive, taylor_sum)
  | k :: ks =>
      let last_taylor_term := compute_taylor_term k last_taylor_term p in
      if big_is_zero last_taylor_term then (taylor_sum_positive, taylor_sum)
      else
        let last_taylor_term_positive := Z.even k in
        if eqb taylor_sum_positive last_taylor_term_positive then
          taylor_loop p ks last_taylor_term taylor_sum_positive
            (big_add taylor_sum last_taylor_term)
        else if big_ge taylor_sum last_taylor_term then
          taylor_loop p ks last_taylor_term taylor_sum_positive
            (match big_sub taylor_sum last_taylor_term with inl d | inr d => d end)
        else
          taylor_loop p ks last_taylor_term (negb taylor_sum_positive)
            (match big_sub last_taylor_term taylor_sum with inl d | inr d => d end)
  end.

(** [1..300] *)
Definition taylor_range : list Z := Z.of_nat <$> seq 1 299.

Definition compute_taylor_serie_part (p : INPoSParam) : B :=
  let '(taylor_sum_positive, taylor_sum) :=
    taylor_loop p taylor_range (accuracy p) true (accuracy p) in
  if negb taylor_sum_positive then big_zero else big_lstrip taylor_sum.

(** [ln(2)] in parts of [Perquintill::ACCURACY]. *)
Definition LN2 : Z := 693147180559945309.
Definition Perquintill_ACCURACY : Z := 1000000000000000000.

Definition inflation_param (stake ideal_stake falloff : P) : INPoSParam :=
  let accuracy := big_lstrip (big_from (ACCURACY (P := P))) in
  let falloff := big_lstrip (big_from (deconstruct falloff)) in
  let ln2 := big_from (deconstruct (from_rational (P := P) LN2 Perquintill_ACCURACY)) in
  let ln2_div_d := div_by_stripped (big_mul ln2 accuracy) falloff in
  mkINPoSParam ln2_div_d (big_from (deconstruct ideal_stake)) (big_from (deconstruct stake))
    accuracy.

Definition compute_inflation (stake ideal_stake falloff : P) : P :=
  if deconstruct stake <=? deconstruct ideal_stake then pt_div stake ideal_stake
  else if deconstruct falloff <? deconstruct (from_percent (P := P) 1) then pt_zero
  else
    let res := compute_taylor_serie_part (inflation_param stake ideal_stake falloff) in
    match big_to_u128 res with
    | Some res => if res <=? ACCURACY (P := P) then from_parts res else pt_zero
    | None => pt_zero
    end.

(** ** Reference: the series over [Z] *)

Section Reference.
(** [dx = x - x_ideal], [l = ln2 / d] and the accuracy, all in parts. *)
Variables (dx l acc : Z).
Definition ref_term (k prev : Z) : Z := prev * dx * l / k / acc / acc.
(** The sum of the remaining signed terms, without early exit. *)
Fixpoint ref_sum (ks : list Z) (prev sum : Z) : Z :=
  match ks with
  | [] => sum
  | k :: ks =>
      let t := ref_term k prev in
      ref_sum ks t (if Z.even k then sum + t else sum - t)
  end.
Fixpoint ref_last (ks : list Z) (prev : Z) : Z :=
  match ks with [] => prev | k :: ks => ref_last ks (ref_term k prev) end.
End Reference.

Definition signed (positive : bool) (v : Z) : Z := if positive then v else - v.

(** The value the code computes for [stake > ideal_stake] and a falloff of at
    least 1%. *)
Definition inflation_series (stake ideal_stake falloff : Z) : Z :=
  let acc := ACCURACY (P := P) in
  let l := deconstruct (from_rational (P := P) LN2 Perquintill_ACCURACY) * acc / falloff in
  Z.max 0 (ref_sum (stake - ideal_stake) l acc taylor_range acc acc).
End Taylor.
Arguments INPoSParam : clear implicits.

(** ** Facts *)

(** Tactics must not unroll the 299 iterations. *)
#[local] Opaque taylor_range.
Section TaylorFacts.
Context {P B : Type} `{!PerThing P, !PerThingLaws P, !BigUint B, HB : !BigUintLaws B}.

Definition stripped (b : B) : Prop := big_len b = nlimbs (big_val b).

Lemma lstrip_stripped b : big_len b <> 0%nat -> stripped (big_lstrip b).
Proof using Type. intros H. unfold stripped. by rewrite big_lstrip_len, big_lstrip_val. Qed.

Lemma nlimbs_grows v c : 0 < v -> 2 ^ 32 <= c -> (nlimbs v < nlimbs (v * c))%nat.
Proof using Type.
  intros Hv Hc. pose proof (nlimbs_lower v Hv). pose proof (nlimbs_pos v).
  pose proof (nlimbs_bound (v * c) ltac:(nia)).
  assert (2 ^ (32 * Z.of_nat (nlimbs v)) < 2 ^ (32 * Z.of_nat (nlimbs (v * c)))) as Hlt.
  { replace (32 * Z.of_nat (nlimbs v)) with (32 * (Z.of_nat (nlimbs v) - 1) + 32) by lia.
    rewrite Z.pow_add_r by lia. nia. }
  apply Z.pow_lt_mono_r_iff in Hlt; lia.
Qed.

(** The detour through [100_000^2] does not change the quotient. *)
Lemma scaled_quotient a b k : 0 <= a -> 0 < b -> 0 < k -> a * k ^ 2 / b / k / k = a / b.
Proof using Type.
  intros. rewrite !Z.div_div by lia.
  rewrite <- Z.pow_2_r. apply Z.div_mul_cancel_r; lia.
Qed.

Lemma div_by_stripped_val a b :
  stripped b -> big_val b <> 0 ->
  big_val (div_by_stripped a b) = big_val a / big_val b.
Proof using HB.
  intros Hb Hb0. pose proof (big_val_nonneg a). pose proof (big_val_nonneg b).
  unfold stripped in Hb. pose proof (nlimbs_pos (big_val b)).
  unfold div_by_stripped. cbv zeta.
  destruct (Nat.eqb_spec (big_len b) 0); [lia|].
  destruct (Nat.eqb_spec (big_len b) 1) as [Hc1|Hc1].
  { rewrite big_get_single by done. simpl.
    pose proof (big_len_bound b) as Hlt. rewrite Hc1 in Hlt.
    rewrite big_div_unit_val, big_lstrip_val by (simpl in Hlt; lia). done. }
  destruct (Nat.ltb_spec (big_len (big_lstrip a)) (big_len b)) as [Hc2|Hc2].
  { rewrite big_zero_val. symmetry. apply Z.div_small. split; [done|].
    pose proof (big_len_bound (big_lstrip a)) as Ha. rewrite big_lstrip_val in Ha.
    assert (0 < big_val b) as Hbp by lia.
    pose proof (nlimbs_lower _ Hbp) as Hl. rewrite <- Hb in Hl.
    eapply Z.lt_le_trans; [exact Ha|]. eapply Z.le_trans; [|exact Hl].
    apply Z.pow_le_mono_r; lia. }
  assert (big_len a <> 0%nat) as Ha0.
  { intros He. apply big_lstrip_empty in He. lia. }
  pose proof (big_lstrip_len a Ha0) as Hla.
  destruct (Nat.eqb_spec (big_len b) (big_len (big_lstrip a))) as [Hc3|Hc3].
  - assert (0 < big_val a) as Hap.
    { destruct (decide (big_val a = 0)) as [Hz|]; [|lia].
      rewrite Hz in Hla. unfold nlimbs in Hla at 1. rewrite decide_True in Hla by done. lia. }
    set (m := big_mul (big_lstrip a) (big_from (100000 ^ 2))).
    assert (big_val m = big_val a * 100000 ^ 2) as Hm.
    { unfold m. by rewrite big_mul_val, big_lstrip_val, big_from_val by lia. }
    assert (big_len m <> 0%nat) as Hm0.
    { unfold m. rewrite big_mul_len. pose proof (big_from_len (100000 ^ 2)). lia. }
    pose proof (nlimbs_grows _ (100000 ^ 2) Hap ltac:(lia)) as Hg.
    destruct (big_div_val (big_lstrip m) b) as (q & r & -> & Hq).
    + lia.
    + rewrite big_lstrip_len, Hm by done. lia.
    + by apply lstrip_stripped.
    + done.
    + simpl. rewrite !big_div_unit_val, Hq, big_lstrip_val, Hm by lia.
      apply scaled_quotient; lia.
  - destruct (big_div_val (big_lstrip a) b) as (q & r & -> & Hq); [lia|lia| |done|].
    + by apply lstrip_stripped.
    + simpl. by rewrite Hq, big_lstrip_val.
Qed.

(** A parameter record whose accuracy is stripped and positive. *)
Definition param_ok (p : INPoSParam B) : Prop :=
  stripped (accuracy p) /\ big_val (accuracy p) <> 0.
Definition param_dx (p : INPoSParam B) : Z := Z.max 0 (big_val (x p) - big_val (x_ideal p)).

Lemma taylor_term_val p k prev :
  param_ok p -> big_val (x_ideal p) <= big_val (x p) -> 0 < k < 2 ^ 32 ->
  big_val (compute_taylor_term k prev p) =
  ref_term (param_dx p) (big_val (ln2_div_d p)) (big_val (accuracy p)) k (big_val prev).
Proof using HB.
  intros [Hs Hz] Hx Hk. unfold compute_taylor_term, ref_term, param_dx.
  destruct (big_sub_val _ _ Hx) as (d & -> & Hd).
  rewrite big_lstrip_val, !div_by_stripped_val, big_div_unit_val, !big_mul_val, Hd by done.
  by rewrite Z.max_r by lia.
Qed.

Lemma ref_term_zero dx l acc k : ref_term dx l acc k 0 = 0.
Proof using Type. unfold ref_term. by rewrite !Z.mul_0_l, !Zdiv_0_l. Qed.

Lemma ref_sum_zero dx l acc ks sum : ref_sum dx l acc ks 0 sum = sum.
Proof using Type.
  revert sum. induction ks as [|k ks IH]; intros sum; simpl; [done|].
  rewrite ref_term_zero, IH. case_match; lia.
Qed.

(** Sign and magnitude, and leaving at the first zero term, compute the
    signed sum of all the terms. *)
Lemma taylor_loop_val p ks last pos sum :
  param_ok p -> big_val (x_ideal p) <= big_val (x p) ->
  Forall (fun k => 0 < k < 2 ^ 32) ks ->
  let r := taylor_loop p ks last pos sum in
  signed r.1 (big_val r.2) =
  ref_sum (param_dx p) (big_val (ln2_div_d p)) (big_val (accuracy p)) ks (big_val last)
    (signed pos (big_val sum)).
Proof using HB.
  intros Hp Hx Hks. revert last pos sum.
  induction Hks as [|k ks Hk _ IH]; intros last pos sum; simpl; [done|].
  rewrite <- (taylor_term_val p k last) by done.
  set (t := compute_taylor_term k last p).
  rewrite big_is_zero_val. case_bool_decide as Ht.
  { rewrite Ht, ref_sum_zero. simpl. case_match; lia. }
  pose proof (big_val_nonneg t). pose proof (big_val_nonneg sum).
  destruct (eqb pos (Z.even k)) eqn:He.
  - apply eqb_prop in He. rewrite IH, big_add_val. f_equal.
    rewrite <- He. unfold signed. destruct pos; lia.
  - apply eqb_false_iff in He. rewrite big_ge_val. case_bool_decide as Hge.
    + destruct (big_sub_val sum t Hge) as (d & -> & Hd).
      rewrite IH, Hd. f_equal. unfold signed. destruct pos, (Z.even k); simpl; done || lia.
    + destruct (big_sub_val t sum) as (d & -> & Hd); [lia|].
      rewrite IH, Hd. f_equal. unfold signed. destruct pos, (Z.even k); simpl; done || lia.
Qed.

#[local] Transparent taylor_range.
Lemma taylor_range_ok : Forall (fun k => 0 < k < 2 ^ 32) taylor_range.
Proof using Type.
  unfold taylor_range. apply Forall_fmap, Forall_forall. intros n Hn.
  apply elem_of_seq in Hn. simpl. lia.
Qed.
#[local] Opaque taylor_range.

(** A loop whose last term is zero left early: more iterations change nothing. *)
Lemma taylor_loop_app p ks more last pos sum :
  param_ok p -> big_val (x_ideal p) <= big_val (x p) ->
  Forall (fun k => 0 < k < 2 ^ 32) ks -> big_val last <> 0 ->
  ref_last (param_dx p) (big_val (ln2_div_d p)) (big_val (accuracy p)) ks (big_val last) = 0 ->
  taylor_loop p (ks ++ more) last pos sum = taylor_loop p ks last pos sum.
Proof using HB.
  intros Hp Hx Hks. revert last pos sum.
  induction Hks as [|k ks Hk _ IH]; intros last pos sum Hnz Hlast; [done|].
  cbn [app taylor_loop]. cbn [ref_last] in Hlast.
  rewrite <- (taylor_term_val p k last) in Hlast by done.
  rewrite big_is_zero_val. case_bool_decide; [done|].
  repeat case_match; by apply IH.
Qed.

(** The parameters [compute_inflation] builds satisfy the preconditions. *)
Lemma inflation_param_ok (stake ideal_stake falloff : P) :
  0 < deconstruct falloff ->
  let p := inflation_param (B := B) stake ideal_stake falloff in
  param_ok p /\
  big_val (accuracy p) = ACCURACY (P := P) /\
  big_val (x p) = deconstruct stake /\ big_val (x_ideal p) = deconstruct ideal_stake /\
  big_val (ln2_div_d p) =
    deconstruct (from_rational (P := P) LN2 Perquintill_ACCURACY) * ACCURACY (P := P)
    / deconstruct falloff.
Proof using HB PerThingLaws0.
  intros Hf. pose proof (accuracy_range (P := P)) as Ha.
  pose proof (deconstruct_range (P := P)) as Hr.
  assert (forall q : P, 0 <= deconstruct q < 2 ^ 128) as Hd.
  { intros q. specialize (Hr q). lia. }
  assert (big_val (big_lstrip (B := B) (big_from (ACCURACY (P := P)))) = ACCURACY (P := P)) as Hacc.
  { rewrite big_lstrip_val, big_from_val; lia. }
  simpl. split_and!.
  - split; [apply lstrip_stripped, big_from_len | simpl; rewrite Hacc; lia].
  - done.
  - by apply big_from_val.
  - by apply big_from_val.
  - rewrite div_by_stripped_val.
    + by rewrite big_mul_val, Hacc, big_lstrip_val, !big_from_val.
    + apply lstrip_stripped, big_from_len.
    + rewrite big_lstrip_val, big_from_val by done. lia.
Qed.

Lemma taylor_serie_val p :
  param_ok p -> big_val (x_ideal p) <= big_val (x p) ->
  big_val (compute_taylor_serie_part p) =
    Z.max 0 (ref_sum (param_dx p) (big_val (ln2_div_d p)) (big_val (accuracy p)) taylor_range
               (big_val (accuracy p)) (big_val (accuracy p))) .
Proof using HB.
  intros Hp Hx.
  pose proof (taylor_loop_val p taylor_range (accuracy p) true (accuracy p) Hp Hx taylor_range_ok)
    as Hl.
  unfold compute_taylor_serie_part. destruct (taylor_loop p _ _ _ _) as [pos sum].
  cbn [signed fst snd] in Hl. rewrite <- Hl. pose proof (big_val_nonneg sum).
  destruct pos; cbn [signed negb]; [rewrite big_lstrip_val | rewrite big_zero_val]; lia.
Qed.
End TaylorFacts.

Section Convergence.
(** With [dx <= acc] and [l <= 100 acc] a term is at most [100 / k] times the
    previous one. *)
Definition term_bound (k prev : Z) : Z := 100 * prev / k.

Lemma ref_term_bound dx l acc k prev ub :
  0 < acc -> 0 <= dx <= acc -> 0 <= l <= 100 * acc -> 0 < k -> 0 <= prev <= ub ->
  0 <= ref_term dx l acc k prev <= term_bound k ub.
Proof.
  intros Ha Hd Hl Hk Hp. unfold ref_term, term_bound.
  assert (0 <= dx * l <= 100 * (acc * acc)) by nia.
  rewrite !Z.div_div by lia. split; [apply Z.div_pos; nia|].
  apply Z.div_le_lower_bound; [lia|].
  apply Z.le_trans with (prev * 100).
  - apply Z.le_trans with (k * ((prev * (100 * (acc * acc))) / (k * (acc * acc)))).
    + apply Z.mul_le_mono_nonneg_l; [lia|]. apply Z.div_le_mono; nia.
    + replace (prev * (100 * (acc * acc))) with (prev * 100 * (acc * acc)) by lia.
      rewrite Z.div_mul_cancel_r by nia. apply Z.mul_div_le. lia.
  - lia.
Qed.

Lemma ref_last_bound dx l acc ks prev ub :
  0 < acc -> 0 <= dx <= acc -> 0 <= l <= 100 * acc -> Forall (fun k => 0 < k < 2 ^ 32) ks ->
  0 <= prev <= ub ->
  0 <= ref_last dx l acc ks prev <= foldl (fun ub k => term_bound k ub) ub ks.
Proof.
  intros Ha Hd Hl Hks. revert prev ub. induction Hks as [|k ks Hk _ IH]; intros prev ub Hp; [done|].
  simpl. apply IH, ref_term_bound; lia.
Qed.

Lemma ref_last_zero dx l :
  0 <= dx <= 1000000000 -> 0 <= l <= 100 * 1000000000 ->
  ref_last dx l 1000000000 taylor_range 1000000000 = 0.
Proof.
  intros Hd Hl.
  pose proof (ref_last_bound dx l 1000000000 taylor_range 1000000000 1000000000
    ltac:(lia) Hd Hl taylor_range_ok ltac:(lia)) as H.
  assert (foldl (fun ub k => term_bound k ub) 1000000000 taylor_range = 0) as Hz
    by (vm_compute; reflexivity).
  rewrite Hz in H. lia.
Qed.
End Convergence.

Section TaylorTheorems.
Context {P B : Type} `{!PerThing P, !PerThingLaws P, !BigUint B, HB : !BigUintLaws B}.

(** [div_by_stripped] is integer division for every dividend and every
    non-zero divisor without leading zero limbs, in all four cases of the
    code (one limb, shorter, same number of limbs, longer). *)
Theorem div_by_stripped_correct (a b : B) :
  big_len b = nlimbs (big_val b) -> big_val b <> 0 ->
  big_val (div_by_stripped a b) = big_val a / big_val b.
Proof using HB. apply div_by_stripped_val. Qed.

(** The value [compute_inflation] returns, on every branch. *)
Lemma compute_inflation_val (stake ideal_stake falloff : P) :
  deconstruct (compute_inflation (B := B) stake ideal_stake falloff) =
  if decide (deconstruct stake <= deconstruct ideal_stake) then
    deconstruct (pt_div stake ideal_stake)
  else if decide (deconstruct falloff < ACCURACY (P := P) / 100) then 0
  else
    let v := inflation_series (P := P) (deconstruct stake) (deconstruct ideal_stake)
               (deconstruct falloff) in
    if decide (v <= ACCURACY (P := P)) then v else 0.
Proof using HB PerThingLaws0.
  pose proof (accuracy_range (P := P)) as Ha. unfold compute_inflation.
  destruct (Z.leb_spec (deconstruct stake) (deconstruct ideal_stake));
    [by rewrite decide_True | rewrite decide_False by lia].
  rewrite (from_percent_deconstruct (P := P)), Z.mul_1_l by lia.
  destruct (Z.ltb_spec (deconstruct falloff) (ACCURACY (P := P) / 100));
    [rewrite decide_True by done; apply pt_zero_deconstruct | rewrite decide_False by lia].
  assert (1 <= ACCURACY (P := P) / 100) by (apply Z.div_le_lower_bound; lia).
  destruct (inflation_param_ok (B := B) stake ideal_stake falloff) as (Hp & Hacc & Hx & Hxi & Hl);
    [lia|].
  set (p := inflation_param stake ideal_stake falloff) in *.
  pose proof (taylor_serie_val p Hp ltac:(lia)) as Hv.
  unfold param_dx in Hv. rewrite Hacc, Hx, Hxi, Hl in Hv.
  rewrite (Z.max_r 0 (deconstruct stake - deconstruct ideal_stake)) in Hv by lia.
  assert (big_val (compute_taylor_serie_part p) =
          inflation_series (P := P) (deconstruct stake) (deconstruct ideal_stake)
            (deconstruct falloff)) as Hs.
  { unfold inflation_series. cbv zeta. exact Hv. }
  rewrite big_to_u128_val, Hs. clear Hv. cbv zeta.
  assert (0 <= inflation_series (P := P) (deconstruct stake) (deconstruct ideal_stake)
                 (deconstruct falloff)) as Hv0 by apply Z.le_max_l.
  revert Hv0. generalize (inflation_series (P := P) (deconstruct stake)
    (deconstruct ideal_stake) (deconstruct falloff)). clear Hs. intros v Hv0.
  repeat case_decide; rewrite ?pt_zero_deconstruct; try done; try lia.
  - rewrite (proj2 (Z.leb_le _ _)) by done. rewrite from_parts_deconstruct; lia.
  - rewrite (proj2 (Z.leb_gt _ _)) by lia. apply pt_zero_deconstruct.
Qed.

(** [C34] [compute_inflation] returns, in parts: [stake / ideal_stake] up to
    the ideal stake; zero for a falloff below 1%; otherwise the alternating
    Taylor sum of [2^((ideal - stake) / d)] over [Z], cut below at zero and
    replaced by zero if it leaves the range of the type. *)
Theorem compute_inflation_spec (stake ideal_stake falloff : P) :
  deconstruct (compute_inflation (B := B) stake ideal_stake falloff) =
  if decide (deconstruct stake <= deconstruct ideal_stake) then
    deconstruct (pt_div stake ideal_stake)
  else if decide (deconstruct falloff < ACCURACY (P := P) / 100) then 0
  else
    let v := inflation_series (P := P) (deconstruct stake) (deconstruct ideal_stake)
               (deconstruct falloff) in
    if decide (v <= ACCURACY (P := P)) then v else 0.
Proof using HB PerThingLaws0. apply compute_inflation_val. Qed.

(** [C33] 299 iterations are enough for [Perbill]: with any falloff the
    function accepts, the loop has met a zero term by then, so a longer range
    would return the same sum. *)
Theorem taylor_range_suffices (stake ideal_stake falloff : P) (more : list Z) :
  ACCURACY (P := P) = 1000000000 ->
  deconstruct ideal_stake <= deconstruct stake ->
  ACCURACY (P := P) / 100 <= deconstruct falloff ->
  let p := inflation_param (B := B) stake ideal_stake falloff in
  taylor_loop p (taylor_range ++ more) (accuracy p) true (accuracy p) =
  taylor_loop p taylor_range (accuracy p) true (accuracy p).
Proof using HB PerThingLaws0.
  intros HA Hst Hf p. rewrite HA in Hf.
  assert (10000000 <= deconstruct falloff) as Hf' by (vm_compute in Hf; exact Hf).
  destruct (inflation_param_ok (B := B) stake ideal_stake falloff) as (Hp & Hacc & Hx & Hxi & Hl);
    [lia|]. fold p in Hp, Hacc, Hx, Hxi, Hl.
  apply taylor_loop_app; [done|lia|apply taylor_range_ok|rewrite Hacc; lia|].
  unfold param_dx. rewrite Hl, Hacc, Hx, Hxi, HA.
  pose proof (deconstruct_range (P := P)) as Hr.
  apply ref_last_zero.
  - pose proof (Hr stake). pose proof (Hr ideal_stake). lia.
  - pose proof (Hr (from_rational (P := P) LN2 Perquintill_ACCURACY)) as Hq.
    split; [apply Z.div_pos; lia|]. apply Z.div_le_upper_bound; nia.
Qed.
End TaylorTheorems.

Definition perbill_inflation (stake ideal_stake falloff : Z) : Z :=
  compute_inflation (P := Z) (B := Limbs) stake ideal_stake falloff.

Lemma div_by_stripped_correct_witness :
  big_val (div_by_stripped (big_from (2 ^ 100)) (big_lstrip (big_from (2 ^ 70)) : Limbs)) = 2 ^ 30.
Proof.
  rewrite (div_by_stripped_correct (big_from (2 ^ 100)) (big_lstrip (big_from (2 ^ 70)) : Limbs));
    vm_compute; [reflexivity | reflexivity | discriminate].
Defined.

Lemma taylor_range_suffices_witness :
  let p := inflation_param (P := Z) (B := Limbs) 600000000 500000000 50000000 in
  taylor_loop p (taylor_range ++ [300; 301]) (accuracy p) true (accuracy p) =
  taylor_loop p taylor_range (accuracy p) true (accuracy p).
Proof.
  apply (taylor_range_suffices (P := Z) (B := Limbs) 600000000 500000000 50000000 [300; 301]);
    vm_compute; congruence.
Defined.

(** [2^(-2)], in parts per billion, as the series computes it. *)
Example inflation_quarter : perbill_inflation 600000000 500000000 50000000 = 250000002.
Proof. vm_compute. reflexivity. Qed.

(** The three branches: below the ideal, a falloff of less than 1%, the series. *)
Lemma compute_inflation_spec_witness :
  perbill_inflation 250000000 500000000 50000000 = 500000000 /\
  perbill_inflation 600000000 500000000 9999999 = 0 /\
  deconstruct (perbill_inflation 600000000 500000000 50000000) =
    inflation_series (P := Z) 600000000 500000000 50000000.
Proof.
  split; [vm_compute; reflexivity|]. split; [vm_compute; reflexivity|].
  unfold perbill_inflation.
  rewrite (compute_inflation_spec (P := Z) (B := Limbs)). vm_compute. reflexivity.
Defined.
