(* ===== verification/Inflation.v ===== *)
(** * The payout of a round

    [pallets/polkafoundry-staking/src/inflation.rs]: the inflation rate
    between [i_0] and [i_ideal * x_ideal], and the payout of one round as a
    portion of the Julian year. *)
From S2P Require Import Prelude Externals TaylorSeries.

Section Inflation.
Context {P B : Type} `{!PerThing P, !BigUint B}.

Definition compute_i_npos (i_0 i_ideal x x_ideal d : P) : P :=
  let i_npos_ideal := pt_mul i_ideal x_ideal in
  pt_saturating_add i_0
    (pt_mul (pt_saturating_sub i_npos_ideal i_0) (compute_inflation (B := B) x x_ideal d)).

(** 365.25 days in milliseconds. *)
Definition MILLISECONDS_PER_YEAR : Z := 1000 * 3600 * 24 * 36525 / 100.

Definition compute_total_payout (npos_token_staked total_tokens : Z)
    (i_0 i_ideal x_ideal d : Z) (round_duration : Z) : Z :=
  let i_0 : P := from_rational i_0 1000 in
  let i_ideal : P := from_rational i_ideal 100 in
  let x : P := from_rational npos_token_staked total_tokens in
  let x_ideal : P := from_rational x_ideal 100 in
  let d : P := from_rational d 100 in
  let portion : P := from_rational round_duration MILLISECONDS_PER_YEAR in
  pt_mul_balance portion (pt_mul_balance (compute_i_npos i_0 i_ideal x x_ideal d) total_tokens).
End Inflation.

Section PerThingFacts.
Context {P : Type} `{!PerThing P, !PerThingLaws P}.

(** Rounding to nearest never exceeds the balance that is multiplied. *)
Lemma pt_mul_balance_le (p : P) n : 0 <= n -> 0 <= pt_mul_balance p n <= n.
Proof.
  intros Hn. pose proof (accuracy_range (P := P)). pose proof (deconstruct_range p).
  pose proof (pt_mul_balance_nearest p n Hn). nia.
Qed.

Lemma pt_mul_balance_zero (p : P) : pt_mul_balance p 0 = 0.
Proof. pose proof (pt_mul_balance_le p 0 ltac:(lia)). lia. Qed.

(** A share of a balance is at most the share of a larger part, plus one for
    the rounding. *)
Lemma pt_mul_balance_parts (p : P) n parts :
  0 <= n -> deconstruct p <= parts ->
  ACCURACY (P := P) * pt_mul_balance p n * 2 <= 2 * parts * n + ACCURACY (P := P).
Proof.
  intros Hn Hp. pose proof (accuracy_range (P := P)).
  pose proof (pt_mul_balance_nearest p n Hn). nia.
Qed.
End PerThingFacts.

Section InflationFacts.
Context {P B : Type} `{!PerThing P, !PerThingLaws P, !BigUint B, !BigUintLaws B}.

(** The inflation rate is at least [i_0], and exceeds it only up to
    [i_ideal * x_ideal], for every stake rate and falloff. *)
Theorem compute_i_npos_bounds (i_0 i_ideal x x_ideal d : P) :
  deconstruct i_0 <= deconstruct (compute_i_npos (B := B) i_0 i_ideal x x_ideal d)
    <= Z.max (deconstruct i_0) (deconstruct (pt_mul i_ideal x_ideal)).
Proof.
  unfold compute_i_npos. rewrite pt_saturating_add_deconstruct.
  pose proof (deconstruct_range i_0).
  set (s := pt_saturating_sub _ _).
  assert (deconstruct s = Z.max (deconstruct (pt_mul i_ideal x_ideal) - deconstruct i_0) 0) as Hs
    by apply pt_saturating_sub_deconstruct.
  pose proof (deconstruct_range (pt_mul s (compute_inflation (B := B) x x_ideal d))).
  pose proof (pt_mul_le_l s (compute_inflation (B := B) x x_ideal d)). lia.
Qed.

Lemma compute_total_payout_range staked total i_0 i_ideal x_ideal d duration :
  0 <= total ->
  0 <= compute_total_payout (P := P) (B := B) staked total i_0 i_ideal x_ideal d duration <= total.
Proof.
  intros Ht. unfold compute_total_payout. cbv zeta.
  set (r := compute_i_npos _ _ _ _ _). set (q := from_rational duration _).
  pose proof (pt_mul_balance_le r total Ht).
  pose proof (pt_mul_balance_le q (pt_mul_balance r total)). lia.
Qed.
(** The payout of a round never exceeds the total issuance, whatever the
    stake, the curve and the length of the round. *)
Theorem compute_total_payout_bound staked total i_0 i_ideal x_ideal d duration :
  0 <= total ->
  0 <= compute_total_payout (P := P) (B := B) staked total i_0 i_ideal x_ideal d duration <= total.
Proof. apply compute_total_payout_range. Qed.
End InflationFacts.

(** ** The repository's own vectors ([compute_total_payout_work]) *)

Definition perbill_payout (staked total i_0 i_ideal x_ideal d duration : Z) : Z :=
  compute_total_payout (P := Z) (B := Limbs) staked total i_0 i_ideal x_ideal d duration.

Definition YEAR : Z := 365 * 24 * 60 * 60 * 1000.
Definition HOUR : Z := 60 * 60 * 1000.

Example payout_vectors :
  ((fun s => perbill_payout s 100000 25 20 50 5 YEAR) <$>
     [0; 5000; 25000; 40000; 50000; 60000; 75000; 95000; 100000])
  = [2498; 3248; 6246; 8494; 9993; 4372; 2732; 2513; 2505].
Proof. vm_compute. reflexivity. Qed.

Example payout_vectors_day :
  ((fun s => perbill_payout s 100000 25 20 50 5 (24 * HOUR)) <$> [0; 25000; 50000; 100000])
  = [7; 17; 27; 7].
Proof. vm_compute. reflexivity. Qed.

Example payout_vectors_six_hours :
  ((fun s => perbill_payout s 100000 25 20 50 5 (6 * HOUR)) <$> [0; 25000; 50000; 100000])
  = [2; 4; 7; 2].
Proof. vm_compute. reflexivity. Qed.

Example payout_vector_large :
  perbill_payout 2500000000000000000000000000 5000000000000000000000000000 25 20 50 5 HOUR
  = 57038500000000000000000.
Proof. vm_compute. reflexivity. Qed.

Lemma compute_total_payout_bound_witness :
  0 <= perbill_payout 50000 100000 25 20 50 5 YEAR <= 100000.
Proof. apply (compute_total_payout_bound (P := Z) (B := Limbs)). lia. Defined.

Lemma compute_i_npos_bounds_witness :
  let rate := compute_i_npos (P := Z) (B := Limbs) 25000000 200000000 600000000 500000000 50000000 in
  deconstruct (P := Z) 25000000 <= deconstruct rate
    <= Z.max (deconstruct (P := Z) 25000000) (deconstruct (P := Z) (pt_mul 200000000 500000000)).
Proof.
  exact (compute_i_npos_bounds (P := Z) (B := Limbs) 25000000 200000000 600000000 500000000
           50000000).
Defined.
