(* ===== verification/InflationPrecision.v ===== *)
(** * The precision of the inflation curve

    The documentation of taylor_series.rs gives the curve as
    [2^((x_ideal - x) / d)], its tests compare it with a computation on floats.
    Here the series over big integers is compared with the real function:
    the rounding of the terms, the 299 iterations and the truncated constant for
    [ln 2] together cost at most 152 billionths. *)
From Stdlib Require Import Reals Lra.
From S2P Require Import Prelude Externals TaylorSeries Inflation.

#[local] Open Scope R_scope.

(** ** The alternating remainders of the exponential *)

Section Exponential.

(** [x^n / n!] *)
Fixpoint power_term (n : nat) (x : R) : R :=
  match n with O => 1 | S n => power_term n x * (x / INR (S n)) end.

(** The first [n] terms of the series of [exp (- x)], with signs. *)
Fixpoint exp_poly (n : nat) (x : R) : R :=
  match n with
  | O => 0
  | S n => exp_poly n x + (if Nat.even n then power_term n x else - power_term n x)
  end.

(** What is left of [exp (- x)] behind them, without its sign. *)
Definition remainder (n : nat) (x : R) : R :=
  if Nat.even n then exp (- x) - exp_poly n x else exp_poly n x - exp (- x).

Lemma INR_S_pos n : 0 < INR (S n).
Proof. apply lt_0_INR. lia. Qed.

Lemma power_term_zero n : power_term (S n) 0 = 0.
Proof. cbn [power_term]. unfold Rdiv. ring. Qed.

Lemma power_term_nonneg n x : 0 <= x -> 0 <= power_term n x.
Proof.
  intros Hx. induction n as [|n IH]; cbn [power_term]; [lra|].
  pose proof (INR_S_pos n). apply Rmult_le_pos; [done|]. apply Rle_mult_inv_pos; lra.
Qed.

Lemma power_term_step n x : power_term (S n) x * INR (S n) = power_term n x * x.
Proof. cbn [power_term]. pose proof (INR_S_pos n). field. lra. Qed.

Lemma power_term_deriv n x :
  derivable_pt_lim (power_term (S n)) x (power_term n x).
Proof.
  revert x. induction n as [|n IH]; intros x.
  - apply derivable_pt_lim_ext with (f := id); [intros z; simpl; unfold id; field|].
    apply derivable_pt_lim_id.
  - apply derivable_pt_lim_ext
      with (f := mult_fct (power_term (S n)) (mult_real_fct (/ INR (S (S n))) id)).
    { intros z. unfold mult_fct, mult_real_fct, id. cbn [power_term]. unfold Rdiv. ring. }
    replace (power_term (S n) x) with
      (power_term n x * mult_real_fct (/ INR (S (S n))) id x
       + power_term (S n) x * (/ INR (S (S n)) * 1)).
    { apply derivable_pt_lim_mult; [apply IH|]. apply derivable_pt_lim_scal, derivable_pt_lim_id. }
    unfold mult_real_fct, id. pose proof (power_term_step n x) as Hs.
    pose proof (INR_S_pos n). pose proof (INR_S_pos (S n)).
    assert (INR (S (S n)) = INR (S n) + 1) as He by (rewrite (S_INR (S n)); done).
    apply (Rmult_eq_reg_r (INR (S (S n)))); [|lra].
    replace ((power_term n x * (/ INR (S (S n)) * x) + power_term (S n) x * (/ INR (S (S n)) * 1))
             * INR (S (S n))) with (power_term n x * x + power_term (S n) x) by (field; lra).
    rewrite <- Hs, He. ring.
Qed.

Lemma even_succ n : Nat.even (S n) = negb (Nat.even n).
Proof. by rewrite Nat.even_succ, <- Nat.negb_even. Qed.

Lemma exp_poly_deriv n x : derivable_pt_lim (exp_poly (S n)) x (- exp_poly n x).
Proof.
  induction n as [|n IH].
  - apply derivable_pt_lim_ext with (f := fct_cte 1); [intros z; simpl; unfold fct_cte; ring|].
    replace (- exp_poly 0 x) with 0 by (simpl; ring). apply derivable_pt_lim_const.
  - apply derivable_pt_lim_ext with (f := plus_fct (exp_poly (S n))
      (mult_real_fct (if Nat.even (S n) then 1 else -1) (power_term (S n)))).
    { intros z. unfold plus_fct, mult_real_fct. cbn [exp_poly]. destruct (Nat.even (S n)); ring. }
    replace (- exp_poly (S n) x) with
      (- exp_poly n x + (if Nat.even (S n) then 1 else -1) * power_term n x)
      by (cbn [exp_poly]; rewrite even_succ; destruct (Nat.even n); simpl; ring).
    apply derivable_pt_lim_plus; [done|]. apply derivable_pt_lim_scal, power_term_deriv.
Qed.

Lemma exp_opp_deriv x : derivable_pt_lim (fun z => exp (- z)) x (- exp (- x)).
Proof.
  replace (- exp (- x)) with (exp (- x) * - 1) by ring.
  apply (derivable_pt_lim_comp Ropp exp); [|apply derivable_pt_lim_exp].
  apply derivable_pt_lim_opp, derivable_pt_lim_id.
Qed.

Lemma remainder_deriv n x : derivable_pt_lim (remainder (S n)) x (remainder n x).
Proof.
  unfold remainder. rewrite even_succ. destruct (Nat.even n); simpl negb.
  - apply derivable_pt_lim_ext with (f := minus_fct (exp_poly (S n)) (fun z => exp (- z)));
      [done|].
    replace (exp (- x) - exp_poly n x) with (- exp_poly n x - - exp (- x)) by ring.
    apply derivable_pt_lim_minus; [apply exp_poly_deriv | apply exp_opp_deriv].
  - apply derivable_pt_lim_ext with (f := minus_fct (fun z => exp (- z)) (exp_poly (S n)));
      [done|].
    replace (exp_poly n x - exp (- x)) with (- exp (- x) - - exp_poly n x) by ring.
    apply derivable_pt_lim_minus; [apply exp_opp_deriv | apply exp_poly_deriv].
Qed.

Lemma exp_poly_zero n : exp_poly (S n) 0 = 1.
Proof.
  induction n as [|n IH]; [simpl; ring|]. cbn [exp_poly] in *. rewrite IH, power_term_zero.
  destruct (Nat.even (S n)); ring.
Qed.

Lemma remainder_zero n : remainder (S n) 0 = 0.
Proof.
  unfold remainder. rewrite exp_poly_zero, Ropp_0, exp_0. destruct (Nat.even (S n)); ring.
Qed.

(** A function that vanishes at zero and whose derivative is nonnegative from
    there on is nonnegative. *)
Lemma nonneg_by_deriv (g g' : R -> R) x :
  0 <= x -> g 0 = 0 -> (forall z, derivable_pt_lim g z (g' z)) ->
  (forall z, 0 <= z -> 0 <= g' z) -> 0 <= g x.
Proof.
  intros Hx Hg Hd Hp. destruct (Rle_lt_or_eq_dec 0 x Hx) as [Hlt|<-]; [|lra].
  destruct (MVT_cor2 g g' 0 x Hlt) as (c & Hc & Hr); [done|].
  specialize (Hp c). assert (0 <= g' c * (x - 0)) by (apply Rmult_le_pos; [apply Hp|]; lra). lra.
Qed.

(** What is left has the sign of the first term left out and is at most that
    term. *)
Lemma remainder_bounds n x : 0 <= x -> 0 <= remainder n x <= power_term n x.
Proof.
  revert x. induction n as [|n IH]; intros x Hx.
  - unfold remainder. simpl. pose proof (exp_pos (- x)).
    pose proof (exp_ineq1_le x). rewrite exp_Ropp.
    assert (/ exp x <= 1) by (rewrite <- Rinv_1; apply Rinv_le_contravar; lra).
    pose proof (Rinv_0_lt_compat _ (exp_pos x)). lra.
  - split.
    + apply (nonneg_by_deriv (remainder (S n)) (remainder n)); [done|apply remainder_zero| |].
      * intros z. apply remainder_deriv.
      * intros z Hz. by apply IH.
    + assert (0 <= power_term (S n) x - remainder (S n) x); [|lra].
      apply (nonneg_by_deriv (fun z => power_term (S n) z - remainder (S n) z)
               (fun z => power_term n z - remainder n z)); [done| | |].
      * rewrite power_term_zero, remainder_zero. ring.
      * intros z. apply derivable_pt_lim_ext
          with (f := minus_fct (power_term (S n)) (remainder (S n))); [done|].
        apply derivable_pt_lim_minus; [apply power_term_deriv | apply remainder_deriv].
      * intros z Hz. pose proof (IH z Hz). lra.
Qed.

Lemma remainder_step n x : remainder n x = power_term n x - remainder (S n) x.
Proof.
  unfold remainder. rewrite even_succ. cbn [exp_poly]. destruct (Nat.even n); simpl; ring.
Qed.
End Exponential.



(** ** The constant for [ln 2] *)

Ltac eval_poly :=
  unfold exp_poly, power_term; cbn [Nat.even]; rewrite !INR_IZR_INZ;
  cbv [Z.of_nat Pos.of_succ_nat Pos.succ]; lra.

(** The billionths the code keeps of it are right. *)
Lemma ln_2_bounds : 693147180 / 1000000000 <= ln 2 <= 693147181 / 1000000000.
Proof.
  assert (exp (- ln 2) = / 2) as Hln by (rewrite exp_Ropp, exp_ln; lra).
  split; apply Rnot_lt_le; intros Hlt.
  - assert (1 / 2 <= exp_poly 14 (693147180 / 1000000000)) as Hp by eval_poly.
    pose proof (remainder_bounds 14 (693147180 / 1000000000) ltac:(lra)) as Hr.
    unfold remainder in Hr. cbn [Nat.even] in Hr.
    pose proof (exp_increasing (- (693147180 / 1000000000)) (- ln 2) ltac:(lra)). lra.
  - assert (exp_poly 13 (693147181 / 1000000000) <= 1 / 2) as Hp by eval_poly.
    pose proof (remainder_bounds 13 (693147181 / 1000000000) ltac:(lra)) as Hr.
    unfold remainder in Hr. cbn [Nat.even] in Hr.
    pose proof (exp_increasing (- ln 2) (- (693147181 / 1000000000)) ltac:(lra)). lra.
Qed.

(** ** The rounding of the terms *)

(** What remains behind the [n]-th term, as a share of it. *)
Definition share (x : R) (n : nat) : R := remainder n x / power_term n x.

Lemma power_term_pos n x : 0 < x -> 0 < power_term n x.
Proof.
  intros Hx. induction n as [|n IH]; cbn [power_term]; [lra|].
  pose proof (INR_S_pos n). apply Rmult_lt_0_compat; [done|]. by apply Rdiv_lt_0_compat.
Qed.

Lemma share_bounds x n : 0 < x -> 0 <= share x n <= 1.
Proof.
  intros Hx. unfold share. pose proof (power_term_pos n x Hx).
  pose proof (remainder_bounds n x ltac:(lra)) as [Hl Hu]. split.
  - by apply Rle_mult_inv_pos.
  - apply (Rmult_le_reg_r (power_term n x)); [done|]. unfold Rdiv.
    rewrite Rmult_assoc, Rinv_l by lra. lra.
Qed.

Lemma share_step x n : 0 < x -> share x n = 1 - x / INR (S n) * share x (S n).
Proof.
  intros Hx. unfold share. pose proof (power_term_pos n x Hx). pose proof (INR_S_pos n).
  rewrite (remainder_step n). cbn [power_term]. field. lra.
Qed.

Lemma share_zero x : share x 0 = exp (- x).
Proof. unfold share, remainder. simpl. field. Qed.

(** A quotient rounded down. *)
Lemma IZR_div_bounds a b : (0 < b)%Z -> 0 <= IZR a / IZR b - IZR (a / b) < 1.
Proof.
  intros Hb. pose proof (Z.mod_pos_bound a b Hb). pose proof (Z.div_mod a b ltac:(lia)) as He.
  assert (IZR a = IZR b * IZR (a / b) + IZR (a mod b)) as HR
    by (rewrite <- mult_IZR, <- plus_IZR; exact (f_equal IZR He)).
  assert (0 < IZR b) by (apply IZR_lt; lia). assert (0 <= IZR (a mod b)) by (apply IZR_le; lia).
  assert (IZR (a mod b) < IZR b) by (apply IZR_lt; lia).
  replace (IZR a / IZR b - IZR (a / b)) with (IZR (a mod b) / IZR b) by (rewrite HR; field; lra).
  split; [by apply Rle_mult_inv_pos|].
  apply (Rmult_lt_reg_r (IZR b)); [done|]. unfold Rdiv. rewrite Rmult_assoc, Rinv_l by lra. lra.
Qed.

Section Rounding.
Context (dx l acc : Z) (Hdx : (0 < dx)%Z) (Hl : (0 < l)%Z) (Hacc : (0 < acc)%Z).

(** The exponent. *)
Definition exponent : R := IZR dx * IZR l / (IZR acc * IZR acc).

Lemma exponent_pos : 0 < exponent.
Proof.
  unfold exponent. apply IZR_lt in Hdx, Hl, Hacc.
  apply Rdiv_lt_0_compat; by apply Rmult_lt_0_compat.
Qed.

Lemma ref_term_rounding k prev :
  0 <= IZR prev * (exponent / INR (S k)) - IZR (ref_term dx l acc (Z.of_nat (S k)) prev) < 1.
Proof.
  unfold ref_term. rewrite !Z.div_div by lia.
  pose proof (IZR_div_bounds (prev * dx * l) (Z.of_nat (S k) * (acc * acc)) ltac:(lia)) as H.
  rewrite !mult_IZR in H. rewrite (INR_IZR_INZ (S k)). unfold exponent.
  assert (0 < IZR (Z.of_nat (S k))) by (apply IZR_lt; lia). apply IZR_lt in Hacc.
  replace (IZR prev * (IZR dx * IZR l / (IZR acc * IZR acc) / IZR (Z.of_nat (S k))))
    with (IZR prev * IZR dx * IZR l / (IZR (Z.of_nat (S k)) * (IZR acc * IZR acc)))
    by (field; lra).
  rewrite Z.mul_assoc in *. exact H.
Qed.

Definition sgn (n : nat) : R := if Nat.even n then 1 else -1.

Lemma even_of_nat n : Z.even (Z.of_nat n) = Nat.even n.
Proof.
  induction n as [|n IH]; [done|]. rewrite Nat2Z.inj_succ, Z.even_succ, even_succ, <- Z.negb_even.
  by rewrite IH.
Qed.

(** How many of the terms behind the [k]-th have an even, or odd, index. *)
Fixpoint evens (k n : nat) : Z :=
  match n with O => 0 | S n => (if Nat.even (S k) then 1 else 0) + evens (S k) n end%Z.
Fixpoint odds (k n : nat) : Z :=
  match n with O => 0 | S n => (if Nat.even (S k) then 0 else 1) + odds (S k) n end%Z.

(** The sum the code computes behind a term differs from the real tail only by
    the roundings: one part at most for each term, upwards for the odd ones
    and downwards for the even ones. *)
Lemma ref_sum_rounding n k prev sum :
  let ks := Z.of_nat <$> seq (S k) n in
  ref_last dx l acc ks prev = 0%Z ->
  - IZR (evens k n)
  <= IZR (ref_sum dx l acc ks prev sum)
     - (IZR sum - sgn k * IZR prev * (1 - share exponent k))
  <= IZR (odds k n).
Proof.
  revert k prev sum. induction n as [|n IH]; intros k prev sum ks Hlast; unfold ks in *; clear ks.
  - cbn in Hlast. subst prev. simpl. rewrite Rmult_0_r, Rmult_0_l. lra.
  - cbn [seq fmap list_fmap ref_sum ref_last] in *.
    set (t := ref_term dx l acc (Z.of_nat (S k)) prev) in *.
    set (sum' := if Z.even (Z.of_nat (S k)) then (sum + t)%Z else (sum - t)%Z).
    specialize (IH (S k) t sum' Hlast).
    pose proof (ref_term_rounding k prev) as Hd. fold t in Hd.
    pose proof exponent_pos as Hx. pose proof (share_bounds exponent (S k) Hx) as Hs.
    rewrite (share_step exponent k Hx). cbn [evens odds]. rewrite !plus_IZR.
    set (rest := IZR (ref_sum dx l acc (Z.of_nat <$> seq (S (S k)) n) t sum')) in *.
    assert (IZR sum' = IZR sum + sgn (S k) * IZR t) as Hsum.
    { unfold sum', sgn. rewrite even_of_nat. destruct (Nat.even (S k));
        [rewrite plus_IZR | rewrite minus_IZR]; ring. }
    rewrite Hsum in IH.
    set (d := IZR prev * (exponent / INR (S k)) - IZR t) in *.
    assert (IZR prev * (1 - (1 - exponent / INR (S k) * share exponent (S k)))
            = (IZR t + d) * share exponent (S k)) as Hp by (unfold d; ring).
    rewrite Rmult_assoc, Hp.
    assert (0 <= d * share exponent (S k) <= 1) as Hds by nra.
    assert (sgn k = - sgn (S k)) as -> by (unfold sgn; rewrite even_succ; destruct (Nat.even k); simpl; ring).
    unfold sgn in *. destruct (Nat.even (S k)); lra.
Qed.
End Rounding.

(** ** The curve in billionths *)

Definition BILLION : Z := 1000000000.
(** [ln 2] as a [Perbill]. *)
Definition LN2_perbill : Z := 693147180.

Section Perbill.
(** [dx], the stake beyond the ideal, and the falloff, in parts. *)
Context (dx d : Z) (Hdx : (0 < dx <= BILLION)%Z) (Hd : (10000000 <= d <= BILLION)%Z).

Definition perbill_l : Z := LN2_perbill * BILLION / d.
Definition perbill_sum : Z := ref_sum dx perbill_l BILLION taylor_range BILLION BILLION.
(** How many falloffs the stake is beyond the ideal. *)
Definition falloffs : R := IZR dx / IZR d.

Lemma perbill_l_range : (LN2_perbill <= perbill_l <= 100 * BILLION)%Z.
Proof using Hd.
  unfold perbill_l, LN2_perbill, BILLION in *. split.
  - apply Z.div_le_lower_bound; lia.
  - apply Z.div_le_upper_bound; lia.
Qed.

Notation x := (exponent dx perbill_l BILLION).

Lemma perbill_sum_rounding :
  -149 <= IZR perbill_sum - IZR BILLION * exp (- x) <= 150.
Proof using Hdx Hd.
  pose proof perbill_l_range as Hl. unfold BILLION, LN2_perbill in *.
  pose proof (ref_sum_rounding dx perbill_l BILLION ltac:(lia) ltac:(lia) ltac:(done) 299 0
    BILLION BILLION) as H.
  specialize (H (ref_last_zero dx perbill_l ltac:(lia) ltac:(lia))).
  replace (evens 0 299) with 149%Z in H by (vm_compute; reflexivity).
  replace (odds 0 299) with 150%Z in H by (vm_compute; reflexivity).
  rewrite share_zero in H. unfold sgn in H. cbn [Nat.even] in H.
  unfold perbill_sum, taylor_range. unfold BILLION in *. lra.
Qed.

(** The exponent the code uses is at most the real one, and short of it by less
    than [1 + falloffs] billionths. *)
Lemma exponent_short :
  0 <= falloffs * ln 2 - x <= (falloffs + 1) / IZR BILLION.
Proof using Hdx Hd.
  unfold falloffs, exponent, perbill_l.
  pose proof (IZR_div_bounds (LN2_perbill * BILLION) d ltac:(lia)) as Hq.
  set (q := (LN2_perbill * BILLION / d)%Z) in *. rewrite mult_IZR in Hq.
  unfold BILLION, LN2_perbill in *. destruct ln_2_bounds as [Hlo Hhi].
  assert (0 < IZR dx) by (apply IZR_lt; lia). assert (IZR dx <= 1000000000) by (apply IZR_le; lia).
  assert (10000000 <= IZR d) by (apply IZR_le; lia).
  set (u := IZR dx / IZR d). assert (0 < u) by (apply Rdiv_lt_0_compat; lra).
  assert (IZR dx * (693147180 * 1000000000 / IZR d) = u * 693147180 * 1000000000) as Hu
    by (unfold u; field; lra).
  set (e := 693147180 * 1000000000 / IZR d - IZR q) in *.
  replace (IZR q) with (693147180 * 1000000000 / IZR d - e) by (unfold e; ring).
  rewrite Rmult_minus_distr_l, Hu.
  assert (0 <= IZR dx * e <= 1000000000) by nra.
  assert (0 <= u * (ln 2 - 693147180 / 1000000000) <= u * (1 / 1000000000)) by
    (split; [apply Rmult_le_pos; lra | apply Rmult_le_compat_l; lra]).
  replace ((u * 693147180 * 1000000000 - IZR dx * e) / (1000000000 * 1000000000))
    with (u * (693147180 / 1000000000) - IZR dx * e / (1000000000 * 1000000000)) by field.
  split; lra.
Qed.

(** Shortening the exponent costs at most two parts. *)
Lemma exponent_cost :
  0 <= IZR BILLION * exp (- x) - IZR BILLION * exp (- (falloffs * ln 2)) <= 2.
Proof using Hdx Hd.
  pose proof exponent_short as Hs. set (y := falloffs * ln 2) in *. set (z := x) in *.
  change (IZR BILLION) with 1000000000 in *.
  assert (0 < falloffs) as Hu.
  { unfold falloffs. apply Rdiv_lt_0_compat; apply IZR_lt; lia. }
  destruct ln_2_bounds as [Hlo Hhi].
  assert (exp (- y) = exp (- z) * exp (- (y - z))) as Hy by (rewrite <- exp_plus; f_equal; ring).
  pose proof (exp_pos (- z)) as Hp. pose proof (exp_ineq1_le (- (y - z))) as H1.
  pose proof (exp_ineq1_le z) as H2.
  assert (exp (- (y - z)) <= 1) as H3.
  { rewrite <- exp_0. destruct (Req_dec y z) as [He|];
      [rewrite He; replace (- (z - z)) with 0 by ring; lra|].
    apply Rlt_le, exp_increasing. lra. }
  assert (exp (- z) * exp z = 1) as Hx1 by (rewrite <- exp_plus, Rplus_opp_l; apply exp_0).
  rewrite Hy. split; [nra|].
  assert (exp (- z) * (1 - exp (- (y - z))) <= exp (- z) * (y - z)) as H4
    by (apply Rmult_le_compat_l; lra).
  assert (1000000000 * (y - z) * exp (- z) <= 2); [|lra].
  assert (1000000000 * (y - z) <= falloffs + 1) as H5 by lra.
  assert (falloffs * (693147180 / 1000000000) <= y) by (apply Rmult_le_compat_l; lra).
  assert (falloffs + 1 <= 2 * exp z) as H6 by lra.
  assert (1000000000 * (y - z) * exp (- z) <= 2 * exp z * exp (- z))
    by (apply Rmult_le_compat_r; lra). lra.
Qed.

Lemma perbill_sum_precise :
  -149 <= IZR perbill_sum - IZR BILLION * exp (- (falloffs * ln 2)) <= 152.
Proof using Hdx Hd. pose proof perbill_sum_rounding. pose proof exponent_cost. lra. Qed.

Lemma taylor_range_two : taylor_range = 1%Z :: 2%Z :: (Z.of_nat <$> seq 3 297).
Proof using Type. vm_compute. reflexivity. Qed.

Lemma ref_sum_two c l acc ks :
  ref_term c l acc 2 (ref_term c l acc 1 acc) = 0%Z ->
  ref_sum c l acc (1 :: 2 :: ks)%Z acc acc = (acc - ref_term c l acc 1 acc)%Z.
Proof using Type. intros Hz. cbn [ref_sum Z.even]. rewrite Hz, ref_sum_zero. ring. Qed.

(** The sum never leaves the range of the type. *)
Lemma perbill_sum_in_range : (perbill_sum <= BILLION)%Z.
Proof using Hdx Hd.
  pose proof perbill_l_range as Hl.
  destruct (Z.le_gt_cases (1000 * BILLION) (dx * perbill_l)) as [Hbig|Hsmall].
  - pose proof perbill_sum_rounding as Hr. apply le_IZR. set (z := x) in *.
    assert (1 / 1000000 <= z) as Hx.
    { unfold z, exponent. apply IZR_le in Hbig. rewrite !mult_IZR in Hbig.
      change (IZR BILLION) with 1000000000 in *. lra. }
    change (IZR BILLION) with 1000000000 in *.
    pose proof (exp_ineq1_le z) as H1. pose proof (exp_pos (- z)).
    assert (exp (- z) * exp z = 1) by (rewrite <- exp_plus, Rplus_opp_l; apply exp_0).
    assert (exp (- z) * (1 + 1 / 1000000) <= exp (- z) * exp z) by (apply Rmult_le_compat_l; lra).
    lra.
  - assert (0 <= dx * perbill_l)%Z by (unfold LN2_perbill in *; nia).
    set (a := ref_term dx perbill_l BILLION 1 BILLION).
    assert (0 <= a <= 1000)%Z as Ha.
    { unfold a, ref_term. rewrite Z.div_1_r, !Z.div_div by done. unfold BILLION in *.
      split; [apply Z.div_pos; nia | apply Z.div_le_upper_bound; nia]. }
    assert (ref_term dx perbill_l BILLION 2 a = 0)%Z as Hb.
    { unfold ref_term. rewrite !Z.div_div by done. unfold BILLION in *. apply Z.div_small. nia. }
    unfold perbill_sum. rewrite taylor_range_two, (ref_sum_two _ _ _ _ Hb). fold a. lia.
Qed.
End Perbill.

(** ** The code against the curve *)

(** [x / x_ideal] up to the ideal stake, [2^((x_ideal - x) / d)] beyond it. *)
Definition curve (x x_ideal d : R) : R :=
  if Rle_dec x x_ideal then x / x_ideal else Rpower 2 ((x_ideal - x) / d).
(** The rate [i_0 + (i_ideal * x_ideal - i_0) * curve]. *)
Definition inflation_rate (i_0 i_ideal x x_ideal d : R) : R :=
  i_0 + Rmax 0 (i_ideal * x_ideal - i_0) * curve x x_ideal d.

(** A [Perbill] as a real number. *)
Definition fraction (p : Z) : R := IZR (deconstruct (P := Z) p) / IZR BILLION.

Section Code.
Context {B : Type} `{!BigUint B, !BigUintLaws B}.

Lemma perbill_range (p : Z) : (0 <= deconstruct (P := Z) p <= BILLION)%Z.
Proof using Type. exact (deconstruct_range p). Qed.

Lemma perbill_ln2 : deconstruct (from_rational (P := Z) LN2 Perquintill_ACCURACY) = LN2_perbill.
Proof using Type. vm_compute. reflexivity. Qed.

Lemma perbill_series s i d : inflation_series (P := Z) s i d = Z.max 0 (perbill_sum (s - i) d).
Proof using Type.
  unfold inflation_series, perbill_sum, perbill_l. cbv zeta. rewrite perbill_ln2.
  by change (ACCURACY (P := Z)) with BILLION.
Qed.

Lemma perbill_div (p q : Z) :
  (deconstruct (P := Z) p <= deconstruct (P := Z) q)%Z -> (0 < deconstruct (P := Z) q)%Z ->
  deconstruct (P := Z) (pt_div p q)
  = (deconstruct (P := Z) p * BILLION / deconstruct (P := Z) q)%Z.
Proof using Type.
  cbn [deconstruct pt_div Perbill_parts parts_instance]. change 1000000000%Z with BILLION.
  intros Hpq Hq. cbv zeta.
  replace (Z.max (Z.min q BILLION) 1) with (Z.max 0 (Z.min q BILLION)) by lia.
  replace (Z.min p (Z.max 0 (Z.min q BILLION))) with (Z.min p BILLION)
    by (unfold BILLION in *; lia).
  set (b := Z.max 0 (Z.min q BILLION)) in *. set (a := Z.max 0 (Z.min p BILLION)) in *.
  assert (0 <= a * BILLION / b <= BILLION)%Z; [|lia].
  split; [apply Z.div_pos; unfold a, BILLION; lia|].
  apply Z.div_le_upper_bound; [done|]. unfold BILLION in *. nia.
Qed.

Lemma curve_range x xi d : 0 < xi -> 0 <= x -> 0 < d -> 0 <= curve x xi d <= 1.
Proof using Type.
  intros Hxi Hx Hd. unfold curve. destruct (Rle_dec x xi) as [Hle|Hgt].
  - split; [by apply Rle_mult_inv_pos|]. apply (Rmult_le_reg_r xi); [done|].
    unfold Rdiv. rewrite Rmult_assoc, Rinv_l; lra.
  - unfold Rpower. split; [apply Rlt_le, exp_pos|]. rewrite <- exp_0.
    destruct ln_2_bounds. assert ((xi - x) / d < 0).
    { assert (0 < (x - xi) / d) by (apply Rdiv_lt_0_compat; lra). unfold Rdiv in *. lra. }
    apply Rlt_le, exp_increasing. nra.
Qed.

Lemma clipped_precise (v : Z) (e : R) :
  (v <= BILLION)%Z -> 0 < e -> -149 <= IZR v - IZR BILLION * e <= 152 ->
  -152 <= IZR (if decide (Z.max 0 v <= BILLION)%Z then Z.max 0 v else 0%Z) - IZR BILLION * e <= 152.
Proof using Type.
  intros Hv He Hp. rewrite decide_True by (unfold BILLION in *; lia).
  change (IZR BILLION) with 1000000000 in *.
  destruct (Z.max_spec 0 v) as [[Hm ->]|[Hm ->]]; [lra|]. apply IZR_le in Hm. lra.
Qed.

(** The curve of the code is within 152 billionths of the documented one. *)
Lemma compute_inflation_precise (stake ideal_stake falloff : Z) :
  (0 < deconstruct (P := Z) ideal_stake)%Z ->
  (10000000 <= deconstruct (P := Z) falloff)%Z ->
  let v := deconstruct (P := Z) (compute_inflation (P := Z) (B := B) stake ideal_stake falloff) in
  -152 <= IZR v - IZR BILLION * curve (fraction stake) (fraction ideal_stake) (fraction falloff)
  <= 152.
Proof using BigUintLaws0.
  intros Hi Hf v. unfold v. rewrite compute_inflation_val. unfold fraction.
  pose proof (perbill_range stake) as Hs. pose proof (perbill_range ideal_stake) as Hi'.
  pose proof (perbill_range falloff) as Hf'.
  set (s := deconstruct (P := Z) stake) in *. set (i := deconstruct (P := Z) ideal_stake) in *.
  set (d := deconstruct (P := Z) falloff) in *.
  change (ACCURACY (P := Z)) with BILLION. unfold curve.
  assert (0 < IZR i) as Hir by by apply IZR_lt. assert (0 < IZR d) as Hdr by (apply IZR_lt; lia).
  assert (IZR s / IZR BILLION <= IZR i / IZR BILLION <-> (s <= i)%Z) as Hsi.
  { split; intros H; [apply le_IZR | apply IZR_le in H]; change (IZR BILLION) with 1000000000 in *; lra. }
  destruct (decide (s <= i)%Z) as [Hle|Hgt], (Rle_dec _ _) as [Hr|Hr]; try (exfalso; tauto).
  - assert (deconstruct (P := Z) (pt_div stake ideal_stake) = (s * BILLION / i)%Z) as ->.
    { apply perbill_div; lia. }
    pose proof (IZR_div_bounds (s * BILLION) i Hi) as H. rewrite mult_IZR in H.
    replace (IZR BILLION * (IZR s / IZR BILLION / (IZR i / IZR BILLION)))
      with (IZR s * IZR BILLION / IZR i)
      by (field; change (IZR BILLION) with 1000000000; lra).
    lra.
  - rewrite decide_False by (change (BILLION / 100)%Z with 10000000%Z; lia).
    rewrite perbill_series. unfold Rpower.
    replace ((IZR i / IZR BILLION - IZR s / IZR BILLION) / (IZR d / IZR BILLION) * ln 2)
      with (- (falloffs (s - i) d * ln 2))
      by (unfold falloffs; rewrite minus_IZR; field; change (IZR BILLION) with 1000000000; lra).
    apply clipped_precise; [|apply exp_pos|]; [apply perbill_sum_in_range | apply perbill_sum_precise];
      unfold BILLION in *; lia.
Qed.

Lemma perbill_mul (p q : Z) :
  deconstruct (P := Z) (pt_mul p q)
  = (deconstruct (P := Z) p * deconstruct (P := Z) q / BILLION)%Z.
Proof using Type.
  pose proof (perbill_range p). pose proof (perbill_range q).
  cbn [deconstruct pt_mul Perbill_parts parts_instance] in *. change 1000000000%Z with BILLION in *.
  set (a := Z.max 0 (Z.min p BILLION)) in *. set (b := Z.max 0 (Z.min q BILLION)) in *.
  assert (0 <= a * b / BILLION <= BILLION)%Z; [|lia].
  split; [apply Z.div_pos; unfold BILLION; nia|]. apply Z.div_le_upper_bound; unfold BILLION in *; nia.
Qed.

Lemma Rmax_scale y : Rmax 0 (1000000000 * y) = 1000000000 * Rmax 0 y.
Proof using Type. rewrite <- (RmaxRmult 0 y) by lra. by rewrite Rmult_0_r. Qed.

(** What rounding does to [a + max(0, n - a) * k]. *)
Lemma rate_rounding (a n v : Z) (N k : R) :
  (0 <= a <= BILLION)%Z -> (0 <= n <= BILLION)%Z -> (0 <= v <= BILLION)%Z ->
  0 <= N - IZR n <= 1 -> 0 <= k <= 1 -> -152 <= IZR v - IZR BILLION * k <= 152 ->
  -154 <= IZR (Z.min (a + Z.max (n - a) 0 * v / BILLION) BILLION)
          - (IZR a + Rmax 0 (N - IZR a) * k) <= 154.
Proof using Type.
  intros Ha Hn Hv HN Hk Hp. set (m := Z.max (n - a) 0).
  assert (0 <= m <= BILLION - a)%Z as Hm by lia.
  assert (0 <= m * v / BILLION <= m)%Z as Hr.
  { split; [apply Z.div_pos; unfold BILLION in *; nia|].
    apply Z.div_le_upper_bound; unfold BILLION in *; nia. }
  rewrite Z.min_l, plus_IZR by lia.
  pose proof (IZR_div_bounds (m * v) BILLION ltac:(done)) as Hq. rewrite mult_IZR in Hq.
  assert (0 <= Rmax 0 (N - IZR a) - IZR m <= 1) as HM.
  { unfold m. apply (Rmax_case_strong 0 (N - IZR a)); intros Hc;
      destruct (Z.max_spec (n - a) 0) as [[Hz ->]|[Hz ->]]; rewrite ?minus_IZR; try lra.
    - apply IZR_le in Hz. rewrite minus_IZR in Hz. lra.
    - apply IZR_lt in Hz. rewrite minus_IZR in Hz. lra. }
  set (M := Rmax 0 (N - IZR a)) in *.
  assert (0 <= IZR m <= 1000000000) as HmR by (split; apply IZR_le; unfold BILLION in *; lia).
  change (IZR BILLION) with 1000000000 in *.
  assert (-152 <= IZR m * IZR v / 1000000000 - IZR m * k <= 152) as Hmv.
  { replace (IZR m * IZR v / 1000000000 - IZR m * k)
      with (IZR m / 1000000000 * (IZR v - 1000000000 * k)) by field.
    assert (0 <= IZR m / 1000000000 <= 1) by lra. nra. }
  assert (0 <= (M - IZR m) * k <= 1) by nra. lra.
Qed.
End Code.

(** The rate of the code against the documented curve. *)
Lemma rate_precise {B} `{!BigUint B, !BigUintLaws B} (i_0 i_ideal x x_ideal d : Z) :
  (0 < deconstruct (P := Z) x_ideal)%Z -> (10000000 <= deconstruct (P := Z) d)%Z ->
  Rabs (IZR (deconstruct (P := Z) (compute_i_npos (P := Z) (B := B) i_0 i_ideal x x_ideal d))
        - IZR BILLION * inflation_rate (fraction i_0) (fraction i_ideal) (fraction x)
                          (fraction x_ideal) (fraction d)) <= 154.
Proof.
  intros Hi Hd. unfold compute_i_npos.
  rewrite pt_saturating_add_deconstruct, perbill_mul, pt_saturating_sub_deconstruct, perbill_mul.
  pose proof (compute_inflation_precise (B := B) x x_ideal d Hi Hd) as Hp. cbv zeta in Hp.
  set (v := deconstruct (P := Z) (compute_inflation x x_ideal d)) in *.
  assert (0 <= v <= BILLION)%Z as Hv by apply perbill_range.
  pose proof (perbill_range i_0) as Ha. pose proof (perbill_range i_ideal) as HI.
  pose proof (perbill_range x_ideal) as Hx. pose proof (perbill_range x) as Hxs.
  change (ACCURACY (P := Z)) with BILLION. unfold inflation_rate.
  assert (0 <= curve (fraction x) (fraction x_ideal) (fraction d) <= 1) as Hk.
  { unfold fraction. apply curve_range.
    - apply Rdiv_lt_0_compat; by apply IZR_lt.
    - apply Rle_mult_inv_pos; [apply IZR_le|apply IZR_lt]; unfold BILLION in *; lia.
    - apply Rdiv_lt_0_compat; apply IZR_lt; unfold BILLION in *; lia. }
  set (k := curve _ _ _) in *. clearbody k v. unfold fraction.
  set (a := deconstruct (P := Z) i_0) in *. set (I := deconstruct (P := Z) i_ideal) in *.
  set (c := deconstruct (P := Z) x_ideal) in *. clearbody a I c.
  pose proof (IZR_div_bounds (I * c) BILLION ltac:(done)) as Hq. rewrite mult_IZR in Hq.
  assert (0 <= I * c / BILLION <= BILLION)%Z as Hn.
  { split; [apply Z.div_pos; unfold BILLION in *; nia|].
    apply Z.div_le_upper_bound; unfold BILLION in *; nia. }
  pose proof (rate_rounding a (I * c / BILLION) v (IZR I * IZR c / IZR BILLION) k Ha Hn Hv
    ltac:(lra) Hk Hp) as Hr.
  apply Rabs_le. change (IZR BILLION) with 1000000000 in *.
  replace (1000000000 * (IZR a / 1000000000
      + Rmax 0 (IZR I / 1000000000 * (IZR c / 1000000000) - IZR a / 1000000000) * k))
    with (IZR a + Rmax 0 (IZR I * IZR c / 1000000000 - IZR a) * k); [lra|].
  replace (IZR I * IZR c / 1000000000 - IZR a)
    with (1000000000 * (IZR I / 1000000000 * (IZR c / 1000000000) - IZR a / 1000000000)) by field.
  rewrite Rmax_scale. field.
Qed.

(** [C9] The inflation rate of a round is the documented curve to within 154
    billionths: [i_0] and, of what the ideal rate exceeds it by, the share
    [x / x_ideal] up to the ideal stake and [2^((x_ideal - x) / d)] beyond it.
    The truncated constant, the rounding of every term, the 299 iterations and
    the saturations of the fixed-point arithmetic together cost no more, for
    every stake, every ideal stake but zero and every falloff of at least one
    percent. *)
Theorem compute_i_npos_precise {B} `{!BigUint B, !BigUintLaws B} (i_0 i_ideal x x_ideal d : Z) :
  (0 < deconstruct (P := Z) x_ideal)%Z -> (10000000 <= deconstruct (P := Z) d)%Z ->
  Rabs (IZR (deconstruct (P := Z) (compute_i_npos (P := Z) (B := B) i_0 i_ideal x x_ideal d))
        - IZR BILLION * inflation_rate (fraction i_0) (fraction i_ideal) (fraction x)
                          (fraction x_ideal) (fraction d)) <= 154.
Proof. apply rate_precise. Qed.

(** ** The payout *)

(** The curve is nowhere steeper than a hundred, as long as the ideal stake and
    the falloff are at least one percent. *)
Lemma exp_opp_lipschitz a b : 0 <= a <= b -> 0 <= exp (- a) - exp (- b) <= b - a.
Proof.
  intros [Ha Hb]. assert (exp (- b) = exp (- a) * exp (- (b - a))) as E by (rewrite <- exp_plus; f_equal; ring).
  pose proof (exp_pos (- a)). pose proof (exp_ineq1_le (- (b - a))). pose proof (exp_ineq1_le a) as H1.
  assert (exp (- a) * exp a = 1) by (rewrite <- exp_plus, Rplus_opp_l; apply exp_0).
  assert (exp (- (b - a)) <= 1).
  { pose proof (exp_ineq1_le (b - a)).
    assert (exp (- (b - a)) * exp (b - a) = 1) by (rewrite <- exp_plus, Rplus_opp_l; apply exp_0).
    pose proof (exp_pos (- (b - a))). nra. }
  assert (exp (- a) <= 1) by nra. rewrite E. split; nra.
Qed.

Lemma curve_beyond x xi d : xi <= x -> 0 < xi -> 0 < d -> curve x xi d = exp (- ((x - xi) * (ln 2 / d))).
Proof.
  intros Hx Hxi Hd. unfold curve. destruct (Rle_dec x xi).
  - assert (x = xi) as -> by lra. replace (- ((xi - xi) * (ln 2 / d))) with 0 by (field; lra).
    rewrite exp_0. field. lra.
  - unfold Rpower. f_equal. field. lra.
Qed.

Lemma slope_bound y d : 1 / 100 <= d -> 0 <= y -> 0 <= y * (ln 2 / d) <= 100 * y.
Proof.
  intros Hd Hy. destruct ln_2_bounds.
  assert (0 <= ln 2 / d <= 100); [|nra].
  split; [apply Rle_mult_inv_pos; lra|]. apply (Rmult_le_reg_r d); [lra|].
  unfold Rdiv. rewrite Rmult_assoc, Rinv_l by lra. lra.
Qed.

Lemma ratio_bound y xi : 1 / 100 <= xi -> 0 <= y -> 0 <= y / xi <= 100 * y.
Proof.
  intros Hxi Hy. split; [apply Rle_mult_inv_pos; lra|]. apply (Rmult_le_reg_r xi); [lra|].
  unfold Rdiv. rewrite Rmult_assoc, Rinv_l by lra. nra.
Qed.

Lemma curve_lipschitz x y xi d :
  1 / 100 <= xi -> 1 / 100 <= d -> 0 <= x <= y ->
  - (100 * (y - x)) <= curve y xi d - curve x xi d <= 100 * (y - x).
Proof.
  intros Hxi Hd [Hx Hy].
  assert (forall z, z <= xi -> curve z xi d = z / xi) as Hlow.
  { intros z Hz. unfold curve. by destruct (Rle_dec z xi). }
  destruct (Rle_dec y xi) as [Hyi|Hyi].
  - rewrite !Hlow by lra. pose proof (ratio_bound (y - x) xi Hxi ltac:(lra)) as H.
    replace (y / xi - x / xi) with ((y - x) / xi) by (field; lra). lra.
  - pose proof (slope_bound (y - xi) d Hd ltac:(lra)) as Hs.
    rewrite (curve_beyond y) by lra. destruct (Rle_dec x xi) as [Hxx|Hxx].
    + rewrite Hlow by lra. pose proof (ratio_bound (xi - x) xi Hxi ltac:(lra)) as H.
      replace ((xi - x) / xi) with (1 - x / xi) in H by (field; lra).
      pose proof (exp_opp_lipschitz 0 _ ltac:(split; [lra|apply Hs])) as He.
      rewrite Ropp_0, exp_0 in He. lra.
    + rewrite (curve_beyond x) by lra. pose proof (slope_bound (x - xi) d Hd ltac:(lra)) as H.
      pose proof (slope_bound (y - x) d Hd ltac:(lra)) as H'.
      pose proof (exp_opp_lipschitz ((x - xi) * (ln 2 / d)) ((y - xi) * (ln 2 / d)) ltac:(lra)) as He. lra.
Qed.

(** The rate lies between nothing and everything, and moves at most as the curve. *)
Lemma rate_range i_0 i_ideal x x_ideal d :
  0 <= i_0 <= 1 -> 0 <= i_ideal <= 1 -> 0 < x_ideal <= 1 -> 0 <= x -> 0 < d ->
  0 <= inflation_rate i_0 i_ideal x x_ideal d <= 1.
Proof.
  intros H0 Hi Hx Hxs Hd. unfold inflation_rate.
  pose proof (curve_range x x_ideal d ltac:(lra) Hxs Hd) as Hk.
  assert (0 <= i_ideal * x_ideal <= 1) by nra.
  assert (0 <= Rmax 0 (i_ideal * x_ideal - i_0) <= 1 - i_0) by (apply Rmax_case_strong; lra). nra.
Qed.
Lemma rate_lipschitz_le i_0 i_ideal x y x_ideal d :
  0 <= i_0 <= 1 -> 0 <= i_ideal <= 1 -> 1 / 100 <= x_ideal <= 1 -> 1 / 100 <= d -> 0 <= x <= y ->
  Rabs (inflation_rate i_0 i_ideal x x_ideal d - inflation_rate i_0 i_ideal y x_ideal d) <= 100 * (y - x).
Proof.
  intros H0 Hi Hx Hd Hxy. unfold inflation_rate. pose proof (curve_lipschitz x y x_ideal d ltac:(lra) Hd Hxy).
  assert (0 <= i_ideal * x_ideal <= 1) by nra.
  assert (0 <= Rmax 0 (i_ideal * x_ideal - i_0) <= 1) by (apply Rmax_case_strong; lra).
  set (c := curve x x_ideal d) in *. set (c' := curve y x_ideal d) in *. apply Rabs_le. nra.
Qed.
Lemma rate_lipschitz i_0 i_ideal x y x_ideal d :
  0 <= i_0 <= 1 -> 0 <= i_ideal <= 1 -> 1 / 100 <= x_ideal <= 1 -> 1 / 100 <= d -> 0 <= x -> 0 <= y ->
  Rabs (inflation_rate i_0 i_ideal x x_ideal d - inflation_rate i_0 i_ideal y x_ideal d)
  <= 100 * Rabs (y - x).
Proof.
  intros H0 Hi Hx Hd Hx0 Hy0. destruct (Rle_dec x y) as [Hxy|Hxy].
  - rewrite (Rabs_pos_eq (y - x)) by lra. by apply rate_lipschitz_le.
  - rewrite Rabs_minus_sym, (Rabs_minus_sym y), (Rabs_pos_eq (x - y)) by lra.
    apply rate_lipschitz_le; lra.
Qed.

(** Ratios as a [Perbill]: within two billionths, and exact for the parameters. *)
Lemma fraction_ratio p q : (0 <= p <= q)%Z -> (0 < q)%Z ->
  - (2 / 1000000000) <= IZR p / IZR q - fraction (from_rational (P := Z) p q) <= 2 / 1000000000.
Proof.
  intros Hp Hq. unfold fraction. assert (Z.max q 1 = q) as Em by lia.
  pose proof (from_rational_down (P := Z) p q ltac:(lia)) as Hd.
  pose proof (from_rational_near (P := Z) p q ltac:(lia)) as Hn.
  rewrite Em in Hd, Hn. change (ACCURACY (P := Z)) with 1000000000%Z in *. change (IZR BILLION) with 1000000000.
  set (part := deconstruct (P := Z) _) in *.
  assert (part * q <= (p * 1000000000 + 2 * q))%Z as Hd' by lia.
  apply IZR_le in Hd', Hn. rewrite ?plus_IZR, ?mult_IZR, ?plus_IZR in *.
  assert (0 < IZR q) as Hq' by by apply IZR_lt. set (r := IZR p / IZR q).
  assert (IZR p = r * IZR q) as E by (unfold r; field; lra). rewrite E in *.
  assert (r * 1000000000 <= IZR part + 2) by (apply (Rmult_le_reg_r (IZR q)); lra).
  assert (IZR part <= r * 1000000000 + 2) by (apply (Rmult_le_reg_r (IZR q)); lra). lra.
Qed.
Lemma fraction_exact p q : (0 <= p <= q)%Z -> (0 < q)%Z -> (BILLION mod q = 0)%Z ->
  fraction (from_rational (P := Z) p q) = IZR p / IZR q.
Proof.
  intros Hp Hq Hm. unfold fraction. rewrite from_rational_deconstruct; [|done|].
  - change (ACCURACY (P := Z)) with BILLION. pose proof (Z.div_exact BILLION q ltac:(lia)) as [_ E].
    specialize (E Hm). set (k := (BILLION / q)%Z) in *.
    assert (p * BILLION / q = p * k)%Z as ->.
    { rewrite E. replace (p * (q * k))%Z with (p * k * q)%Z by ring. apply Z.div_mul. lia. }
    assert (0 < IZR q) by by apply IZR_lt. assert (0 < IZR k) by (apply IZR_lt; unfold BILLION in *; nia).
    rewrite E, !mult_IZR. field. lra.
  - split; [done|]. change (ACCURACY (P := Z)) with BILLION.
    destruct (Z.le_gt_cases q BILLION); [done|]. rewrite Z.mod_small in Hm; unfold BILLION in *; lia.
Qed.
Lemma mul_balance_real (p n : Z) : (0 <= n)%Z ->
  -1/2 <= IZR (pt_mul_balance (P := Z) p n) - fraction p * IZR n <= 1/2.
Proof.
  intros Hn. pose proof (pt_mul_balance_nearest (P := Z) p n Hn) as H. change (ACCURACY (P := Z)) with BILLION in H.
  assert (- BILLION <= 2 * (BILLION * pt_mul_balance (P := Z) p n - deconstruct (P := Z) p * n) <= BILLION)%Z
    as [H1 H2] by lia.
  apply IZR_le in H1, H2. rewrite ?mult_IZR, ?minus_IZR, ?mult_IZR, opp_IZR in *. unfold fraction.
  change (IZR BILLION) with 1000000000 in *. lra.
Qed.

Lemma Rabs_bounds a b : Rabs a <= b -> - b <= a <= b.
Proof. intros H. unfold Rabs in H. destruct (Rcase_abs a); lra. Qed.

(** The parameters in percent. *)
Lemma percent_parts k : (1 <= k <= 100)%Z ->
  (10000000 <= deconstruct (P := Z) (from_rational (P := Z) k 100))%Z.
Proof.
  intros Hk. rewrite from_rational_deconstruct by (change (ACCURACY (P := Z)) with 1000000000%Z; lia).
  change (ACCURACY (P := Z)) with 1000000000%Z. apply Z.div_le_lower_bound; lia.
Qed.
Lemma percent_pos k : (1 <= k <= 100)%Z -> (0 < deconstruct (P := Z) (from_rational (P := Z) k 100))%Z.
Proof. intros Hk. pose proof (percent_parts k Hk). lia. Qed.
Lemma percent_exact k : (0 <= k <= 100)%Z -> fraction (from_rational (P := Z) k 100) = IZR k / 100.
Proof. intros Hk. by apply fraction_exact. Qed.
Lemma fraction_unit (p : Z) : 0 <= fraction p <= 1.
Proof.
  destruct (perbill_range p) as [H0 H1]. apply IZR_le in H0, H1. unfold fraction.
  change (IZR BILLION) with 1000000000 in *. lra.
Qed.

(** How the errors of the rate [r], of the portion [q] and of two roundings add up. *)
Lemma payout_rounding T A p r q R0 Q :
  0 <= T -> 0 <= q <= 1 -> 0 <= R0 <= 1 -> -1/2 <= A - r * T <= 1/2 -> -1/2 <= p - q * A <= 1/2 ->
  - (354 / 1000000000) <= r - R0 <= 354 / 1000000000 ->
  - (2 / 1000000000) <= Q - q <= 2 / 1000000000 ->
  Rabs (p - T * R0 * Q) <= T * (356 / 1000000000) + 1.
Proof.
  intros HT Hq HR HA Hp Hr HQ.
  replace (p - T * R0 * Q) with ((p - q * A) + q * (A - r * T) + q * (T * (r - R0)) - T * (R0 * (Q - q)))
    by ring.
  assert (-1/2 <= q * (A - r * T) <= 1/2) by nra.
  assert (- (T * (354 / 1000000000)) <= T * (r - R0) <= T * (354 / 1000000000)) as Hm by (split; nra).
  assert (- (T * (354 / 1000000000)) <= q * (T * (r - R0)) <= T * (354 / 1000000000)) by (split; nra).
  assert (- (T * (2 / 1000000000)) <= T * (R0 * (Q - q)) <= T * (2 / 1000000000)).
  { assert (- (2 / 1000000000) <= R0 * (Q - q) <= 2 / 1000000000) by (split; nra). split; nra. }
  apply Rabs_le. lra.
Qed.

(** [C10] The payout of a round is the documented one: the issuance, times the
    inflation rate at the staked share, times the round's share of a Julian year,
    to within 356 billionths of the issuance and one unit.  This is for
    parameters in the ranges of their units, the ideal stake and the falloff of
    at least one percent. *)
Theorem compute_total_payout_precise {B} `{!BigUint B, !BigUintLaws B}
    (staked total i_0 i_ideal x_ideal d duration : Z) :
  (0 <= staked <= total)%Z -> (0 < total)%Z -> (0 <= i_0 <= 1000)%Z -> (0 <= i_ideal <= 100)%Z ->
  (1 <= x_ideal <= 100)%Z -> (1 <= d <= 100)%Z -> (0 <= duration <= MILLISECONDS_PER_YEAR)%Z ->
  Rabs (IZR (compute_total_payout (P := Z) (B := B) staked total i_0 i_ideal x_ideal d duration)
        - IZR total
          * inflation_rate (IZR i_0 / 1000) (IZR i_ideal / 100) (IZR staked / IZR total)
              (IZR x_ideal / 100) (IZR d / 100)
          * (IZR duration / IZR MILLISECONDS_PER_YEAR))
  <= IZR total * (356 / 1000000000) + 1.
Proof.
  intros Hs Ht H0 Hi Hx Hd Hdur. unfold compute_total_payout. cbv zeta.
  pose proof (fraction_ratio staked total Hs Ht) as Hf.
  pose proof (fraction_ratio duration MILLISECONDS_PER_YEAR Hdur ltac:(done)) as Hq.
  assert (fraction (from_rational (P := Z) i_0 1000) = IZR i_0 / 1000) as E0 by by apply fraction_exact.
  pose proof (rate_precise (B := B) (from_rational i_0 1000) (from_rational i_ideal 100)
    (from_rational staked total) (from_rational x_ideal 100) (from_rational d 100)
    (percent_pos x_ideal Hx) (percent_parts d Hd)) as Hr.
  rewrite E0, !percent_exact in Hr by lia.
  set (rate := compute_i_npos _ _ _ _ _) in *. set (portion := from_rational duration _) in *.
  pose proof (mul_balance_real rate total ltac:(lia)) as HA.
  pose proof (pt_mul_balance_le (P := Z) rate total ltac:(lia)) as [HA0 _].
  pose proof (mul_balance_real portion (pt_mul_balance rate total) HA0) as HP.
  destruct Hs as [Hs0 Hs1], H0 as [H00 H01], Hi as [Hi0 Hi1], Hx as [Hx0 Hx1], Hd as [Hd0 Hd1].
  apply IZR_le in Hs0, Hs1, H00, H01, Hi0, Hi1, Hx0, Hx1, Hd0, Hd1. apply IZR_lt in Ht.
  assert (0 <= IZR staked / IZR total) as Hst by by apply Rle_mult_inv_pos.
  set (x := fraction (from_rational staked total)) in *.
  pose proof (rate_lipschitz (IZR i_0 / 1000) (IZR i_ideal / 100) x (IZR staked / IZR total)
    (IZR x_ideal / 100) (IZR d / 100) ltac:(lra) ltac:(lra) ltac:(lra) ltac:(lra)
    (proj1 (fraction_unit _)) Hst) as HL.
  pose proof (rate_range (IZR i_0 / 1000) (IZR i_ideal / 100) (IZR staked / IZR total)
    (IZR x_ideal / 100) (IZR d / 100) ltac:(lra) ltac:(lra) ltac:(lra) ltac:(lra) ltac:(lra)) as HR.
  set (r0 := inflation_rate _ _ x _ _) in *. set (R0 := inflation_rate _ _ _ _ _) in *.
  apply (payout_rounding _ (IZR (pt_mul_balance rate total)) _ (fraction rate) (fraction portion));
    [lra|apply fraction_unit|done..| |done].
  unfold fraction in *. change (IZR BILLION) with 1000000000 in *.
  assert (Rabs (IZR staked / IZR total - x) <= 2 / 1000000000) by (apply Rabs_le; lra).
  apply Rabs_bounds in Hr, HL. lra.
Qed.

(** ** The reference of the tests *)

(** [float_i_npos] of inflation.rs, on real numbers instead of floats. *)
Definition float_i_npos (interest_min interest_ideal stake ideal_stake falloff : R) : R :=
  let x_ideal := ideal_stake in
  let x := stake in
  let d := falloff in
  let i_0 := if Rlt_dec (interest_ideal * x_ideal) interest_min
             then (interest_ideal * x_ideal) / 10 else interest_min in
  if Rlt_dec x x_ideal then i_0 + (interest_ideal * x_ideal - i_0) * (x / x_ideal)
  else i_0 + (interest_ideal * x_ideal - i_0) * Rpower 2 ((x_ideal - x) / d).

(** The two curves agree as long as the minimal rate is at most the ideal one;
    above it the tests' reference falls back to a tenth of the ideal rate, where
    the code keeps the minimal rate. *)
Theorem float_i_npos_agrees i_0 i_ideal x x_ideal d :
  0 < x_ideal -> 0 < d ->
  (i_0 <= i_ideal * x_ideal ->
   float_i_npos i_0 i_ideal x x_ideal d = inflation_rate i_0 i_ideal x x_ideal d) /\
  (i_ideal * x_ideal < i_0 -> inflation_rate i_0 i_ideal x x_ideal d = i_0).
Proof.
  intros Hx Hd. unfold float_i_npos, inflation_rate, curve. split; intros Hi.
  - destruct (Rlt_dec (i_ideal * x_ideal) i_0); [lra|]. rewrite Rmax_right by lra.
    destruct (Rlt_dec x x_ideal), (Rle_dec x x_ideal); try lra.
    assert (x = x_ideal) as -> by lra.
    replace ((x_ideal - x_ideal) / d) with 0 by (field; lra). rewrite Rpower_O by lra. field. lra.
  - rewrite Rmax_left by lra. ring.
Qed.

(** A rate between 2.5 and 20 percent, an ideal stake of a half, and a stake two
    falloffs beyond it. *)
Lemma compute_i_npos_precise_witness :
  Rabs (IZR (deconstruct (P := Z) (compute_i_npos (P := Z) (B := Limbs)
               25000000%Z 200000000%Z 600000000%Z 500000000%Z 50000000%Z))
        - IZR BILLION * inflation_rate (fraction 25000000%Z) (fraction 200000000%Z)
            (fraction 600000000%Z) (fraction 500000000%Z) (fraction 50000000%Z)) <= 154.
Proof.
  refine (compute_i_npos_precise (B := Limbs) 25000000%Z 200000000%Z 600000000%Z 500000000%Z 50000000%Z _ _);
    vm_compute; [reflexivity|discriminate].
Defined.

(** Three fifths of an issuance of [10^27] staked, for a round of an hour. *)
Lemma compute_total_payout_precise_witness :
  let total := (10 ^ 27)%Z in let staked := (6 * 10 ^ 26)%Z in
  Rabs (IZR (perbill_payout staked total 25 20 50 5 HOUR)
        - IZR total
          * inflation_rate (25 / 1000) (20 / 100) (IZR staked / IZR total) (50 / 100) (5 / 100)
          * (IZR HOUR / IZR MILLISECONDS_PER_YEAR))
  <= IZR total * (356 / 1000000000) + 1.
Proof.
  intros total staked.
  refine (compute_total_payout_precise (B := Limbs) staked total 25 20 50 5 HOUR _ _ _ _ _ _ _);
    vm_compute; repeat split; discriminate.
Defined.
