(* ===== verification/StakingPallet.v ===== *)
(** * The staking pallet: storage, dispatchables and genesis

    [pallets/polkafoundry-staking/src/lib.rs]: the configuration (lines 48 to
    83), the storage items (1283 to 1354), errors and events (1356 to 1402),
    the dispatchables (648 to 975) and the genesis build (601 to 646).  A
    dispatchable is a monadic program on [State]; the state it leaves behind on
    an error is part of its result. *)
From S2P Require Import Prelude StakingTypes Externals.

(** [trait Config], with the external types it names as functions. *)
Class Config := {
  BlocksPerRound : Z;
  MAX_COLLATORS_PER_NOMINATOR : Z;
  MaxNominationsPerCollator : Z;
  BondDuration : RoundIndex;
  MinCollatorStake : Balance;
  MinNominatorStake : Balance;
  PayoutDuration : RoundIndex;
  DesiredTarget : Z;
  (** [ElectionProvider::elect], [None] for an error *)
  elect : ElectionDataProvider -> option (Supports * Weight);
  (** [CurrencyToVote] *)
  to_vote : Balance -> Balance -> Z;
  to_currency : Z -> Balance -> Balance;
  (** [DbWeight::get().reads(n)] *)
  db_reads : Z -> Weight;
}.

Inductive Error :=
  | AlreadyBonded | AlreadyInQueue | BondNotExist | Underflow | BondBelowMin | NominateBelowMin
  | CandidateNotExist | TooManyCandidates | NominationNotExist | AlreadyNominatedCollator
  | TooManyNominations | CandidateNotActive | AlreadyLeaving.

Inductive Event :=
  | Bonded (who : AccountId) (amount : Balance)
  | BondExtra (who : AccountId) (amount : Balance)
  | BondLess (who : AccountId) (amount : Balance)
  | Nominate (candidate : AccountId) (amount : Balance)
  | NominateExtra (candidate : AccountId) (amount : Balance)
  | NominateLess (candidate : AccountId) (amount : Balance)
  | CandidateOnboard (candidate : AccountId)
  | CandidateLeaving (who : AccountId) (when : RoundIndex)
  | NominatorLeaveCollator (who candidate : AccountId)
  | CollatorChoosen (round : RoundIndex) (who : AccountId) (total : Balance)
  | Rewarded (who : AccountId) (amount : Balance)
  | SettingChanged (settings : SettingStruct)
  | NewRoundStart (round : RoundIndex) (block : Z).

(** Storage.  A [ValueQuery] map reads its default where it has no entry
    ([map_get]); [ledger] is the state of [T::Currency], [registered_weights]
    what is passed to [register_extra_weight_unchecked], [events] what the
    pallet deposits, oldest first. *)
Record State (L : Type) := mkState {
  CurrentRound : RoundInfo;
  Collators : gmap AccountId StakingCollators;
  ExitQueue : gmap AccountId Leaving;
  TotalStaked : Balance;
  Settings : SettingStruct;
  TotalStakedAt : gmap Z Balance;
  TotalIssuanceAt : gmap Z Balance;
  Nominators : gmap AccountId StakingNominators;
  RoundStakerClipped : gmap Z (gmap AccountId Exposure);
  StorageVersion : Releases;
  TotalPoints : gmap Z RewardPoint;
  CollatorPoints : gmap (Z * AccountId) RewardPoint;
  ledger : L;
  registered_weights : list Weight;
  events : list Event;
}.
Arguments mkState {L}.
Arguments CurrentRound {L} _.
Arguments Collators {L} _.
Arguments ExitQueue {L} _.
Arguments TotalStaked {L} _.
Arguments Settings {L} _.
Arguments TotalStakedAt {L} _.
Arguments TotalIssuanceAt {L} _.
Arguments Nominators {L} _.
Arguments RoundStakerClipped {L} _.
Arguments StorageVersion {L} _.
Arguments TotalPoints {L} _.
Arguments CollatorPoints {L} _.
Arguments ledger {L} _.
Arguments registered_weights {L} _.
Arguments events {L} _.

Section Setters.
Context {L : Type}.
Implicit Types s : State L.
Definition CurrentRound_put (v : RoundInfo) s : State L :=
  mkState v (Collators s) (ExitQueue s) (TotalStaked s) (Settings s)
    (TotalStakedAt s) (TotalIssuanceAt s) (Nominators s) (RoundStakerClipped s) (StorageVersion s)
    (TotalPoints s) (CollatorPoints s) (ledger s) (registered_weights s) (events s).
Definition Collators_put (v : gmap AccountId StakingCollators) s : State L :=
  mkState (CurrentRound s) v (ExitQueue s) (TotalStaked s) (Settings s)
    (TotalStakedAt s) (TotalIssuanceAt s) (Nominators s) (RoundStakerClipped s) (StorageVersion s)
    (TotalPoints s) (CollatorPoints s) (ledger s) (registered_weights s) (events s).
Definition ExitQueue_put (v : gmap AccountId Leaving) s : State L :=
  mkState (CurrentRound s) (Collators s) v (TotalStaked s) (Settings s)
    (TotalStakedAt s) (TotalIssuanceAt s) (Nominators s) (RoundStakerClipped s) (StorageVersion s)
    (TotalPoints s) (CollatorPoints s) (ledger s) (registered_weights s) (events s).
Definition TotalStaked_put (v : Balance) s : State L :=
  mkState (CurrentRound s) (Collators s) (ExitQueue s) v (Settings s)
    (TotalStakedAt s) (TotalIssuanceAt s) (Nominators s) (RoundStakerClipped s) (StorageVersion s)
    (TotalPoints s) (CollatorPoints s) (ledger s) (registered_weights s) (events s).
Definition Settings_put (v : SettingStruct) s : State L :=
  mkState (CurrentRound s) (Collators s) (ExitQueue s) (TotalStaked s) v
    (TotalStakedAt s) (TotalIssuanceAt s) (Nominators s) (RoundStakerClipped s) (StorageVersion s)
    (TotalPoints s) (CollatorPoints s) (ledger s) (registered_weights s) (events s).
Definition TotalStakedAt_put (v : gmap Z Balance) s : State L :=
  mkState (CurrentRound s) (Collators s) (ExitQueue s) (TotalStaked s) (Settings s)
    v (TotalIssuanceAt s) (Nominators s) (RoundStakerClipped s) (StorageVersion s)
    (TotalPoints s) (CollatorPoints s) (ledger s) (registered_weights s) (events s).
Definition TotalIssuanceAt_put (v : gmap Z Balance) s : State L :=
  mkState (CurrentRound s) (Collators s) (ExitQueue s) (TotalStaked s) (Settings s)
    (TotalStakedAt s) v (Nominators s) (RoundStakerClipped s) (StorageVersion s)
    (TotalPoints s) (CollatorPoints s) (ledger s) (registered_weights s) (events s).
Definition Nominators_put (v : gmap AccountId StakingNominators) s : State L :=
  mkState (CurrentRound s) (Collators s) (ExitQueue s) (TotalStaked s) (Settings s)
    (TotalStakedAt s) (TotalIssuanceAt s) v (RoundStakerClipped s) (StorageVersion s)
    (TotalPoints s) (CollatorPoints s) (ledger s) (registered_weights s) (events s).
Definition RoundStakerClipped_put (v : gmap Z (gmap AccountId Exposure)) s : State L :=
  mkState (CurrentRound s) (Collators s) (ExitQueue s) (TotalStaked s) (Settings s)
    (TotalStakedAt s) (TotalIssuanceAt s) (Nominators s) v (StorageVersion s)
    (TotalPoints s) (CollatorPoints s) (ledger s) (registered_weights s) (events s).
Definition TotalPoints_put (v : gmap Z RewardPoint) s : State L :=
  mkState (CurrentRound s) (Collators s) (ExitQueue s) (TotalStaked s) (Settings s)
    (TotalStakedAt s) (TotalIssuanceAt s) (Nominators s) (RoundStakerClipped s) (StorageVersion s)
    v (CollatorPoints s) (ledger s) (registered_weights s) (events s).
Definition CollatorPoints_put (v : gmap (Z * AccountId) RewardPoint) s : State L :=
  mkState (CurrentRound s) (Collators s) (ExitQueue s) (TotalStaked s) (Settings s)
    (TotalStakedAt s) (TotalIssuanceAt s) (Nominators s) (RoundStakerClipped s) (StorageVersion s)
    (TotalPoints s) v (ledger s) (registered_weights s) (events s).
Definition ledger_put (v : L) s : State L :=
  mkState (CurrentRound s) (Collators s) (ExitQueue s) (TotalStaked s) (Settings s)
    (TotalStakedAt s) (TotalIssuanceAt s) (Nominators s) (RoundStakerClipped s) (StorageVersion s)
    (TotalPoints s) (CollatorPoints s) v (registered_weights s) (events s).
Definition registered_weights_put (v : list Weight) s : State L :=
  mkState (CurrentRound s) (Collators s) (ExitQueue s) (TotalStaked s) (Settings s)
    (TotalStakedAt s) (TotalIssuanceAt s) (Nominators s) (RoundStakerClipped s) (StorageVersion s)
    (TotalPoints s) (CollatorPoints s) (ledger s) v (events s).
Definition events_put (v : list Event) s : State L :=
  mkState (CurrentRound s) (Collators s) (ExitQueue s) (TotalStaked s) (Settings s)
    (TotalStakedAt s) (TotalIssuanceAt s) (Nominators s) (RoundStakerClipped s) (StorageVersion s)
    (TotalPoints s) (CollatorPoints s) (ledger s) (registered_weights s) v.
End Setters.


(** Reading a [ValueQuery] map. *)
Definition map_get `{Countable K} (m : gmap K Z) (k : K) : Z := default 0 (m !! k).

Definition Origin : Type := RawOrigin AccountId.

Section Pallet.
Context {L : Type} `{!Currency L, !ReservableCurrency L, Cfg : !Config}.
Implicit Types s : State L.

Definition Call (A : Type) : Type := M (State L) (DispatchError Error) A.

(** ** Storage accesses *)
Definition Collators_insert (who : AccountId) (c : StakingCollators) s : State L :=
  Collators_put (<[who := c]> (Collators s)) s.
Definition Collators_remove (who : AccountId) s : State L :=
  Collators_put (delete who (Collators s)) s.
Definition Nominators_insert (who : AccountId) (n : StakingNominators) s : State L :=
  Nominators_put (<[who := n]> (Nominators s)) s.
Definition ExitQueue_insert (who : AccountId) (e : Leaving) s : State L :=
  ExitQueue_put (<[who := e]> (ExitQueue s)) s.
Definition ExitQueue_remove (who : AccountId) s : State L :=
  ExitQueue_put (delete who (ExitQueue s)) s.
Definition deposit_event (e : Event) s : State L := events_put (events s ++ [e]) s.
(** [T::Currency::reserve(..);]  The [Result] is dropped. *)
Definition currency_reserve (who : AccountId) (v : Balance) s : State L :=
  match reserve who v (ledger s) with
  | Some l => ledger_put l s
  | None => s
  end.
(** [T::Currency::unreserve(..);] *)
Definition currency_unreserve (who : AccountId) (v : Balance) s : State L :=
  ledger_put (unreserve who v (ledger s)) s.

Definition get_collator (who : AccountId) (e : Error) : Call StakingCollators :=
  let! c := gets (fun s => Collators s !! who) in ok_or c (ModuleErr e).
Definition get_nominator (who : AccountId) (e : Error) : Call StakingNominators :=
  let! n := gets (fun s => Nominators s !! who) in ok_or n (ModuleErr e).

(** [TotalStaked::put(TotalStaked::get() + v)] *)
Definition add_total_staked (v : Balance) : Call unit :=
  let! current_staked := gets TotalStaked in
  modify (TotalStaked_put (current_staked +128 v)).

(** ** Dispatchables *)

Definition config (origin : Origin) (settings : SettingStruct) : Call unit :=
  ensure_root origin ;;;
  modify (Settings_put settings) ;;;
  modify (deposit_event (SettingChanged settings)).

Definition bond (origin : Origin) (amount : Balance) : Call unit :=
  let! who := ensure_signed origin in
  let! collator := gets (fun s => Collators s !! who) in
  ensure (bool_decide (collator = None)) (ModuleErr AlreadyBonded) ;;;
  (if amount <? MinCollatorStake then throw (ModuleErr BondBelowMin) else ret tt) ;;;
  let! current_round := gets CurrentRound in
  let staker := StakingCollators.new amount (RoundInfo.next_round_index current_round) in
  modify (Collators_insert who staker) ;;;
  add_total_staked amount ;;;
  modify (currency_reserve who amount) ;;;
  modify (deposit_event (Bonded who amount)).

Definition force_onboard (origin : Origin) (candidate : AccountId) : Call unit :=
  ensure_root origin ;;;
  let! collator := get_collator candidate CandidateNotExist in
  ensure (negb (StakingCollators.is_active collator)) (ModuleErr CandidateNotActive) ;;;
  modify (Collators_insert candidate (StakingCollators.force_bond collator)) ;;;
  modify (deposit_event (CandidateOnboard candidate)).

Definition bond_extra (origin : Origin) (extra : Balance) : Call unit :=
  let! who := ensure_signed origin in
  let! collator := get_collator who BondNotExist in
  ensure (StakingCollators.is_active collator) (ModuleErr CandidateNotActive) ;;;
  let! current_round := gets CurrentRound in
  modify (Collators_insert who
    (StakingCollators.bond_extra collator extra (RoundInfo.next_round_index current_round))) ;;;
  add_total_staked extra ;;;
  modify (currency_reserve who extra) ;;;
  modify (deposit_event (BondExtra who extra)).

(** [current_round.index + Settings::get().bond_duration] *)
Definition withdraw_round : Call RoundIndex :=
  gets (fun s => RoundInfo.index (CurrentRound s) +32 bond_duration (Settings s)).

Definition bond_less (origin : Origin) (less : Balance) : Call unit :=
  let! who := ensure_signed origin in
  let! collator := get_collator who BondNotExist in
  ensure (StakingCollators.is_active collator) (ModuleErr CandidateNotActive) ;;;
  let! round := withdraw_round in
  let '(after, collator) := StakingCollators.bond_less collator less round in
  let! after := ok_or after (ModuleErr Underflow) in
  ensure (MinCollatorStake <=? after) (ModuleErr BondBelowMin) ;;;
  modify (Collators_insert who collator) ;;;
  modify (deposit_event (BondLess who less)).

(** The loop of [collator_unbond]. *)
Definition leave_all_nominations (nominations : list Bond) : Call unit :=
  for_each nominations
    (fun nomination =>
       modify (currency_unreserve (Bond.owner nomination) (Bond.amount nomination))).

Definition collator_unbond (origin : Origin) : Call unit :=
  let! who := ensure_signed origin in
  let! collator := get_collator who BondNotExist in
  let! when := withdraw_round in
  leave_all_nominations (StakingCollators.nominations collator) ;;;
  let exit := mkLeaving (StakingCollators.active collator)
                (StakingCollators.unbonding collator) when in
  modify (ExitQueue_insert who exit) ;;;
  modify (Collators_remove who) ;;;
  modify (deposit_event (CandidateLeaving who when)).

Definition nominate (origin : Origin) (candidate : AccountId) (amount : Balance) : Call unit :=
  let! who := ensure_signed origin in
  ensure (MinNominatorStake <=? amount) (ModuleErr NominateBelowMin) ;;;
  let! collator := get_collator candidate CandidateNotExist in
  ensure (StakingCollators.is_active collator) (ModuleErr CandidateNotActive) ;;;
  ensure (Z.of_nat (length (StakingCollators.nominations collator)) <? MaxNominationsPerCollator)
    (ModuleErr TooManyNominations) ;;;
  let! nominator := gets (fun s => Nominators s !! who) in
  match nominator with
  | Some nominator =>
      let '(added, nominator) :=
        StakingNominators.add_nomination nominator (Bond.mk candidate amount) in
      ensure added (ModuleErr AlreadyNominatedCollator) ;;;
      modify (Nominators_insert who nominator)
  | None =>
      modify (Nominators_insert who (StakingNominators.new [Bond.mk candidate amount] amount))
  end ;;;
  let '(added, collator) := StakingCollators.add_nomination collator (Bond.mk who amount) in
  ensure added (ModuleErr NominationNotExist) ;;;
  modify (Collators_insert candidate collator) ;;;
  modify (currency_reserve who amount) ;;;
  add_total_staked amount ;;;
  modify (deposit_event (Nominate candidate amount)).

Definition nominate_extra (origin : Origin) (candidate : AccountId) (extra : Balance)
    : Call unit :=
  let! who := ensure_signed origin in
  let! collator := get_collator candidate CandidateNotExist in
  ensure (StakingCollators.is_active collator) (ModuleErr CandidateNotActive) ;;;
  let! nominator := get_nominator who NominationNotExist in
  let '(r, nominator) :=
    StakingNominators.nominate_extra nominator (Bond.mk candidate extra) in
  ok_or r (ModuleErr CandidateNotExist) ;;;
  let '(r, collator) := StakingCollators.nominate_extra collator (Bond.mk who extra) in
  ok_or r (ModuleErr NominationNotExist) ;;;
  modify (Collators_insert candidate collator) ;;;
  modify (Nominators_insert who nominator) ;;;
  modify (currency_reserve who extra) ;;;
  add_total_staked extra ;;;
  modify (deposit_event (NominateExtra candidate extra)).

Definition nominate_less (origin : Origin) (candidate : AccountId) (less : Balance)
    : Call unit :=
  let! who := ensure_signed origin in
  let! collator := get_collator candidate CandidateNotExist in
  ensure (StakingCollators.is_active collator) (ModuleErr CandidateNotActive) ;;;
  let! nominator := get_nominator who NominationNotExist in
  let! round := withdraw_round in
  let '(r, nominator) :=
    StakingNominators.nominate_less nominator (Bond.mk candidate less) round in
  let! r := ok_or r (ModuleErr CandidateNotExist) in
  let! after := ok_or r (ModuleErr Underflow) in
  ensure (MinNominatorStake <=? after) (ModuleErr NominateBelowMin) ;;;
  let '(r, collator) := StakingCollators.nominate_less collator (Bond.mk who less) in
  let! r := ok_or r (ModuleErr NominationNotExist) in
  let! after := ok_or r (ModuleErr Underflow) in
  ensure (MinNominatorStake <=? after) (ModuleErr NominateBelowMin) ;;;
  modify (Collators_insert candidate collator) ;;;
  modify (Nominators_insert who nominator) ;;;
  modify (deposit_event (NominateLess candidate less)).

Definition nominator_leave_collator (origin : Origin) (candidate : AccountId) : Call unit :=
  let! who := ensure_signed origin in
  let! nomination := get_nominator who NominationNotExist in
  let! collator := get_collator candidate CandidateNotExist in
  let! round := withdraw_round in
  let '(r, nomination) := StakingNominators.rm_nomination nomination candidate round in
  ok_or r (ModuleErr CandidateNotExist) ;;;
  let '(r, collator) := StakingCollators.rm_nomination collator who in
  ok_or r (ModuleErr NominationNotExist) ;;;
  modify (Collators_insert candidate collator) ;;;
  modify (Nominators_insert who nomination) ;;;
  modify (deposit_event (NominatorLeaveCollator who candidate)).

(** ** Genesis *)

(** All storage items at their defaults over a currency ledger. *)
Definition empty_state (l : L) : State L :=
  mkState RoundInfo.default ∅ ∅ 0 (mkSettingStruct 0 0 0) ∅ ∅ ∅ ∅ Releases_default ∅ ∅ l [] [].

(** The loop of [build]; [bond]'s result is dropped, [None] is a failed
    assertion. *)
Fixpoint build_stakers (stakers : list (AccountId * Balance)) (total_staked : Balance) s
    : option (Balance * State L) :=
  match stakers with
  | [] => Some (total_staked, s)
  | (staker, balance) :: stakers =>
      if balance <=? free_balance (ledger s) staker then
        build_stakers stakers (total_staked +128 balance) (bond (Signed staker) balance s).2
      else None
  end.

Definition build (stakers : list (AccountId * Balance)) (l : L) : option (State L) :=
  match build_stakers stakers 0 (empty_state l) with
  | None => None
  | Some (total_staked, s) =>
      let s := TotalStaked_put total_staked s in
      let s := CurrentRound_put (RoundInfo.new 1 0 BlocksPerRound) s in
      let s := TotalStakedAt_put (<[1 := TotalStaked s]> (TotalStakedAt s)) s in
      let s := TotalIssuanceAt_put (<[1 := total_issuance (ledger s)]> (TotalIssuanceAt s)) s in
      let s := Settings_put (mkSettingStruct BondDuration BlocksPerRound DesiredTarget) s in
      Some (deposit_event (NewRoundStart 1 (1 +32 BlocksPerRound)) s)
  end.
End Pallet.
