(* ===== verification/StakingRounds.v ===== *)
(** * The staking pallet: rounds, payouts and elections

    [pallets/polkafoundry-staking/src/lib.rs]: [on_finalize] (lines 88 to
    115), the internal functions (977 to 1242), the election data provider
    (1244 to 1281) and the author hooks (1404 to 1419).  These functions cannot
    fail: they are state transformers. *)
From S2P Require Import Prelude StakingTypes Externals TaylorSeries Inflation StakingPallet.

Section Rounds.
Context {L : Type} `{!Currency L, !ReservableCurrency L, Cfg : !Config, Iter : !StorageIter}.
Context {P B : Type} `{!PerThing P, !BigUint B}.
Implicit Types s : State L.

(** ** Payout *)

(** The closure [mint]. *)
Definition mint (amount : Balance) (to : AccountId) s : State L :=
  if minimum_balance <? amount then
    match deposit_into_existing to amount (ledger s) with
    | Some (imb, l) => deposit_event (Rewarded to imb) (ledger_put l s)
    | None => s
    end
  else s.

(** The reward of a collator: half for its exposure, half for its points. *)
Definition collator_reward (payout total_stake : Balance) (total_points : RewardPoint)
    (own : Balance) (point : RewardPoint) : Balance :=
  let commission_point : P := from_rational 50 100 in
  let stake_point : P := from_rational 50 100 in
  let collator_exposure_part := pt_mul stake_point (from_rational own total_stake) in
  let collator_commission_part := pt_mul commission_point (from_rational point total_points) in
  pt_mul_balance collator_exposure_part payout
    +128 pt_mul_balance collator_commission_part payout.

Definition nominator_reward (payout total_stake : Balance) (value : Balance) : Balance :=
  pt_mul_balance (from_rational (P := P) value total_stake) payout.

(** The body of the loop over [RoundStakerClipped::drain_prefix]. *)
Definition pay_collator (payout_round : RoundIndex) (payout total_stake : Balance)
    (total_points : RewardPoint) (entry : AccountId * Exposure) s : State L :=
  let '(acc, exposure) := entry in
  let point := map_get (CollatorPoints s) (payout_round, acc) in
  let s := mint (collator_reward payout total_stake total_points (Exposure.own exposure) point)
             acc s in
  foldl (fun s n => mint (nominator_reward payout total_stake (ie_value n)) (ie_who n) s)
    s (Exposure.others exposure).

Definition payout_stakers (current_round : RoundIndex) s : State L :=
  let duration := PayoutDuration in
  if duration <? current_round then
    let payout_round := current_round -32 duration in
    let total_stake := map_get (TotalStakedAt s) payout_round in
    let issuance := map_get (TotalIssuanceAt s) payout_round in
    let payout := compute_total_payout (P := P) (B := B) total_stake issuance 25 20 50 5
                    (BlocksPerRound *32 6000) in
    let total_points := map_get (TotalPoints s) payout_round in
    let drained := storage_iter (default ∅ (RoundStakerClipped s !! payout_round)) in
    let s := RoundStakerClipped_put (delete payout_round (RoundStakerClipped s)) s in
    foldl (fun s e => pay_collator payout_round payout total_stake total_points e s) s drained
  else s.

(** ** Elections *)

Definition collect_exposure (issuance : Balance) (entry : AccountId * Support)
    : AccountId * Exposure :=
  let '(validator, support) := entry in
  let '(own, others, total) :=
    foldl (fun acc v =>
             let '(own, others, total) := acc in
             let '(nominator, weight) := v in
             let stake := to_currency weight issuance in
             if N.eqb nominator validator
             then (U.sat_add 128 own stake, others, U.sat_add 128 total stake)
             else (own, others ++ [mkIndividualExposure nominator stake],
                   U.sat_add 128 total stake))
      (0, [], 0) (support_voters support) in
  (validator, Exposure.mk total own others).

Definition collect_exposures (supports : Supports) s : list (AccountId * Exposure) :=
  collect_exposure (total_issuance (ledger s)) <$> supports.

Definition clip (current_round : RoundIndex) (e : AccountId * Exposure) s : State L :=
  let of_round := default ∅ (RoundStakerClipped s !! current_round) in
  let s := RoundStakerClipped_put
             (<[current_round := <[e.1 := e.2]> of_round]> (RoundStakerClipped s)) s in
  deposit_event (CollatorChoosen current_round e.1 (Exposure.total e.2)) s.

Definition process_election (flat_supports : Supports) (current_round : RoundIndex) s
    : list AccountId * State L :=
  let exposures := collect_exposures flat_supports s in
  (exposures.*1, foldl (fun s e => clip current_round e s) s exposures).

Definition slashable_balance_of (stash : AccountId) (status : StakerStatus) s : Balance :=
  match status with
  | Validator =>
      match Collators s !! stash with
      | Some c => if StakingCollators.is_active c then StakingCollators.active c else 0
      | None => 0
      end
  | Nominator =>
      match Nominators s !! stash with Some l => StakingNominators.total l | None => 0 end
  | _ => 0
  end.

Definition slashable_balance_of_vote_weight (stash : AccountId) (issuance : Balance)
    (status : StakerStatus) s : Z :=
  to_vote (slashable_balance_of stash status s) issuance.

Definition slashable_balance_of_fn (status : StakerStatus) s : AccountId -> Z :=
  let issuance := total_issuance (ledger s) in
  fun who => slashable_balance_of_vote_weight who issuance status s.

Definition get_npos_voters s : list Voter :=
  let weight_of_validator := slashable_balance_of_fn Validator s in
  let weight_of_nominator := slashable_balance_of_fn Nominator s in
  ((fun e => (e.1, weight_of_validator e.1, [e.1])) <$> storage_iter (Collators s)) ++
  ((fun e => (e.1, weight_of_nominator e.1, Bond.owner <$> StakingNominators.nominations e.2))
     <$> storage_iter (Nominators s)).

Definition get_npos_targets s : list AccountId := (storage_iter (Collators s)).*1.

Definition can_author (account : AccountId) s : bool := bool_decide (is_Some (Collators s !! account)).

(** [Collators::iter().filter(|c| c.1.is_active()).count()] *)
Definition active_count s : Z :=
  Z.of_nat (length (filter (fun e => StakingCollators.is_active e.2 = true)
                      (storage_iter (Collators s)))).

(** [maybe_max_len.map_or(false, |max_len| count > max_len)] *)
Definition too_big (count : Z) (maybe_max_len : option Z) : bool :=
  match maybe_max_len with Some max_len => max_len <? count | None => false end.

Definition targets (maybe_max_len : option Z) s : string + (list AccountId * Weight) :=
  let target_count := active_count s in
  if too_big target_count maybe_max_len then inl "Target snapshot too big"%string
  else inr (get_npos_targets s, db_reads target_count).

Definition voters (maybe_max_len : option Z) s : string + (list Voter * Weight) :=
  let nominator_count := Z.of_nat (length (storage_iter (Nominators s))) in
  let validator_count := active_count s in
  (** [usize] is 32 bits in the Wasm runtime. *)
  let voter_count := U.sat_add 32 nominator_count validator_count in
  if too_big voter_count maybe_max_len then inl "Voter snapshot too big"%string
  else inr (get_npos_voters s, db_reads voter_count).

Definition desired_targets s : string + (Z * Weight) :=
  inr (desired_target (Settings s), db_reads 1).

Definition next_election_prediction s (now : BlockNumber) : BlockNumber :=
  RoundInfo.next_election_prediction (CurrentRound s).

(** The pallet as the data provider of its election provider. *)
Definition data_provider s : ElectionDataProvider :=
  mkElectionDataProvider (fun m => targets m s) (fun m => voters m s) (desired_targets s)
    (next_election_prediction s).

Definition enact_election (current_round : RoundIndex) s : option (list AccountId) * State L :=
  match elect (data_provider s) with
  | None => (None, s)
  | Some (res, weight) =>
      let s := registered_weights_put (registered_weights s ++ [weight]) s in
      let '(elected, s) := process_election res current_round s in
      (Some elected, s)
  end.

(** ** Maintenance at the start of a round *)

Definition update_collator (current_round : RoundIndex) (entry : AccountId * StakingCollators) s
    : State L :=
  let '(acc, collator) := entry in
  let collator := StakingCollators.active_onboard collator in
  let collator := StakingCollators.consolidate_active collator current_round in
  let before_total := StakingCollators.total collator in
  let collator := StakingCollators.consolidate_unbonded collator current_round in
  let s := currency_unreserve acc (before_total -128 StakingCollators.total collator) s in
  Collators_insert acc collator s.

(** Each iteration writes the entry it read, so that the loop sees the
    entries as they were when it started; the same holds below. *)
Definition update_collators (current_round : RoundIndex) s : State L :=
  foldl (fun s e => update_collator current_round e s) s (storage_iter (Collators s)).

Definition update_nominator (current_round : RoundIndex) (entry : AccountId * StakingNominators) s
    : State L :=
  let '(acc, nominations) := entry in
  let before_total := StakingNominators.total nominations in
  let nominations := StakingNominators.consolidate_unbonded nominations current_round in
  let current_staked := TotalStaked s in
  let unbonded := before_total -128 StakingNominators.total nominations in
  let s := TotalStaked_put (current_staked -128 unbonded) s in
  let s := currency_unreserve acc unbonded s in
  Nominators_insert acc nominations s.

Definition update_nominators (current_round : RoundIndex) s : State L :=
  foldl (fun s e => update_nominator current_round e s) s (storage_iter (Nominators s)).

(** Unreserve a chunk; [TotalStaked] is set from the value read once at the
    start of the iteration. *)
Definition release_chunk (acc : AccountId) (current_staked : Balance) (v : Balance) s : State L :=
  TotalStaked_put (current_staked -128 v) (currency_unreserve acc v s).

(** The [filter] over [exit.unbonding]. *)
Fixpoint exit_filter (acc : AccountId) (current_round : RoundIndex) (current_staked : Balance)
    (l : list UnBondChunk) s : list UnBondChunk * State L :=
  match l with
  | [] => ([], s)
  | chunk :: l =>
      if current_round <? ub_round chunk then
        let '(kept, s) := exit_filter acc current_round current_staked l s in
        (chunk :: kept, s)
      else
        exit_filter acc current_round current_staked l
          (release_chunk acc current_staked (ub_value chunk) s)
  end.

Definition execute_exit (current_round : RoundIndex) (entry : AccountId * Leaving) s : State L :=
  let '(acc, exit) := entry in
  let current_staked := TotalStaked s in
  if current_round <? when exit then
    let '(unbonding, s) := exit_filter acc current_round current_staked (leaving_unbonding exit) s in
    ExitQueue_insert acc (mkLeaving (remaining exit) unbonding (when exit)) s
  else
    let s := release_chunk acc current_staked (remaining exit) s in
    let s := foldl (fun s unbond => release_chunk acc current_staked (ub_value unbond) s)
               s (leaving_unbonding exit) in
    ExitQueue_remove acc s.

Definition execute_exit_queue (current_round : RoundIndex) s : State L :=
  foldl (fun s e => execute_exit current_round e s) s (storage_iter (ExitQueue s)).

(** ** [on_finalize] *)

Definition start_round (now : BlockNumber) s : State L :=
  let block_per_round := blocks_per_round (Settings s) in
  let current_round := RoundInfo.update (CurrentRound s) now block_per_round in
  let round_index := RoundInfo.index current_round in
  let s := CurrentRound_put current_round s in
  let s := payout_stakers round_index s in
  let s := update_collators round_index s in
  let s := update_nominators round_index s in
  let s := execute_exit_queue round_index s in
  let s := (enact_election round_index s).2 in
  let s := TotalStakedAt_put (<[round_index := TotalStaked s]> (TotalStakedAt s)) s in
  let s := TotalIssuanceAt_put
             (<[round_index := total_issuance (ledger s)]> (TotalIssuanceAt s)) s in
  deposit_event (NewRoundStart round_index (round_index *32 block_per_round)) s.

Definition on_finalize (now : BlockNumber) s : State L :=
  if RoundInfo.should_goto_next_round (CurrentRound s) now then start_round now s else s.

(** ** [impl author_inherent::EventHandler] *)

Definition note_author (author : AccountId) s : State L :=
  let now := RoundInfo.index (CurrentRound s) in
  let score_plus_20 := map_get (CollatorPoints s) (now, author) +32 20 in
  let s := CollatorPoints_put (<[(now, author) := score_plus_20]> (CollatorPoints s)) s in
  TotalPoints_put (<[now := map_get (TotalPoints s) now +32 20]> (TotalPoints s)) s.
End Rounds.
