(* ===== verification/StakingMock.v ===== *)
(** * A concrete staking pallet

    The parameters of [pallets/polkafoundry-staking/src/mock.rs] over the
    reference ledger of [Externals], on which witnesses evaluate and the
    scenarios of [tests.rs] are replayed. *)
From S2P Require Import Prelude StakingTypes Externals StakingPallet StakingRounds.

(** A self-voting election in the place of the one the mock takes from
    Substrate: the first [desired_targets] voters that vote for themselves win,
    each backed by itself and by the nominators that name it first. *)
Definition self_vote (v : Voter) : bool :=
  match v with (who, _, [t]) => N.eqb who t | _ => false end.
Definition backs (who : AccountId) (v : Voter) : bool :=
  match v with (_, _, t :: _) => N.eqb t who | _ => false end.
Definition mock_elect (edp : ElectionDataProvider) : option (Supports * Weight) :=
  match edp_voters edp None, edp_desired_targets edp with
  | inr (vs, w), inr (n, _) =>
      let winners := firstn (Z.to_nat n) (filter (fun v => self_vote v = true) vs) in
      Some ((fun v : Voter =>
               let who := v.1.1 in
               let bs := (fun b : Voter => (b.1.1, b.1.2))
                           <$> filter (fun b => backs who b = true) vs in
               (who, mkSupport (sumZ snd bs) bs)) <$> winners, w)
  | _, _ => None
  end.

(** [impl Config for Test] *)
#[export] Instance mock_config : Config := {|
  BlocksPerRound := 10;
  MAX_COLLATORS_PER_NOMINATOR := 5;
  MaxNominationsPerCollator := 2;
  BondDuration := 2;
  MinCollatorStake := 500;
  MinNominatorStake := 100;
  PayoutDuration := 2;
  DesiredTarget := 2;
  elect := mock_elect;
  to_vote b _ := Z.min b (2 ^ 64 - 1);
  to_currency v _ := Z.max 0 (Z.min v (U.max 128));
  db_reads n := n;
|}.

(** [mock_test()] *)
Definition mock_balances : list (AccountId * N) :=
  [(1, 1000); (2, 500); (3, 800); (100, 5000); (200, 2000); (300, 3000); (400, 3000);
   (10, 1000); (20, 500); (30, 800); (999, 200000000)]%N.
Definition mock_stakers : list (AccountId * Balance) :=
  [(100%N, 500); (200%N, 500); (300%N, 600); (400%N, 400)].
Definition mock_ledger : Ledger :=
  mkLedger (list_to_map mock_balances) ∅ (sumZ (fun e => Z.of_N e.2) mock_balances).
Definition mock_genesis : State Ledger :=
  default (empty_state mock_ledger) (build mock_stakers mock_ledger).

(** [run_to_block], [n] blocks from block [now] on. *)
Fixpoint run_blocks (n : nat) (now : BlockNumber) (s : State Ledger) : State Ledger :=
  match n with
  | O => s
  | S n => run_blocks n (now + 1) (on_finalize (P := Z) (B := Limbs) now s)
  end.
Definition run_to_block (from to : BlockNumber) (s : State Ledger) : State Ledger :=
  run_blocks (Z.to_nat (to - from)) from s.

(** [set_author] *)
Definition set_author_points (round : RoundIndex) (acc : AccountId) (pts : RewardPoint)
    (s : State Ledger) : State Ledger :=
  let s := TotalPoints_put (<[round := map_get (TotalPoints s) round +32 pts]> (TotalPoints s)) s in
  CollatorPoints_put
    (<[(round, acc) := map_get (CollatorPoints s) (round, acc) +32 pts]> (CollatorPoints s)) s.

(** The state a call leaves when it succeeds. *)
Definition ok_state {E A S : Type} (r : outcome E A * S) : option S :=
  match r with (Ok _, s) => Some s | _ => None end.
Definition err_of {E A S : Type} (r : outcome E A * S) : option E :=
  match r with (Err e, _) => Some e | _ => None end.

(** ** Scenarios of [tests.rs] *)

Definition at_round_2 : State Ledger := run_to_block 1 11 mock_genesis.

Example build_ok : is_Some (build mock_stakers mock_ledger).
Proof. eexists. vm_compute. reflexivity. Qed.

Example bond_work :
  (let r := bond (Signed 1%N) 1000 mock_genesis in
   (reserved_balance (ledger r.2) 1%N, err_of (bond (Signed 1%N) 1000 r.2),
    err_of (bond (Signed 2%N) 100 r.2)))
  = (1000, Some (ModuleErr AlreadyBonded), Some (ModuleErr BondBelowMin)).
Proof. vm_compute. reflexivity. Qed.

Example bond_less_work :
  let s := run_to_block 1 11 (bond (Signed 1%N) 1000 mock_genesis).2 in
  let s := run_to_block 11 21 (bond_less (Signed 1%N) 150 s).2 in
  err_of (bond_less (Signed 1%N) 800 s) = Some (ModuleErr BondBelowMin) /\
  err_of (bond_less (Signed 1%N) 6000 s) = Some (ModuleErr Underflow) /\
  let s := (bond_less (Signed 1%N) 100 s).2 in
  Collators s !! 1%N
  = Some (StakingCollators.mk 1000 750 [] [] [mkUnBondChunk 150 4; mkUnBondChunk 100 5] Active []) /\
  let s := run_to_block 21 31 s in
  Collators s !! 1%N
  = Some (StakingCollators.mk 850 750 [] [] [mkUnBondChunk 100 5] Active []) /\
  reserved_balance (ledger s) 1%N = 850 /\
  let s := run_to_block 31 41 s in
  Collators s !! 1%N = Some (StakingCollators.mk 750 750 [] [] [] Active []) /\
  reserved_balance (ledger s) 1%N = 750.
Proof. vm_compute. repeat split. Qed.

Example nominate_work :
  err_of (nominate (Signed 10%N) 2%N 1000 at_round_2) = Some (ModuleErr CandidateNotExist) /\
  err_of (nominate (Signed 10%N) 100%N 10 at_round_2) = Some (ModuleErr NominateBelowMin) /\
  let s := (nominate (Signed 10%N) 100%N 500 at_round_2).2 in
  err_of (nominate (Signed 10%N) 100%N 500 s) = Some (ModuleErr AlreadyNominatedCollator) /\
  let s := (nominate (Signed 10%N) 200%N 300 s).2 in
  let s := (nominate (Signed 20%N) 100%N 500 s).2 in
  err_of (nominate (Signed 30%N) 100%N 500 s) = Some (ModuleErr TooManyNominations) /\
  reserved_balance (ledger s) 10%N = 800.
Proof. vm_compute. repeat split. Qed.

Example nominate_less_work :
  let s := (nominate (Signed 10%N) 100%N 500 at_round_2).2 in
  err_of (nominate_less (Signed 10%N) 100%N 450 s) = Some (ModuleErr NominateBelowMin) /\
  err_of (nominate_less (Signed 10%N) 100%N 650 s) = Some (ModuleErr Underflow) /\
  let s := run_to_block 11 31 (nominate_less (Signed 10%N) 100%N 300 s).2 in
  reserved_balance (ledger s) 10%N = 200 /\
  (StakingNominators.total <$> Nominators s !! 10%N) = Some 200.
Proof. vm_compute. repeat split. Qed.

Example collator_bond_less_then_unbond_work :
  let s := run_to_block 1 11 (bond (Signed 1%N) 1000 mock_genesis).2 in
  let s := run_to_block 11 21 (bond_less (Signed 1%N) 150 s).2 in
  let s := (collator_unbond (Signed 1%N) s).2 in
  ExitQueue s !! 1%N = Some (mkLeaving 850 [mkUnBondChunk 150 4] 5) /\
  let s := run_to_block 21 31 s in
  ExitQueue s !! 1%N = Some (mkLeaving 850 [] 5) /\
  reserved_balance (ledger s) 1%N = 850 /\
  reserved_balance (ledger (run_to_block 31 41 s)) 1%N = 0.
Proof. vm_compute. repeat split. Qed.

Example nominator_leave_collator_work :
  let s := (nominate (Signed 10%N) 100%N 500 at_round_2).2 in
  let s := (nominate (Signed 10%N) 200%N 500 s).2 in
  err_of (nominator_leave_collator (Signed 10%N) 1000%N s) = Some (ModuleErr CandidateNotExist) /\
  let s := (nominator_leave_collator (Signed 10%N) 100%N s).2 in
  Nominators s !! 10%N
  = Some (StakingNominators.mk [Bond.mk 200%N 500] 1000 [mkUnBondChunk 500 4] []) /\
  let s := run_to_block 11 31 s in
  Nominators s !! 10%N = Some (StakingNominators.mk [Bond.mk 200%N 500] 500 [] []) /\
  reserved_balance (ledger s) 10%N = 500.
Proof. vm_compute. repeat split. Qed.
