(* ===== verification/StakingCalls.v ===== *)
(** * The staking pallet: what its dispatchables guarantee

    Access control, atomicity of errors, the effect of each call on the
    ledgers, and the places where the calls do not do what they mean to. *)
From S2P Require Import Prelude StakingTypes Externals StakingPallet StakingMock.

(** [enum Call], as [#[pallet::call]] generates it. *)
Inductive StakingCall :=
  | call_config (settings : SettingStruct)
  | call_bond (amount : Balance)
  | call_force_onboard (candidate : AccountId)
  | call_bond_extra (extra : Balance)
  | call_bond_less (less : Balance)
  | call_collator_unbond
  | call_nominate (candidate : AccountId) (amount : Balance)
  | call_nominate_extra (candidate : AccountId) (extra : Balance)
  | call_nominate_less (candidate : AccountId) (less : Balance)
  | call_nominator_leave_collator (candidate : AccountId).

(** Calls reserved to the root origin. *)
Definition is_root_call (c : StakingCall) : bool :=
  match c with call_config _ | call_force_onboard _ => true | _ => false end.

(** The errors a call can raise besides [BadOrigin]. *)
Definition errors_of (c : StakingCall) : list Error :=
  match c with
  | call_config _ => []
  | call_bond _ => [AlreadyBonded; BondBelowMin]
  | call_force_onboard _ => [CandidateNotExist; CandidateNotActive]
  | call_bond_extra _ => [BondNotExist; CandidateNotActive]
  | call_bond_less _ => [BondNotExist; CandidateNotActive; Underflow; BondBelowMin]
  | call_collator_unbond => [BondNotExist]
  | call_nominate _ _ => [NominateBelowMin; CandidateNotExist; CandidateNotActive; TooManyNominations;
                          AlreadyNominatedCollator; NominationNotExist]
  | call_nominate_extra _ _ => [CandidateNotExist; CandidateNotActive; NominationNotExist]
  | call_nominate_less _ _ => [CandidateNotExist; CandidateNotActive; NominationNotExist; Underflow;
                               NominateBelowMin]
  | call_nominator_leave_collator _ => [NominationNotExist; CandidateNotExist]
  end.

(** The amount a call carries is a [u128]. *)
Definition call_ok (c : StakingCall) : Prop :=
  match c with
  | call_bond v | call_bond_extra v | call_bond_less v | call_nominate _ v
  | call_nominate_extra _ v | call_nominate_less _ v => U.ok 128 v
  | _ => True
  end.

Section Calls.
Context {L : Type} `{!Currency L, !ReservableCurrency L, Cfg : !Config}.
Implicit Types s : State L.

Definition dispatch (origin : Origin) (c : StakingCall) : Call (L := L) unit :=
  match c with
  | call_config settings => config origin settings
  | call_bond amount => bond origin amount
  | call_force_onboard candidate => force_onboard origin candidate
  | call_bond_extra extra => bond_extra origin extra
  | call_bond_less less => bond_less origin less
  | call_collator_unbond => collator_unbond origin
  | call_nominate candidate amount => nominate origin candidate amount
  | call_nominate_extra candidate extra => nominate_extra origin candidate extra
  | call_nominate_less candidate less => nominate_less origin candidate less
  | call_nominator_leave_collator candidate => nominator_leave_collator origin candidate
  end.

Lemma leave_all_nominations_run l s :
  leave_all_nominations l s
  = (Ok tt, foldl (fun s b => currency_unreserve (Bond.owner b) (Bond.amount b) s) s l).
Proof. by apply for_each_pure. Qed.
End Calls.

(** Runs a dispatchable symbolically: unfolds it and the monad, and splits
    every guard of its result. *)
Ltac split_call H :=
  repeat match type of H with
         | context [leave_all_nominations ?l ?s] => rewrite leave_all_nominations_run in H
         | context [match ?x with _ => _ end] =>
             lazymatch x with
             | context [match _ with _ => _ end] => fail
             | _ => destruct x eqn:?
             end; simplify_eq; try (simpl in H)
         end.
Ltac run_call H :=
  unfold dispatch, config, bond, force_onboard, bond_extra, bond_less, collator_unbond,
    nominate, nominate_extra, nominate_less, nominator_leave_collator,
    get_collator, get_nominator, withdraw_round, add_total_staked,
    ensure_signed, ensure_root, ok_or, ensure,
    bind, ret, throw, gets, modify in H;
  simpl in H; split_call H.

Section CallSpecs.
Context {L : Type} `{!Currency L, !ReservableCurrency L, Cfg : !Config}.
Implicit Types s : State L.

(** Access control: [config] and [force_onboard] fail with [BadOrigin]
    for every origin but root, the other calls for every unsigned origin, and
    nothing is written. *)
Theorem dispatch_bad_origin origin c s :
  (if is_root_call c then origin <> Root else forall who, origin <> Signed who) ->
  dispatch origin c s = (Err BadOrigin, s).
Proof.
  intros H. destruct c, origin; simpl in H; try congruence; try done;
    by destruct (H who).
Qed.

(** [C31] Errors are atomic: a call that fails leaves the whole state as it
    was, except [nominate], which can fail with [NominationNotExist] after
    it has written the nominator, and only the nominator. *)
Theorem dispatch_error_atomic origin c s e s' :
  dispatch origin c s = (Err e, s') ->
  s' = s \/
  (exists who candidate amount n,
     origin = Signed who /\ c = call_nominate candidate amount /\
     e = ModuleErr NominationNotExist /\ s' = Nominators_insert who n s).
Proof. intros H. destruct c; run_call H; simplify_eq; eauto 12. Qed.

(** [C32] No call panics, and each fails only with [BadOrigin] or one of its own
    errors; the declared errors [AlreadyInQueue], [TooManyCandidates] and
    [AlreadyLeaving] are never raised, from no state. *)
Theorem dispatch_errors origin c s :
  match (dispatch origin c s).1 with
  | Ok _ => True
  | Err BadOrigin => True
  | Err (ModuleErr e) => e ∈ errors_of c /\ e <> AlreadyInQueue /\ e <> TooManyCandidates /\ e <> AlreadyLeaving
  | _ => False
  end.
Proof.
  destruct (dispatch origin c s) as [r s'] eqn:H. simpl.
  destruct c; run_call H; simplify_eq; try done; (split_and!; [set_solver|done..]).
Qed.

(** ** Putting money at stake *)

(** The calls that put the signer's money at stake, with the amount. *)
Definition staking_amount (c : StakingCall) : option Balance :=
  match c with
  | call_bond v | call_bond_extra v | call_nominate _ v | call_nominate_extra _ v => Some v
  | _ => None
  end.

Lemma currency_reserve_ledger who v s :
  ledger (currency_reserve who v s) = default (ledger s) (reserve who v (ledger s)) /\
  TotalStaked (currency_reserve who v s) = TotalStaked s.
Proof. unfold currency_reserve. by destruct (reserve who v (ledger s)). Qed.

Lemma staking_call_effect who c v s s' :
  staking_amount c = Some v -> dispatch (Signed who) c s = (Ok tt, s') ->
  ledger s' = default (ledger s) (reserve who v (ledger s)) /\
  TotalStaked s' = TotalStaked s +128 v.
Proof.
  intros Hv H. destruct c; simpl in Hv; simplify_eq; run_call H; simplify_eq; simpl;
    unfold deposit_event; simpl;
    repeat match goal with
           | |- context [ledger (currency_reserve ?w ?v ?s)] =>
               rewrite (proj1 (currency_reserve_ledger w v s))
           | |- context [TotalStaked (currency_reserve ?w ?v ?s)] =>
               rewrite (proj2 (currency_reserve_ledger w v s))
           end; done.
Qed.

(** A call that puts [v] at stake, when the currency can reserve it,
    moves exactly [v] of the signer from free to reserved, leaves every other
    reserve alone, and adds [v] to [TotalStaked]. *)
Theorem staking_call_funded `{!CurrencyLaws L, !ReservableLaws L} who c v s s' l :
  staking_amount c = Some v -> reserve who v (ledger s) = Some l ->
  dispatch (Signed who) c s = (Ok tt, s') ->
  free_balance (ledger s') who = free_balance (ledger s) who - v /\
  reserved_balance (ledger s') who = reserved_balance (ledger s) who + v /\
  (forall a, a <> who -> reserved_balance (ledger s') a = reserved_balance (ledger s) a) /\
  TotalStaked s' = TotalStaked s +128 v.
Proof.
  intros Hv Hr H. destruct (staking_call_effect who c v s s' Hv H) as [-> ->].
  rewrite Hr. simpl. destruct (reserve_moves who v (ledger s) l Hr) as [-> ->].
  split_and!; try done. intros a Ha. by eapply reserve_others.
Qed.

(** The result of [Currency::reserve] is dropped: with less than
    [amount] free, [bond] still succeeds for an account that is no collator;
    it records the stake and adds it to [TotalStaked] while nothing is
    reserved. *)
Theorem bond_unfunded `{!CurrencyLaws L, !ReservableLaws L} who amount s :
  Collators s !! who = None -> MinCollatorStake <= amount ->
  free_balance (ledger s) who < amount ->
  exists s', bond (Signed who) amount s = (Ok tt, s') /\
    Collators s' !! who
      = Some (StakingCollators.new amount (RoundInfo.next_round_index (CurrentRound s))) /\
    TotalStaked s' = TotalStaked s +128 amount /\
    ledger s' = ledger s.
Proof.
  intros Hc Hm Hf. pose proof (reserve_fails who amount (ledger s) Hf) as Hr.
  eexists. split.
  - unfold bond, add_total_staked. unfold_monad. simpl. rewrite Hc. simpl.
    destruct (Z.ltb_spec amount MinCollatorStake); [lia|]. reflexivity.
  - unfold currency_reserve, deposit_event. simpl. rewrite Hr. simpl.
    by rewrite lookup_insert_eq.
Qed.

(** [bond], branch by branch: refused for a collator and below the
    minimum; otherwise the account becomes a collator whose whole amount is
    pending, counts from the next round on, and no other collator, nominator
    or exit record changes. *)
Theorem bond_spec who amount s :
  let '(r, s') := bond (Signed who) amount s in
  match Collators s !! who with
  | Some _ => r = Err (ModuleErr AlreadyBonded) /\ s' = s
  | None =>
      if decide (amount < MinCollatorStake) then r = Err (ModuleErr BondBelowMin) /\ s' = s
      else r = Ok tt /\
        (exists c, Collators s' = <[who := c]> (Collators s) /\
           StakingCollators.total c = amount /\ StakingCollators.active c = 0 /\
           StakingCollators.is_active c = false /\
           (forall round, stake_at c round =
              if decide (RoundInfo.next_round_index (CurrentRound s) <= round)
              then amount else 0)) /\
        Nominators s' = Nominators s /\ ExitQueue s' = ExitQueue s /\
        TotalStaked s' = TotalStaked s +128 amount
  end.
Proof.
  destruct (bond (Signed who) amount s) as [r s'] eqn:H.
  unfold bond, add_total_staked in H. unfold_monad. simpl in H.
  destruct (Collators s !! who) as [c|] eqn:Hc; simpl in H; [by simplify_eq|].
  case_decide as Hm; [rewrite (proj2 (Z.ltb_lt _ _)) in H by done; by simplify_eq|].
  rewrite (proj2 (Z.ltb_ge _ _)) in H by lia. simplify_eq.
  assert (forall s0, Collators (currency_reserve who amount s0) = Collators s0 /\
            Nominators (currency_reserve who amount s0) = Nominators s0 /\
            ExitQueue (currency_reserve who amount s0) = ExitQueue s0) as Hf.
  { intros s0. unfold currency_reserve. by destruct (reserve _ _ _). }
  unfold deposit_event. simpl.
  rewrite (proj1 (Hf _)), (proj1 (proj2 (Hf _))), (proj2 (proj2 (Hf _))).
  rewrite (proj2 (currency_reserve_ledger _ _ _)). simpl.
  split_and!; try done. eexists. split_and!; [done..|].
  intros round. unfold stake_at, due_unlocking, unlocking_sum. simpl.
  rewrite filter_cons. simpl.
  case_decide; case_decide; simpl; lia.
Qed.

(** ** Taking money out *)

(** [C30] [bond_less] by a signed account, on every branch: refused, with nothing
    changed, for an account that is no collator or not active yet, for at least
    the whole active stake, and when less than the minimum would remain.
    Otherwise the stake of {e every} round drops by the amount, which is
    scheduled for [bond_duration] rounds later while the total stays, and the
    event is deposited; no other record, no reserve and no total changes. *)
Theorem bond_less_spec who less s :
  map_Forall (fun _ c => U.ok 128 (StakingCollators.active c)) (Collators s) -> U.ok 128 less ->
  let '(r, s') := bond_less (Signed who) less s in
  match Collators s !! who with
  | None => r = Err (ModuleErr BondNotExist) /\ s' = s
  | Some c =>
      if negb (StakingCollators.is_active c) then r = Err (ModuleErr CandidateNotActive) /\ s' = s
      else if decide (StakingCollators.active c <= less) then r = Err (ModuleErr Underflow) /\ s' = s
      else if decide (StakingCollators.active c - less < MinCollatorStake) then
        r = Err (ModuleErr BondBelowMin) /\ s' = s
      else
        r = Ok tt /\
        exists c', s' = deposit_event (BondLess who less) (Collators_insert who c' s) /\
          (forall round, stake_at c' round = stake_at c round - less) /\
          StakingCollators.total c' = StakingCollators.total c /\
          StakingCollators.nominations c' = StakingCollators.nominations c /\
          StakingCollators.unbonding c' = StakingCollators.unbonding c ++
            [mkUnBondChunk less (RoundInfo.index (CurrentRound s) +32 bond_duration (Settings s))]
  end.
Proof.
  intros Hok Hl. destruct (bond_less (Signed who) less s) as [r s'] eqn:H.
  unfold bond_less, get_collator, withdraw_round in H. unfold_monad. simpl in H.
  destruct (Collators s !! who) as [c|] eqn:Hc; simpl in H; [|by simplify_eq].
  destruct (StakingCollators.is_active c) eqn:Ha; simpl in H |- *; [|by simplify_eq].
  specialize (Hok who c Hc). simpl in Hok. unfold StakingCollators.bond_less in H. unfold U.ok in *.
  destruct (Z.ltb_spec less (StakingCollators.active c)); simpl in H.
  - rewrite sub_exact in H by lia. rewrite decide_False by lia.
    destruct (Z.leb_spec MinCollatorStake (StakingCollators.active c - less)); simplify_eq; simpl.
    + rewrite decide_False by lia. split; [done|]. eexists. split_and!; [done| |done..].
      intros round. unfold stake_at. simpl. lia.
    + by rewrite decide_True by lia.
  - simplify_eq. by rewrite decide_True by lia.
Qed.

(** [collator_unbond] gives the nominators their money back and moves the
    collator to the exit queue with its active stake and its unbonding
    chunks: what was still waiting to become active is in no record any more,
    and the exit record falls short of the total by exactly that. *)
Theorem collator_unbond_drops_unlocking who s c :
  Collators s !! who = Some c -> collator_wf c ->
  exists s' exit, collator_unbond (Signed who) s = (Ok tt, s') /\
    Collators s' = delete who (Collators s) /\
    ExitQueue s' = <[who := exit]> (ExitQueue s) /\
    when exit = RoundInfo.index (CurrentRound s) +32 bond_duration (Settings s) /\
    U.eqm 128 (remaining exit + unbonding_sum (leaving_unbonding exit))
      (StakingCollators.total c - unlocking_sum (StakingCollators.unlocking c)) /\
    TotalStaked s' = TotalStaked s /\ Nominators s' = Nominators s.
Proof.
  intros Hc Hwf.
  set (release := fun (s0 : State L) b => currency_unreserve (Bond.owner b) (Bond.amount b) s0).
  assert (forall {X} (pi : State L -> X) l s0,
            (forall s1 b, pi (release s1 b) = pi s1) -> pi (foldl release s0 l) = pi s0) as Hp.
  { intros X pi l s0 Hpi. by apply foldl_proj. }
  eexists _, _. split.
  - unfold collator_unbond, get_collator, withdraw_round. unfold_monad. simpl.
    rewrite Hc. simpl. rewrite leave_all_nominations_run. reflexivity.
  - fold release. unfold deposit_event. simpl.
    rewrite (Hp _ Collators), (Hp _ ExitQueue), (Hp _ TotalStaked), (Hp _ Nominators) by done.
    split_and!; try done. pose proof (cwf_balanced _ Hwf) as Hb. unfold collator_balanced in Hb.
    rewrite Hb. apply eqm_eq. simpl. lia.
Qed.
End CallSpecs.

(** ** Witnesses, in the state of [mock.rs] *)

Lemma dispatch_bad_origin_witness :
  dispatch (Signed 1%N) (call_config (mkSettingStruct 1 1 1)) mock_genesis
    = (Err BadOrigin, mock_genesis) /\
  dispatch Root call_collator_unbond mock_genesis = (Err BadOrigin, mock_genesis).
Proof. split; by apply dispatch_bad_origin. Defined.

Lemma dispatch_error_atomic_witness :
  (dispatch (Signed 2%N) (call_bond 100) mock_genesis).1 = Err (ModuleErr BondBelowMin) /\
  ((dispatch (Signed 2%N) (call_bond 100) mock_genesis).2 = mock_genesis \/
   exists who candidate amount n,
     Signed 2%N = Signed who /\ call_bond 100 = call_nominate candidate amount /\
     ModuleErr BondBelowMin = ModuleErr NominationNotExist /\
     (dispatch (Signed 2%N) (call_bond 100) mock_genesis).2 = Nominators_insert who n mock_genesis).
Proof.
  split; [vm_compute; reflexivity|].
  apply dispatch_error_atomic. vm_compute. reflexivity.
Defined.

Lemma staking_call_funded_witness :
  let s' := (dispatch (Signed 1%N) (call_bond 1000) mock_genesis).2 in
  free_balance (ledger s') 1%N = free_balance (ledger mock_genesis) 1%N - 1000 /\
  reserved_balance (ledger s') 1%N = reserved_balance (ledger mock_genesis) 1%N + 1000 /\
  (forall a, a <> 1%N ->
     reserved_balance (ledger s') a = reserved_balance (ledger mock_genesis) a) /\
  TotalStaked s' = TotalStaked mock_genesis +128 1000.
Proof.
  eapply (staking_call_funded 1%N (call_bond 1000) 1000 mock_genesis); [reflexivity| |];
    vm_compute; reflexivity.
Defined.

Lemma bond_unfunded_witness :
  exists s', bond (Signed 1%N) 4000 mock_genesis = (Ok tt, s') /\
    Collators s' !! 1%N
      = Some (StakingCollators.new 4000 (RoundInfo.next_round_index (CurrentRound mock_genesis))) /\
    TotalStaked s' = TotalStaked mock_genesis +128 4000 /\
    ledger s' = ledger mock_genesis.
Proof. apply bond_unfunded; vm_compute; first [reflexivity | discriminate]. Defined.

Lemma bond_less_spec_witness :
  let c := StakingCollators.mk 1500 1500 [] [] [] Active [] in
  let s := Collators_insert 1%N c (TotalStaked_put 1500 (empty_state mock_ledger)) in
  let '(r, s') := bond_less (Signed 1%N) 1000 s in
  r = Ok tt /\
  exists c', s' = deposit_event (BondLess 1%N 1000) (Collators_insert 1%N c' s) /\
    (forall round, stake_at c' round = stake_at c round - 1000) /\
    StakingCollators.total c' = 1500 /\ StakingCollators.nominations c' = [] /\
    StakingCollators.unbonding c'
      = [mkUnBondChunk 1000 (RoundInfo.index (CurrentRound s) +32 bond_duration (Settings s))].
Proof.
  intros c s. refine (bond_less_spec 1%N 1000 s _ _); [|unfold U.ok; lia].
  apply map_Forall_insert_2; [unfold U.ok; simpl; lia | apply map_Forall_empty].
Defined.

Lemma collator_unbond_drops_unlocking_witness :
  let c := StakingCollators.new 500 1 in
  exists s' exit, collator_unbond (Signed 100%N) mock_genesis = (Ok tt, s') /\
    Collators s' = delete 100%N (Collators mock_genesis) /\
    ExitQueue s' = <[100%N := exit]> (ExitQueue mock_genesis) /\
    when exit = RoundInfo.index (CurrentRound mock_genesis) +32 bond_duration (Settings mock_genesis) /\
    U.eqm 128 (remaining exit + unbonding_sum (leaving_unbonding exit))
      (StakingCollators.total c - unlocking_sum (StakingCollators.unlocking c)) /\
    TotalStaked s' = TotalStaked mock_genesis /\ Nominators s' = Nominators mock_genesis.
Proof.
  apply collator_unbond_drops_unlocking; [vm_compute; reflexivity|].
  apply new_wf. unfold U.ok. lia.
Defined.
