(* ===== verification/StakingInvariant.v ===== *)
(** * The staking pallet: invariants of its reachable states

    The pallet as a transition system: a step is a dispatchable called from any
    origin, the end of a block, a note of an author, or anything other pallets
    do to the currency.  Every state reachable from genesis satisfies
    [pallet_inv]. *)
From S2P Require Import Prelude StakingTypes Externals TaylorSeries Inflation StakingPallet.
From S2P Require Import StakingRounds StakingMock StakingCalls.

(** ** The invariant *)

(** The points recorded for the authors of round [r]. *)
Definition round_points (r : RoundIndex) (e : Z * AccountId * RewardPoint) : Z :=
  if decide (e.1.1 = r) then e.2 else 0.

(** The amounts of an exit record fit 128 bits. *)
Definition exit_ok (e : Leaving) : Prop :=
  U.ok 128 (remaining e) /\ Forall (fun ch => U.ok 128 (ub_value ch)) (leaving_unbonding e).

(** They are unsigned, which is all that paying them out needs. *)
Definition exit_unsigned (e : Leaving) : Prop :=
  0 <= remaining e /\ Forall (fun ch => 0 <= ub_value ch) (leaving_unbonding e).

Lemma chunks_unsigned l :
  Forall (fun ch => U.ok 128 (ub_value ch)) l -> Forall (fun ch => 0 <= ub_value ch) l.
Proof. intros Hl. eapply Forall_impl; [exact Hl|]. intros ch. apply U_ok_nonneg. Qed.
Lemma exit_ok_unsigned e : exit_ok e -> exit_unsigned e.
Proof. intros [Hr Hl]. split; [by eapply U_ok_nonneg | by apply chunks_unsigned]. Qed.

Section Invariant.
Context {L : Type} `{!Currency L, !ReservableCurrency L, Cfg : !Config}.
Implicit Types s : State L.

Definition collator_inv (c : StakingCollators) : Prop :=
  collator_wf c /\
  Z.of_nat (length (StakingCollators.nominations c)) <= MaxNominationsPerCollator /\
  Forall (fun ch => U.ok 128 (ub_value ch)) (StakingCollators.unbonding c).

(** The amounts of all exit records fit 128 bits, and so are unsigned. *)
Definition exits_ok s : Prop := map_Forall (fun _ e => exit_ok e) (ExitQueue s).

(** The amounts of all exit records are unsigned. *)
Definition exits_unsigned s : Prop := map_Forall (fun _ e => exit_unsigned e) (ExitQueue s).

(** The part of the state the invariant speaks of. *)
Definition core s : gmap AccountId StakingCollators * gmap AccountId Leaving *
    gmap Z RewardPoint * gmap (Z * AccountId) RewardPoint :=
  (Collators s, ExitQueue s, TotalPoints s, CollatorPoints s).

(** Every collator is well formed, within its nomination limit and unbonds
    128-bit amounts; so does the exit queue; and the total of a round is the sum
    of its authors' points, modulo [2^32] as both are counted in [u32]. *)
Record pallet_inv s : Prop := {
  inv_collators : map_Forall (fun _ c => collator_inv c) (Collators s);
  inv_exits : exits_ok s;
  inv_points : forall r, U.eqm 32 (map_get (TotalPoints s) r)
                           (map_sum (round_points r) (CollatorPoints s));
}.

Context `{Iter : !StorageIter}.
Context {P B : Type} `{!PerThing P, !BigUint B}.

(** The steps of the chain that reach this pallet.  [step_currency] is
    anything other pallets do to the balances. *)
Inductive step : State L -> State L -> Prop :=
  | step_call origin c s : call_ok c -> step s (dispatch origin c s).2
  | step_finalize now s : step s (on_finalize (P := P) (B := B) now s)
  | step_author a s : step s (note_author a s)
  | step_currency l s : step s (ledger_put l s).

(** ** Frame lemmas *)

Lemma inv_frame s s' : core s' = core s -> pallet_inv s -> pallet_inv s'.
Proof.
  unfold core. intros [= H1 H2 H3 H4] [Hc He Hp].
  split; unfold exits_ok; by rewrite ?H1, ?H2, ?H3, ?H4.
Qed.

Lemma inv_ledger l s : pallet_inv s -> pallet_inv (ledger_put l s).
Proof. by apply inv_frame. Qed.
Lemma inv_reserve who v s : pallet_inv s -> pallet_inv (currency_reserve who v s).
Proof. apply inv_frame. unfold currency_reserve. by destruct (reserve _ _ _). Qed.
Lemma inv_unreserve who v s : pallet_inv s -> pallet_inv (currency_unreserve who v s).
Proof. by apply inv_frame. Qed.
Lemma inv_event e s : pallet_inv s -> pallet_inv (deposit_event e s).
Proof. by apply inv_frame. Qed.
Lemma inv_total_staked v s : pallet_inv s -> pallet_inv (TotalStaked_put v s).
Proof. by apply inv_frame. Qed.
Lemma inv_settings v s : pallet_inv s -> pallet_inv (Settings_put v s).
Proof. by apply inv_frame. Qed.
Lemma inv_nominators who n s : pallet_inv s -> pallet_inv (Nominators_insert who n s).
Proof. by apply inv_frame. Qed.
Lemma inv_exits_unsigned s : pallet_inv s -> exits_unsigned s.
Proof. intros [_ He _] k e Hk. apply exit_ok_unsigned. exact (He k e Hk). Qed.
Lemma inv_exit_insert who e s :
  exit_ok e -> pallet_inv s -> pallet_inv (ExitQueue_insert who e s).
Proof. intros Hx [Hc He Hp]. split; [done | by apply map_Forall_insert_2 | done]. Qed.
Lemma inv_exit_remove who s : pallet_inv s -> pallet_inv (ExitQueue_remove who s).
Proof. intros [Hc He Hp]. split; [done | by apply map_Forall_delete | done]. Qed.
Lemma inv_collator_remove who s : pallet_inv s -> pallet_inv (Collators_remove who s).
Proof. intros [Hc He Hp]. split; [by apply map_Forall_delete | done..]. Qed.
Lemma inv_collator_insert who c s :
  collator_inv c -> pallet_inv s -> pallet_inv (Collators_insert who c s).
Proof. intros Hi [Hc He Hp]. split; [by apply map_Forall_insert_2 | done..]. Qed.
Lemma inv_leave_all (l : list Bond) s :
  pallet_inv s ->
  pallet_inv (foldl (fun s b => currency_unreserve (Bond.owner b) (Bond.amount b) s) s l).
Proof. intros H. apply foldl_inv; [done|]. intros s' b _. apply inv_unreserve. Qed.
Lemma inv_lookup s who c : pallet_inv s -> Collators s !! who = Some c -> collator_inv c.
Proof. intros [Hc _ _]. apply Hc. Qed.

(** ** The operations on one collator *)

Lemma new_inv amount r :
  0 <= MaxNominationsPerCollator -> U.ok 128 amount ->
  collator_inv (StakingCollators.new amount r).
Proof. split; [by apply new_wf | by split]. Qed.
Lemma force_bond_inv c :
  negb (StakingCollators.is_active c) = true -> collator_inv c ->
  collator_inv (StakingCollators.force_bond c).
Proof. intros H%negb_true_iff (Hw & Hn & Hu). split; [by apply force_bond_wf | done]. Qed.
Lemma bond_extra_inv c e r :
  StakingCollators.is_active c = true -> collator_inv c ->
  collator_inv (StakingCollators.bond_extra c e r).
Proof. intros H%active_is_active (Hw & Hn & Hu). split; [by apply bond_extra_wf | done]. Qed.
Lemma bond_less_inv c l r x c' :
  StakingCollators.bond_less c l r = (x, c') ->
  U.ok 128 l -> StakingCollators.is_active c = true -> collator_inv c -> collator_inv c'.
Proof.
  intros He Hl H%active_is_active (Hw & Hn & Hu). pose proof (bond_less_wf c l r H Hw) as Hw'.
  rewrite He in Hw'. split; [done|].
  unfold StakingCollators.bond_less in He. case_match; simplify_eq; [|done].
  split; [done|]. simpl. apply Forall_app. by split; [|apply Forall_singleton].
Qed.
Lemma add_nomination_inv c b x c' :
  StakingCollators.add_nomination c b = (x, c') ->
  StakingCollators.is_active c = true ->
  (Z.of_nat (length (StakingCollators.nominations c)) <? MaxNominationsPerCollator) = true ->
  collator_inv c -> collator_inv c'.
Proof.
  intros He H%active_is_active Hlt (Hw & Hn & Hu).
  unfold StakingCollators.add_nomination in He. case_match; simplify_eq; [by split|].
  split_and!; [by apply set_nominations_wf | | done]. simpl. rewrite length_app. simpl. lia.
Qed.
Lemma nominate_extra_inv c b x c' :
  StakingCollators.nominate_extra c b = (x, c') ->
  StakingCollators.is_active c = true -> collator_inv c -> collator_inv c'.
Proof.
  intros He H%active_is_active (Hw & Hn & Hu).
  unfold StakingCollators.nominate_extra in He.
  destruct (bonds_extra _ b) as [[a l]|] eqn:Hb; simplify_eq; [|by split].
  apply bonds_extra_spec in Hb as [Ho _]. apply (f_equal length) in Ho.
  rewrite !length_fmap in Ho. split_and!; [by apply set_nominations_wf | | done]. simpl. by rewrite Ho.
Qed.
Lemma nominate_less_inv c b x c' :
  StakingCollators.nominate_less c b = (x, c') ->
  StakingCollators.is_active c = true -> collator_inv c -> collator_inv c'.
Proof.
  intros He H%active_is_active (Hw & Hn & Hu).
  unfold StakingCollators.nominate_less in He.
  destruct (bonds_less _ b) as [[[a l]|]|] eqn:Hb; simplify_eq; [|by split..].
  apply bonds_less_spec in Hb as [Ho _]. apply (f_equal length) in Ho.
  rewrite !length_fmap in Ho. split_and!; [by apply set_nominations_wf | | done]. simpl. by rewrite Ho.
Qed.
Lemma rm_nomination_inv c who x c' :
  StakingCollators.rm_nomination c who = (x, c') -> collator_inv c -> collator_inv c'.
Proof.
  intros He (Hw & Hn & Hu). pose proof (rm_nomination_wf c who Hw) as Hw'. rewrite He in Hw'.
  split; [done|]. unfold StakingCollators.rm_nomination in He.
  pose proof (bonds_remove_kept None (StakingCollators.nominations c) who) as Hk.
  destruct (bonds_remove None _ who) as [[y|] l]; simplify_eq; simpl in *; [|done].
  split; [|done]. subst l. pose proof (length_filter (fun b => Bond.owner b <> who) (StakingCollators.nominations c)).
  lia.
Qed.
(** What [update_collators] does to one record. *)
Definition refreshed (r : RoundIndex) (c : StakingCollators) : StakingCollators :=
  StakingCollators.consolidate_unbonded
    (StakingCollators.consolidate_active (StakingCollators.active_onboard c) r) r.
Lemma refreshed_fields r c :
  collator_wf c ->
  StakingCollators.status (refreshed r c) = Active /\
  U.eqm 128 (StakingCollators.active (refreshed r c)) (stake_at c r) /\
  U.eqm 128 (StakingCollators.total (refreshed r c)) (locked_at c r) /\
  StakingCollators.unlocking (refreshed r c)
    = filter (fun ch => r < uc_round ch) (StakingCollators.unlocking c) /\
  StakingCollators.unbonding (refreshed r c)
    = filter (fun ch => r < ub_round ch) (StakingCollators.unbonding c) /\
  StakingCollators.nominations (refreshed r c) = StakingCollators.nominations c.
Proof.
  intros Hw. pose proof (active_onboard_active c Hw) as Hact. unfold refreshed.
  set (c0 := StakingCollators.active_onboard c) in *.
  assert (stake_at c0 r = stake_at c r /\ locked_at c0 r = locked_at c r /\
          StakingCollators.unlocking c0 = StakingCollators.unlocking c /\
          StakingCollators.unbonding c0 = StakingCollators.unbonding c /\
          StakingCollators.nominations c0 = StakingCollators.nominations c) as (E1 & E2 & E3 & E4 & E5).
  { unfold c0, StakingCollators.active_onboard. by case_decide. }
  destruct (consolidate_active_fields c0 r) as (A1 & A2 & A3 & A4 & A5 & A6).
  set (c1 := StakingCollators.consolidate_active c0 r) in *.
  destruct (consolidate_unbonded_fields c1 r) as (B1 & B2 & B3 & B4 & B5 & B6).
  split_and!; [congruence | | |congruence..].
  - by rewrite B3, <- E1.
  - rewrite B1, <- E2. unfold locked_at. by rewrite A3, A4.
Qed.

Lemma refreshed_inv r c : collator_inv c -> collator_inv (refreshed r c).
Proof.
  intros (Hw & Hn & Hu). destruct (refreshed_fields r c Hw) as (_ & _ & _ & _ & Hub & Hnom).
  split_and!; [|by rewrite Hnom | rewrite Hub; by apply Forall_filter_keep].
  unfold refreshed. apply consolidate_unbonded_wf, consolidate_active_wf;
    auto using active_onboard_active, active_onboard_wf.
Qed.
Lemma left_collator_ok c w :
  collator_inv c ->
  exit_ok (mkLeaving (StakingCollators.active c) (StakingCollators.unbonding c) w).
Proof. intros ([_ _ Ha _] & _ & Hu). by split. Qed.

(** ** Every call *)

(** Peels the writes of a handler off the state, down to the state it started
    from and the collator records it wrote. *)
Ltac peel_inv :=
  repeat first
    [ assumption
    | apply inv_event | apply inv_reserve | apply inv_unreserve | apply inv_total_staked
    | apply inv_settings | apply inv_nominators | apply inv_exit_insert | apply inv_exit_remove
    | apply inv_collator_remove | apply inv_leave_all | apply inv_collator_insert
    | apply inv_ledger ].
Ltac collator_inv_of :=
  match goal with
  | |- exit_ok _ => apply left_collator_ok
  | |- collator_inv (StakingCollators.new _ _) => by apply new_inv
  | |- collator_inv (StakingCollators.force_bond _) => apply force_bond_inv
  | |- collator_inv (StakingCollators.bond_extra _ _ _) => apply bond_extra_inv
  | H : StakingCollators.bond_less _ _ _ = (_, ?c) |- collator_inv ?c =>
      eapply (bond_less_inv _ _ _ _ _ H); [eassumption|..]
  | H : StakingCollators.add_nomination _ _ = (_, ?c) |- collator_inv ?c =>
      eapply (add_nomination_inv _ _ _ _ H)
  | H : StakingCollators.nominate_extra _ _ = (_, ?c) |- collator_inv ?c =>
      eapply (nominate_extra_inv _ _ _ _ H)
  | H : StakingCollators.nominate_less _ _ = (_, ?c) |- collator_inv ?c =>
      eapply (nominate_less_inv _ _ _ _ H)
  | H : StakingCollators.rm_nomination _ _ = (_, ?c) |- collator_inv ?c =>
      eapply (rm_nomination_inv _ _ _ _ H)
  end.

Lemma dispatch_inv origin c s :
  0 <= MaxNominationsPerCollator -> call_ok c -> pallet_inv s ->
  pallet_inv (dispatch origin c s).2.
Proof.
  intros Hmax Hok Hs. destruct (dispatch origin c s) as [r s'] eqn:H. simpl.
  destruct c; simpl in Hok; run_call H; simplify_eq; peel_inv; collator_inv_of;
    eauto using inv_lookup.
Qed.

(** ** The end of a block *)

Lemma inv_mint v to s : pallet_inv s -> pallet_inv (mint v to s).
Proof.
  intros H. unfold mint. case_match; [|done].
  destruct (deposit_into_existing _ _ _) as [[]|]; [|done]. by apply inv_event, inv_ledger.
Qed.
Lemma inv_payout r s : pallet_inv s -> pallet_inv (payout_stakers (P := P) (B := B) r s).
Proof.
  intros H. unfold payout_stakers. case_match; [|done].
  apply foldl_inv; [by revert H; apply inv_frame|]. intros s' [acc e] _ Hs'. unfold pay_collator.
  apply foldl_inv; [by apply inv_mint|]. intros s'' n _. apply inv_mint.
Qed.
Lemma update_collator_run r acc c s :
  update_collator r (acc, c) s =
  Collators_insert acc (refreshed r c)
    (currency_unreserve acc
       (StakingCollators.total (StakingCollators.consolidate_active
          (StakingCollators.active_onboard c) r) -128 StakingCollators.total (refreshed r c)) s).
Proof. done. Qed.
Lemma inv_update_collators r s : pallet_inv s -> pallet_inv (update_collators r s).
Proof.
  intros H. unfold update_collators. apply foldl_inv; [done|].
  intros s' [acc c] Hin Hs'. rewrite update_collator_run.
  apply inv_collator_insert; [|by apply inv_unreserve]. apply refreshed_inv.
  rewrite storage_iter_perm in Hin. apply elem_of_map_to_list in Hin. by apply (inv_lookup s acc).
Qed.
Lemma inv_update_nominators r s : pallet_inv s -> pallet_inv (update_nominators r s).
Proof.
  intros H. unfold update_nominators. apply foldl_inv; [done|].
  intros s' [acc n] _ Hs'. unfold update_nominator.
  by apply inv_nominators, inv_unreserve, inv_total_staked.
Qed.
Lemma inv_release acc cs v s : pallet_inv s -> pallet_inv (release_chunk acc cs v s).
Proof. intros H. by apply inv_total_staked, inv_unreserve. Qed.
Lemma inv_exit_filter acc r cs l s : pallet_inv s -> pallet_inv (exit_filter acc r cs l s).2.
Proof.
  revert s. induction l as [|ch l IH]; intros s H; simpl; [done|]. case_match.
  - specialize (IH s H). by destruct (exit_filter acc r cs l s).
  - by apply IH, inv_release.
Qed.
Lemma exit_filter_kept acc r cs l s :
  (exit_filter acc r cs l s).1 = filter (fun ch => r < ub_round ch) l.
Proof.
  revert s. induction l as [|ch l IH]; intros s; [done|]. simpl. rewrite filter_cons.
  destruct (Z.ltb_spec r (ub_round ch)).
  - specialize (IH s). destruct (exit_filter acc r cs l s). simpl in *. subst.
    by rewrite decide_True by lia.
  - rewrite IH. by rewrite decide_False by lia.
Qed.

Lemma inv_exit_queue r s : pallet_inv s -> pallet_inv (execute_exit_queue r s).
Proof.
  intros H. unfold execute_exit_queue. apply foldl_inv; [done|].
  intros s' [acc e] [Hr Hu]%elem_of_storage_iter%(inv_exits s H) Hs'. unfold execute_exit. case_match.
  - pose proof (inv_exit_filter acc r (TotalStaked s') (leaving_unbonding e) s' Hs') as Hs''.
    pose proof (exit_filter_kept acc r (TotalStaked s') (leaving_unbonding e) s') as Hk.
    destruct (exit_filter _ _ _ _ s'). simpl in Hk. subst. apply inv_exit_insert; [|done].
    split; [done|]. by apply Forall_filter_keep.
  - apply inv_exit_remove, foldl_inv; [by apply inv_release|]. intros s'' ch _. apply inv_release.
Qed.
Lemma inv_enact r s : pallet_inv s -> pallet_inv (enact_election r s).2.
Proof.
  intros H. unfold enact_election. destruct (elect _) as [[res w]|]; [|done]. simpl.
  apply foldl_inv; [by revert H; apply inv_frame|]. intros s' e _. by apply inv_frame.
Qed.
Lemma on_finalize_inv now s : pallet_inv s -> pallet_inv (on_finalize (P := P) (B := B) now s).
Proof.
  intros H. unfold on_finalize. case_match; [|done]. unfold start_round.
  set (r := RoundInfo.index _). set (s0 := CurrentRound_put _ s).
  apply inv_event. eapply (inv_frame (enact_election r _).2); [done|].
  apply inv_enact, inv_exit_queue, inv_update_nominators, inv_update_collators, inv_payout.
  by revert H; apply inv_frame.
Qed.

(** ** Authorship *)

Lemma map_get_insert `{Countable K} (m : gmap K Z) k k' v :
  map_get (<[k := v]> m) k' = if decide (k = k') then v else map_get m k'.
Proof. unfold map_get. rewrite lookup_insert. by case_decide. Qed.

Lemma round_points_insert (r now : Z) (a : AccountId) (v : Z) (m : gmap (Z * AccountId) Z) :
  map_sum (round_points r) (<[(now, a) := v]> m)
  = map_sum (round_points r) m + if decide (now = r) then v - map_get m (now, a) else 0.
Proof.
  rewrite map_sum_insert. unfold map_get, round_points at 2 3, RewardPoint. simpl.
  destruct (m !! (now, a)); simpl; case_decide; lia.
Qed.

Lemma note_author_inv a s : pallet_inv s -> pallet_inv (note_author a s).
Proof.
  intros [Hc He Hp]. split; [done..|]. intros r. simpl. specialize (Hp r).
  rewrite map_get_insert, round_points_insert.
  case_decide as Hr; [subst r; rewrite !eqm_u_add|]; rewrite Hp; apply eqm_eq; unfold RoundIndex; lia.
Qed.

(** ** Reachability *)

Lemma step_inv s s' :
  0 <= MaxNominationsPerCollator -> step s s' -> pallet_inv s -> pallet_inv s'.
Proof.
  intros Hmax Hstep Hs. destruct Hstep; eauto using dispatch_inv, on_finalize_inv, note_author_inv.
  by apply inv_ledger.
Qed.

Lemma empty_inv l : pallet_inv (empty_state l).
Proof. split; [apply map_Forall_empty..|]. intros r. reflexivity. Qed.

Lemma build_stakers_inv stakers total s total' s' :
  0 <= MaxNominationsPerCollator -> Forall (fun e => U.ok 128 e.2) stakers ->
  pallet_inv s -> build_stakers stakers total s = Some (total', s') -> pallet_inv s'.
Proof.
  intros Hmax Hok. revert total s. induction Hok as [|[who v] l Hv _ IH]; intros total s Hs H;
    simpl in H; [by simplify_eq|].
  destruct (v <=? _); [|done]. eapply IH; [|done].
  by apply (dispatch_inv (Signed who) (call_bond v)).
Qed.

Lemma build_inv stakers l s :
  0 <= MaxNominationsPerCollator -> Forall (fun e => U.ok 128 e.2) stakers ->
  build stakers l = Some s -> pallet_inv s.
Proof.
  intros Hmax Hok H. unfold build in H.
  destruct (build_stakers _ _ _) as [[t s0]|] eqn:Hb; simplify_eq.
  apply build_stakers_inv in Hb; [|done..|apply empty_inv]. by revert Hb; apply inv_frame.
Qed.

End Invariant.

Lemma mock_stakers_ok : Forall (fun e => U.ok 128 e.2) mock_stakers.
Proof. repeat constructor; vm_compute; first [discriminate | reflexivity]. Qed.
Lemma mock_build : build mock_stakers mock_ledger = Some mock_genesis.
Proof. vm_compute. reflexivity. Qed.
Lemma mock_genesis_inv : pallet_inv mock_genesis.
Proof.
  apply (build_inv mock_stakers mock_ledger);
    [vm_compute; discriminate | apply mock_stakers_ok | apply mock_build].
Qed.
Lemma run_blocks_inv n now s : pallet_inv s -> pallet_inv (run_blocks n now s).
Proof.
  revert now s. induction n as [|n IH]; intros now s Hs; [done|]. by apply IH, on_finalize_inv.
Qed.
Lemma mock_round_2_inv : pallet_inv at_round_2.
Proof. apply run_blocks_inv, mock_genesis_inv. Qed.

