(* ===== verification/StakingTyped.v ===== *)
(** * The staking pallet: every stored number keeps its width

    The model writes a [u32] or a [u128] as an integer.  This file says which
    field has which width, and shows that every operation of the pallet keeps
    the state within them: the arithmetic of the model never leaves the range
    of the machine integers it stands for. *)
From S2P Require Import Prelude StakingTypes Externals TaylorSeries Inflation StakingPallet.
From S2P Require Import StakingRounds StakingMock StakingCalls StakingInvariant.

(** ** The widths of the data (lib.rs lines 117 to 598) *)

Definition bond_typed (b : Bond) : Prop := U.ok 128 (Bond.amount b).
Definition unlock_typed (ch : UnlockChunk) : Prop := U.ok 128 (uc_value ch) /\ U.ok 32 (uc_round ch).
Definition unbond_typed (ch : UnBondChunk) : Prop := U.ok 128 (ub_value ch) /\ U.ok 32 (ub_round ch).

Record collator_typed (c : StakingCollators) : Prop := {
  ct_total : U.ok 128 (StakingCollators.total c);
  ct_active : U.ok 128 (StakingCollators.active c);
  ct_nominations : Forall bond_typed (StakingCollators.nominations c);
  ct_unlocking : Forall unlock_typed (StakingCollators.unlocking c);
  ct_unbonding : Forall unbond_typed (StakingCollators.unbonding c);
}.

Record nominator_typed (n : StakingNominators) : Prop := {
  nt_nominations : Forall bond_typed (StakingNominators.nominations n);
  nt_total : U.ok 128 (StakingNominators.total n);
  nt_unbonding : Forall unbond_typed (StakingNominators.unbonding n);
}.

Definition leaving_typed (e : Leaving) : Prop :=
  U.ok 128 (remaining e) /\ Forall unbond_typed (leaving_unbonding e) /\ U.ok 32 (when e).
Definition round_typed (r : RoundInfo) : Prop :=
  U.ok 32 (RoundInfo.index r) /\ U.ok 32 (RoundInfo.start_in r) /\ U.ok 32 (RoundInfo.length r).
Definition settings_typed (x : SettingStruct) : Prop :=
  U.ok 32 (bond_duration x) /\ U.ok 32 (blocks_per_round x) /\ U.ok 32 (desired_target x).
Definition exposure_typed (e : Exposure) : Prop :=
  U.ok 128 (Exposure.total e) /\ U.ok 128 (Exposure.own e) /\
  Forall (fun i => U.ok 128 (ie_value i)) (Exposure.others e).

(** The arguments of a call have their types. *)
Definition call_typed (c : StakingCall) : Prop :=
  call_ok c /\ match c with call_config settings => settings_typed settings | _ => True end.

(** Closes the fields of a record from what is known of them. *)
Ltac fields := repeat first [done | constructor].

Create HintDb typed.
#[export] Hint Resolve add_ok sub_ok mul_ok : typed.
#[export] Hint Extern 1 (0 <= 32) => lia : typed.
#[export] Hint Extern 1 (0 <= 128) => lia : typed.
#[export] Hint Extern 1 (0 <= _ < _) => lia : typed.

(** ** The operations of one record *)

Lemma drain_unbonding_typed r t l :
  U.ok 128 t -> Forall unbond_typed l ->
  U.ok 128 (drain_unbonding r t l).1 /\ Forall unbond_typed (drain_unbonding r t l).2.
Proof.
  intros Ht Hl. split; [by apply drain_unbonding_ok|].
  rewrite drain_unbonding_kept. by apply Forall_filter_keep.
Qed.
Lemma drain_unlocking_typed r t l :
  U.ok 128 t -> Forall unlock_typed l ->
  U.ok 128 (drain_unlocking r t l).1 /\ Forall unlock_typed (drain_unlocking r t l).2.
Proof.
  intros Ht Hl. split; [by apply drain_unlocking_ok|].
  rewrite drain_unlocking_kept. by apply Forall_filter_keep.
Qed.
Lemma bonds_extra_typed l b a l' :
  bonds_extra l b = Some (a, l') -> Forall bond_typed l -> Forall bond_typed l'.
Proof.
  revert a l'. induction l as [|x l IH]; intros a l' H Hl; [done|]. simpl in H.
  apply Forall_cons in Hl as [Hx Hl]. case_match; simplify_eq.
  - constructor; [by apply add_ok | done].
  - destruct (bonds_extra l b) as [[a0 l0]|]; simplify_eq. constructor; eauto.
Qed.
Lemma bonds_less_typed l b a l' :
  bonds_less l b = Some (Some (a, l')) -> Forall bond_typed l -> Forall bond_typed l'.
Proof.
  revert a l'. induction l as [|x l IH]; intros a l' H Hl; [done|]. simpl in H.
  apply Forall_cons in Hl as [Hx Hl]. repeat case_match; simplify_eq.
  - constructor; [by apply sub_ok | done].
  - constructor; eauto.
Qed.
Lemma bonds_remove_typed less l who :
  Forall bond_typed l -> (forall x, less = Some x -> U.ok 128 x) ->
  Forall bond_typed (bonds_remove less l who).2 /\
  forall x, (bonds_remove less l who).1 = Some x -> U.ok 128 x.
Proof.
  intros Hl. revert less. induction Hl as [|b l Hb Hl IH]; intros less Hx; [done|]. simpl.
  case_match; [apply IH; intros; by simplify_eq|].
  specialize (IH less Hx). destruct (bonds_remove less l who). simpl in *.
  destruct IH. split; [by constructor | done].
Qed.

Section CollatorTyped.
Context (c : StakingCollators).

Lemma collator_new_typed v r : U.ok 128 v -> U.ok 32 r -> collator_typed (StakingCollators.new v r).
Proof. intros. split; simpl; fields. Qed.
Lemma active_onboard_typed : collator_typed c -> collator_typed (StakingCollators.active_onboard c).
Proof. intros []. unfold StakingCollators.active_onboard. by case_decide. Qed.
Lemma force_bond_typed : collator_typed c -> collator_typed (StakingCollators.force_bond c).
Proof. intros []. by split. Qed.
Lemma bond_extra_typed e r :
  U.ok 128 e -> U.ok 32 r -> collator_typed c -> collator_typed (StakingCollators.bond_extra c e r).
Proof.
  intros ?? []. split; simpl; try done; [by apply add_ok|].
  apply Forall_app. split; [done|]. fields.
Qed.
Lemma bond_less_typed l r x c' :
  StakingCollators.bond_less c l r = (x, c') ->
  U.ok 128 l -> U.ok 32 r -> collator_typed c -> collator_typed c'.
Proof.
  unfold StakingCollators.bond_less. intros H ?? []. case_match; simplify_eq; [|done].
  split; simpl; try done; [by apply sub_ok|]. apply Forall_app. split; simpl; fields.
Qed.
Lemma consolidate_active_typed r :
  collator_typed c -> collator_typed (StakingCollators.consolidate_active c r).
Proof.
  intros []. unfold StakingCollators.consolidate_active.
  destruct (drain_unlocking_typed r (StakingCollators.active c) (StakingCollators.unlocking c)); [done..|].
  destruct (drain_unlocking _ _ _). by split.
Qed.
Lemma consolidate_unbonded_typed r :
  collator_typed c -> collator_typed (StakingCollators.consolidate_unbonded c r).
Proof.
  intros []. unfold StakingCollators.consolidate_unbonded.
  destruct (drain_unbonding_typed r (StakingCollators.total c) (StakingCollators.unbonding c)); [done..|].
  destruct (drain_unbonding _ _ _). by split.
Qed.
Lemma collator_add_typed b x c' :
  StakingCollators.add_nomination c b = (x, c') -> bond_typed b -> collator_typed c ->
  collator_typed c'.
Proof.
  unfold StakingCollators.add_nomination. intros H ? []. case_match; simplify_eq; [done|].
  split; try done. apply Forall_app. split; simpl; fields.
Qed.
Lemma collator_extra_typed b x c' :
  StakingCollators.nominate_extra c b = (x, c') -> collator_typed c -> collator_typed c'.
Proof.
  unfold StakingCollators.nominate_extra. intros H [].
  destruct (bonds_extra _ b) as [[]|] eqn:Hb; simplify_eq; [|done].
  split; try done. by eapply bonds_extra_typed.
Qed.
Lemma collator_less_typed b x c' :
  StakingCollators.nominate_less c b = (x, c') -> collator_typed c -> collator_typed c'.
Proof.
  unfold StakingCollators.nominate_less. intros H [].
  destruct (bonds_less _ b) as [[[]|]|] eqn:Hb; simplify_eq; try done.
  split; try done. by eapply bonds_less_typed.
Qed.
Lemma collator_rm_typed who x c' :
  StakingCollators.rm_nomination c who = (x, c') -> collator_typed c -> collator_typed c'.
Proof.
  unfold StakingCollators.rm_nomination. intros H [].
  destruct (bonds_remove_typed None (StakingCollators.nominations c) who) as [Hl _]; [done..|].
  destruct (bonds_remove _ _ who) as [[]?]; simplify_eq; by split.
Qed.
End CollatorTyped.

Section NominatorTyped.
Context (n : StakingNominators).

Lemma nominator_new_typed b :
  bond_typed b -> nominator_typed (StakingNominators.new [b] (Bond.amount b)).
Proof. intros. split; simpl; fields. Qed.
Lemma nominator_add_typed b x n' :
  StakingNominators.add_nomination n b = (x, n') -> bond_typed b -> nominator_typed n ->
  nominator_typed n'.
Proof.
  unfold StakingNominators.add_nomination. intros H ? []. case_match; simplify_eq; [done|].
  split; simpl; [|by apply add_ok | done]. apply Forall_app. split; simpl; fields.
Qed.
Lemma nominator_extra_typed b x n' :
  StakingNominators.nominate_extra n b = (x, n') -> nominator_typed n -> nominator_typed n'.
Proof.
  unfold StakingNominators.nominate_extra. intros H [].
  destruct (bonds_extra _ b) as [[]|] eqn:Hb; simplify_eq; [|done].
  split; simpl; [by eapply bonds_extra_typed | by apply add_ok | done].
Qed.
Lemma nominator_less_typed b r x n' :
  StakingNominators.nominate_less n b r = (x, n') -> bond_typed b -> U.ok 32 r ->
  nominator_typed n -> nominator_typed n'.
Proof.
  unfold StakingNominators.nominate_less. intros H ?? [].
  destruct (bonds_less _ b) as [[[]|]|] eqn:Hb; simplify_eq; try done.
  split; simpl; [by eapply bonds_less_typed | done|]. apply Forall_app. split; simpl; fields.
Qed.
Lemma nominator_consolidate_typed r :
  nominator_typed n -> nominator_typed (StakingNominators.consolidate_unbonded n r).
Proof.
  intros []. unfold StakingNominators.consolidate_unbonded.
  destruct (drain_unbonding_typed r (StakingNominators.total n) (StakingNominators.unbonding n)); [done..|].
  destruct (drain_unbonding _ _ _). by split.
Qed.
Lemma nominator_rm_typed who r x n' :
  StakingNominators.rm_nomination n who r = (x, n') -> U.ok 32 r ->
  nominator_typed n -> nominator_typed n'.
Proof.
  unfold StakingNominators.rm_nomination. intros H ? [].
  destruct (bonds_remove_typed None (StakingNominators.nominations n) who) as [Hl Hx]; [done..|].
  destruct (bonds_remove _ _ who) as [[less|] ?]; simplify_eq; [|by split].
  split; simpl; [done..|]. apply Forall_app. split; [done|]. constructor; [by split; [apply Hx|] | done].
Qed.
End NominatorTyped.

#[export] Hint Resolve collator_new_typed active_onboard_typed force_bond_typed bond_extra_typed
  bond_less_typed consolidate_active_typed consolidate_unbonded_typed collator_add_typed
  collator_extra_typed collator_less_typed collator_rm_typed : typed.
#[export] Hint Resolve nominator_new_typed nominator_add_typed nominator_extra_typed
  nominator_less_typed nominator_consolidate_typed nominator_rm_typed : typed.

(** ** The state *)
Section StateTyped.
Context {L : Type} `{!Currency L, !ReservableCurrency L, Cfg : !Config}.
Implicit Types s : State L.

Record state_typed s : Prop := {
  st_round : round_typed (CurrentRound s);
  st_collators : map_Forall (fun _ => collator_typed) (Collators s);
  st_exits : map_Forall (fun _ => leaving_typed) (ExitQueue s);
  st_total_staked : U.ok 128 (TotalStaked s);
  st_settings : settings_typed (Settings s);
  st_staked_at : map_Forall (fun _ => U.ok 128) (TotalStakedAt s);
  st_issuance_at : map_Forall (fun _ => U.ok 128) (TotalIssuanceAt s);
  st_nominators : map_Forall (fun _ => nominator_typed) (Nominators s);
  st_clipped : map_Forall (fun _ => map_Forall (fun _ => exposure_typed)) (RoundStakerClipped s);
  st_total_points : map_Forall (fun _ => U.ok 32) (TotalPoints s);
  st_points : map_Forall (fun _ => U.ok 32) (CollatorPoints s);
}.

(** The constants of [Config] have their types, and the election provider's
    votes are converted back to [u128]. *)
Record config_typed : Prop := {
  cfg_rounds : U.ok 32 BlocksPerRound;
  cfg_bond : U.ok 32 BondDuration;
  cfg_target : U.ok 32 DesiredTarget;
  cfg_currency v i : U.ok 128 (to_currency v i);
}.

(** The writes of the pallet, one lemma each. *)
Lemma typed_ledger l s : state_typed s -> state_typed (ledger_put l s).
Proof. by intros []. Qed.
Lemma typed_reserve who v s : state_typed s -> state_typed (currency_reserve who v s).
Proof. unfold currency_reserve. by intros []; destruct (reserve _ _ _). Qed.
Lemma typed_unreserve who v s : state_typed s -> state_typed (currency_unreserve who v s).
Proof. by intros []. Qed.
Lemma typed_event e s : state_typed s -> state_typed (deposit_event e s).
Proof. by intros []. Qed.
Lemma typed_weights w s : state_typed s -> state_typed (registered_weights_put w s).
Proof. by intros []. Qed.
Lemma typed_round r s : round_typed r -> state_typed s -> state_typed (CurrentRound_put r s).
Proof. by intros ? []. Qed.
Lemma typed_total_staked v s : U.ok 128 v -> state_typed s -> state_typed (TotalStaked_put v s).
Proof. by intros ? []. Qed.
Lemma typed_settings v s : settings_typed v -> state_typed s -> state_typed (Settings_put v s).
Proof. by intros ? []. Qed.
Lemma typed_collator_insert who c s :
  collator_typed c -> state_typed s -> state_typed (Collators_insert who c s).
Proof. intros ? []. split; try done. by apply map_Forall_insert_2. Qed.
Lemma typed_collator_remove who s : state_typed s -> state_typed (Collators_remove who s).
Proof. intros []. split; try done. by apply map_Forall_delete. Qed.
Lemma typed_nominator_insert who n s :
  nominator_typed n -> state_typed s -> state_typed (Nominators_insert who n s).
Proof. intros ? []. split; try done. by apply map_Forall_insert_2. Qed.
Lemma typed_exit_insert who e s :
  leaving_typed e -> state_typed s -> state_typed (ExitQueue_insert who e s).
Proof. intros ? []. split; try done. by apply map_Forall_insert_2. Qed.
Lemma typed_exit_remove who s : state_typed s -> state_typed (ExitQueue_remove who s).
Proof. intros []. split; try done. by apply map_Forall_delete. Qed.
Lemma typed_leave_all (l : list Bond) s :
  state_typed s ->
  state_typed (foldl (fun s b => currency_unreserve (Bond.owner b) (Bond.amount b) s) s l).
Proof. intros H. apply foldl_inv; [done|]. intros s' b _. apply typed_unreserve. Qed.

(** What is read back. *)
Lemma typed_collator s who c : Collators s !! who = Some c -> state_typed s -> collator_typed c.
Proof. intros H []. eauto. Qed.
Lemma typed_nominator s who n : Nominators s !! who = Some n -> state_typed s -> nominator_typed n.
Proof. intros H []. eauto. Qed.
Lemma map_get_ok `{Countable K} (m : gmap K Z) w k :
  0 <= w -> map_Forall (fun _ => U.ok w) m -> U.ok w (map_get m k).
Proof.
  intros Hw Hm. unfold map_get. destruct (m !! k) as [v|] eqn:E; simpl; [by eapply Hm|].
  pose proof (pow_pos w Hw). by split.
Qed.
Lemma leaving_ok c w :
  U.ok 32 w -> collator_typed c ->
  leaving_typed (mkLeaving (StakingCollators.active c) (StakingCollators.unbonding c) w).
Proof. by intros ? []. Qed.
End StateTyped.

#[export] Hint Resolve typed_ledger typed_reserve typed_unreserve typed_event typed_weights
  typed_round typed_total_staked typed_settings typed_collator_insert typed_collator_remove
  typed_nominator_insert typed_exit_insert typed_exit_remove typed_leave_all typed_collator
  typed_nominator leaving_ok : typed.

Section Preservation.
Context {L : Type} `{!Currency L, !ReservableCurrency L, Cfg : !Config}.
Context `{CL : !CurrencyLaws L, Iter : !StorageIter}.
Context {P B : Type} `{!PerThing P, !BigUint B}.
Implicit Types s : State L.

Lemma dispatch_typed origin c s :
  call_typed c -> state_typed s -> state_typed (dispatch origin c s).2.
Proof using Type.
  intros [Hok Hset] Hs. destruct (dispatch origin c s) as [r s'] eqn:H. simpl.
  destruct c; simpl in Hok, Hset; run_call H; simplify_eq; eauto 12 with typed.
Qed.

(** ** The end of a block *)

Lemma mint_typed v to s : state_typed s -> state_typed (mint v to s).
Proof using Type.
  intros H. unfold mint. case_match; [|done].
  destruct (deposit_into_existing _ _ _) as [[]|]; auto with typed.
Qed.
Lemma payout_typed r s : state_typed s -> state_typed (payout_stakers (P := P) (B := B) r s).
Proof using Type.
  intros H. unfold payout_stakers. case_match; [|done].
  apply foldl_inv; [destruct H; split; try done; by apply map_Forall_delete|].
  intros s' [acc e] _ Hs'. unfold pay_collator.
  apply foldl_inv; [by apply mint_typed|]. intros s'' n _. apply mint_typed.
Qed.
Lemma update_collators_typed r s : state_typed s -> state_typed (update_collators r s).
Proof using Type.
  intros H. unfold update_collators. apply foldl_inv; [done|]. intros s' [acc c] Hin%elem_of_storage_iter Hs'.
  unfold update_collator. eauto 8 with typed.
Qed.
Lemma update_nominators_typed r s : state_typed s -> state_typed (update_nominators r s).
Proof using Type.
  intros H. unfold update_nominators. apply foldl_inv; [done|]. intros s' [acc n] Hin%elem_of_storage_iter Hs'.
  unfold update_nominator. eauto 8 with typed.
Qed.
Lemma release_typed acc cs v s : state_typed s -> state_typed (release_chunk acc cs v s).
Proof using Type. unfold release_chunk. auto with typed. Qed.
Lemma exit_filter_typed acc r cs l s : state_typed s -> state_typed (exit_filter acc r cs l s).2.
Proof using Type.
  revert s. induction l as [|ch l IH]; intros s H; simpl; [done|]. case_match.
  - specialize (IH s H). by destruct (exit_filter acc r cs l s).
  - by apply IH, release_typed.
Qed.
Lemma exit_queue_typed r s : state_typed s -> state_typed (execute_exit_queue r s).
Proof using Type.
  intros H. unfold execute_exit_queue. apply foldl_inv; [done|]. intros s' [acc e] Hin%elem_of_storage_iter Hs'.
  destruct (st_exits s H acc e Hin) as (Hr & Hu & Hw). unfold execute_exit. case_match.
  - pose proof (exit_filter_typed acc r (TotalStaked s') (leaving_unbonding e) s' Hs') as Hs''.
    pose proof (exit_filter_kept acc r (TotalStaked s') (leaving_unbonding e) s') as Hk.
    destruct (exit_filter _ _ _ _ s'). simpl in *. subst. apply typed_exit_insert; [|done].
    split_and!; [done | by apply Forall_filter_keep | apply Hw..].
  - apply typed_exit_remove, foldl_inv; [by apply release_typed|]. intros. by apply release_typed.
Qed.

(** What the loop of [collect_exposures] has accumulated. *)
Definition accumulated (acc : Balance * list IndividualExposure * Balance) : Prop :=
  let '(own, others, total) := acc in exposure_typed (Exposure.mk total own others).

Lemma collect_exposure_typed issuance entry :
  config_typed -> exposure_typed (collect_exposure issuance entry).2.
Proof using Type.
  intros [_ _ _ Hcur]. destruct entry as [who [t vs]]. unfold collect_exposure. simpl.
  match goal with
  | |- context [foldl ?f ?init vs] =>
      assert (accumulated (foldl f init vs)) as Ha; [apply foldl_inv|]
  end.
  - split_and!; done.
  - intros [[own others] total] [who' w] _ (Ht & Ho & Hs). simpl in *.
    pose proof (sat_add_ok 128 total (to_currency w issuance) Ht (Hcur _ _)).
    pose proof (sat_add_ok 128 own (to_currency w issuance) Ho (Hcur _ _)).
    destruct (N.eqb who' who); (split; [done | split; [done|]]); simpl; [done|].
    apply Forall_app. split; [done|]. constructor; [apply Hcur | done].
  - by destruct (foldl _ _ vs) as [[own others] total].
Qed.
Lemma clip_typed r e s : exposure_typed e.2 -> state_typed s -> state_typed (clip r e s).
Proof using Type.
  intros He Hs. unfold clip. apply typed_event. destruct Hs. split; try done. simpl.
  apply map_Forall_insert_2; [|done]. apply map_Forall_insert_2; [done|].
  destruct (RoundStakerClipped s !! r) as [m|] eqn:E; simpl; [by eapply st_clipped0|].
  apply map_Forall_empty.
Qed.
Lemma enact_typed r s : config_typed -> state_typed s -> state_typed (enact_election r s).2.
Proof using Type.
  intros Hcfg H. unfold enact_election. destruct (elect _) as [[res w]|]; [|done]. simpl.
  apply foldl_inv; [by apply typed_weights|]. intros s' e Hin Hs'. apply clip_typed; [|done].
  apply list_elem_of_fmap in Hin as (entry & -> & _). by apply collect_exposure_typed.
Qed.
Lemma snapshot_typed r s :
  state_typed s ->
  state_typed (TotalIssuanceAt_put (<[r := total_issuance (ledger s)]> (TotalIssuanceAt s))
                 (TotalStakedAt_put (<[r := TotalStaked s]> (TotalStakedAt s)) s)).
Proof using CL.
  intros []. split; try done; simpl; apply map_Forall_insert_2; auto. apply total_issuance_range.
Qed.
Lemma start_round_typed now s :
  config_typed -> U.ok 32 now -> state_typed s ->
  state_typed (start_round (P := P) (B := B) now s).
Proof using CL.
  intros Hcfg Hnow Hs. unfold start_round. cbv zeta. apply typed_event.
  set (r := RoundInfo.update _ _ _).
  assert (round_typed r) as Hr.
  { destruct (st_round s Hs) as (Hi & _). destruct (st_settings s Hs) as (_ & Hb & _).
    split_and!; simpl; [by apply add_ok | done..]. }
  match goal with
  | |- state_typed (TotalIssuanceAt_put _ (TotalStakedAt_put _ ?s')) =>
      apply (snapshot_typed (RoundInfo.index r) s')
  end.
  apply enact_typed; [done|].
  auto 10 using exit_queue_typed, update_nominators_typed, update_collators_typed, payout_typed,
    typed_round.
Qed.
Lemma note_author_typed a s : state_typed s -> state_typed (note_author a s).
Proof using Type.
  intros []. split; try done; simpl; apply map_Forall_insert_2; auto; by apply add_ok.
Qed.

(** ** Genesis *)

Lemma empty_typed (l : L) : state_typed (empty_state l).
Proof using Type.
  split; simpl; try exact (map_Forall_empty _); unfold round_typed, settings_typed, U.ok; simpl; lia.
Qed.

Lemma build_stakers_typed stakers total s total' s' :
  Forall (fun e => U.ok 128 e.2) stakers -> U.ok 128 total -> state_typed s ->
  build_stakers stakers total s = Some (total', s') -> U.ok 128 total' /\ state_typed s'.
Proof using Type.
  intros Hok. revert total s. induction Hok as [|[who v] l Hv _ IH]; intros total s Ht Hs H;
    simpl in H; [by simplify_eq|].
  destruct (v <=? _); [|done]. eapply IH; [by apply add_ok | | done].
  by apply (dispatch_typed (Signed who) (call_bond v)).
Qed.

Lemma build_typed stakers l s :
  config_typed -> Forall (fun e => U.ok 128 e.2) stakers ->
  build stakers l = Some s -> state_typed s.
Proof using CL.
  intros [Hr Hb Ht _] Hok H. unfold build in H.
  destruct (build_stakers stakers 0 _) as [[t s0]|] eqn:E; simplify_eq.
  apply build_stakers_typed in E as [Hts Hs0]; [|done | done | apply empty_typed].
  apply typed_event, typed_settings; [done|].
  apply (snapshot_typed 1 (CurrentRound_put (RoundInfo.new 1 0 BlocksPerRound)
                             (TotalStaked_put t s0))).
  by apply typed_round, typed_total_staked.
Qed.

(** The steps of the chain with arguments of their types; [typed_currency] is
    anything other pallets do to the balances. *)
Inductive typed_step : State L -> State L -> Prop :=
  | typed_call origin c s : call_typed c -> typed_step s (dispatch origin c s).2
  | typed_finalize now s : U.ok 32 now -> typed_step s (on_finalize (P := P) (B := B) now s)
  | typed_author a s : typed_step s (note_author a s)
  | typed_currency l s : typed_step s (ledger_put l s).

(** Such a step is a step of the pallet. *)
Lemma typed_step_step s s' : typed_step s s' -> step (P := P) (B := B) s s'.
Proof using Type. intros []; constructor. by destruct H. Qed.

Lemma typed_step_typed s s' : config_typed -> typed_step s s' -> state_typed s -> state_typed s'.
Proof using CL.
  intros Hcfg Hstep Hs. destruct Hstep; [by apply dispatch_typed | |
    by apply note_author_typed | by apply typed_ledger].
  unfold on_finalize. case_match; [by apply start_round_typed | done].
Qed.

(** [C12] Type preservation.  In every state reachable from genesis by calls,
    blocks and author notes whose arguments have their types, every number the
    pallet stores is within the width of its type: balances, stakes, chunks,
    exposures and totals are 128-bit, rounds, durations and points 32-bit. *)
Theorem reachable_typed stakers l s0 s :
  config_typed -> Forall (fun e => U.ok 128 e.2) stakers ->
  build stakers l = Some s0 -> rtc typed_step s0 s -> state_typed s.
Proof using CL.
  intros Hcfg Hok H0 Hr. apply build_typed in H0; [|done..].
  induction Hr; eauto using typed_step_typed.
Qed.
End Preservation.

(** ** Witnesses *)

Lemma mock_config_typed : config_typed.
Proof. split; [by split.. | intros v i; simpl; unfold U.ok, U.max; lia]. Qed.

Lemma run_blocks_typed n now s :
  0 <= now -> now + Z.of_nat n < 2 ^ 32 -> state_typed s -> state_typed (run_blocks n now s).
Proof.
  revert now s. induction n as [|n IH]; intros now s H0 Hn Hs; [done|]. apply IH; [lia | lia|].
  eapply typed_step_typed; [apply mock_config_typed | | exact Hs]. apply typed_finalize. split; lia.
Qed.

Lemma reachable_typed_witness :
  state_typed (on_finalize (P := Z) (B := Limbs) 10
    (dispatch (Signed 1%N) (call_bond 1000) mock_genesis).2).
Proof.
  apply (reachable_typed (P := Z) (B := Limbs) mock_stakers mock_ledger mock_genesis).
  - apply mock_config_typed.
  - apply mock_stakers_ok.
  - apply mock_build.
  - eapply rtc_l.
    + apply (typed_call (P := Z) (B := Limbs) (Signed 1%N) (call_bond 1000)).
      split; [split; [discriminate | reflexivity] | exact I].
    + apply rtc_once, (typed_finalize (P := Z) (B := Limbs)). split; [discriminate | reflexivity].
Defined.
