(* ===== verification/StakingPayout.v ===== *)
(** * The staking pallet: what a round costs

    The sum of the rewards [payout_stakers] announces, against the payout that
    [compute_total_payout] grants the round.  A collator is paid half its own
    share of the stake and half its share of the points, but a nominator its
    whole share of the stake, so that a round can cost half as much again as
    was granted for it, and never more than that, up to rounding. *)
From S2P Require Import Prelude StakingTypes Externals TaylorSeries Inflation StakingPallet.
From S2P Require Import StakingRounds StakingMock StakingCalls StakingInvariant StakingTyped.

(** The amount of a [Rewarded] event. *)
Definition rewarded (e : Event) : Z := match e with Rewarded _ v => v | _ => 0 end.
(** The stake behind an exposure. *)
Definition exposed (e : AccountId * Exposure) : Z :=
  Exposure.own e.2 + sumZ ie_value (Exposure.others e.2).
(** How many rewards an entry leads to, the two halves of a collator's counted
    as two. *)
Definition rewards_of (e : AccountId * Exposure) : Z := 2 + Z.of_nat (length (Exposure.others e.2)).

Lemma sumZ_add {A} (f g : A -> Z) l : sumZ (fun x => f x + g x) l = sumZ f l + sumZ g l.
Proof. induction l; simpl; lia. Qed.
Lemma sumZ_scale {A} k (f : A -> Z) l : sumZ (fun x => k * f x) l = k * sumZ f l.
Proof. induction l; simpl; lia. Qed.
Lemma sumZ_fmap {A B} (h : A -> B) (f : B -> Z) l : sumZ f (h <$> l) = sumZ (fun x => f (h x)) l.
Proof. induction l as [|x l IH]; [done|]. rewrite fmap_cons, !sumZ_cons. by rewrite IH. Qed.
Lemma sumZ_bind {A B} (h : A -> list B) (f : B -> Z) l :
  sumZ f (l ≫= h) = sumZ (fun x => sumZ f (h x)) l.
Proof. induction l as [|x l IH]; [done|]. rewrite bind_cons, sumZ_app, sumZ_cons. by rewrite IH. Qed.
Lemma sumZ_elem {A} (f : A -> Z) l x : Forall (fun y => 0 <= f y) l -> x ∈ l -> f x <= sumZ f l.
Proof.
  induction 1 as [|y l Hy Hl IH]; intros Hx; [by apply elem_of_nil in Hx|].
  apply elem_of_cons in Hx as [->|Hx]; simpl; [pose proof (sumZ_nonneg f l Hl) | specialize (IH Hx)]; lia.
Qed.

(** The entries of a map under distinct keys add up to no more than all of it. *)
Lemma sumZ_keys `{Countable K} {V} (f : K * V -> Z) (m : gmap K V) (ks : list K) :
  NoDup ks -> map_Forall (fun k v => 0 <= f (k, v)) m ->
  sumZ (fun k => match m !! k with Some v => f (k, v) | None => 0 end) ks <= map_sum f m.
Proof.
  intros Hd. revert m. induction Hd as [|k ks Hk Hd IH]; intros m Hm.
  - apply sumZ_nonneg, Forall_forall. intros [k v] Hin%elem_of_map_to_list. by apply (Hm k).
  - specialize (IH (delete k m) (map_Forall_delete _ _ _ Hm)). rewrite sumZ_cons.
    erewrite sumZ_ext in IH; [|apply Forall_forall; intros k' Hk'; rewrite lookup_delete_ne;
      [reflexivity | by intros ->]].
    destruct (m !! k) as [v|] eqn:Hv; [rewrite (map_sum_delete f k v m Hv); lia|].
    by rewrite delete_id in IH.
Qed.

Section Payout.
Context {L : Type} `{!Currency L, !ReservableCurrency L, Cfg : !Config}.
Context `{CL : !CurrencyLaws L, Iter : !StorageIter}.
Context {P B : Type} `{!PerThing P, !BigUint B, PTL : !PerThingLaws P}.
Implicit Types s : State L.

(** ** Shares *)

(** The parts of [x] in [total]. *)
Definition share (total x : Z) : Z := deconstruct (P := P) (from_rational x total).

Lemma share_nonneg total x : 0 <= share total x.
Proof using PTL. apply deconstruct_range. Qed.

(** The shares of a total make up no more than the whole, but for one part. *)
Lemma shares_whole total (l : list Z) :
  Forall (fun x => 0 <= x) l -> sumZ id l <= total -> sumZ (share total) l <= ACCURACY (P := P) + 1.
Proof using PTL.
  intros Hl Hle. pose proof (accuracy_range (P := P)) as Ha. set (q := Z.max total 1).
  assert (forall l', Forall (fun x => 0 <= x <= q) l' ->
            sumZ (share total) l' * q * (ACCURACY (P := P) - 1)
            <= sumZ id l' * ACCURACY (P := P) * ACCURACY (P := P)) as Hsum.
  { induction 1 as [|x l' Hx _ IH]; [simpl; lia|]. rewrite !sumZ_cons.
    pose proof (from_rational_down (P := P) x total Hx) as H. fold q in H. fold (share total x) in H.
    change (id x) with x. lia. }
  assert (Forall (fun x => 0 <= x <= q) l) as Hq.
  { apply Forall_forall. intros x Hx. rewrite Forall_forall in Hl. split; [by apply Hl|].
    assert (id x <= sumZ id l) as Hx' by (apply sumZ_elem; [by apply Forall_forall | done]).
    change (id x) with x in Hx'. lia. }
  specialize (Hsum l Hq).
  assert (sumZ (share total) l * (ACCURACY (P := P) - 1) <= ACCURACY (P := P) * ACCURACY (P := P)) as Hk.
  { apply Z.mul_le_mono_pos_r with q; [lia|]. assert (sumZ id l <= q) by lia. nia. }
  nia.
Qed.

(** ** The rewards of one entry *)

(** What [pay_collator] is to pay for an entry. *)
Definition entry_due (payout total_stake : Balance) (total_points : RewardPoint)
    (point : AccountId -> RewardPoint) (e : AccountId * Exposure) : Z :=
  collator_reward (P := P) payout total_stake total_points (Exposure.own e.2) (point e.1)
  + sumZ (fun n => nominator_reward (P := P) payout total_stake (ie_value n)) (Exposure.others e.2).

Lemma mul_balance_upper (p : P) n :
  0 <= n -> 2 * ACCURACY (P := P) * pt_mul_balance p n <= 2 * deconstruct p * n + ACCURACY (P := P).
Proof using PTL. intros Hn. pose proof (pt_mul_balance_nearest p n Hn). lia. Qed.
Lemma mul_balance_nonneg (p : P) n : 0 <= n -> 0 <= pt_mul_balance p n.
Proof using PTL.
  intros Hn. pose proof (pt_mul_balance_nearest p n Hn). pose proof (accuracy_range (P := P)).
  pose proof (deconstruct_range p). nia.
Qed.

(** Half of a share pays half of it. *)
Lemma half_share payout total x :
  0 <= payout ->
  2 * ACCURACY (P := P) * pt_mul_balance (pt_mul (from_rational (P := P) 50 100) (from_rational x total)) payout
  <= share total x * payout + ACCURACY (P := P).
Proof using PTL.
  intros Hp. set (h := from_rational 50 100). set (f := from_rational x total).
  pose proof (mul_balance_upper (pt_mul h f) payout Hp). pose proof (accuracy_range (P := P)).
  assert (2 * deconstruct h <= ACCURACY (P := P)) as Hh.
  { unfold h. rewrite from_rational_deconstruct by lia.
    pose proof (Z.mul_div_le (50 * ACCURACY (P := P)) 100). lia. }
  pose proof (pt_mul_down h f) as Hd. pose proof (deconstruct_range f).
  pose proof (deconstruct_range (pt_mul h f)).
  assert (2 * deconstruct (pt_mul h f) <= deconstruct f) by nia.
  unfold share. fold f. nia.
Qed.

Lemma entry_due_upper payout total_stake total_points point e :
  0 <= payout ->
  2 * ACCURACY (P := P) * entry_due payout total_stake total_points point e
  <= payout * (2 * sumZ (share total_stake) (Exposure.own e.2 :: (ie_value <$> Exposure.others e.2))
               + share total_points (point e.1) - share total_stake (Exposure.own e.2))
     + ACCURACY (P := P) * rewards_of e.
Proof using PTL.
  intros Hp. unfold entry_due, collator_reward, rewards_of. rewrite sumZ_cons.
  pose proof (half_share payout total_stake (Exposure.own e.2) Hp) as H1.
  pose proof (half_share payout total_points (point e.1) Hp) as H2.
  set (pa := pt_mul _ (from_rational (Exposure.own e.2) total_stake)) in *.
  set (pb := pt_mul _ (from_rational (point e.1) total_points)) in *.
  pose proof (mul_balance_nonneg pa payout Hp) as Ha. pose proof (mul_balance_nonneg pb payout Hp) as Hb.
  set (a := pt_mul_balance pa payout) in *. set (b := pt_mul_balance pb payout) in *.
  assert (a +128 b <= a + b) as Hab by (apply Z.mod_le; lia).
  assert (2 * ACCURACY (P := P)
          * sumZ (fun n => nominator_reward (P := P) payout total_stake (ie_value n)) (Exposure.others e.2)
          <= payout * (2 * sumZ (share total_stake) (ie_value <$> Exposure.others e.2))
             + ACCURACY (P := P) * Z.of_nat (length (Exposure.others e.2))) as H3.
  { induction (Exposure.others e.2) as [|n l IH]; [simpl; lia|].
    rewrite fmap_cons, !sumZ_cons. cbn [length]. rewrite Nat2Z.inj_succ.
    pose proof (mul_balance_upper (from_rational (ie_value n) total_stake) payout Hp) as Hn.
    fold (share total_stake (ie_value n)) in Hn.
    change (pt_mul_balance (from_rational (ie_value n) total_stake) payout)
      with (nominator_reward (P := P) payout total_stake (ie_value n)) in Hn. lia. }
  pose proof (accuracy_range (P := P)). set (A := ACCURACY (P := P)) in *.
  assert (2 * A * (a +128 b) <= 2 * A * (a + b)) by (apply Z.mul_le_mono_nonneg_l; lia).
  lia.
Qed.

(** ** The loop *)

Definition announced s : Z := sumZ rewarded (events s).

Lemma announced_mint v to s :
  0 <= v -> announced s <= announced (mint v to s) <= announced s + v.
Proof using CL.
  intros Hv. unfold mint. case_match; [|lia].
  destruct (deposit_into_existing to v (ledger s)) as [[imb l]|] eqn:Hd; [|lia].
  apply deposit_amount in Hd as ->. unfold announced, deposit_event. simpl.
  rewrite sumZ_app. simpl. lia.
Qed.
Lemma points_mint v to s : CollatorPoints (mint v to s) = CollatorPoints s.
Proof using Type. unfold mint. case_match; [|done]. by destruct (deposit_into_existing _ _ _) as [[]|]. Qed.

Lemma pay_collator_points r payout T TP e s :
  CollatorPoints (pay_collator (P := P) r payout T TP e s) = CollatorPoints s.
Proof using Type.
  destruct e as [acc e]. unfold pay_collator. rewrite (foldl_proj CollatorPoints); [apply points_mint|].
  intros. apply points_mint.
Qed.

Lemma nominators_announced payout T l s :
  0 <= payout ->
  announced (foldl (fun s n => mint (nominator_reward (P := P) payout T (ie_value n)) (ie_who n) s) s l)
  <= announced s + sumZ (fun n => nominator_reward (P := P) payout T (ie_value n)) l.
Proof using CL PTL.
  intros Hp. revert s. induction l as [|n l IH]; intros s; simpl; [lia|].
  set (v := nominator_reward payout T (ie_value n)).
  assert (0 <= v) as Hv by by apply mul_balance_nonneg.
  pose proof (announced_mint v (ie_who n) s Hv). specialize (IH (mint v (ie_who n) s)). lia.
Qed.

Lemma pay_collator_announced r payout T TP e s :
  0 <= payout ->
  announced (pay_collator (P := P) r payout T TP e s)
  <= announced s + entry_due payout T TP (fun acc => map_get (CollatorPoints s) (r, acc)) e.
Proof using CL PTL.
  intros Hp. destruct e as [acc e]. unfold pay_collator, entry_due. simpl.
  set (v := collator_reward _ _ _ _ _).
  assert (0 <= v) as Hv by (apply (add_ok 128); lia).
  pose proof (announced_mint v acc s Hv).
  pose proof (nominators_announced payout T (Exposure.others e) (mint v acc s) Hp). lia.
Qed.

Lemma payout_loop_announced r payout T TP l s :
  0 <= payout ->
  announced (foldl (fun s e => pay_collator (P := P) r payout T TP e s) s l)
  <= announced s + sumZ (entry_due payout T TP (fun acc => map_get (CollatorPoints s) (r, acc))) l.
Proof using CL PTL.
  intros Hp. revert s. induction l as [|e l IH]; intros s; simpl; [lia|].
  pose proof (pay_collator_announced r payout T TP e s Hp).
  specialize (IH (pay_collator r payout T TP e s)). rewrite pay_collator_points in IH. lia.
Qed.

(** All rewards of a round, if the stakes and the points are shares of their
    totals. *)
Lemma entries_due_upper payout T TP point l :
  0 <= payout ->
  Forall (fun e => exposure_typed e.2) l -> sumZ exposed l <= T ->
  Forall (fun e => 0 <= point e.1) l -> sumZ (fun e => point e.1) l <= TP ->
  2 * ACCURACY (P := P) * sumZ (entry_due payout T TP point) l
  <= 3 * (ACCURACY (P := P) + 1) * payout + ACCURACY (P := P) * sumZ rewards_of l.
Proof using PTL.
  intros Hp Hl HT Hpt HTP.
  set (stakes (e : AccountId * Exposure) := Exposure.own e.2 :: (ie_value <$> Exposure.others e.2)).
  assert (2 * ACCURACY (P := P) * sumZ (entry_due payout T TP point) l
          <= payout * (2 * sumZ (share T) (l ≫= stakes)
                       + sumZ (share TP) ((fun e => point e.1) <$> l)
                       - sumZ (share T) ((fun e => Exposure.own e.2) <$> l))
             + ACCURACY (P := P) * sumZ rewards_of l) as H.
  { clear HT HTP Hl Hpt. induction l as [|e l IH]; [simpl; lia|].
    rewrite bind_cons, sumZ_app, !fmap_cons, !sumZ_cons.
    pose proof (entry_due_upper payout T TP point e Hp) as He. fold (stakes e) in He.
    set (x := sumZ (share T) (stakes e)) in *. lia. }
  assert (sumZ (share T) (l ≫= stakes) <= ACCURACY (P := P) + 1) as H1.
  { apply shares_whole.
    - apply Forall_bind. eapply Forall_impl; [exact Hl|]. intros e (_ & Ho & Hs).
      constructor; [apply Ho|]. apply Forall_fmap. eapply Forall_impl; [exact Hs|]. intros i Hi. apply Hi.
    - rewrite sumZ_bind. erewrite sumZ_ext; [exact HT|]. apply Forall_forall. intros e _.
      unfold stakes, exposed. simpl. rewrite sumZ_fmap. done. }
  assert (sumZ (share TP) ((fun e => point e.1) <$> l) <= ACCURACY (P := P) + 1) as H2.
  { apply shares_whole; [by apply Forall_fmap|]. by rewrite sumZ_fmap. }
  assert (0 <= sumZ (share T) ((fun e => Exposure.own e.2) <$> l)) as H3.
  { apply sumZ_nonneg, Forall_forall. intros; apply share_nonneg. }
  etrans; [exact H|]. apply Z.add_le_mono_r.
  rewrite Z.mul_comm. apply Z.mul_le_mono_nonneg_r; [done|]. unfold Balance, RewardPoint in *. lia.
Qed.

(** [C28] The cost of a round, in a state that keeps the invariants of the pallet.
    If the exposures recorded for the round do not
    exceed the stake recorded for it, which they may after a [nominate] that
    failed half-way, and its points stay below [2^32], all the
    rewards announced when it is paid out make up at most three halves of what
    [compute_total_payout] grants the round (up to one part in [ACCURACY]), plus
    half a unit for each rounding. *)
Theorem payout_cost r s :
  let paid_round := r -32 PayoutDuration in
  let exposures := default ∅ (RoundStakerClipped s !! paid_round) in
  let payout := compute_total_payout (P := P) (B := B) (map_get (TotalStakedAt s) paid_round)
                  (map_get (TotalIssuanceAt s) paid_round) 25 20 50 5 (BlocksPerRound *32 6000) in
  state_typed s -> pallet_inv s ->
  map_sum exposed exposures <= map_get (TotalStakedAt s) paid_round ->
  map_sum (round_points paid_round) (CollatorPoints s) < 2 ^ 32 ->
  2 * ACCURACY (P := P) * (announced (payout_stakers (P := P) (B := B) r s) - announced s)
  <= 3 * (ACCURACY (P := P) + 1) * payout + ACCURACY (P := P) * map_sum rewards_of exposures.
Proof using CL PTL.
  intros pr m payout Hty Hinv HT Hpts.
  assert (0 <= payout) as Hp.
  { apply compute_total_payout_range. by apply (map_get_ok _ 128), st_issuance_at. }
  pose proof (accuracy_range (P := P)).
  assert (0 <= map_sum rewards_of m) as Hr.
  { apply sumZ_nonneg, Forall_forall. intros e _. unfold rewards_of. lia. }
  unfold payout_stakers. destruct (Z.ltb_spec PayoutDuration r); [|nia].
  fold pr. fold payout. fold m.
  set (s0 := RoundStakerClipped_put _ s). change (announced s) with (announced s0).
  set (TP := map_get (TotalPoints s) pr). set (T := map_get (TotalStakedAt s) pr) in *.
  pose proof (payout_loop_announced pr payout T TP (storage_iter m) s0 Hp) as Hl.
  change (CollatorPoints s0) with (CollatorPoints s) in Hl.
  set (point acc := map_get (CollatorPoints s) (pr, acc)) in *.
  enough (2 * ACCURACY (P := P) * sumZ (entry_due payout T TP point) (storage_iter m)
          <= 3 * (ACCURACY (P := P) + 1) * payout + ACCURACY (P := P) * sumZ rewards_of (storage_iter m)) as He.
  { assert (map_sum rewards_of m = sumZ rewards_of (storage_iter m)) as ->
      by (unfold map_sum; by rewrite storage_iter_perm).
    etrans; [|exact He]. apply Z.mul_le_mono_nonneg_l; [lia|].
    by apply Z.le_sub_le_add_l. }
  apply entries_due_upper; [done | | | |].
  - apply Forall_forall. intros [acc e] Hin%elem_of_storage_iter. subst m.
    destruct (RoundStakerClipped s !! pr) as [m|] eqn:Em; [|done].
    by apply (st_clipped s Hty pr m Em acc).
  - by rewrite storage_iter_perm.
  - apply Forall_forall. intros e _. by apply (map_get_ok _ 32), st_points.
  - assert (TP = map_sum (round_points pr) (CollatorPoints s)) as ->.
    { apply (eqm_exact 32); [by apply map_get_ok, st_total_points | | apply (inv_points s Hinv)].
      split; [|done]. apply sumZ_nonneg, Forall_forall. intros [k v] Hin%elem_of_map_to_list.
      unfold round_points. case_decide; [|done]. by apply (st_points s Hty k v Hin). }
    destruct (storage_iter_lookup m) as [Hd _].
    pose proof (sumZ_keys (round_points pr) (CollatorPoints s) (pair pr <$> (storage_iter m).*1)) as Hk.
    rewrite !sumZ_fmap in Hk. etrans; [|apply Hk].
    + apply Z.eq_le_incl, sumZ_ext, Forall_forall. intros e _. unfold point, map_get, round_points.
      assert (forall o : option Z, default 0 o
        = match o with Some v => if decide (pr = pr) then v else 0 | None => 0 end) as Ho.
      { intros []; [by rewrite decide_True | done]. }
      apply Ho.
    + by apply NoDup_fmap_2; [apply _|].
    + intros k v Hin. unfold round_points. case_decide; [|done]. by apply (st_points s Hty k v Hin).
Qed.
End Payout.

(** ** A round that costs more than it is granted *)

Definition rich_balances : list (AccountId * N) := [(100, 1000); (10, 2000000000000000)]%N.
Definition rich_stakers : list (AccountId * Balance) := [(100%N, 500)].
Definition rich_ledger : Ledger :=
  mkLedger (list_to_map rich_balances) ∅ (sumZ (fun e => Z.of_N e.2) rich_balances).
Definition rich_genesis : State Ledger :=
  default (empty_state rich_ledger) (build rich_stakers rich_ledger).

(** Collator 100 stakes 500, account 10 backs it with [10^15]; 100 authors a
    block of round 3, which is due at the end of block 40. *)
Definition rich_nominated : State Ledger :=
  (dispatch (Signed 10%N) (call_nominate 100%N 1000000000000000) (run_to_block 1 11 rich_genesis)).2.
Definition rich_round_3 : State Ledger :=
  run_to_block 21 40 (note_author 100%N (run_to_block 11 21 rich_nominated)).

(** The round is granted 380200000 and costs one and a half times as much: the
    nominator has all of the stake and gets all of the payout, the collator has
    all of the points and gets half of it again. *)
Theorem round_overpaid :
  let s := rich_round_3 in
  compute_total_payout (P := Z) (B := Limbs) (map_get (TotalStakedAt s) 3)
    (map_get (TotalIssuanceAt s) 3) 25 20 50 5 (BlocksPerRound *32 6000) = 380200000 /\
  announced (payout_stakers (P := Z) (B := Limbs) 5 s) - announced s = 570300000 /\
  events (payout_stakers (P := Z) (B := Limbs) 5 s)
  = events s ++ [Rewarded 100%N 190100000; Rewarded 10%N 380200000].
Proof. vm_compute. repeat split. Qed.

Lemma rich_build : build rich_stakers rich_ledger = Some rich_genesis.
Proof. vm_compute. reflexivity. Qed.
Lemma rich_stakers_ok : Forall (fun e => U.ok 128 e.2) rich_stakers.
Proof. constructor; [by split | done]. Qed.

Lemma rich_round_3_typed : state_typed rich_round_3.
Proof.
  apply run_blocks_typed; [done | done|]. apply note_author_typed.
  apply run_blocks_typed; [done | done|]. apply dispatch_typed; [by split|].
  apply run_blocks_typed; [done | done|].
  apply (build_typed rich_stakers rich_ledger);
    [apply mock_config_typed | apply rich_stakers_ok | apply rich_build].
Qed.
Lemma rich_round_3_inv : pallet_inv rich_round_3.
Proof.
  apply run_blocks_inv, note_author_inv, run_blocks_inv, dispatch_inv; [done | done|].
  apply run_blocks_inv. by apply (build_inv rich_stakers rich_ledger); [|apply rich_stakers_ok | apply rich_build].
Qed.

Lemma payout_cost_witness :
  let s := rich_round_3 in
  let paid_round := 5 -32 PayoutDuration in
  let exposures := default ∅ (RoundStakerClipped s !! paid_round) in
  let payout := compute_total_payout (P := Z) (B := Limbs) (map_get (TotalStakedAt s) paid_round)
                  (map_get (TotalIssuanceAt s) paid_round) 25 20 50 5 (BlocksPerRound *32 6000) in
  2 * ACCURACY (P := Z) * (announced (payout_stakers (P := Z) (B := Limbs) 5 s) - announced s)
  <= 3 * (ACCURACY (P := Z) + 1) * payout + ACCURACY (P := Z) * map_sum rewards_of exposures.
Proof.
  refine (payout_cost (P := Z) (B := Limbs) 5 rich_round_3 rich_round_3_typed rich_round_3_inv _ _).
  - apply Z.leb_le. vm_compute. reflexivity.
  - apply Z.ltb_lt. vm_compute. reflexivity.
Defined.

(** The rewards [payout_stakers_work] expects, for the collators and the points
    of the test in round 2. *)
Example payout_stakers_work :
  let s := RoundStakerClipped_put ∅ at_round_2 in
  let s := (process_election [(200%N, mkSupport 500 [(200%N, 500)]);
                              (300%N, mkSupport 600 [(300%N, 600)])] 2 s).2 in
  let s := set_author_points 2 100%N 3000 s in
  let s := set_author_points 2 200%N 2000 s in
  let s := set_author_points 2 300%N 5000 s in
  events (payout_stakers (P := Z) (B := Limbs) 4 s)
  = events s ++ [Rewarded 300%N 3; Rewarded 200%N 2].
Proof. vm_compute. reflexivity. Qed.
