(* ===== verification/StakingMoney.v ===== *)
(** * The staking pallet: conservation of money

    What an account holds, free and reserved, changes under the pallet only by
    the rewards the pallet announces: every [Rewarded] event is backed by a
    deposit and every deposit by an event.  The argument is one projection,
    [money], that every write of the pallet leaves alone. *)
From S2P Require Import Prelude StakingTypes Externals TaylorSeries Inflation StakingPallet.
From S2P Require Import StakingRounds StakingMock StakingCalls.

(** The rewards [a] was announced in a list of events. *)
Definition reward_of (a : AccountId) (e : Event) : Z :=
  match e with Rewarded who v => if decide (a = who) then v else 0 | _ => 0 end.

Section Money.
Context {L : Type} `{!Currency L, !ReservableCurrency L, Cfg : !Config}.
Implicit Types s : State L.

Definition balance_of (l : L) (a : AccountId) : Z := free_balance l a + reserved_balance l a.
(** What [a] holds, less [k] times the rewards announced so far: with [k = 1]
    every write leaves it alone, with [k = 0] every write but a payout. *)
Definition money (k : Z) (a : AccountId) s : Z :=
  balance_of (ledger s) a - k * sumZ (reward_of a) (events s).

Context `{!CurrencyLaws L, RL : !ReservableLaws L, Iter : !StorageIter}.
Context {P B : Type} `{!PerThing P, !BigUint B}.

Lemma money_frame k a s s' :
  ledger s' = ledger s -> events s' = events s -> money k a s' = money k a s.
Proof. unfold money. by intros -> ->. Qed.
Lemma money_event k a e s : reward_of a e = 0 -> money k a (deposit_event e s) = money k a s.
Proof. intros He. unfold money, deposit_event. simpl. rewrite sumZ_app. simpl. lia. Qed.
Lemma money_reserve k a who v s : money k a (currency_reserve who v s) = money k a s.
Proof using RL.
  unfold currency_reserve, money, balance_of. destruct (reserve who v (ledger s)) eqn:Hr; [|done].
  simpl. by rewrite (reserve_keeps who v _ _ a Hr).
Qed.
Lemma money_unreserve k a who v s : money k a (currency_unreserve who v s) = money k a s.
Proof using RL. unfold money, balance_of. simpl. by rewrite unreserve_keeps. Qed.
Lemma money_collator_insert k a who c s : money k a (Collators_insert who c s) = money k a s.
Proof. done. Qed.
Lemma money_collator_remove k a who s : money k a (Collators_remove who s) = money k a s.
Proof. done. Qed.
Lemma money_nominators k a who n s : money k a (Nominators_insert who n s) = money k a s.
Proof. done. Qed.
Lemma money_exit_insert k a who e s : money k a (ExitQueue_insert who e s) = money k a s.
Proof. done. Qed.
Lemma money_exit_remove k a who s : money k a (ExitQueue_remove who s) = money k a s.
Proof. done. Qed.
Lemma money_total_staked k a v s : money k a (TotalStaked_put v s) = money k a s.
Proof. done. Qed.
Lemma money_settings k a v s : money k a (Settings_put v s) = money k a s.
Proof. done. Qed.
Lemma money_leave_all k a (l : list Bond) s :
  money k a (foldl (fun s b => currency_unreserve (Bond.owner b) (Bond.amount b) s) s l) = money k a s.
Proof using RL. apply foldl_proj. intros s' b. apply money_unreserve. Qed.

Lemma dispatch_money k a origin c s : money k a (dispatch origin c s).2 = money k a s.
Proof using RL.
  destruct (dispatch origin c s) as [r s'] eqn:H. simpl.
  destruct c; run_call H; simplify_eq; rewrite ?money_event by done;
    repeat first
      [ done | rewrite money_reserve | rewrite money_unreserve | rewrite money_leave_all
      | rewrite money_collator_insert | rewrite money_collator_remove | rewrite money_nominators
      | rewrite money_exit_insert | rewrite money_total_staked | rewrite money_settings ].
Qed.

Lemma money_mint a v to s : money 1 a (mint v to s) = money 1 a s.
Proof using RL.
  unfold mint. case_match; [|done].
  destruct (deposit_into_existing to v (ledger s)) as [[imb l]|] eqn:Hd; [|done].
  destruct (deposit_pays to v _ _ _ a Hd) as [Hr Hf].
  unfold money, balance_of, deposit_event. simpl. rewrite sumZ_app, Hr, Hf. simpl. lia.
Qed.

Lemma payout_money a r s : money 1 a (payout_stakers (P := P) (B := B) r s) = money 1 a s.
Proof using RL.
  unfold payout_stakers. case_match; [|done]. set (s0 := RoundStakerClipped_put _ s).
  change (money 1 a s) with (money 1 a s0). apply foldl_proj. intros s' [acc e].
  unfold pay_collator. rewrite foldl_proj; [apply money_mint|]. intros. apply money_mint.
Qed.
Lemma update_collators_money k a r s : money k a (update_collators r s) = money k a s.
Proof using RL.
  apply foldl_proj. intros s' [acc c]. unfold update_collator.
  by rewrite money_collator_insert, money_unreserve.
Qed.
Lemma update_nominators_money k a r s : money k a (update_nominators r s) = money k a s.
Proof using RL.
  apply foldl_proj. intros s' [acc n]. unfold update_nominator.
  by rewrite money_nominators, money_unreserve.
Qed.
Lemma release_money k a acc cs v s : money k a (release_chunk acc cs v s) = money k a s.
Proof using RL. unfold release_chunk. by rewrite money_total_staked, money_unreserve. Qed.
Lemma exit_filter_money k a acc r cs l s : money k a (exit_filter acc r cs l s).2 = money k a s.
Proof using RL.
  revert s. induction l as [|ch l IH]; intros s; simpl; [done|]. case_match.
  - specialize (IH s). by destruct (exit_filter acc r cs l s).
  - by rewrite IH, release_money.
Qed.
Lemma exit_queue_money k a r s : money k a (execute_exit_queue r s) = money k a s.
Proof using RL.
  apply foldl_proj. intros s' [acc e]. unfold execute_exit. case_match.
  - pose proof (exit_filter_money k a acc r (TotalStaked s') (leaving_unbonding e) s') as Hm.
    destruct (exit_filter _ _ _ _ s'). by rewrite money_exit_insert.
  - rewrite money_exit_remove, foldl_proj; [apply release_money|]. intros. apply release_money.
Qed.
Lemma enact_money k a r s : money k a (enact_election r s).2 = money k a s.
Proof using Type.
  unfold enact_election. destruct (elect _) as [[res w]|]; [|done]. simpl.
  rewrite foldl_proj; [by apply money_frame|]. intros s' [who e]. unfold clip.
  by rewrite money_event.
Qed.
Lemma on_finalize_money a now s : money 1 a (on_finalize (P := P) (B := B) now s) = money 1 a s.
Proof using RL.
  unfold on_finalize. case_match; [|done]. unfold start_round.
  set (r := RoundInfo.index _). rewrite money_event by done.
  match goal with
  | |- money 1 a (TotalIssuanceAt_put _ (TotalStakedAt_put _ ?s')) = _ =>
      change (money 1 a s' = money 1 a s)
  end.
  by rewrite enact_money, exit_queue_money, update_nominators_money, update_collators_money,
    payout_money.
Qed.

(** [C2] Conservation.  A call creates and destroys nothing: every account
    holds as much as before, free and reserved together.  Over the end of a
    block the money of an account changes by exactly the rewards announced for
    it in the events that were added. *)
Theorem money_conserved a origin c now s :
  let s1 := (dispatch origin c s).2 in
  let s2 := on_finalize (P := P) (B := B) now s in
  balance_of (ledger s1) a = balance_of (ledger s) a /\
  balance_of (ledger s2) a - balance_of (ledger s) a
  = sumZ (reward_of a) (events s2) - sumZ (reward_of a) (events s).
Proof using RL.
  intros s1 s2. pose proof (dispatch_money 0 a origin c s) as H1.
  pose proof (on_finalize_money a now s) as H2. unfold money in *. fold s1 in H1. fold s2 in H2. lia.
Qed.
End Money.

Lemma money_conserved_witness :
  let s := run_to_block 11 31 (nominate (Signed 10%N) 100%N 500 at_round_2).2 in
  balance_of (ledger (dispatch (Signed 10%N) (call_nominator_leave_collator 100%N) s).2) 10%N
    = balance_of (ledger s) 10%N /\
  balance_of (ledger (on_finalize (P := Z) (B := Limbs) 31 s)) 10%N - balance_of (ledger s) 10%N
  = sumZ (reward_of 10%N) (events (on_finalize (P := Z) (B := Limbs) 31 s))
    - sumZ (reward_of 10%N) (events s).
Proof. intros s. apply money_conserved. Defined.
