(* ===== verification/StakingMaintenance.v ===== *)
(** * The staking pallet: the start of a round

    What [on_finalize] does to the books of the pallet: bonds become active,
    due unbonding is released, the exit queue is worked off, and the totals of
    the round are recorded. *)
From S2P Require Import Prelude StakingTypes Externals TaylorSeries Inflation StakingPallet.
From S2P Require Import StakingRounds StakingMock StakingCalls StakingInvariant.

(** ** Specifications *)

(** An exit record at the start of round [r]. *)
Definition exit_after (r : RoundIndex) (e : Leaving) : option Leaving :=
  if decide (r < when e)
  then Some (mkLeaving (remaining e) (filter (fun ch => r < ub_round ch) (leaving_unbonding e))
               (when e))
  else None.
(** What the exit queue releases for a record in round [r]. *)
Definition exit_release (r : RoundIndex) (e : Leaving) : Z :=
  if decide (r < when e) then unbonding_sum (due_unbonding r (leaving_unbonding e))
  else remaining e + unbonding_sum (leaving_unbonding e).
(** What is left of a reserve [x] after [v] of it was released. *)
Definition released (v x : Z) : Z := x - Z.min v x.

Lemma released_released v w x : 0 <= v -> 0 <= w -> 0 <= x -> released w (released v x) = released (v + w) x.
Proof. unfold released. lia. Qed.

Section Maintenance.
Context {L : Type} `{!Currency L, !ReservableCurrency L, Cfg : !Config, Iter : !StorageIter}.
Context {P B : Type} `{!PerThing P, !BigUint B}.
Implicit Types s : State L.

(** The books the phases of a round share. *)
Definition books s : RoundInfo * SettingStruct * gmap AccountId StakingCollators *
    gmap AccountId StakingNominators * gmap AccountId Leaving * Balance :=
  (CurrentRound s, Settings s, Collators s, Nominators s, ExitQueue s, TotalStaked s).

Lemma payout_books r s : books (payout_stakers (P := P) (B := B) r s) = books s.
Proof.
  assert (forall v to s', books (mint v to s') = books s') as Hm.
  { intros v to s'. unfold mint. case_match; [|done]. by destruct (deposit_into_existing _ _ _) as [[]|]. }
  unfold payout_stakers. case_match; [|done]. set (s0 := RoundStakerClipped_put _ s).
  change (books s) with (books s0). apply foldl_proj. intros s' [acc e].
  unfold pay_collator. rewrite foldl_proj; [apply Hm|]. intros. apply Hm.
Qed.

Lemma enact_books r s : books (enact_election r s).2 = books s.
Proof.
  unfold enact_election. destruct (elect _) as [[res w]|]; [|done]. simpl.
  rewrite foldl_proj; [done|]. by intros s' [who e].
Qed.

(** ** Collators *)

Lemma update_collators_lookup r s who :
  Collators (update_collators r s) !! who = refreshed r <$> Collators s !! who.
Proof.
  unfold update_collators.
  rewrite (storage_loop (fun k s => Collators s !! k) (fun _ c _ => Some (refreshed r c))).
  - by destruct (Collators s !! who).
  - intros s' k c. apply lookup_insert_eq.
  - intros s' k k' c Hk. by apply lookup_insert_ne.
Qed.

Lemma update_collators_frame {X} (pi : State L -> X) r s :
  (forall v s', pi (Collators_put v s') = pi s') -> (forall l s', pi (ledger_put l s') = pi s') ->
  pi (update_collators r s) = pi s.
Proof.
  intros Hc Hl. apply foldl_proj. intros s' [acc c]. rewrite update_collator_run.
  unfold Collators_insert, currency_unreserve. by rewrite Hc, Hl.
Qed.

Context `{!CurrencyLaws L, RL : !ReservableLaws L}.

(** [before_total - collator.total] *)
Lemma unbonded_amount r c :
  collator_wf c ->
  StakingCollators.total (StakingCollators.consolidate_active
    (StakingCollators.active_onboard c) r) -128 StakingCollators.total (refreshed r c)
  = U.wrap 128 (unbonding_sum (due_unbonding r (StakingCollators.unbonding c))).
Proof.
  intros Hw. apply (eqm_exact 128); [apply sub_ok; lia | apply wrap_ok; lia |].
  rewrite eqm_u_sub, eqm_wrap.
  destruct (refreshed_fields r c Hw) as (_ & _ & -> & _).
  destruct (consolidate_active_fields (StakingCollators.active_onboard c) r) as (_ & _ & -> & _).
  unfold locked_at, StakingCollators.active_onboard. case_decide; simpl; apply eqm_eq; lia.
Qed.

Lemma unreserve_released who v l :
  0 <= v -> reserved_balance (unreserve who v l) who = released v (reserved_balance l who).
Proof using RL. apply unreserve_moves. Qed.

Lemma update_collators_reserved r s who :
  map_Forall (fun _ c => collator_wf c) (Collators s) ->
  reserved_balance (ledger (update_collators r s)) who =
  match Collators s !! who with
  | Some c => released (U.wrap 128 (unbonding_sum (due_unbonding r (StakingCollators.unbonding c))))
                (reserved_balance (ledger s) who)
  | None => reserved_balance (ledger s) who
  end.
Proof using RL.
  intros Hw. unfold update_collators.
  rewrite (storage_loop (fun k s => reserved_balance (ledger s) k)
    (fun _ c x => released (StakingCollators.total (StakingCollators.consolidate_active
       (StakingCollators.active_onboard c) r) -128 StakingCollators.total (refreshed r c)) x)).
  - destruct (Collators s !! who) as [c|] eqn:Hc; [|done].
    by rewrite unbonded_amount by exact (Hw _ _ Hc).
  - intros s' k c. rewrite update_collator_run. simpl. apply unreserve_released.
    apply sub_ok. lia.
  - intros s' k k' c Hk. rewrite update_collator_run. simpl. by apply unreserve_others.
Qed.

(** At the start of round [r] every collator is active, its active stake is
    what was active or due, its total has lost exactly the due unbonding, only
    later chunks remain, its nominations are unchanged, and the currency
    releases the due unbonding. *)
Theorem update_collators_spec r s who c :
  pallet_inv s -> Collators s !! who = Some c ->
  let s' := update_collators r s in
  exists c', Collators s' !! who = Some c' /\
    StakingCollators.status c' = Active /\
    U.eqm 128 (StakingCollators.active c') (stake_at c r) /\
    U.eqm 128 (StakingCollators.total c') (locked_at c r) /\
    StakingCollators.unlocking c' = filter (fun ch => r < uc_round ch) (StakingCollators.unlocking c) /\
    StakingCollators.unbonding c' = filter (fun ch => r < ub_round ch) (StakingCollators.unbonding c) /\
    StakingCollators.nominations c' = StakingCollators.nominations c /\
    reserved_balance (ledger s') who
      = released (U.wrap 128 (unbonding_sum (due_unbonding r (StakingCollators.unbonding c))))
          (reserved_balance (ledger s) who).
Proof using RL.
  intros Hs Hc s'. exists (refreshed r c).
  assert (map_Forall (fun _ c => collator_wf c) (Collators s)) as Hw.
  { intros k c0 Hk. by apply (inv_collators _ Hs k c0). }
  unfold s'. rewrite update_collators_lookup, update_collators_reserved, Hc by done.
  split; [done|]. destruct (refreshed_fields r c (Hw _ _ Hc)) as (? & ? & ? & ? & ? & ?). done.
Qed.

Lemma update_collators_total_staked r s : TotalStaked (update_collators r s) = TotalStaked s.
Proof using Type. by apply update_collators_frame. Qed.

(** ** Nominators *)

(** [before_total - nominations.total] *)
Definition nominator_unbonded (r : RoundIndex) (n : StakingNominators) : Balance :=
  StakingNominators.total n
    -128 StakingNominators.total (StakingNominators.consolidate_unbonded n r).

Lemma nominator_unbonded_due r n :
  U.eqm 128 (nominator_unbonded r n)
    (unbonding_sum (due_unbonding r (StakingNominators.unbonding n))).
Proof using Type.
  unfold nominator_unbonded, StakingNominators.consolidate_unbonded. rewrite eqm_u_sub.
  pose proof (drain_unbonding_sum r (StakingNominators.total n) (StakingNominators.unbonding n)) as H.
  destruct (drain_unbonding r _ _); simpl in *. rewrite H. apply eqm_eq. lia.
Qed.

Lemma update_nominators_lookup r s who :
  Nominators (update_nominators r s) !! who
  = (fun n => StakingNominators.consolidate_unbonded n r) <$> Nominators s !! who.
Proof using Type.
  unfold update_nominators.
  rewrite (storage_loop (fun k s => Nominators s !! k)
             (fun _ n _ => Some (StakingNominators.consolidate_unbonded n r))).
  - by destruct (Nominators s !! who).
  - intros s' k n. apply lookup_insert_eq.
  - intros s' k k' n Hk. by apply lookup_insert_ne.
Qed.

Lemma update_nominators_reserved r s who :
  reserved_balance (ledger (update_nominators r s)) who =
  match Nominators s !! who with
  | Some n => released (nominator_unbonded r n) (reserved_balance (ledger s) who)
  | None => reserved_balance (ledger s) who
  end.
Proof using RL.
  unfold update_nominators.
  rewrite (storage_loop (fun k s => reserved_balance (ledger s) k)
             (fun _ n x => released (nominator_unbonded r n) x)).
  - done.
  - intros s' k n. simpl. apply unreserve_released. apply sub_ok. lia.
  - intros s' k k' n Hk. simpl. by apply unreserve_others.
Qed.

Lemma update_nominators_loop_staked r l s :
  U.eqm 128 (TotalStaked (foldl (fun s e => update_nominator r e s) s l))
    (TotalStaked s - sumZ (fun e => nominator_unbonded r e.2) l).
Proof using Type.
  revert s. induction l as [|[acc n] l IH]; intros s; simpl; [apply eqm_eq; lia|].
  rewrite IH. simpl. rewrite eqm_u_sub. unfold nominator_unbonded. apply eqm_eq. lia.
Qed.

Lemma sumZ_eqm {A} w (f g : A -> Z) (l : list A) :
  (forall x, U.eqm w (f x) (g x)) -> U.eqm w (sumZ f l) (sumZ g l).
Proof using Type. intros H. induction l as [|x l IH]; simpl; [done|]. by rewrite (H x), IH. Qed.

(** At the start of round [r] every nominator's total loses exactly its due
    unbonding, only later chunks remain, the currency releases what the total
    lost, and [TotalStaked] comes down by all of it together. *)
Theorem update_nominators_spec r s who n :
  Nominators s !! who = Some n ->
  let s' := update_nominators r s in
  exists n' v, Nominators s' !! who = Some n' /\
    U.ok 128 v /\
    U.eqm 128 v (unbonding_sum (due_unbonding r (StakingNominators.unbonding n))) /\
    U.eqm 128 (StakingNominators.total n') (nominator_locked_at n r) /\
    StakingNominators.unbonding n'
      = filter (fun ch => r < ub_round ch) (StakingNominators.unbonding n) /\
    StakingNominators.nominations n' = StakingNominators.nominations n /\
    reserved_balance (ledger s') who = released v (reserved_balance (ledger s) who) /\
    U.eqm 128 (TotalStaked s')
      (TotalStaked s - map_sum (fun e => unbonding_sum (due_unbonding r
                                          (StakingNominators.unbonding e.2))) (Nominators s)).
Proof using RL.
  intros Hn s'. exists (StakingNominators.consolidate_unbonded n r), (nominator_unbonded r n).
  unfold s'. rewrite update_nominators_lookup, update_nominators_reserved, Hn.
  pose proof (drain_unbonding_sum r (StakingNominators.total n) (StakingNominators.unbonding n)) as Hs.
  pose proof (drain_unbonding_kept r (StakingNominators.total n) (StakingNominators.unbonding n)) as Hk.
  split_and!; try done.
  - apply sub_ok. lia.
  - apply nominator_unbonded_due.
  - unfold StakingNominators.consolidate_unbonded, nominator_locked_at.
    by destruct (drain_unbonding r _ _).
  - unfold StakingNominators.consolidate_unbonded. by destruct (drain_unbonding r _ _).
  - unfold StakingNominators.consolidate_unbonded. by destruct (drain_unbonding r _ _).
  - unfold update_nominators. rewrite update_nominators_loop_staked.
    unfold map_sum. rewrite (storage_iter_perm (Nominators s)).
    rewrite (sumZ_eqm 128 _ (fun e => unbonding_sum (due_unbonding r
              (StakingNominators.unbonding e.2)))); [done|]. intros e. apply nominator_unbonded_due.
Qed.

(** ** The exit queue *)

Lemma exit_filter_queue acc r cs l s : ExitQueue (exit_filter acc r cs l s).2 = ExitQueue s.
Proof using Type.
  revert s. induction l as [|ch l IH]; intros s; simpl; [done|]. case_match.
  - specialize (IH s). by destruct (exit_filter acc r cs l s).
  - by rewrite IH.
Qed.

Lemma release_loop_queue acc cs (l : list UnBondChunk) s :
  ExitQueue (foldl (fun s ch => release_chunk acc cs (ub_value ch) s) s l) = ExitQueue s.
Proof using Type. by apply foldl_proj. Qed.

Lemma execute_exit_lookup r acc e s :
  ExitQueue (execute_exit r (acc, e) s)
  = match exit_after r e with
    | Some e' => <[acc := e']> (ExitQueue s)
    | None => delete acc (ExitQueue s)
    end.
Proof using Type.
  unfold execute_exit, exit_after. destruct (Z.ltb_spec r (when e)).
  - rewrite decide_True by lia.
    pose proof (exit_filter_kept acc r (TotalStaked s) (leaving_unbonding e) s) as Hk.
    pose proof (exit_filter_queue acc r (TotalStaked s) (leaving_unbonding e) s) as Hq.
    destruct (exit_filter _ _ _ _ s). simpl in *. by subst l; rewrite Hq.
  - rewrite decide_False by lia. simpl. by rewrite release_loop_queue.
Qed.

Lemma execute_exit_queue_lookup r s who :
  ExitQueue (execute_exit_queue r s) !! who = ExitQueue s !! who ≫= exit_after r.
Proof using Type.
  unfold execute_exit_queue.
  rewrite (storage_loop (fun k s => ExitQueue s !! k) (fun _ e _ => exit_after r e)).
  - by destruct (ExitQueue s !! who).
  - intros s' k e. rewrite execute_exit_lookup.
    destruct (exit_after r e); [apply lookup_insert_eq | apply lookup_delete_eq].
  - intros s' k k' e Hk. rewrite execute_exit_lookup.
    destruct (exit_after r e); [by apply lookup_insert_ne | by apply lookup_delete_ne].
Qed.
(** Money released by a record. *)
Lemma release_reserved acc cs v s :
  0 <= v ->
  reserved_balance (ledger (release_chunk acc cs v s)) acc
    = released v (reserved_balance (ledger s) acc).
Proof using RL. apply unreserve_released. Qed.

Lemma release_loop_reserved acc cs l s :
  Forall (fun ch => 0 <= ub_value ch) l ->
  reserved_balance (ledger (foldl (fun s ch => release_chunk acc cs (ub_value ch) s) s l)) acc
  = released (unbonding_sum l) (reserved_balance (ledger s) acc).
Proof using RL.
  intros H. revert s. induction H as [|ch l Hv Hl IH]; intros s; simpl.
  - pose proof (reserved_balance_nonneg (ledger s) acc). unfold released, unbonding_sum. simpl. lia.
  - rewrite IH, release_reserved by done.
    apply released_released; [done | by apply sumZ_nonneg | apply reserved_balance_nonneg].
Qed.

Lemma exit_filter_reserved acc r cs l s :
  Forall (fun ch => 0 <= ub_value ch) l ->
  reserved_balance (ledger (exit_filter acc r cs l s).2) acc
  = released (unbonding_sum (due_unbonding r l)) (reserved_balance (ledger s) acc).
Proof using RL.
  intros H. revert s. induction H as [|ch l Hv Hl IH]; intros s.
  - pose proof (reserved_balance_nonneg (ledger s) acc). unfold released, unbonding_sum. simpl. lia.
  - unfold due_unbonding. rewrite filter_cons. cbn [exit_filter].
    destruct (Z.ltb_spec r (ub_round ch)).
    + rewrite decide_False by lia. specialize (IH s).
      by destruct (exit_filter acc r cs l s).
    + rewrite decide_True by lia. rewrite IH, release_reserved by done. apply released_released;
        [done | | apply reserved_balance_nonneg].
      by apply sumZ_nonneg, Forall_filter_keep.
Qed.

Lemma exit_filter_others acc r cs l s a :
  a <> acc ->
  reserved_balance (ledger (exit_filter acc r cs l s).2) a = reserved_balance (ledger s) a.
Proof using RL.
  intros Ha. revert s. induction l as [|ch l IH]; intros s; simpl; [done|]. case_match.
  - specialize (IH s). by destruct (exit_filter acc r cs l s).
  - rewrite IH. simpl. by apply unreserve_others.
Qed.

Lemma execute_exit_reserved r acc e s :
  exit_unsigned e ->
  reserved_balance (ledger (execute_exit r (acc, e) s)) acc
  = released (exit_release r e) (reserved_balance (ledger s) acc).
Proof using RL.
  intros [Hr Hu]. unfold execute_exit, exit_release. destruct (Z.ltb_spec r (when e)).
  - rewrite decide_True by lia.
    pose proof (exit_filter_reserved acc r (TotalStaked s) (leaving_unbonding e) s Hu) as Hx.
    by destruct (exit_filter _ _ _ _ s).
  - rewrite decide_False by lia. simpl. rewrite release_loop_reserved, release_reserved by done.
    apply released_released; [done | by apply sumZ_nonneg | apply reserved_balance_nonneg].
Qed.

Lemma execute_exit_others r acc e s a :
  a <> acc ->
  reserved_balance (ledger (execute_exit r (acc, e) s)) a = reserved_balance (ledger s) a.
Proof using RL.
  intros Ha. unfold execute_exit. destruct (Z.ltb_spec r (when e)).
  - pose proof (exit_filter_others acc r (TotalStaked s) (leaving_unbonding e) s a Ha) as Hx.
    by destruct (exit_filter _ _ _ _ s).
  - simpl. rewrite (foldl_proj (fun s => reserved_balance (ledger s) a)).
    + simpl. by apply unreserve_others.
    + intros s' ch. simpl. by apply unreserve_others.
Qed.

Lemma exit_loop_reserved r l s who :
  NoDup l.*1 -> (forall k e, (k, e) ∈ l -> exit_unsigned e) ->
  reserved_balance (ledger (foldl (fun s e => execute_exit r e s) s l)) who =
  match (list_to_map l : gmap AccountId Leaving) !! who with
  | Some e => released (exit_release r e) (reserved_balance (ledger s) who)
  | None => reserved_balance (ledger s) who
  end.
Proof using RL.
  intros Hd Hl. revert s. induction l as [|[k e] l IH]; intros s; [done|].
  apply NoDup_cons in Hd as [Hk Hd]. cbn [foldl]. rewrite list_to_map_cons.
  rewrite IH by (done || (intros k' e' H'; apply (Hl k' e'); by right)).
  destruct (decide (k = who)) as [->|Hne].
  - rewrite lookup_insert_eq, (proj1 (not_elem_of_list_to_map l who) Hk).
    apply execute_exit_reserved. apply (Hl who e). by left.
  - rewrite lookup_insert_ne, execute_exit_others by done. done.
Qed.

Lemma execute_exit_queue_reserved r s who :
  exits_unsigned s ->
  reserved_balance (ledger (execute_exit_queue r s)) who =
  match ExitQueue s !! who with
  | Some e => released (exit_release r e) (reserved_balance (ledger s) who)
  | None => reserved_balance (ledger s) who
  end.
Proof using RL.
  intros Hu. destruct (storage_iter_lookup (ExitQueue s)) as [Hd Hm].
  unfold execute_exit_queue. rewrite exit_loop_reserved; [by rewrite Hm | done |].
  intros k e Hk%elem_of_storage_iter. exact (Hu k e Hk).
Qed.

(** [C16] The exit queue at the start of round [r]: a record whose round has come
    is removed and its owner gets everything back, remaining stake and all
    chunks; a record whose round is still to come keeps exactly its later
    chunks and its owner gets the due ones.  Nothing else enters or leaves the
    queue. *)
Theorem execute_exit_queue_spec r s who :
  exits_unsigned s ->
  let s' := execute_exit_queue r s in
  match ExitQueue s !! who with
  | None =>
      ExitQueue s' !! who = None /\
      reserved_balance (ledger s') who = reserved_balance (ledger s) who
  | Some e =>
      if decide (r < when e) then
        ExitQueue s' !! who
          = Some (mkLeaving (remaining e)
                    (filter (fun ch => r < ub_round ch) (leaving_unbonding e)) (when e)) /\
        reserved_balance (ledger s') who
          = released (unbonding_sum (due_unbonding r (leaving_unbonding e)))
              (reserved_balance (ledger s) who)
      else
        ExitQueue s' !! who = None /\
        reserved_balance (ledger s') who
          = released (remaining e + unbonding_sum (leaving_unbonding e))
              (reserved_balance (ledger s) who)
  end.
Proof using RL.
  intros Hu s'. unfold s'. rewrite execute_exit_queue_lookup, execute_exit_queue_reserved by done.
  destruct (ExitQueue s !! who) as [e|]; [|done]. simpl. unfold exit_after, exit_release.
  by case_decide.
Qed.

Lemma release_loop_staked acc cs (l : list UnBondChunk) s :
  TotalStaked (foldl (fun s ch => release_chunk acc cs (ub_value ch) s) s l)
  = match last l with Some ch => cs -128 ub_value ch | None => TotalStaked s end.
Proof using Type.
  revert s. induction l as [|ch l IH]; intros s; [done|]. simpl foldl.
  rewrite IH, last_cons. by destruct (last l).
Qed.

(** A leaving collator with unbonding chunks is taken off [TotalStaked] only
    by its last chunk: every release writes the value read at the start less
    its own amount, so the last write wins, although everything is released. *)
Theorem execute_exit_total_staked r acc e chunks ch s :
  when e <= r -> leaving_unbonding e = chunks ++ [ch] ->
  TotalStaked (execute_exit r (acc, e) s) = TotalStaked s -128 ub_value ch.
Proof using Type.
  intros Hw Hl. unfold execute_exit. rewrite (proj2 (Z.ltb_ge _ _)) by done. simpl.
  by rewrite release_loop_staked, Hl, last_snoc.
Qed.
(** ** A whole round *)

Lemma update_nominators_frame {X} (pi : State L -> X) r s :
  (forall v s', pi (Nominators_put v s') = pi s') -> (forall l s', pi (ledger_put l s') = pi s') ->
  (forall v s', pi (TotalStaked_put v s') = pi s') ->
  pi (update_nominators r s) = pi s.
Proof using Type.
  intros Hn Hl Ht. apply foldl_proj. intros s' [acc n]. unfold update_nominator.
  unfold Nominators_insert, currency_unreserve. by rewrite Hn, Hl, Ht.
Qed.

Lemma exit_filter_frame {X} (pi : State L -> X) acc r cs l s :
  (forall l s', pi (ledger_put l s') = pi s') -> (forall v s', pi (TotalStaked_put v s') = pi s') ->
  pi (exit_filter acc r cs l s).2 = pi s.
Proof using Type.
  intros Hl Ht. revert s. induction l as [|ch l IH]; intros s; simpl; [done|]. case_match.
  - specialize (IH s). by destruct (exit_filter acc r cs l s).
  - rewrite IH. unfold release_chunk, currency_unreserve. by rewrite Ht, Hl.
Qed.

Lemma execute_exit_queue_frame {X} (pi : State L -> X) r s :
  (forall v s', pi (ExitQueue_put v s') = pi s') -> (forall l s', pi (ledger_put l s') = pi s') ->
  (forall v s', pi (TotalStaked_put v s') = pi s') ->
  pi (execute_exit_queue r s) = pi s.
Proof using Type.
  intros Hq Hl Ht. apply foldl_proj. intros s' [acc e]. unfold execute_exit. case_match.
  - pose proof (exit_filter_frame pi acc r (TotalStaked s') (leaving_unbonding e) s' Hl Ht).
    destruct (exit_filter _ _ _ _ s'). unfold ExitQueue_insert. by rewrite Hq.
  - unfold ExitQueue_remove. rewrite Hq. rewrite foldl_proj.
    + unfold release_chunk, currency_unreserve. by rewrite Ht, Hl.
    + intros s'' ch. unfold release_chunk, currency_unreserve. by rewrite Ht, Hl.
Qed.

(** The state when the election of the new round runs. *)
Definition before_election (now : BlockNumber) s : State L :=
  let r := RoundInfo.next_round_index (CurrentRound s) in
  execute_exit_queue r (update_nominators r (update_collators r
    (payout_stakers (P := P) (B := B) r
       (CurrentRound_put (RoundInfo.mk r now (blocks_per_round (Settings s))) s)))).

Lemma before_election_books now s :
  let r := RoundInfo.next_round_index (CurrentRound s) in
  let s' := before_election now s in
  CurrentRound s' = RoundInfo.mk r now (blocks_per_round (Settings s)) /\
  Settings s' = Settings s /\
  (forall who, Collators s' !! who = refreshed r <$> Collators s !! who) /\
  (forall who, Nominators s' !! who
     = (fun n => StakingNominators.consolidate_unbonded n r) <$> Nominators s !! who) /\
  (forall who, ExitQueue s' !! who = ExitQueue s !! who ≫= exit_after r).
Proof using Type.
  intros r s'. unfold s', before_election. fold r.
  set (s0 := CurrentRound_put _ s).
  pose proof (payout_books r s0) as [= H1 H2 H3 H4 H5 H6].
  split_and!; intros.
  - rewrite (execute_exit_queue_frame CurrentRound), (update_nominators_frame CurrentRound),
      (update_collators_frame CurrentRound) by done. by rewrite H1.
  - rewrite (execute_exit_queue_frame Settings), (update_nominators_frame Settings),
      (update_collators_frame Settings) by done. by rewrite H2.
  - rewrite (execute_exit_queue_frame Collators), (update_nominators_frame Collators) by done.
    by rewrite update_collators_lookup, H3.
  - rewrite (execute_exit_queue_frame Nominators) by done.
    rewrite update_nominators_lookup, (update_collators_frame Nominators) by done. by rewrite H4.
  - rewrite execute_exit_queue_lookup, (update_nominators_frame ExitQueue),
      (update_collators_frame ExitQueue) by done. by rewrite H5.
Qed.

(** [on_finalize] before the round is over, and when it is. *)
Lemma on_finalize_idle now s :
  RoundInfo.should_goto_next_round (CurrentRound s) now = false ->
  on_finalize (P := P) (B := B) now s = s.
Proof using Type. intros H. unfold on_finalize. by rewrite H. Qed.

(** The books after the block that starts a round. *)
Lemma on_finalize_books now s :
  RoundInfo.should_goto_next_round (CurrentRound s) now = true ->
  let r := RoundInfo.next_round_index (CurrentRound s) in
  let s' := on_finalize (P := P) (B := B) now s in
  CurrentRound s' = RoundInfo.mk r now (blocks_per_round (Settings s)) /\
  Settings s' = Settings s /\
  (forall who, Collators s' !! who = refreshed r <$> Collators s !! who) /\
  (forall who, Nominators s' !! who
     = (fun n => StakingNominators.consolidate_unbonded n r) <$> Nominators s !! who) /\
  (forall who, ExitQueue s' !! who = ExitQueue s !! who ≫= exit_after r) /\
  TotalStakedAt s' !! r = Some (TotalStaked s') /\
  TotalIssuanceAt s' !! r = Some (total_issuance (ledger s')).
Proof using Type.
  intros Hgo r s'. unfold s', on_finalize. rewrite Hgo.
  destruct (before_election_books now s) as (B1 & B2 & B3 & B4 & B5). fold r in B1, B3, B4, B5.
  pose proof (enact_books r (before_election now s)) as [= E1 E2 E3 E4 E5 E6].
  unfold start_round. change (RoundInfo.index (RoundInfo.update (CurrentRound s) now
    (blocks_per_round (Settings s)))) with r.
  match goal with |- context [enact_election r ?x] => change x with (before_election now s) end.
  unfold deposit_event. simpl. rewrite E1, E2, E3, E4, E5.
  split_and!; try done; apply lookup_insert_eq.
Qed.

(** [C11] The end of a block.  Before the round has had its blocks nothing
    happens.  Then the next round starts in this block: every collator is
    refreshed, every nominator and exit record worked off for the new index,
    whatever the payout and the election do, and the stake and issuance of the
    new round are recorded from the state that is left. *)
Theorem on_finalize_spec now s :
  let r := RoundInfo.next_round_index (CurrentRound s) in
  let s' := on_finalize (P := P) (B := B) now s in
  if RoundInfo.should_goto_next_round (CurrentRound s) now then
    CurrentRound s' = RoundInfo.mk r now (blocks_per_round (Settings s)) /\
    Settings s' = Settings s /\
    (forall who, Collators s' !! who = refreshed r <$> Collators s !! who) /\
    (forall who, Nominators s' !! who
       = (fun n => StakingNominators.consolidate_unbonded n r) <$> Nominators s !! who) /\
    (forall who, ExitQueue s' !! who = ExitQueue s !! who ≫= exit_after r) /\
    TotalStakedAt s' !! r = Some (TotalStaked s') /\
    TotalIssuanceAt s' !! r = Some (total_issuance (ledger s'))
  else s' = s.
Proof using Type.
  intros r s'. destruct (RoundInfo.should_goto_next_round _ now) eqn:Hgo.
  - by apply on_finalize_books.
  - by apply on_finalize_idle.
Qed.

Lemma Forall_filter_gt {A} (f : A -> Z) k (l : list A) :
  Forall (fun x => k < f x) (filter (fun x => k < f x) l).
Proof using Type. apply Forall_forall. by intros x [Hx _]%list_elem_of_filter. Qed.

(** [C25] Nothing scheduled is forgotten: once round [r] has started, every
    collator is active with all its due bonds counted, and no bond chunk,
    unbonding chunk or exit record of a round up to [r] is left anywhere. *)
Theorem round_settles now s :
  pallet_inv s -> RoundInfo.should_goto_next_round (CurrentRound s) now = true ->
  let s' := on_finalize (P := P) (B := B) now s in
  let r := RoundInfo.index (CurrentRound s') in
  map_Forall (fun _ c => StakingCollators.status c = Active /\
    Forall (fun ch => r < uc_round ch) (StakingCollators.unlocking c) /\
    Forall (fun ch => r < ub_round ch) (StakingCollators.unbonding c)) (Collators s') /\
  map_Forall (fun _ n => Forall (fun ch => r < ub_round ch) (StakingNominators.unbonding n))
    (Nominators s') /\
  map_Forall (fun _ e => r < when e /\
    Forall (fun ch => r < ub_round ch) (leaving_unbonding e)) (ExitQueue s').
Proof using Type.
  intros Hs Hgo s'. destruct (on_finalize_books now s Hgo) as (C1 & _ & C3 & C4 & C5 & _).
  fold s' in C1, C3, C4, C5. intros r. unfold r. rewrite C1. simpl.
  set (r0 := RoundInfo.next_round_index _) in *. split_and!; intros who x.
  - rewrite C3. intros (c & Hc & ->)%fmap_Some_1.
    destruct (refreshed_fields r0 c) as (-> & _ & _ & -> & -> & _); [apply (inv_lookup s who c Hs Hc)|].
    split_and!; [done | apply Forall_filter_gt..].
  - rewrite C4. intros (n & _ & ->)%fmap_Some_1.
    pose proof (drain_unbonding_kept r0 (StakingNominators.total n) (StakingNominators.unbonding n)) as Hk.
    unfold StakingNominators.consolidate_unbonded. destruct (drain_unbonding r0 _ _).
    simpl in *. subst. apply Forall_filter_gt.
  - rewrite C5. intros (e & _ & He)%bind_Some. unfold exit_after in He.
    case_decide; simplify_eq. simpl. split; [done | apply Forall_filter_gt].
Qed.

(** ** Rounds follow one another *)

(** [on_finalize] over [n] consecutive blocks from [now] on. *)
Fixpoint finalize_blocks (n : nat) (now : BlockNumber) s : State L :=
  match n with
  | O => s
  | S n => finalize_blocks n (now + 1) (on_finalize (P := P) (B := B) now s)
  end.

Lemma finalize_blocks_idle n now s :
  (forall k, (k < n)%nat ->
     RoundInfo.should_goto_next_round (CurrentRound s) (now + Z.of_nat k) = false) ->
  finalize_blocks n now s = s.
Proof using Type.
  revert now. induction n as [|n IH]; intros now H; simpl; [done|].
  rewrite on_finalize_idle.
  - apply IH. intros k Hk. specialize (H (S k) ltac:(lia)). by replace (now + 1 + Z.of_nat k) with (now + Z.of_nat (S k)) by lia.
  - specialize (H O ltac:(lia)). by rewrite Z.add_0_r in H.
Qed.

Lemma finalize_blocks_add n k now s :
  finalize_blocks (n + k) now s = finalize_blocks k (now + Z.of_nat n) (finalize_blocks n now s).
Proof using Type.
  revert now s. induction n as [|n IH]; intros now s; simpl.
  - by rewrite Z.add_0_r.
  - rewrite IH. f_equal. lia.
Qed.

(** A round lasts exactly its length: over the blocks that follow its start,
    the pallet does nothing until the last one, which starts the next round. *)
Theorem round_lasts s :
  let start := RoundInfo.start_in (CurrentRound s) in
  let len := RoundInfo.length (CurrentRound s) in
  0 <= start -> 0 < len -> start + len < 2 ^ 32 ->
  finalize_blocks (Z.to_nat len) (start + 1) s = start_round (P := P) (B := B) (start + len) s.
Proof using Type.
  intros start len Hs Hl Hb.
  replace (Z.to_nat len) with (Z.to_nat (len - 1) + 1)%nat by lia.
  rewrite finalize_blocks_add, (finalize_blocks_idle (Z.to_nat (len - 1))); simpl.
  - replace (start + 1 + Z.of_nat (Z.to_nat (len - 1))) with (start + len) by lia.
    unfold on_finalize, RoundInfo.should_goto_next_round. fold start. fold len.
    rewrite sub_exact by lia. by rewrite (proj2 (Z.leb_le _ _)) by lia.
  - intros k Hk. unfold RoundInfo.should_goto_next_round. fold start. fold len.
    rewrite sub_exact by lia. apply Z.leb_gt. lia.
Qed.
End Maintenance.

(** ** Witnesses *)

Lemma update_collators_spec_witness :
  let s' := update_collators 2 mock_genesis in
  exists c', Collators s' !! 100%N = Some c' /\
    StakingCollators.status c' = Active /\
    U.eqm 128 (StakingCollators.active c') (stake_at (StakingCollators.new 500 1) 2) /\
    U.eqm 128 (StakingCollators.total c') (locked_at (StakingCollators.new 500 1) 2) /\
    StakingCollators.unlocking c'
      = filter (fun ch => 2 < uc_round ch) (StakingCollators.unlocking (StakingCollators.new 500 1)) /\
    StakingCollators.unbonding c'
      = filter (fun ch => 2 < ub_round ch) (StakingCollators.unbonding (StakingCollators.new 500 1)) /\
    StakingCollators.nominations c' = [] /\
    reserved_balance (ledger s') 100%N
      = released (U.wrap 128 (unbonding_sum (due_unbonding 2 [])))
          (reserved_balance (ledger mock_genesis) 100%N).
Proof.
  apply (update_collators_spec 2 mock_genesis 100%N (StakingCollators.new 500 1));
    [apply mock_genesis_inv | vm_compute; reflexivity].
Defined.

Lemma update_nominators_spec_witness :
  let n := StakingNominators.mk [Bond.mk 100%N 200] 500 [mkUnBondChunk 300 4] [] in
  let s := Nominators_insert 10%N n (TotalStaked_put 500 (empty_state mock_ledger)) in
  let s' := update_nominators 4 s in
  exists n' v, Nominators s' !! 10%N = Some n' /\
    U.ok 128 v /\
    U.eqm 128 v (unbonding_sum (due_unbonding 4 (StakingNominators.unbonding n))) /\
    U.eqm 128 (StakingNominators.total n') (nominator_locked_at n 4) /\
    StakingNominators.unbonding n'
      = filter (fun ch => 4 < ub_round ch) (StakingNominators.unbonding n) /\
    StakingNominators.nominations n' = StakingNominators.nominations n /\
    reserved_balance (ledger s') 10%N = released v (reserved_balance (ledger s) 10%N) /\
    U.eqm 128 (TotalStaked s')
      (TotalStaked s - map_sum (fun e => unbonding_sum (due_unbonding 4
                                          (StakingNominators.unbonding e.2))) (Nominators s)).
Proof. intros n s. apply (update_nominators_spec 4 s 10%N n). vm_compute. reflexivity. Defined.

Lemma execute_exit_queue_spec_witness :
  let s := ExitQueue_insert 1%N (mkLeaving 850 [mkUnBondChunk 150 4] 5) (empty_state mock_ledger) in
  let s' := execute_exit_queue 4 s in
  ExitQueue s' !! 1%N = Some (mkLeaving 850 [] 5) /\
  reserved_balance (ledger s') 1%N = released (150 + 0) (reserved_balance (ledger s) 1%N).
Proof.
  intros s s'. refine (execute_exit_queue_spec 4 s 1%N _).
  apply map_Forall_insert_2; [|apply map_Forall_empty].
  split; [discriminate | repeat constructor; discriminate].
Defined.

Lemma execute_exit_total_staked_witness :
  let s := TotalStaked_put 1000 (empty_state mock_ledger) in
  let e := mkLeaving 850 [mkUnBondChunk 100 3; mkUnBondChunk 50 4] 5 in
  TotalStaked (execute_exit 5 (1%N, e) s) = 1000 -128 50 /\
  1000 -128 50 <> 0.
Proof.
  intros s e. split; [|vm_compute; discriminate].
  apply (execute_exit_total_staked 5 1%N e [mkUnBondChunk 100 3] (mkUnBondChunk 50 4) s);
    [simpl; lia | reflexivity].
Defined.

Lemma round_settles_witness :
  let s' := on_finalize (P := Z) (B := Limbs) 10 mock_genesis in
  let r := RoundInfo.index (CurrentRound s') in
  map_Forall (fun _ c => StakingCollators.status c = Active /\
    Forall (fun ch => r < uc_round ch) (StakingCollators.unlocking c) /\
    Forall (fun ch => r < ub_round ch) (StakingCollators.unbonding c)) (Collators s') /\
  map_Forall (fun _ n => Forall (fun ch => r < ub_round ch) (StakingNominators.unbonding n))
    (Nominators s') /\
  map_Forall (fun _ e => r < when e /\
    Forall (fun ch => r < ub_round ch) (leaving_unbonding e)) (ExitQueue s').
Proof.
  apply (round_settles 10 mock_genesis); [apply mock_genesis_inv | vm_compute; reflexivity].
Defined.

Lemma round_lasts_witness :
  finalize_blocks (P := Z) (B := Limbs) 10 1 mock_genesis
    = start_round (P := Z) (B := Limbs) 10 mock_genesis.
Proof. apply (round_lasts mock_genesis); vm_compute; first [discriminate | reflexivity]. Defined.
