(* ===== verification/StakingSchedule.v ===== *)
(** * The staking pallet: a collator's ledger implements a schedule

    Abstractly a collator is two functions of the round: the stake that counts in
    it and the amount still held for it.  A bond adds a step to them, taking stake
    out subtracts one, and the passing of rounds changes nothing.  The pallet keeps
    chunks instead, which it rewrites at every round.  Every run of the pallet
    refines the abstract one, and the active stake the elections see in a round is
    the one the schedule has for it. *)
From S2P Require Import Prelude StakingTypes Externals TaylorSeries Inflation StakingPallet.
From S2P Require Import StakingRounds StakingMock StakingCalls StakingInvariant StakingMaintenance.

(** ** The specification *)

Record Schedule := mkSchedule { stake : RoundIndex -> Z; held : RoundIndex -> Z }.

(** [v] from round [r] on. *)
Definition from_round (r : RoundIndex) (v : Z) (r' : RoundIndex) : Z :=
  if decide (r <= r') then v else 0.

Inductive ScheduleOp :=
  | OBond (amount : Balance) (next : RoundIndex)
  | OExtra (extra : Balance) (next : RoundIndex)
  | OLess (less : Balance) (withdraw : RoundIndex)
  | OForce
  | OLeave
  | OKeep.

(** An account has a schedule while it is a collator. *)
Definition schedule_step (o : ScheduleOp) (k : option Schedule) : option Schedule :=
  match o with
  | OBond amount next => Some (mkSchedule (from_round next amount) (fun _ => amount))
  | OExtra extra next =>
      (fun k => mkSchedule (fun r => stake k r + from_round next extra r)
                  (fun r => held k r + extra)) <$> k
  | OLess less withdraw =>
      (fun k => mkSchedule (fun r => stake k r - less)
                  (fun r => held k r - from_round withdraw less r)) <$> k
  | OForce => (fun k => mkSchedule (held k) (held k)) <$> k
  | OLeave => None
  | OKeep => k
  end.

(** Agreement from round [now] on, as 128-bit integers. *)
Definition schedule_agree (now : RoundIndex) (k k' : Schedule) : Prop :=
  forall r, now <= r ->
    U.eqm 128 (stake k r) (stake k' r) /\ U.eqm 128 (held k r) (held k' r).
Definition schedule_eq (now : RoundIndex) : option Schedule -> option Schedule -> Prop :=
  option_Forall2 (schedule_agree now).

#[export] Instance schedule_agree_equivalence now : Equivalence (schedule_agree now).
Proof.
  split.
  - intros k r _. split; reflexivity.
  - intros k k' H r Hr. destruct (H r Hr). by split; symmetry.
  - intros k k' k'' H H' r Hr. destruct (H r Hr), (H' r Hr). split; etrans; eauto.
Qed.
#[export] Instance schedule_eq_equivalence now : Equivalence (schedule_eq now).
Proof. unfold schedule_eq. split; apply _. Qed.

Lemma schedule_eq_later now now' k k' : now <= now' -> schedule_eq now k k' -> schedule_eq now' k k'.
Proof. intros Hn [x y H|]; constructor. intros r Hr. apply H. lia. Qed.

(** The operations respect the agreement. *)
#[export] Instance schedule_step_proper now o :
  Proper (schedule_eq now ==> schedule_eq now) (schedule_step o).
Proof.
  intros k k' H. destruct o; simpl; try done; try by constructor.
  all: destruct H as [x y H|]; simpl; constructor; intros r Hr; destruct (H r Hr) as [H1 H2]; simpl.
  all: by rewrite ?H1, ?H2.
Qed.

(** ** The pallet's runs *)

Section Schedule.
Context {L : Type} `{!Currency L, !ReservableCurrency L, Cfg : !Config}.
Context `{Iter : !StorageIter}.
Context {P B : Type} `{!PerThing P, !BigUint B}.
Implicit Types s : State L.

Inductive PalletEvent :=
  | ECall (origin : Origin) (c : StakingCall)
  | EBlock (now : BlockNumber)
  | EAuthor (author : AccountId)
  | ECurrency (l : L).

Definition event_ok (e : PalletEvent) : Prop :=
  match e with ECall _ c => call_ok c | _ => True end.

Definition apply_event (e : PalletEvent) s : State L :=
  match e with
  | ECall origin c => (dispatch origin c s).2
  | EBlock now => on_finalize (P := P) (B := B) now s
  | EAuthor author => note_author author s
  | ECurrency l => ledger_put l s
  end.

Definition run_events (evs : list PalletEvent) s : State L :=
  foldl (fun s e => apply_event e s) s evs.

(** What a call that succeeds means for the schedule of [who]. *)
Definition call_op (who : AccountId) (origin : Origin) (c : StakingCall) s : ScheduleOp :=
  let next := RoundInfo.next_round_index (CurrentRound s) in
  let withdraw := RoundInfo.index (CurrentRound s) +32 bond_duration (Settings s) in
  let own w o := if decide (w = who) then o else OKeep in
  match (dispatch origin c s).1 with
  | Ok _ =>
      match origin, c with
      | Signed w, call_bond amount => own w (OBond amount next)
      | Signed w, call_bond_extra extra => own w (OExtra extra next)
      | Signed w, call_bond_less less => own w (OLess less withdraw)
      | Signed w, call_collator_unbond => own w OLeave
      | Root, call_force_onboard candidate => own candidate OForce
      | _, _ => OKeep
      end
  | _ => OKeep
  end.

Definition event_op (who : AccountId) (e : PalletEvent) s : ScheduleOp :=
  match e with ECall origin c => call_op who origin c s | _ => OKeep end.

(** The specification's run along the events of the pallet's. *)
Fixpoint schedule_run (who : AccountId) (evs : list PalletEvent) s (k : option Schedule)
    : option Schedule :=
  match evs with
  | [] => k
  | e :: evs => schedule_run who evs (apply_event e s) (schedule_step (event_op who e s) k)
  end.

(** The abstraction function. *)
Definition schedule_of_collator (c : StakingCollators) : Schedule :=
  mkSchedule (stake_at c) (locked_at c).
Definition schedule_of s (who : AccountId) : option Schedule :=
  schedule_of_collator <$> Collators s !! who.

(** ** One event *)

Lemma reserve_collators who v s : Collators (currency_reserve who v s) = Collators s.
Proof. unfold currency_reserve. by destruct (reserve who v (ledger s)). Qed.
Lemma leave_collators (l : list Bond) s :
  Collators (foldl (fun s b => currency_unreserve (Bond.owner b) (Bond.amount b) s) s l)
  = Collators s.
Proof. by apply foldl_proj. Qed.

Lemma add_nomination_schedule c b x c' :
  StakingCollators.add_nomination c b = (x, c') -> schedule_of_collator c' = schedule_of_collator c.
Proof. unfold StakingCollators.add_nomination. intros H. by case_match; simplify_eq. Qed.
Lemma nominate_extra_schedule c b x c' :
  StakingCollators.nominate_extra c b = (x, c') -> schedule_of_collator c' = schedule_of_collator c.
Proof.
  unfold StakingCollators.nominate_extra. intros H.
  by destruct (bonds_extra _ _) as [[]|]; simplify_eq.
Qed.
Lemma nominate_less_schedule c b x c' :
  StakingCollators.nominate_less c b = (x, c') -> schedule_of_collator c' = schedule_of_collator c.
Proof.
  unfold StakingCollators.nominate_less. intros H.
  by destruct (bonds_less _ _) as [[[]|]|]; simplify_eq.
Qed.
Lemma rm_nomination_schedule c who x c' :
  StakingCollators.rm_nomination c who = (x, c') -> schedule_of_collator c' = schedule_of_collator c.
Proof.
  unfold StakingCollators.rm_nomination. intros H.
  by destruct (bonds_remove _ _ _) as [[] ?]; simplify_eq.
Qed.

Lemma due_unlocking_snoc r v next l :
  unlocking_sum (due_unlocking r (l ++ [mkUnlockChunk v next]))
  = unlocking_sum (due_unlocking r l) + from_round next v r.
Proof.
  unfold unlocking_sum, due_unlocking, from_round. rewrite filter_app, sumZ_app. f_equal.
  rewrite filter_cons, filter_nil. simpl. repeat case_decide; simpl; lia.
Qed.
Lemma due_unbonding_snoc r v w l :
  unbonding_sum (due_unbonding r (l ++ [mkUnBondChunk v w]))
  = unbonding_sum (due_unbonding r l) + from_round w v r.
Proof.
  unfold unbonding_sum, due_unbonding, from_round. rewrite filter_app, sumZ_app. f_equal.
  rewrite filter_cons, filter_nil. simpl. repeat case_decide; simpl; lia.
Qed.

Lemma new_schedule now amount next :
  schedule_agree now (schedule_of_collator (StakingCollators.new amount next))
    (mkSchedule (from_round next amount) (fun _ => amount)).
Proof.
  intros r _. unfold schedule_of_collator, stake_at, locked_at. simpl.
  pose proof (due_unlocking_snoc r amount next []) as H. simpl in H. rewrite H.
  split; apply eqm_eq; unfold unlocking_sum, unbonding_sum; simpl; lia.
Qed.
Lemma extra_schedule now c extra next :
  schedule_agree now (schedule_of_collator (StakingCollators.bond_extra c extra next))
    (mkSchedule (fun r => stake (schedule_of_collator c) r + from_round next extra r)
       (fun r => held (schedule_of_collator c) r + extra)).
Proof.
  intros r _. unfold schedule_of_collator, stake_at, locked_at. simpl.
  rewrite due_unlocking_snoc, eqm_u_add. split; apply eqm_eq; lia.
Qed.
Lemma less_schedule now c less w x c' :
  StakingCollators.bond_less c less w = (Some x, c') ->
  schedule_agree now (schedule_of_collator c')
    (mkSchedule (fun r => stake (schedule_of_collator c) r - less)
       (fun r => held (schedule_of_collator c) r - from_round w less r)).
Proof.
  unfold StakingCollators.bond_less. case_match; [|done]. intros Hl r _. simplify_eq.
  unfold schedule_of_collator, stake_at, locked_at. simpl.
  rewrite due_unbonding_snoc, eqm_u_sub. split; apply eqm_eq; lia.
Qed.
Lemma force_schedule now c :
  collator_wf c -> StakingCollators.is_active c = false ->
  schedule_agree now (schedule_of_collator (StakingCollators.force_bond c))
    (mkSchedule (held (schedule_of_collator c)) (held (schedule_of_collator c))).
Proof.
  intros [_ _ _ [Ha|(_ & _ & Hu & _)]] Hn.
  { apply active_is_active in Ha. congruence. }
  intros r _. unfold schedule_of_collator, stake_at, locked_at. simpl. rewrite Hu. simpl.
  unfold unlocking_sum, unbonding_sum. simpl. split; apply eqm_eq; lia.
Qed.

(** The maintenance of round [r] keeps the schedule from [r] on. *)
Lemma refreshed_schedule r c :
  collator_wf c ->
  schedule_agree r (schedule_of_collator (refreshed r c)) (schedule_of_collator c).
Proof.
  intros Hw r' Hr. destruct (refreshed_fields r c Hw) as (_ & Ha & Ht & Hul & Hub & _).
  simpl. unfold stake_at, locked_at. rewrite Ha, Ht, Hul, Hub. unfold stake_at, locked_at.
  rewrite (due_unlocking_later r r' (StakingCollators.unlocking c)) by done.
  rewrite (due_unbonding_later r r' (StakingCollators.unbonding c)) by done.
  split; apply eqm_eq; unfold due_unlocking, due_unbonding; lia.
Qed.

Lemma schedule_of_insert s who c a :
  (schedule_of_collator <$> <[who := c]> (Collators s) !! a)
  = if decide (who = a) then Some (schedule_of_collator c) else schedule_of s a.
Proof.
  unfold schedule_of. case_decide as Hw; [subst; by rewrite lookup_insert_eq|].
  by rewrite lookup_insert_ne.
Qed.

(** A write that keeps the schedule of the collator it replaces. *)
Lemma schedule_of_rewrite s who c c' a :
  Collators s !! who = Some c -> schedule_of_collator c' = schedule_of_collator c ->
  (schedule_of_collator <$> <[who := c']> (Collators s) !! a) = schedule_of s a.
Proof.
  intros Hc He. rewrite schedule_of_insert. case_decide; [|done]. subst.
  unfold schedule_of. by rewrite Hc, He.
Qed.

(** A write to a collator that is the operation [o] on its schedule. *)
Lemma schedule_of_write s who c' a o now :
  schedule_eq now (Some (schedule_of_collator c')) (schedule_step o (schedule_of s who)) ->
  schedule_eq now (schedule_of_collator <$> <[who := c']> (Collators s) !! a)
    (schedule_step (if decide (who = a) then o else OKeep)
       (schedule_of_collator <$> Collators s !! a)).
Proof.
  intros Ho. rewrite schedule_of_insert. case_decide; [by subst|]. reflexivity.
Qed.

(** The collators a call leaves, below the writes to other items. *)
Ltac peel_collators :=
  unfold schedule_of, deposit_event, Nominators_insert, ExitQueue_insert, TotalStaked_put; simpl;
  rewrite ?reserve_collators; simpl; rewrite ?reserve_collators; simpl.
Ltac own_write :=
  apply schedule_of_write; unfold schedule_of;
  repeat match goal with H : Collators _ !! _ = Some _ |- _ => rewrite H end; simpl; constructor.

Lemma call_refines who origin c s now :
  pallet_inv s ->
  schedule_eq now (schedule_of (dispatch origin c s).2 who)
    (schedule_step (call_op who origin c s) (schedule_of s who)).
Proof.
  intros Hs. unfold call_op. destruct (dispatch origin c s) as [r s'] eqn:Hd. simpl.
  destruct c; run_call Hd; simplify_eq; try reflexivity; peel_collators; try reflexivity.
  - own_write. apply new_schedule.
  - own_write. apply force_schedule; [|by apply negb_true_iff]. by apply (inv_lookup s candidate).
  - own_write. apply extra_schedule.
  - own_write. by eapply less_schedule.
  - rewrite leave_collators. case_decide as Hw; [subst; by rewrite lookup_delete_eq|].
    by rewrite lookup_delete_ne.
  - erewrite schedule_of_rewrite; [reflexivity|done|by eapply add_nomination_schedule].
  - erewrite schedule_of_rewrite; [reflexivity|done|by eapply add_nomination_schedule].
  - erewrite schedule_of_rewrite; [reflexivity|done|by eapply nominate_extra_schedule].
  - erewrite schedule_of_rewrite; [reflexivity|done|by eapply nominate_less_schedule].
  - erewrite schedule_of_rewrite; [reflexivity|done|by eapply rm_nomination_schedule].
Qed.

Lemma reserve_round who v s : CurrentRound (currency_reserve who v s) = CurrentRound s.
Proof. unfold currency_reserve. by destruct (reserve who v (ledger s)). Qed.
Lemma leave_round (l : list Bond) s :
  CurrentRound (foldl (fun s b => currency_unreserve (Bond.owner b) (Bond.amount b) s) s l)
  = CurrentRound s.
Proof. by apply foldl_proj. Qed.

Lemma dispatch_round origin c s : CurrentRound (dispatch origin c s).2 = CurrentRound s.
Proof.
  destruct (dispatch origin c s) as [r s'] eqn:Hd. simpl.
  destruct c; run_call Hd; simplify_eq; try reflexivity;
    unfold deposit_event, TotalStaked_put; simpl; rewrite ?reserve_round; simpl;
    rewrite ?reserve_round; try reflexivity. apply leave_round.
Qed.

(** The index of the round a state is in. *)
Definition round_of s : RoundIndex := RoundInfo.index (CurrentRound s).

Lemma apply_event_round e s :
  0 <= round_of s < 2 ^ 32 - 1 ->
  round_of s <= round_of (apply_event e s) <= round_of s + 1.
Proof.
  unfold round_of. intros Hr. destruct e as [origin c|now|author|l]; simpl; [|..|lia|lia].
  - rewrite dispatch_round. lia.
  - destruct (RoundInfo.should_goto_next_round (CurrentRound s) now) eqn:Hgo.
    + destruct (on_finalize_books (P := P) (B := B) now s Hgo) as [-> _]. simpl.
      unfold RoundInfo.next_round_index. rewrite add_exact; lia.
    + rewrite on_finalize_idle by done. lia.
Qed.

Lemma apply_event_inv e s :
  0 <= MaxNominationsPerCollator -> event_ok e -> pallet_inv s -> pallet_inv (apply_event e s).
Proof.
  intros Hm He Hs. apply (step_inv (P := P) (B := B) s); [done| |done].
  destruct e; by constructor.
Qed.

(** One event of the pallet is one step of the specification. *)
Lemma event_refines who e s :
  pallet_inv s ->
  schedule_eq (round_of (apply_event e s)) (schedule_of (apply_event e s) who)
    (schedule_step (event_op who e s) (schedule_of s who)).
Proof.
  intros Hs. destruct e as [origin c|now|author|l]; simpl; try reflexivity.
  - by apply call_refines.
  - destruct (RoundInfo.should_goto_next_round (CurrentRound s) now) eqn:Hgo;
      [|by rewrite on_finalize_idle].
    destruct (on_finalize_books (P := P) (B := B) now s Hgo) as (Hr & _ & Hc & _).
    unfold round_of, schedule_of. rewrite Hr, Hc. simpl.
    destruct (Collators s !! who) as [c|] eqn:Hl; simpl; constructor.
    apply refreshed_schedule, (inv_lookup s who c Hs Hl).
Qed.

Lemma run_refines who evs s k :
  0 <= MaxNominationsPerCollator -> Forall event_ok evs -> pallet_inv s ->
  0 <= round_of s -> round_of s + Z.of_nat (length evs) < 2 ^ 32 ->
  schedule_eq (round_of s) (schedule_of s who) k ->
  schedule_eq (round_of (run_events evs s)) (schedule_of (run_events evs s) who)
    (schedule_run who evs s k).
Proof.
  intros Hm Hok. revert s k. induction Hok as [|e evs He _ IH]; intros s k Hs H0 Hn Hk; [done|].
  simpl in Hn |- *. pose proof (apply_event_round e s ltac:(lia)) as Hr.
  apply IH; [by apply apply_event_inv|lia..|].
  etrans; [by apply event_refines|]. apply schedule_step_proper.
  apply (schedule_eq_later (round_of s)); [lia|done].
Qed.

(** [C4] Refinement: over any run of the pallet of fewer than [2^32] rounds, each
    account's collator record implements the schedule that the successful calls
    on it describe, for the current round and all later ones: it is a collator
    exactly while it has a schedule, and the chunks it keeps add up to the
    schedule's stake and held amount. *)
Theorem schedule_refinement who evs s :
  0 <= MaxNominationsPerCollator -> Forall event_ok evs -> pallet_inv s ->
  0 <= round_of s -> round_of s + Z.of_nat (length evs) < 2 ^ 32 ->
  schedule_eq (round_of (run_events evs s)) (schedule_of (run_events evs s) who)
    (schedule_run who evs s (schedule_of s who)).
Proof. intros. apply run_refines; try done. Qed.

(** [C26] In every round the elections and the payouts see what was scheduled: when
    a block starts round [r], after any run, an active stake is the schedule's
    stake of round [r] and a total is its held amount. *)
Theorem schedule_realised who evs now s c :
  0 <= MaxNominationsPerCollator -> Forall event_ok evs -> pallet_inv s ->
  0 <= round_of s -> round_of s + Z.of_nat (length evs) + 1 < 2 ^ 32 ->
  let s1 := run_events evs s in
  let s2 := on_finalize (P := P) (B := B) now s1 in
  RoundInfo.should_goto_next_round (CurrentRound s1) now = true ->
  Collators s2 !! who = Some c ->
  exists k, schedule_run who evs s (schedule_of s who) = Some k /\
    U.eqm 128 (StakingCollators.active c) (stake k (round_of s2)) /\
    U.eqm 128 (StakingCollators.total c) (held k (round_of s2)).
Proof.
  intros Hm Hok Hs H0 Hn s1 s2 Hgo Hc.
  assert (pallet_inv s1 /\ 0 <= round_of s1 < 2 ^ 32 - 1) as [Hs1 Hr1].
  { clear Hgo Hc s2. subst s1. revert s Hs H0 Hn. induction Hok as [|e evs He _ IH];
      intros s Hs H0 Hn; simpl in Hn |- *; [lia + (split; [done|lia])|].
    pose proof (apply_event_round e s ltac:(lia)).
    apply IH; [by apply apply_event_inv|lia..]. }
  pose proof (run_refines who evs s (schedule_of s who) Hm Hok Hs H0 ltac:(lia)
                ltac:(reflexivity)) as Hk. fold s1 in Hk.
  destruct (on_finalize_books (P := P) (B := B) now s1 Hgo) as (Hr & _ & Hl & _). fold s2 in Hr, Hl.
  rewrite Hl in Hc. unfold schedule_of in Hk. destruct (Collators s1 !! who) as [c1|] eqn:Hc1; [|done].
  simpl in Hc, Hk. apply (inj Some) in Hc as <-.
  inversion Hk as [x k Hag Hx Hk'|]; subst x. exists k. split; [done|].
  assert (round_of s2 = round_of s1 + 1) as Hr2.
  { unfold round_of. rewrite Hr. simpl. unfold RoundInfo.next_round_index. apply add_exact.
    unfold round_of in Hr1. lia. }
  destruct (Hag (round_of s2) ltac:(lia)) as [Hst Hhe]. rewrite <- Hst, <- Hhe. simpl.
  assert (round_of s2 = RoundInfo.next_round_index (CurrentRound s1)) as -> by
    (unfold round_of; by rewrite Hr).
  destruct (refreshed_fields (RoundInfo.next_round_index (CurrentRound s1)) c1
              (proj1 (inv_lookup s1 who c1 Hs1 Hc1))) as (_ & Ha & Ht & _). done.
Qed.
End Schedule.

(** ** Witnesses *)

(** An account bonds, the next round starts, it takes some out and adds some. *)
Definition mock_events : list (PalletEvent (L := Ledger)) :=
  [ECall (Signed 1%N) (call_bond 1000); EBlock 10; ECall (Signed 1%N) (call_bond_less 300);
   ECall (Signed 1%N) (call_bond_extra 50)].

(** Stake of the rounds 1 to 5 and what is held for them, [bond_duration] being 2
    (the pallet is in round 2: the entries of round 1 are past). *)
Example mock_schedule :
  (fun k => ((stake k) <$> [1; 2; 3; 4; 5], (held k) <$> [1; 2; 3; 4; 5])) <$>
    schedule_run (P := Z) (B := Limbs) 1%N mock_events mock_genesis (schedule_of mock_genesis 1%N)
  = Some ([-300; 700; 750; 750; 750], [1050; 1050; 1050; 750; 750]).
Proof. vm_compute. reflexivity. Qed.

Lemma mock_events_ok : Forall event_ok mock_events.
Proof. repeat constructor; vm_compute; first [discriminate | reflexivity]. Qed.

Lemma schedule_refinement_witness :
  schedule_eq 2 (schedule_of (run_events (P := Z) (B := Limbs) mock_events mock_genesis) 1%N)
    (schedule_run (P := Z) (B := Limbs) 1%N mock_events mock_genesis (schedule_of mock_genesis 1%N)).
Proof.
  assert (round_of (run_events (P := Z) (B := Limbs) mock_events mock_genesis) = 2) as <-
    by (vm_compute; reflexivity).
  apply (schedule_refinement (P := Z) (B := Limbs) 1%N mock_events mock_genesis);
    [vm_compute; discriminate|apply mock_events_ok|apply mock_genesis_inv
    |vm_compute; discriminate|vm_compute; reflexivity].
Defined.

Lemma schedule_realised_witness :
  let s1 := run_events (P := Z) (B := Limbs) mock_events mock_genesis in
  let s2 := on_finalize (P := Z) (B := Limbs) 20 s1 in
  exists c k, Collators s2 !! 1%N = Some c /\ StakingCollators.active c = 750 /\
    schedule_run (P := Z) (B := Limbs) 1%N mock_events mock_genesis (schedule_of mock_genesis 1%N)
      = Some k /\
    U.eqm 128 (StakingCollators.active c) (stake k (round_of s2)).
Proof.
  intros s1 s2. destruct (Collators s2 !! 1%N) as [c|] eqn:Hc; [|by vm_compute in Hc].
  exists c.
  destruct (schedule_realised (P := Z) (B := Limbs) 1%N mock_events 20 mock_genesis c)
    as (k & Hk & Ha & _);
    [vm_compute; discriminate|apply mock_events_ok|apply mock_genesis_inv
    |vm_compute; discriminate|vm_compute; reflexivity|vm_compute; reflexivity|exact Hc|].
  exists k. split_and!; [done| |done|done]. vm_compute in Hc. by injection Hc as <-.
Defined.
