(* ===== verification/StakingNominations.v ===== *)
(** * The staking pallet: the two books of nominations

    A nomination is recorded twice, at the nominator and at the collator, each as
    a bond in a list.  The calls of nominators search and rewrite both lists;
    none of them compares the two.  Over every run in which no nominated collator
    leaves and no [nominate] fails half-way the books agree, and then the calls of
    nominators succeed exactly when they mean to; the two exceptions break the
    agreement for good. *)
From S2P Require Import Prelude StakingTypes Externals TaylorSeries Inflation StakingPallet.
From S2P Require Import StakingRounds StakingMock StakingCalls StakingInvariant StakingMaintenance StakingSchedule.

(** ** Bonds of one owner *)

(** The amounts of the bonds of [owner], oldest first. *)
Definition amounts (owner : AccountId) (l : list Bond) : list Balance :=
  Bond.amount <$> filter (fun b => Bond.owner b = owner) l.

Lemma amounts_cons o b l :
  amounts o (b :: l) = (if decide (Bond.owner b = o) then [Bond.amount b] else []) ++ amounts o l.
Proof. unfold amounts. rewrite filter_cons. by case_decide. Qed.
Lemma amounts_snoc o l b :
  amounts o (l ++ [b]) = amounts o l ++ if decide (Bond.owner b = o) then [Bond.amount b] else [].
Proof. unfold amounts. rewrite filter_app, fmap_app. f_equal. rewrite filter_cons. by case_decide. Qed.
Lemma amounts_other o w l : o <> w -> amounts o (filter (fun b => Bond.owner b <> w) l) = amounts o l.
Proof.
  intros Hne. induction l as [|b l IH]; [done|]. rewrite filter_cons.
  case_decide as Hb; rewrite !amounts_cons, IH; [done|]. by rewrite decide_False by congruence.
Qed.
Lemma amounts_same w l : amounts w (filter (fun b => Bond.owner b <> w) l) = [].
Proof.
  induction l as [|b l IH]; [done|]. rewrite filter_cons. case_decide; [|done].
  rewrite amounts_cons, IH. by rewrite decide_False.
Qed.

(** A hit of the binary search is a bond of that owner. *)
Lemma bond_found_amounts l b : bond_found l b = true -> amounts (Bond.owner b) l <> [].
Proof.
  intros (y & Hy & Ho)%bond_found_sound. unfold amounts. intros H%fmap_nil_inv.
  assert (y ∈ filter (fun b' => Bond.owner b' = Bond.owner b) l) as Hin by by apply list_elem_of_filter.
  rewrite H in Hin. by apply not_elem_of_nil in Hin.
Qed.

(** The loops on bonds change the first bond of the owner, or drop all of
    them. *)
Lemma bonds_extra_amounts l e :
  match bonds_extra l e with
  | Some (a, l') => exists v vs,
      amounts (Bond.owner e) l = v :: vs /\ a = v +128 Bond.amount e /\
      amounts (Bond.owner e) l' = a :: vs /\
      (forall o, o <> Bond.owner e -> amounts o l' = amounts o l)
  | None => amounts (Bond.owner e) l = []
  end.
Proof.
  induction l as [|b l IH]; simpl; [done|]. rewrite amounts_cons.
  destruct (N.eqb_spec (Bond.owner b) (Bond.owner e)) as [Hb|Hb].
  - rewrite decide_True by done. exists (Bond.amount b), (amounts (Bond.owner e) l).
    split_and!; [done..| |].
    + rewrite amounts_cons. simpl. by rewrite decide_True.
    + intros o Ho. rewrite !amounts_cons. simpl. by rewrite !decide_False by congruence.
  - rewrite decide_False by done. destruct (bonds_extra l e) as [[a l']|]; [|done].
    destruct IH as (v & vs & H1 & H2 & H3 & H4). exists v, vs. split_and!; [done..| |].
    + rewrite amounts_cons. by rewrite decide_False.
    + intros o Ho. rewrite !amounts_cons. by rewrite H4.
Qed.
Lemma bonds_less_amounts l e :
  match bonds_less l e with
  | Some (Some (a, l')) => exists v vs,
      amounts (Bond.owner e) l = v :: vs /\ Bond.amount e < v /\ a = v -128 Bond.amount e /\
      amounts (Bond.owner e) l' = a :: vs /\
      (forall o, o <> Bond.owner e -> amounts o l' = amounts o l)
  | Some None => exists v vs, amounts (Bond.owner e) l = v :: vs /\ v <= Bond.amount e
  | None => amounts (Bond.owner e) l = []
  end.
Proof.
  induction l as [|b l IH]; simpl; [done|]. rewrite amounts_cons.
  destruct (N.eqb_spec (Bond.owner b) (Bond.owner e)) as [Hb|Hb].
  - rewrite decide_True by done. destruct (Z.ltb_spec (Bond.amount e) (Bond.amount b)).
    + exists (Bond.amount b), (amounts (Bond.owner e) l). split_and!; [done|done|done| |].
      * rewrite amounts_cons. simpl. by rewrite decide_True.
      * intros o Ho. rewrite !amounts_cons. simpl. by rewrite !decide_False by congruence.
    + exists (Bond.amount b), (amounts (Bond.owner e) l). by split.
  - rewrite decide_False by done. destruct (bonds_less l e) as [[[a l']|]|]; [|done..].
    destruct IH as (v & vs & H1 & H2 & H3 & H4 & H5). exists v, vs. split_and!; [done..| |].
    + rewrite amounts_cons. by rewrite decide_False.
    + intros o Ho. rewrite !amounts_cons. by rewrite H5.
Qed.
Lemma bonds_remove_last less l who :
  (bonds_remove less l who).1 = match last (amounts who l) with Some v => Some v | None => less end.
Proof.
  revert less. induction l as [|b l IH]; intros less; simpl; [done|]. rewrite amounts_cons.
  destruct (N.eqb_spec (Bond.owner b) who).
  - rewrite decide_True by done. rewrite IH. simpl app. rewrite last_cons.
    by destruct (last (amounts who l)).
  - rewrite decide_False by done. specialize (IH less). by destruct (bonds_remove less l who).
Qed.

(** Whether the loops find something, and what is left of a bond. *)
Definition left_over (less : Balance) (vs : list Balance) : option Balance :=
  match vs with v :: _ => if less <? v then Some (v -128 less) else None | [] => None end.
Lemma bonds_extra_some l e : is_Some (bonds_extra l e) <-> amounts (Bond.owner e) l <> [].
Proof.
  pose proof (bonds_extra_amounts l e) as H. destruct (bonds_extra l e) as [[a l']|].
  - destruct H as (v & vs & -> & _). split; [done|eauto].
  - rewrite H. split; [by intros []|done].
Qed.
Lemma bonds_less_left l e :
  fst <$> mjoin (bonds_less l e) = left_over (Bond.amount e) (amounts (Bond.owner e) l).
Proof.
  pose proof (bonds_less_amounts l e) as H. destruct (bonds_less l e) as [[[a l']|]|]; simpl.
  - destruct H as (v & vs & -> & Hv & -> & _). simpl. by rewrite (proj2 (Z.ltb_lt _ _) Hv).
  - destruct H as (v & vs & -> & Hv). simpl. by rewrite (proj2 (Z.ltb_ge _ _) Hv).
  - by rewrite H.
Qed.
Lemma bonds_remove_some l who : is_Some (bonds_remove None l who).1 <-> amounts who l <> [].
Proof.
  rewrite bonds_remove_last. destruct (last (amounts who l)) eqn:E.
  - split; [|eauto]. intros _ Hz. by rewrite Hz in E.
  - apply last_None in E. rewrite E. split; [by intros []|done].
Qed.

(** The bonds [l'] are [l] with those of owner [o] replaced by [vs]. *)
Definition edits (o : AccountId) (l l' : list Bond) (vs : list Balance) : Prop :=
  amounts o l' = vs /\ forall o', o' <> o -> amounts o' l' = amounts o' l.

(** What the calls make of the amounts of one owner. *)
Definition extra_of (extra : Balance) (vs : list Balance) : list Balance :=
  match vs with [] => [] | v :: vs => (v +128 extra) :: vs end.
Definition less_of (less : Balance) (vs : list Balance) : list Balance :=
  match vs with [] => [] | v :: vs => (v -128 less) :: vs end.

Lemma edits_snoc l b : edits (Bond.owner b) l (l ++ [b]) (amounts (Bond.owner b) l ++ [Bond.amount b]).
Proof.
  split; [rewrite amounts_snoc; by rewrite decide_True|]. intros o Ho. rewrite amounts_snoc.
  rewrite decide_False by congruence. apply app_nil_r.
Qed.
Lemma edits_extra l e a l' :
  bonds_extra l e = Some (a, l') ->
  edits (Bond.owner e) l l' (extra_of (Bond.amount e) (amounts (Bond.owner e) l)).
Proof.
  intros H. pose proof (bonds_extra_amounts l e) as He. rewrite H in He.
  destruct He as (v & vs & -> & -> & Hv & Ho). by split.
Qed.
Lemma edits_less l e a l' :
  bonds_less l e = Some (Some (a, l')) ->
  edits (Bond.owner e) l l' (less_of (Bond.amount e) (amounts (Bond.owner e) l)).
Proof.
  intros H. pose proof (bonds_less_amounts l e) as He. rewrite H in He.
  destruct He as (v & vs & -> & _ & -> & Hv & Ho). by split.
Qed.
Lemma edits_remove less l who : edits who l (bonds_remove less l who).2 [].
Proof.
  rewrite bonds_remove_kept. split; [apply amounts_same|]. intros o Ho. by apply amounts_other.
Qed.

Section Nominations.
Context {L : Type} `{!Currency L, !ReservableCurrency L, Cfg : !Config}.
Implicit Types s : State L.

(** The bonds of a nominator and of a collator; what [n] has nominated [c] with,
    by the book of [n] and by that of [c]. *)
Definition nominated_by s (n : AccountId) : list Bond :=
  match Nominators s !! n with Some r => StakingNominators.nominations r | None => [] end.
Definition nominators_of s (c : AccountId) : list Bond :=
  match Collators s !! c with Some r => StakingCollators.nominations r | None => [] end.
Definition given s (n c : AccountId) : list Balance := amounts c (nominated_by s n).
Definition received s (n c : AccountId) : list Balance := amounts n (nominators_of s c).
Definition mirrored s : Prop := forall n c, given s n c = received s n c.

(** ** Writes that keep the books in agreement *)

Lemma mirrored_frame s s' :
  (forall n, nominated_by s' n = nominated_by s n) ->
  (forall c, nominators_of s' c = nominators_of s c) -> mirrored s -> mirrored s'.
Proof. intros Hn Hc Hs n c. unfold given, received. rewrite Hn, Hc. apply Hs. Qed.
Lemma mirrored_books s s' :
  Collators s' = Collators s -> Nominators s' = Nominators s -> mirrored s -> mirrored s'.
Proof.
  intros Hc Hn. apply mirrored_frame; intros a; unfold nominated_by, nominators_of; by rewrite ?Hc, ?Hn.
Qed.

(** A call of nominator [n] about collator [c] that changes both records alike. *)
Lemma mirrored_write (f : list Balance -> list Balance) s s' n nr c cr :
  Nominators s' = <[n := nr]> (Nominators s) -> Collators s' = <[c := cr]> (Collators s) ->
  edits c (nominated_by s n) (StakingNominators.nominations nr) (f (given s n c)) ->
  edits n (nominators_of s c) (StakingCollators.nominations cr) (f (received s n c)) ->
  mirrored s -> mirrored s'.
Proof.
  intros Hn Hc [Hg Hgo] [Hr Hro] Hs n' c'. specialize (Hs n' c') as Hs'.
  unfold given, received, nominated_by, nominators_of in *. rewrite Hn, Hc, !lookup_insert.
  case_decide as E; case_decide as E'; subst.
  - by rewrite Hg, Hr, Hs'.
  - by rewrite Hgo by done.
  - by rewrite Hro by done.
  - done.
Qed.
(** A write to a collator that keeps its nominations. *)
Lemma mirrored_collator s s' c cr :
  Nominators s' = Nominators s -> Collators s' = <[c := cr]> (Collators s) ->
  StakingCollators.nominations cr = nominators_of s c -> mirrored s -> mirrored s'.
Proof.
  intros Hn Hc Hr. apply mirrored_frame; intros a; unfold nominated_by, nominators_of in *;
    [by rewrite Hn|]. rewrite Hc, lookup_insert. by case_decide; subst.
Qed.

(** A collator without nominations leaves. *)
Lemma mirrored_remove s s' c :
  nominators_of s c = [] -> Nominators s' = Nominators s -> Collators s' = delete c (Collators s) ->
  mirrored s -> mirrored s'.
Proof.
  intros Hz Hn Hc. apply mirrored_frame; intros a; unfold nominated_by, nominators_of in *;
    [by rewrite Hn|]. rewrite Hc, lookup_delete. by case_decide; subst.
Qed.
Lemma bond_less_nominations c l r x c' :
  StakingCollators.bond_less c l r = (x, c') ->
  StakingCollators.nominations c' = StakingCollators.nominations c.
Proof. unfold StakingCollators.bond_less. by case_match; intros; simplify_eq. Qed.

(** The two books as a call leaves them, below its other writes. *)
Lemma reserve_books who v s :
  Collators (currency_reserve who v s) = Collators s /\ Nominators (currency_reserve who v s) = Nominators s.
Proof. unfold currency_reserve. by destruct (reserve who v (ledger s)). Qed.
Lemma leave_books (l : list Bond) s :
  let s' := foldl (fun s b => currency_unreserve (Bond.owner b) (Bond.amount b) s) s l in
  Collators s' = Collators s /\ Nominators s' = Nominators s.
Proof. split; by apply foldl_proj. Qed.

(** The operations on the two records. *)
Lemma nominator_add n b x n' :
  StakingNominators.add_nomination n b = (x, n') -> x = true ->
  edits (Bond.owner b) (StakingNominators.nominations n) (StakingNominators.nominations n')
    (amounts (Bond.owner b) (StakingNominators.nominations n) ++ [Bond.amount b]).
Proof. unfold StakingNominators.add_nomination. case_match; intros; simplify_eq. apply edits_snoc. Qed.
Lemma collator_add n b x n' :
  StakingCollators.add_nomination n b = (x, n') -> x = true ->
  edits (Bond.owner b) (StakingCollators.nominations n) (StakingCollators.nominations n')
    (amounts (Bond.owner b) (StakingCollators.nominations n) ++ [Bond.amount b]).
Proof. unfold StakingCollators.add_nomination. case_match; intros; simplify_eq. apply edits_snoc. Qed.
Lemma nominator_extra n b a n' :
  StakingNominators.nominate_extra n b = (Some a, n') ->
  edits (Bond.owner b) (StakingNominators.nominations n) (StakingNominators.nominations n')
    (extra_of (Bond.amount b) (amounts (Bond.owner b) (StakingNominators.nominations n))).
Proof.
  unfold StakingNominators.nominate_extra. destruct (bonds_extra _ _) as [[]|] eqn:He; intros; simplify_eq.
  by eapply edits_extra.
Qed.
Lemma collator_extra n b a n' :
  StakingCollators.nominate_extra n b = (Some a, n') ->
  edits (Bond.owner b) (StakingCollators.nominations n) (StakingCollators.nominations n')
    (extra_of (Bond.amount b) (amounts (Bond.owner b) (StakingCollators.nominations n))).
Proof.
  unfold StakingCollators.nominate_extra. destruct (bonds_extra _ _) as [[]|] eqn:He; intros; simplify_eq.
  by eapply edits_extra.
Qed.
Lemma nominator_less n b r a n' :
  StakingNominators.nominate_less n b r = (Some (Some a), n') ->
  edits (Bond.owner b) (StakingNominators.nominations n) (StakingNominators.nominations n')
    (less_of (Bond.amount b) (amounts (Bond.owner b) (StakingNominators.nominations n))).
Proof.
  unfold StakingNominators.nominate_less.
  destruct (bonds_less _ _) as [[[]|]|] eqn:He; intros; simplify_eq. by eapply edits_less.
Qed.
Lemma collator_less n b a n' :
  StakingCollators.nominate_less n b = (Some (Some a), n') ->
  edits (Bond.owner b) (StakingCollators.nominations n) (StakingCollators.nominations n')
    (less_of (Bond.amount b) (amounts (Bond.owner b) (StakingCollators.nominations n))).
Proof.
  unfold StakingCollators.nominate_less.
  destruct (bonds_less _ _) as [[[]|]|] eqn:He; intros; simplify_eq. by eapply edits_less.
Qed.
Lemma nominator_rm n c r a n' :
  StakingNominators.rm_nomination n c r = (Some a, n') ->
  edits c (StakingNominators.nominations n) (StakingNominators.nominations n') [].
Proof.
  unfold StakingNominators.rm_nomination. pose proof (edits_remove None (StakingNominators.nominations n) c).
  destruct (bonds_remove _ _ _) as [[] ?]; intros; by simplify_eq.
Qed.
Lemma collator_rm n c a n' :
  StakingCollators.rm_nomination n c = (Some a, n') ->
  edits c (StakingCollators.nominations n) (StakingCollators.nominations n') [].
Proof.
  unfold StakingCollators.rm_nomination. pose proof (edits_remove None (StakingCollators.nominations n) c).
  destruct (bonds_remove _ _ _) as [[] ?]; intros; by simplify_eq.
Qed.

(** ** The calls *)

(** The two calls that may leave the books apart: a collator with nominations
    leaves, or [nominate] fails at the collator. *)
Definition books_kept (origin : Origin) (c : StakingCall) s : Prop :=
  match origin, c with
  | Signed who, call_collator_unbond => nominators_of s who = []
  | _, call_nominate _ _ => (dispatch origin c s).1 <> Err (ModuleErr NominationNotExist)
  | _, _ => True
  end.

(** Peels the writes a call makes besides the two books off its state. *)
Ltac peel_books :=
  unfold deposit_event, Nominators_insert, Collators_insert, Collators_remove, ExitQueue_insert,
    TotalStaked_put; simpl;
  repeat first
    [ rewrite (proj1 (reserve_books _ _ _)) | rewrite (proj2 (reserve_books _ _ _))
    | rewrite (proj1 (leave_books _ _)) | rewrite (proj2 (leave_books _ _)) ]; simpl;
  repeat first
    [ rewrite (proj1 (reserve_books _ _ _)) | rewrite (proj2 (reserve_books _ _ _)) ]; simpl; reflexivity.
Ltac on_books :=
  unfold received, given, nominated_by, nominators_of;
  repeat match goal with H : _ !! _ = Some _ |- _ => rewrite H end;
  repeat match goal with H : _ !! _ = None |- _ => rewrite H end.

Lemma dispatch_mirrored origin c s :
  books_kept origin c s -> mirrored s -> mirrored (dispatch origin c s).2.
Proof.
  intros Hk Hs. destruct (dispatch origin c s) as [r s'] eqn:H.
  assert (forall who a b, origin = Signed who -> c = call_nominate a b -> r <> Err (ModuleErr NominationNotExist)) as Hr.
  { intros who a b -> ->. unfold books_kept in Hk. by rewrite H in Hk. }
  simpl. destruct c; run_call H; simplify_eq; try done; try (exfalso; by eapply Hr); clear Hr.
  all: try (eapply mirrored_books; [peel_books..|done]).
  (* the calls of collators *)
  1-4: eapply mirrored_collator; [peel_books|peel_books|on_books|done].
  - match goal with H : bool_decide _ = true |- _ => apply bool_decide_eq_true in H; by rewrite H end.
  - done.
  - done.
  - by eapply bond_less_nominations.
  - eapply mirrored_remove; [done|peel_books|peel_books|done].
  - eapply (mirrored_write (fun vs => vs ++ [amount])); [peel_books|peel_books| | |done]; on_books.
    + by eapply (nominator_add _ (Bond.mk _ _)).
    + by eapply (collator_add _ (Bond.mk _ _)).
  - eapply (mirrored_write (fun vs => vs ++ [amount])); [peel_books|peel_books| | |done]; on_books.
    + apply (edits_snoc [] (Bond.mk _ _)).
    + by eapply (collator_add _ (Bond.mk _ _)).
  - eapply (mirrored_write (extra_of extra)); [peel_books|peel_books| | |done]; on_books.
    + by eapply (nominator_extra _ (Bond.mk _ _)).
    + by eapply (collator_extra _ (Bond.mk _ _)).
  - eapply (mirrored_write (less_of less)); [peel_books|peel_books| | |done]; on_books.
    + by eapply (nominator_less _ (Bond.mk _ _)).
    + by eapply (collator_less _ (Bond.mk _ _)).
  - eapply (mirrored_write (fun _ => [])); [peel_books|peel_books| | |done]; on_books.
    + by eapply nominator_rm.
    + by eapply collator_rm.
Qed.

(** ** When a nominator's calls succeed *)

Definition active_collator s (c : AccountId) : Prop :=
  exists cr, Collators s !! c = Some cr /\ StakingCollators.is_active cr = true.

Lemma nominator_extra_some n b :
  is_Some (StakingNominators.nominate_extra n b).1
  <-> amounts (Bond.owner b) (StakingNominators.nominations n) <> [].
Proof.
  unfold StakingNominators.nominate_extra. rewrite <- bonds_extra_some.
  by destruct (bonds_extra _ _) as [[]|]; simpl; rewrite <- !not_eq_None_Some.
Qed.
Lemma collator_extra_some n b :
  is_Some (StakingCollators.nominate_extra n b).1
  <-> amounts (Bond.owner b) (StakingCollators.nominations n) <> [].
Proof.
  unfold StakingCollators.nominate_extra. rewrite <- bonds_extra_some.
  by destruct (bonds_extra _ _) as [[]|]; simpl; rewrite <- !not_eq_None_Some.
Qed.
Lemma nominator_less_left n b r :
  mjoin (StakingNominators.nominate_less n b r).1
  = left_over (Bond.amount b) (amounts (Bond.owner b) (StakingNominators.nominations n)).
Proof.
  unfold StakingNominators.nominate_less. rewrite <- bonds_less_left.
  by destruct (bonds_less _ _) as [[[]|]|].
Qed.
Lemma collator_less_left n b :
  mjoin (StakingCollators.nominate_less n b).1
  = left_over (Bond.amount b) (amounts (Bond.owner b) (StakingCollators.nominations n)).
Proof.
  unfold StakingCollators.nominate_less. rewrite <- bonds_less_left.
  by destruct (bonds_less _ _) as [[[]|]|].
Qed.
Lemma nominator_rm_some n c r :
  is_Some (StakingNominators.rm_nomination n c r).1 <-> amounts c (StakingNominators.nominations n) <> [].
Proof.
  unfold StakingNominators.rm_nomination. rewrite <- bonds_remove_some.
  by destruct (bonds_remove _ _ _) as [[] ?]; simpl; rewrite <- !not_eq_None_Some.
Qed.
Lemma collator_rm_some n c :
  is_Some (StakingCollators.rm_nomination n c).1 <-> amounts c (StakingCollators.nominations n) <> [].
Proof.
  unfold StakingCollators.rm_nomination. rewrite <- bonds_remove_some.
  by destruct (bonds_remove _ _ _) as [[] ?]; simpl; rewrite <- !not_eq_None_Some.
Qed.

Lemma nominate_extra_ok who c v s :
  mirrored s ->
  (nominate_extra (Signed who) c v s).1 = Ok tt <-> active_collator s c /\ given s who c <> [].
Proof.
  intros Hs. specialize (Hs who c). revert Hs.
  unfold nominate_extra, get_collator, get_nominator, active_collator, given, received, nominated_by,
    nominators_of, add_total_staked. unfold_monad. simpl.
  destruct (Collators s !! c) as [cr|] eqn:Hc; simpl; [|intros _; split; [done | by intros [(? & ? & _) _]]].
  destruct (StakingCollators.is_active cr) eqn:Ha; simpl;
    [|intros _; split; [done | intros [(? & ? & ?) _]; congruence]].
  destruct (Nominators s !! who) as [n|]; simpl; [|intros _; split; [done | by intros []]].
  intros Hs. pose proof (nominator_extra_some n (Bond.mk c v)) as Hn.
  pose proof (collator_extra_some cr (Bond.mk who v)) as Hr. simpl in Hn, Hr. rewrite <- Hs in Hr.
  destruct (StakingNominators.nominate_extra n _) as [[x|] n']; simpl in *.
  - assert (amounts c (StakingNominators.nominations n) <> []) as Hne by (apply Hn; eauto).
    destruct (proj2 Hr Hne) as [y Hy].
    destruct (StakingCollators.nominate_extra cr _) as [y' cr']. simpl in Hy. subst. simpl.
    split; [eauto|done].
  - split; [done|]. intros [_ Hne]. by destruct (proj2 Hn Hne).
Qed.

Lemma nominate_less_ok who c v s :
  mirrored s ->
  (nominate_less (Signed who) c v s).1 = Ok tt
  <-> active_collator s c /\ exists w, left_over v (given s who c) = Some w /\ MinNominatorStake <= w.
Proof.
  intros Hs. specialize (Hs who c). revert Hs.
  unfold nominate_less, get_collator, get_nominator, active_collator, given, received, nominated_by,
    nominators_of, withdraw_round. unfold_monad. simpl.
  destruct (Collators s !! c) as [cr|] eqn:Hc; simpl; [|intros _; split; [done | by intros [(? & ? & _) _]]].
  destruct (StakingCollators.is_active cr) eqn:Ha; simpl;
    [|intros _; split; [done | intros [(? & ? & ?) _]; congruence]].
  destruct (Nominators s !! who) as [n|]; simpl; [|intros _; split; [done | by intros (_ & ? & ? & _)]].
  intros Hs. set (r := _ +32 _).
  pose proof (nominator_less_left n (Bond.mk c v) r) as Hn.
  pose proof (collator_less_left cr (Bond.mk who v)) as Hr. simpl in Hn, Hr. rewrite <- Hs, <- Hn in Hr.
  rewrite <- Hn.
  destruct (StakingNominators.nominate_less n _ _) as [[[w|]|] n'], 
    (StakingCollators.nominate_less cr _) as [[[w'|]|] cr']; simpl in *; simplify_eq; simpl;
    try (split; [done | by intros (_ & ? & ? & _)]).
  destruct (Z.leb_spec MinNominatorStake w); simpl.
  - split; [eauto 10|done].
  - split; [done|]. intros (_ & ? & ? & ?). simplify_eq. lia.
Qed.

Lemma leave_ok who c s :
  mirrored s -> (nominator_leave_collator (Signed who) c s).1 = Ok tt <-> given s who c <> [].
Proof.
  intros Hs. specialize (Hs who c). revert Hs.
  unfold nominator_leave_collator, get_collator, get_nominator, given, received, nominated_by,
    nominators_of, withdraw_round. unfold_monad. simpl.
  destruct (Nominators s !! who) as [n|]; simpl; [|by split].
  destruct (Collators s !! c) as [cr|] eqn:Hc; simpl; [|intros ->; by split].
  intros Hs. set (r := _ +32 _).
  pose proof (nominator_rm_some n c r) as Hn. pose proof (collator_rm_some cr who) as Hr.
  rewrite <- Hs in Hr. rewrite <- Hn in *.
  destruct (StakingNominators.rm_nomination n _ _) as [[x|] n'],
    (StakingCollators.rm_nomination cr _) as [[y|] cr']; simpl in *; try by rewrite <- ?not_eq_None_Some.
  exfalso. by destruct (proj2 Hr ltac:(eauto)).
Qed.

(** Agreement makes the calls succeed exactly when they mean to: [nominate_extra]
    for a nominator of an active collator, [nominate_less] if moreover the
    minimum remains of the nomination, and every nominator can leave, whether
    the collator is active or not. *)
Theorem nominator_calls who c v s :
  mirrored s ->
  ((nominate_extra (Signed who) c v s).1 = Ok tt <-> active_collator s c /\ given s who c <> []) /\
  ((nominate_less (Signed who) c v s).1 = Ok tt <->
     active_collator s c /\ exists w ws, given s who c = w :: ws /\ v < w /\
       MinNominatorStake <= w -128 v) /\
  ((nominator_leave_collator (Signed who) c s).1 = Ok tt <-> given s who c <> []).
Proof.
  intros Hs. split_and!; [by apply nominate_extra_ok | | by apply leave_ok].
  rewrite nominate_less_ok by done. apply and_iff_compat_l. unfold left_over. split.
  - intros (w & Hw & Hm). destruct (given s who c) as [|x xs]; [done|].
    destruct (Z.ltb_spec v x); simplify_eq. eauto 10.
  - intros (w & ws & -> & Hv & Hm). rewrite (proj2 (Z.ltb_lt _ _) Hv). eauto.
Qed.

(** [C14] With the books in agreement a nominator can leave exactly the collators
    it backs.  Then nothing of its nomination is left in either book, every other
    nomination is as it was, its vote weighs the same until the money is free,
    and its last bond is scheduled for [bond_duration] rounds later; a refusal
    changes nothing. *)
Theorem leave_spec who c s :
  mirrored s ->
  let '(r, s') := nominator_leave_collator (Signed who) c s in
  match last (given s who c) with
  | None => s' = s /\ exists e, r = Err (ModuleErr e)
  | Some v => r = Ok tt /\ mirrored s' /\ ledger s' = ledger s /\
      (forall n' c', given s' n' c' = if decide (n' = who /\ c' = c) then [] else given s n' c') /\
      exists n n', Nominators s !! who = Some n /\ Nominators s' !! who = Some n' /\
        StakingNominators.total n' = StakingNominators.total n /\
        StakingNominators.unbonding n' = StakingNominators.unbonding n ++
          [mkUnBondChunk v (RoundInfo.index (CurrentRound s) +32 bond_duration (Settings s))]
  end.
Proof.
  intros Hs. pose proof (leave_ok who c s Hs) as Hok.
  pose proof (dispatch_mirrored (Signed who) (call_nominator_leave_collator c) s I Hs) as Hm. simpl in Hm.
  destruct (nominator_leave_collator (Signed who) c s) as [r s'] eqn:H. simpl in Hok, Hm.
  destruct (last (given s who c)) as [v|] eqn:Hl.
  - rewrite (proj2 Hok) in * by (intros Hz; by rewrite Hz in Hl). split_and!; [done..| | |].
    all: unfold nominator_leave_collator, get_collator, get_nominator, withdraw_round in H; run_call H.
    all: match goal with Hn : StakingNominators.rm_nomination ?n _ _ = _ |- _ =>
           pose proof (nominator_rm _ _ _ _ _ Hn) as [Hg Ho]; pose proof (bonds_remove_last None (StakingNominators.nominations n) c) as Hb;
           unfold StakingNominators.rm_nomination in Hn; destruct (bonds_remove None _ c) as [[] ?]; simplify_eq end.
    + done.
    + intros n' c'. unfold given, nominated_by. unfold deposit_event, Nominators_insert. simpl. rewrite lookup_insert.
      case_decide as E; [subst|by rewrite decide_False by naive_solver].
      case_decide as E'; [by destruct E'; subst|]. rewrite Heqo. apply Ho. naive_solver.
    + unfold given, nominated_by in Hl. rewrite Heqo in Hl. simpl in Hb. rewrite Hl in Hb. simplify_eq.
      eexists _, _. split_and!; [done|apply lookup_insert_eq|done..].
  - apply last_None in Hl. assert (r <> Ok tt) as Hr by (intros ->; by apply Hok).
    unfold nominator_leave_collator, get_collator, get_nominator, withdraw_round in H; run_call H; eauto.
Qed.

(** ** A collator leaves *)

(** [C15] A collator that leaves strands its nominators: their money is
    unreserved, their own book is not touched.  A nominator keeps the bond and the
    weight of its vote, which other collators it backs go on drawing on, and no
    call gets it rid of the bond as long as the collator is gone: all of them want
    its record. *)
Theorem unbond_strands_nominators c n v s :
  mirrored s -> given s n c <> [] ->
  let '(r, s') := collator_unbond (Signed c) s in
  r = Ok tt /\
  ledger s' = foldl (fun l b => unreserve (Bond.owner b) (Bond.amount b) l) (ledger s) (nominators_of s c) /\
  received s' n c = [] /\ given s' n c = given s n c /\
  slashable_balance_of n Nominator s' = slashable_balance_of n Nominator s /\
  nominate_extra (Signed n) c v s' = (Err (ModuleErr CandidateNotExist), s') /\
  nominate_less (Signed n) c v s' = (Err (ModuleErr CandidateNotExist), s') /\
  nominator_leave_collator (Signed n) c s' = (Err (ModuleErr CandidateNotExist), s').
Proof.
  intros Hs Hg. assert (received s n c <> []) as Hr by by rewrite <- Hs.
  destruct (Nominators s !! n) as [nr|] eqn:Hn;
    [|exfalso; apply Hg; unfold given, nominated_by; by rewrite Hn].
  destruct (Collators s !! c) as [cr|] eqn:Hc;
    [|exfalso; apply Hr; unfold received, nominators_of; by rewrite Hc].
  destruct (collator_unbond (Signed c) s) as [r s'] eqn:H.
  unfold collator_unbond, get_collator, withdraw_round in H. unfold_monad. simpl in H.
  rewrite Hc in H. simpl in H. rewrite leave_all_nominations_run in H.
  set (s1 := foldl _ s (StakingCollators.nominations cr)) in H.
  assert (ledger s1 = foldl (fun l b => unreserve (Bond.owner b) (Bond.amount b) l) (ledger s)
            (StakingCollators.nominations cr)) as Hl.
  { unfold s1. clear. revert s. induction (StakingCollators.nominations cr) as [|b l IH]; intros s; [done|].
    simpl. by rewrite IH. }
  assert (r = Ok tt /\ ledger s' = ledger s1 /\ Collators s' !! c = None /\ Nominators s' !! n = Some nr)
    as (-> & Hl' & Hc' & Hn').
  { simplify_eq. split_and!; [done|done|apply lookup_delete_eq|]. simpl. unfold s1.
    by rewrite (proj2 (leave_books _ _)). }
  clear H. unfold given, received, nominated_by, nominators_of, slashable_balance_of, nominate_extra,
    nominate_less, nominator_leave_collator, get_collator, get_nominator.
  unfold_monad. rewrite Hl', Hl, Hn, Hc. simpl. rewrite Hc', Hn'. simpl. by rewrite Hc'.
Qed.

(** The number of collators a nominator backs is not limited: [nominate] succeeds
    for any nominator that does not find the collator in its list. *)
Theorem nominate_unlimited who c v s nr cr :
  Nominators s !! who = Some nr -> Collators s !! c = Some cr ->
  MAX_COLLATORS_PER_NOMINATOR <= Z.of_nat (length (StakingNominators.nominations nr)) ->
  StakingCollators.is_active cr = true -> MinNominatorStake <= v ->
  Z.of_nat (length (StakingCollators.nominations cr)) < MaxNominationsPerCollator ->
  bond_found (StakingNominators.nominations nr) (Bond.mk c v) = false ->
  bond_found (StakingCollators.nominations cr) (Bond.mk who v) = false ->
  let '(r, s') := nominate (Signed who) c v s in
  r = Ok tt /\ MAX_COLLATORS_PER_NOMINATOR < Z.of_nat (length (nominated_by s' who)).
Proof.
  intros Hn Hc Hmax Ha Hv Hlen Hfn Hfc. unfold nominate, get_collator, add_total_staked. unfold_monad. simpl.
  rewrite (proj2 (Z.leb_le _ _) Hv). simpl. rewrite Hc. simpl. rewrite Ha. simpl.
  rewrite (proj2 (Z.ltb_lt _ _) Hlen). simpl. rewrite Hn.
  unfold StakingNominators.add_nomination, StakingCollators.add_nomination. rewrite Hfn. simpl. rewrite Hfc.
  simpl. split; [done|]. unfold nominated_by, deposit_event, TotalStaked_put. simpl.
  rewrite (proj2 (reserve_books _ _ _)). simpl. rewrite lookup_insert_eq. simpl. rewrite length_app. simpl. lia.
Qed.

(** ** Runs *)

Context `{Iter : !StorageIter}.
Context {P B : Type} `{!PerThing P, !BigUint B}.

Lemma refreshed_nominations r c :
  StakingCollators.nominations (refreshed r c) = StakingCollators.nominations c.
Proof.
  unfold refreshed. destruct (consolidate_unbonded_fields (StakingCollators.consolidate_active
    (StakingCollators.active_onboard c) r) r) as (_ & _ & _ & _ & _ & ->).
  destruct (consolidate_active_fields (StakingCollators.active_onboard c) r) as (_ & _ & _ & _ & _ & ->).
  unfold StakingCollators.active_onboard. by case_decide.
Qed.
Lemma finalize_mirrored now s : mirrored s -> mirrored (on_finalize (P := P) (B := B) now s).
Proof.
  intros Hs. destruct (RoundInfo.should_goto_next_round (CurrentRound s) now) eqn:Hgo;
    [|by rewrite on_finalize_idle].
  destruct (on_finalize_books (P := P) (B := B) now s Hgo) as (_ & _ & Hc & Hn & _).
  apply (mirrored_frame s); [intros n|intros c|done]; unfold nominated_by, nominators_of.
  - rewrite Hn. destruct (Nominators s !! n) as [nr|]; [|done]. simpl.
    unfold StakingNominators.consolidate_unbonded. by destruct (drain_unbonding _ _ _).
  - rewrite Hc. destruct (Collators s !! c) as [cr|]; [|done]. apply refreshed_nominations.
Qed.

(** No event of the run is one of the two exceptions. *)
Fixpoint kept_along (evs : list (PalletEvent (L := L))) s : Prop :=
  match evs with
  | [] => True
  | e :: evs =>
      match e with ECall origin c => books_kept origin c s | _ => True end /\
      kept_along evs (apply_event (P := P) (B := B) e s)
  end.

Lemma build_stakers_mirrored stakers total s total' s' :
  mirrored s -> build_stakers stakers total s = Some (total', s') -> mirrored s'.
Proof.
  revert total s. induction stakers as [|[who v] l IH]; intros total s Hs H; simpl in H; [by simplify_eq|].
  destruct (v <=? _); [|done]. eapply IH; [|done].
  by apply (dispatch_mirrored (Signed who) (call_bond v)).
Qed.

Lemma build_mirrored stakers l s0 : build stakers l = Some s0 -> mirrored s0.
Proof.
  intros H0. unfold build in H0. destruct (build_stakers _ _ _) as [[t s1]|] eqn:Hb; simplify_eq.
  apply (mirrored_books s1); [done|done|]. by apply (build_stakers_mirrored stakers 0 (empty_state l) t).
Qed.
Lemma run_mirrored evs s :
  mirrored s -> kept_along evs s -> mirrored (run_events (P := P) (B := B) evs s).
Proof.
  revert s. induction evs as [|e evs IH]; intros s Hs Hk; [done|].
  destruct Hk as [He Hk]. apply IH; [|done].
  destruct e as [origin c|now|author|l']; simpl in *; [by apply dispatch_mirrored
    | by apply finalize_mirrored | by apply (mirrored_books s)..].
Qed.

(** [C13] From genesis on, over any calls, blocks, author notes and moves of money,
    what a nominator has nominated each collator with is the same by its own book
    and by the collator's, bond by bond, as long as no collator with nominations
    leaves and no [nominate] fails after it has written the nominator. *)
Theorem books_agree stakers l s0 evs :
  build stakers l = Some s0 -> kept_along evs s0 -> mirrored (run_events (P := P) (B := B) evs s0).
Proof. intros H0. by apply run_mirrored, (build_mirrored stakers l). Qed.
End Nominations.

(** ** Witnesses *)

(** In the second round of the mock, account 10 nominates 300 and 100. *)
Definition mock_nominations : list (PalletEvent (L := Ledger)) :=
  [EBlock 10; ECall (Signed 10%N) (call_nominate 300%N 200);
   ECall (Signed 10%N) (call_nominate 100%N 200)].
Definition mock_nominated : State Ledger :=
  run_events (P := Z) (B := Limbs) mock_nominations mock_genesis.
Lemma mock_kept : kept_along (P := Z) (B := Limbs) mock_nominations mock_genesis.
Proof. vm_compute. repeat split; discriminate. Qed.
Lemma mock_mirrored : mirrored mock_nominated.
Proof. apply run_mirrored; [apply (build_mirrored _ _ _ mock_build) | apply mock_kept]. Qed.

Lemma books_agree_witness :
  mirrored mock_nominated /\ given mock_nominated 10%N 300%N = [200].
Proof.
  split; [apply (books_agree mock_stakers mock_ledger); [apply mock_build | apply mock_kept]|].
  vm_compute. reflexivity.
Defined.

Lemma leave_spec_witness :
  let r := nominator_leave_collator (Signed 10%N) 300%N mock_nominated in
  r.1 = Ok tt /\ mirrored r.2 /\ given r.2 10%N 300%N = [] /\ given r.2 10%N 100%N = [200].
Proof.
  pose proof (leave_spec 10%N 300%N mock_nominated mock_mirrored) as H.
  assert (last (given mock_nominated 10%N 300%N) = Some 200) as E by (vm_compute; reflexivity).
  assert (given mock_nominated 10%N 100%N = [200]) as E' by (vm_compute; reflexivity).
  destruct (nominator_leave_collator _ _ _) as [r s']. rewrite E in H.
  destruct H as (Hr & Hm & _ & Hg & _). simpl. rewrite !Hg, E'. by split_and!.
Defined.

Lemma unbond_strands_nominators_witness :
  let r := collator_unbond (Signed 300%N) mock_nominated in
  r.1 = Ok tt /\ given r.2 10%N 300%N = [200] /\ slashable_balance_of 10%N Nominator r.2 = 400 /\
  reserved_balance (ledger r.2) 10%N = 200 /\
  nominator_leave_collator (Signed 10%N) 300%N r.2 = (Err (ModuleErr CandidateNotExist), r.2).
Proof.
  assert (given mock_nominated 10%N 300%N = [200]) as E by (vm_compute; reflexivity).
  pose proof (unbond_strands_nominators 300%N 10%N 0 mock_nominated mock_mirrored) as H.
  rewrite E in H. specialize (H ltac:(discriminate)).
  assert (slashable_balance_of 10%N Nominator mock_nominated = 400) as E' by (vm_compute; reflexivity).
  assert (reserved_balance (ledger (collator_unbond (Signed 300%N) mock_nominated).2) 10%N = 200) as E''
    by (vm_compute; reflexivity).
  destruct (collator_unbond _ _) as [r s']. simpl in E''. rewrite E' in H.
  destruct H as (Hr & _ & _ & Hg & Hw & _ & _ & Hl). by split_and!.
Defined.

Lemma nominator_calls_witness :
  (nominate_less (Signed 10%N) 300%N 100 mock_nominated).1 = Ok tt /\
  (nominate_less (Signed 10%N) 300%N 101 mock_nominated).1 <> Ok tt.
Proof.
  assert (given mock_nominated 10%N 300%N = [200]) as E by (vm_compute; reflexivity).
  assert (active_collator mock_nominated 300%N) as Ha by (eexists; split; [vm_compute|]; reflexivity).
  destruct (nominator_calls 10%N 300%N 100 mock_nominated mock_mirrored) as (_ & [_ Hok] & _).
  destruct (nominator_calls 10%N 300%N 101 mock_nominated mock_mirrored) as (_ & [Hno _] & _).
  rewrite E in Hok, Hno. split.
  - apply Hok. split; [done|]. exists 200, []. split_and!; [done|lia|]. vm_compute. discriminate.
  - intros (_ & w & ws & Hw & _ & Hm)%Hno. injection Hw as <- <-. vm_compute in Hm. by apply Hm.
Defined.
