(* ===== verification/StakingReserves.v ===== *)
(** * The staking pallet: reserves and records

    The pallet keeps what it holds for an account twice: as the reserve of the
    currency, and in its records: the totals of the account's collator and
    nominator ledgers and its exit record.  The calls ignore whether a reserve was
    made and never compare the two.  Over every run in which reserves succeed and
    nobody leaves the way the pallet mishandles, they are equal for every account
    after every event: nothing is recorded that is not reserved, and nothing
    reserved is forgotten. *)
From S2P Require Import Prelude StakingTypes Externals TaylorSeries Inflation StakingPallet.
From S2P Require Import StakingRounds StakingMock StakingCalls StakingInvariant StakingMaintenance StakingSchedule StakingNominations.

(** ** Records without overflow *)

(** The ledger of a collator adds up over the integers. *)
Record collator_exact (c : StakingCollators) : Prop := {
  ce_total : StakingCollators.total c = StakingCollators.active c
    + unlocking_sum (StakingCollators.unlocking c) + unbonding_sum (StakingCollators.unbonding c);
  ce_unlocking : Forall (fun ch => 0 <= uc_value ch) (StakingCollators.unlocking c);
}.
(** A nominator's total covers its bonds and what is unbonding. *)
Record nominator_exact (n : StakingNominators) : Prop := {
  ne_bonds : Forall (fun b => 0 <= Bond.amount b) (StakingNominators.nominations n);
  ne_unbonding : Forall (fun ch => 0 <= ub_value ch) (StakingNominators.unbonding n);
  ne_total : bonds_sum (StakingNominators.nominations n)
    + unbonding_sum (StakingNominators.unbonding n) <= StakingNominators.total n;
}.
Definition exit_total (e : Leaving) : Z := remaining e + unbonding_sum (leaving_unbonding e).

(** What a record says is held. *)
Definition of_collator (c : option StakingCollators) : Z := @from_option _ Z StakingCollators.total 0 c.
Definition of_nominator (n : option StakingNominators) : Z := @from_option _ Z StakingNominators.total 0 n.
Definition of_exit (e : option Leaving) : Z := from_option exit_total 0 e.

Lemma due_unbonding_range r l :
  Forall (fun ch => 0 <= ub_value ch) l -> 0 <= unbonding_sum (due_unbonding r l) <= unbonding_sum l.
Proof.
  intros Hl. rewrite (unbonding_split r l). unfold unbonding_sum, due_unbonding.
  pose proof (sumZ_nonneg ub_value (filter (fun ch => r < ub_round ch) l) (Forall_filter_keep _ _ _ Hl)).
  pose proof (sumZ_nonneg ub_value (filter (fun ch => ~ r < ub_round ch) l) (Forall_filter_keep _ _ _ Hl)).
  lia.
Qed.
Lemma due_unlocking_range r l :
  Forall (fun ch => 0 <= uc_value ch) l -> 0 <= unlocking_sum (due_unlocking r l) <= unlocking_sum l.
Proof.
  intros Hl. rewrite (unlocking_split r l). unfold unlocking_sum, due_unlocking.
  pose proof (sumZ_nonneg uc_value (filter (fun ch => r < uc_round ch) l) (Forall_filter_keep _ _ _ Hl)).
  pose proof (sumZ_nonneg uc_value (filter (fun ch => ~ r < uc_round ch) l) (Forall_filter_keep _ _ _ Hl)).
  lia.
Qed.

(** ** The operations keep records exact *)

Lemma new_exact v r : 0 <= v -> collator_exact (StakingCollators.new v r).
Proof. intros Hv. split; simpl; [unfold unlocking_sum, unbonding_sum; simpl; lia | by repeat constructor]. Qed.
Lemma extra_exact c v r :
  collator_exact c -> 0 <= v -> 0 <= StakingCollators.total c -> StakingCollators.total c + v < 2 ^ 128 ->
  collator_exact (StakingCollators.bond_extra c v r) /\
  StakingCollators.total (StakingCollators.bond_extra c v r) = StakingCollators.total c + v.
Proof.
  intros [Ht Hu] Hv H0 Hb. assert (StakingCollators.total c +128 v = StakingCollators.total c + v) as E
    by (apply add_exact; unfold Balance in *; lia).
  split; [split|]; simpl; rewrite ?E; [|apply Forall_app; by repeat constructor | done].
  unfold unlocking_sum in *. rewrite sumZ_app. simpl. lia.
Qed.
Lemma less_exact c v r x c' :
  StakingCollators.bond_less c v r = (x, c') -> collator_exact c -> 0 <= v -> U.ok 128 (StakingCollators.active c) ->
  collator_exact c' /\ StakingCollators.total c' = StakingCollators.total c.
Proof.
  unfold StakingCollators.bond_less, U.ok. intros H [Ht Hu] Hv Ha.
  destruct (Z.ltb_spec v (StakingCollators.active c)); simplify_eq; [|by split].
  split; [split|]; simpl; [|done..]. rewrite sub_exact by (unfold Balance in *; lia).
  unfold unbonding_sum in *. rewrite sumZ_app. simpl. lia.
Qed.
Lemma force_exact c :
  collator_exact c -> StakingCollators.unbonding c = [] -> collator_exact (StakingCollators.force_bond c).
Proof. intros [Ht Hu] Hb. split; simpl; [|done]. rewrite Hb. unfold unlocking_sum, unbonding_sum. simpl. lia. Qed.
(** Nominations are no part of a collator's own ledger. *)
Lemma nominations_exact c l : collator_exact c -> collator_exact (StakingCollators.set_nominations c l).
Proof. by intros []. Qed.
Lemma refreshed_exact `{Cfg : !Config} r c :
  collator_inv c -> collator_exact c ->
  collator_exact (refreshed r c) /\
  StakingCollators.total (refreshed r c)
    = StakingCollators.total c - unbonding_sum (due_unbonding r (StakingCollators.unbonding c)).
Proof.
  intros Hi [Ht Hu]. pose proof (refreshed_inv r c Hi) as ([_ Htr Har _] & _ & _).
  destruct Hi as (Hw & _ & Hub%chunks_unsigned). destruct (cwf_total _ Hw) as [Ht0 Ht1], (cwf_active _ Hw) as [Ha0 Ha1].
  destruct (refreshed_fields r c Hw) as (_ & Ha' & Ht' & Hul' & Hub' & _).
  pose proof (due_unbonding_range r _ Hub) as Hdb. pose proof (due_unlocking_range r _ Hu) as Hdu.
  unfold stake_at in Ha'. unfold locked_at in Ht'. unfold Balance in *.
  pose proof (sumZ_nonneg ub_value _ Hub) as Hb0. fold (unbonding_sum (StakingCollators.unbonding c)) in Hb0.
  pose proof (sumZ_nonneg uc_value _ Hu) as Hu0. fold (unlocking_sum (StakingCollators.unlocking c)) in Hu0.
  apply eqm_exact in Ha'; [|done|split; lia]. apply eqm_exact in Ht'; [|done|split; lia].
  split; [|done]. split; [|rewrite Hul'; by apply Forall_filter_keep].
  rewrite Ha', Ht', Hul', Hub'.
  pose proof (unbonding_split r (StakingCollators.unbonding c)).
  pose proof (unlocking_split r (StakingCollators.unlocking c)). lia.
Qed.

(** The loops on bonds, where nothing overflows. *)
Definition bonds_ok (l : list Bond) : Prop := Forall (fun b => 0 <= Bond.amount b) l.
Lemma bonds_sum_nonneg l : bonds_ok l -> 0 <= bonds_sum l.
Proof. apply sumZ_nonneg. Qed.
Lemma bonds_extra_exact l e a l' :
  bonds_extra l e = Some (a, l') -> bonds_ok l -> 0 <= Bond.amount e ->
  bonds_sum l + Bond.amount e < 2 ^ 128 ->
  bonds_ok l' /\ bonds_sum l' = bonds_sum l + Bond.amount e.
Proof.
  intros H Hl Hv. revert a l' H. unfold bonds_sum. induction Hl as [|b l Hb Hl IH]; intros a l' H Hs; [done|].
  pose proof (bonds_sum_nonneg l Hl) as H0. unfold bonds_sum in H0. simpl in *. destruct (N.eqb _ _); simplify_eq.
  - rewrite add_exact by (unfold Balance in *; lia). split; [constructor; [simpl; lia|done]|simpl; lia].
  - destruct (bonds_extra l e) as [[a' l'']|]; simplify_eq.
    destruct (IH _ _ eq_refl ltac:(lia)) as [Hl' Hs']. split; [by constructor|simpl; lia].
Qed.
Lemma bonds_less_exact l e a l' :
  bonds_less l e = Some (Some (a, l')) -> bonds_ok l -> 0 <= Bond.amount e -> bonds_sum l < 2 ^ 128 ->
  bonds_ok l' /\ bonds_sum l' = bonds_sum l - Bond.amount e.
Proof.
  intros H Hl Hv. revert a l' H. unfold bonds_sum. induction Hl as [|b l Hb Hl IH]; intros a l' H Hs; [done|].
  pose proof (bonds_sum_nonneg l Hl) as H0. unfold bonds_sum in H0. simpl in *. destruct (N.eqb _ _).
  - destruct (Z.ltb_spec (Bond.amount e) (Bond.amount b)); simplify_eq.
    rewrite sub_exact by (unfold Balance in *; lia). split; [constructor; [simpl; lia|done]|simpl; lia].
  - destruct (bonds_less l e) as [[[a' l'']|]|]; simplify_eq.
    destruct (IH _ _ eq_refl ltac:(lia)) as [Hl' Hs']. split; [by constructor|simpl; lia].
Qed.
Lemma bonds_remove_exact less l who :
  bonds_ok l -> 0 <= default 0 less ->
  bonds_ok (bonds_remove less l who).2 /\
  0 <= default 0 (bonds_remove less l who).1 /\
  bonds_sum (bonds_remove less l who).2 + default 0 (bonds_remove less l who).1
    <= bonds_sum l + default 0 less.
Proof.
  intros Hl. revert less. unfold bonds_sum. induction Hl as [|b l Hb Hl IH]; intros less H0; simpl; [split_and!; [constructor|done|lia]|].
  destruct (N.eqb _ _).
  - destruct (IH (Some (Bond.amount b)) Hb) as (H1 & H2 & H3). simpl in H3. split_and!; [done..|lia].
  - destruct (IH less H0) as (H1 & H2 & H3). destruct (bonds_remove less l who) as [y l']. simpl in *.
    split_and!; [by constructor|done|lia].
Qed.

(** The operations of a nominator. *)
Lemma bond_new_exact c v : 0 <= v -> nominator_exact (StakingNominators.new [Bond.mk c v] v).
Proof. intros Hv. split; simpl; [by repeat constructor | done | unfold bonds_sum, unbonding_sum; simpl; lia]. Qed.
Lemma nominator_exact_range n :
  nominator_exact n -> 0 <= bonds_sum (StakingNominators.nominations n) /\
    0 <= unbonding_sum (StakingNominators.unbonding n) /\
    bonds_sum (StakingNominators.nominations n) <= StakingNominators.total n.
Proof.
  intros [Hb Hu Ht]. pose proof (bonds_sum_nonneg _ Hb).
  pose proof (sumZ_nonneg ub_value _ Hu : 0 <= unbonding_sum _). lia.
Qed.
Lemma nominator_add_exact n b n' :
  StakingNominators.add_nomination n b = (true, n') -> nominator_exact n -> 0 <= Bond.amount b ->
  StakingNominators.total n + Bond.amount b < 2 ^ 128 ->
  nominator_exact n' /\ StakingNominators.total n' = StakingNominators.total n + Bond.amount b.
Proof.
  unfold StakingNominators.add_nomination. intros H Hn Hv Hlt.
  destruct (nominator_exact_range n Hn) as (H0 & H1 & H2). destruct Hn as [Hb Hu Ht].
  destruct (bond_found _ _); simplify_eq. simpl.
  rewrite add_exact by (unfold Balance in *; lia). split; [|done]. split; simpl; [|done|].
  - apply Forall_app. by repeat constructor.
  - unfold bonds_sum in *. rewrite sumZ_app. simpl. unfold Balance in *. lia.
Qed.
Lemma nominator_extra_exact n b x n' :
  StakingNominators.nominate_extra n b = (Some x, n') -> nominator_exact n -> 0 <= Bond.amount b ->
  StakingNominators.total n + Bond.amount b < 2 ^ 128 ->
  nominator_exact n' /\ StakingNominators.total n' = StakingNominators.total n + Bond.amount b.
Proof.
  unfold StakingNominators.nominate_extra. intros H Hn Hv Hlt.
  destruct (nominator_exact_range n Hn) as (H0 & H1 & H2). destruct Hn as [Hb Hu Ht].
  unfold Balance in *. destruct (bonds_extra _ _) as [[a l]|] eqn:E; simplify_eq. simpl.
  destruct (bonds_extra_exact _ _ _ _ E Hb Hv ltac:(lia)) as [Hl Hs].
  rewrite add_exact by lia. split; [|done]. split; simpl; [done..|]. lia.
Qed.
Lemma nominator_less_exact n b r x n' :
  StakingNominators.nominate_less n b r = (Some (Some x), n') -> nominator_exact n -> 0 <= Bond.amount b ->
  StakingNominators.total n < 2 ^ 128 ->
  nominator_exact n' /\ StakingNominators.total n' = StakingNominators.total n.
Proof.
  unfold StakingNominators.nominate_less. intros H Hn Hv Hlt.
  destruct (nominator_exact_range n Hn) as (H0 & H1 & H2). destruct Hn as [Hb Hu Ht].
  unfold Balance in *. destruct (bonds_less _ _) as [[[a l]|]|] eqn:E; simplify_eq. simpl.
  destruct (bonds_less_exact _ _ _ _ E Hb Hv ltac:(lia)) as [Hl Hs].
  split; [|done]. split; simpl; [done|apply Forall_app; by repeat constructor|].
  unfold unbonding_sum in *. rewrite sumZ_app. simpl. lia.
Qed.
Lemma nominator_rm_exact n c r x n' :
  StakingNominators.rm_nomination n c r = (Some x, n') -> nominator_exact n ->
  nominator_exact n' /\ StakingNominators.total n' = StakingNominators.total n.
Proof.
  unfold StakingNominators.rm_nomination. intros H [Hb Hu Ht].
  destruct (bonds_remove_exact None (StakingNominators.nominations n) c Hb ltac:(done)) as (H1 & H2 & H3).
  destruct (bonds_remove _ _ _) as [[y|] l]; simplify_eq. simpl in *. split; [|done].
  split; simpl; [done|apply Forall_app; by repeat constructor|].
  unfold unbonding_sum in *. rewrite sumZ_app. simpl. unfold Balance in *. lia.
Qed.
Lemma nominator_consolidate_exact n r :
  nominator_exact n -> StakingNominators.total n < 2 ^ 128 ->
  let n' := StakingNominators.consolidate_unbonded n r in
  let due := unbonding_sum (due_unbonding r (StakingNominators.unbonding n)) in
  nominator_exact n' /\ StakingNominators.total n' = StakingNominators.total n - due /\
  nominator_unbonded r n = due.
Proof.
  intros Hn Hlt n' due. destruct (nominator_exact_range n Hn) as (H0 & H1 & H2). destruct Hn as [Hb Hu Ht].
  pose proof (due_unbonding_range r _ Hu) as Hd. fold due in Hd.
  pose proof (unbonding_split r (StakingNominators.unbonding n)) as Hsp. fold due in Hsp.
  assert (StakingNominators.total n' = StakingNominators.total n - due /\
    StakingNominators.nominations n' = StakingNominators.nominations n /\
    StakingNominators.unbonding n' = filter (fun ch => r < ub_round ch) (StakingNominators.unbonding n))
    as (E1 & E2 & E3).
  { unfold n', StakingNominators.consolidate_unbonded.
    pose proof (drain_unbonding_sum r (StakingNominators.total n) (StakingNominators.unbonding n)) as Hs.
    pose proof (drain_unbonding_kept r (StakingNominators.total n) (StakingNominators.unbonding n)) as Hk.
    assert (U.ok 128 (StakingNominators.total n)) as Hok by (unfold U.ok, Balance in *; lia).
    pose proof (drain_unbonding_ok r _ (StakingNominators.unbonding n) Hok) as Hok'.
    destruct (drain_unbonding r _ _) as [t k]. simpl in *. split_and!; [|done..].
    apply (eqm_exact 128); [done|unfold U.ok, Balance in *; lia|done]. }
  split; [split|].
  - by rewrite E2.
  - rewrite E3. by apply Forall_filter_keep.
  - rewrite E1, E2, E3. unfold Balance in *. lia.
  - split; [done|]. unfold nominator_unbonded. fold n'. rewrite E1.
    rewrite sub_exact by (unfold Balance in *; lia). lia.
Qed.

(** ** Reserves and records *)

Lemma from_option_insert {A} (f : A -> Z) (m : gmap AccountId A) k x a :
  from_option f 0 (<[k := x]> m !! a)
  = from_option f 0 (m !! a) + if decide (a = k) then f x - from_option f 0 (m !! k) else 0.
Proof.
  case_decide as H; [subst; rewrite lookup_insert_eq; simpl; lia|].
  rewrite lookup_insert_ne by done. lia.
Qed.
Lemma from_option_delete {A} (f : A -> Z) (m : gmap AccountId A) k a :
  from_option f 0 (delete k m !! a)
  = from_option f 0 (m !! a) - if decide (a = k) then from_option f 0 (m !! k) else 0.
Proof.
  case_decide as H; [subst; rewrite lookup_delete_eq; simpl; lia|].
  rewrite lookup_delete_ne by done. lia.
Qed.

Section Reserves.
Context {L : Type} `{!Currency L, !ReservableCurrency L, Cfg : !Config}.
Context `{!CurrencyLaws L, RL : !ReservableLaws L}.
Implicit Types s : State L.

(** What the pallet's records hold for an account. *)
Definition recorded s (a : AccountId) : Z :=
  of_collator (Collators s !! a) + of_nominator (Nominators s !! a) + of_exit (ExitQueue s !! a).

Definition records_exact s : Prop :=
  map_Forall (fun _ c => collator_exact c) (Collators s) /\
  map_Forall (fun _ n => nominator_exact n) (Nominators s).

Record backed s : Prop := {
  bk_inv : pallet_inv s;
  bk_exact : records_exact s;
  bk_reserves : forall a, reserved_balance (ledger s) a = recorded s a;
  bk_range : forall a, reserved_balance (ledger s) a < 2 ^ 128;
}.

(** A call in which no defect of the pallet shows: a reserve that is asked for
    is made, and who leaves has no nominations, no bond that is still pending
    and no exit record. *)
Definition solvent_call (origin : Origin) (c : StakingCall) s : Prop :=
  match origin with
  | Signed who =>
      match c with
      | call_collator_unbond =>
          match Collators s !! who with
          | Some cr => StakingCollators.unlocking cr = [] /\ ExitQueue s !! who = None
          | None => True
          end
      | _ =>
          match staking_amount c, (dispatch origin c s).1 with
          | Some v, Ok _ =>
              match reserve who v (ledger s) with
              | Some l => reserved_balance l who < 2 ^ 128
              | None => False
              end
          | _, _ => True
          end
      end
  | _ => True
  end.

(** What a call that succeeds puts at stake for [a]. *)
Definition staked_by (origin : Origin) (c : StakingCall) (r : outcome (DispatchError Error) unit)
    (a : AccountId) : Z :=
  match origin, staking_amount c, r with
  | Signed who, Some v, Ok _ => if decide (a = who) then v else 0
  | _, _, _ => 0
  end.

Lemma records_nonneg s a :
  pallet_inv s -> records_exact s ->
  0 <= of_collator (Collators s !! a) /\ 0 <= of_nominator (Nominators s !! a) /\
  0 <= of_exit (ExitQueue s !! a).
Proof.
  intros [Hc He _] [_ Hn]. split_and!.
  - destruct (Collators s !! a) as [c|] eqn:E; [|done]. destruct (Hc a c E) as ([_ [? _] _ _] & _). done.
  - destruct (Nominators s !! a) as [n|] eqn:E; [|done]. destruct (nominator_exact_range n (Hn a n E)) as (?&?&?).
    simpl. unfold Balance in *. lia.
  - destruct (ExitQueue s !! a) as [e|] eqn:E; [|done]. destruct (exit_ok_unsigned e (He a e E)) as [Hr Hu]. simpl. unfold exit_total.
    pose proof (sumZ_nonneg ub_value _ Hu : 0 <= unbonding_sum _). unfold Balance in *. lia.
Qed.

Lemma reserve_exits who v s : ExitQueue (currency_reserve who v s) = ExitQueue s.
Proof. unfold currency_reserve. by destruct (reserve who v (ledger s)). Qed.

(** A call that succeeds reserves what it puts at stake and nothing else. *)
Lemma call_reserved origin c s r s' a :
  dispatch origin c s = (r, s') -> solvent_call origin c s -> books_kept origin c s ->
  reserved_balance (ledger s') a = reserved_balance (ledger s) a + staked_by origin c r a.
Proof using RL.
  intros H Hs Hk. destruct (staking_amount c) as [v|] eqn:Hv.
  - destruct origin as [|who|];
      try (destruct c; simpl in Hv; simplify_eq; run_call H; simplify_eq; unfold staked_by; simpl; lia).
    destruct r as [[]|e|].
    + destruct (staking_call_effect who c v s s' Hv H) as [-> _]. unfold staked_by. rewrite Hv.
      assert (exists l, reserve who v (ledger s) = Some l) as [l Hl].
      { unfold solvent_call in Hs. rewrite Hv, H in Hs. simpl in Hs.
        destruct c; try done; by destruct (reserve who v (ledger s)); eauto. }
      rewrite Hl. simpl. case_decide as Ha; [subst; by destruct (reserve_moves _ _ _ _ Hl)|].
      rewrite (reserve_others _ _ _ _ _ Hl Ha). lia.
    + assert (ledger s' = ledger s) as -> by (destruct c; run_call H; by simplify_eq).
      unfold staked_by. rewrite Hv. lia.
    + exfalso. destruct c; run_call H; by simplify_eq.
  - assert (staked_by origin c r a = 0) as -> by (unfold staked_by; rewrite Hv; by destruct origin).
    assert (reserved_balance (ledger s') a = reserved_balance (ledger s) a) as ->; [|lia].
    destruct c; simpl in Hv; simplify_eq; run_call H; simplify_eq; try done.
    unfold books_kept, nominators_of in Hk. simpl in Hk.
    match goal with E : Collators s !! _ = Some _ |- _ => rewrite E in Hk end. by rewrite Hk.
Qed.

(** ** The writes of a call *)

(** The records of [s'] are exact and hold [d] more for [w] than those of [s]. *)
Definition records_gain s s' (w : AccountId) (d : Z) : Prop :=
  records_exact s' /\ forall a, recorded s' a = recorded s a + if decide (a = w) then d else 0.

Lemma gain_same s s' w :
  records_exact s -> Collators s' = Collators s -> Nominators s' = Nominators s ->
  ExitQueue s' = ExitQueue s -> records_gain s s' w 0.
Proof.
  intros He Hc Hn Hx. unfold records_gain, records_exact, recorded. rewrite Hc, Hn, Hx.
  split; [done|]. intros a. case_decide; lia.
Qed.
Lemma gain_collator s s' w cr d :
  records_exact s -> Collators s' = <[w := cr]> (Collators s) -> Nominators s' = Nominators s ->
  ExitQueue s' = ExitQueue s -> collator_exact cr ->
  StakingCollators.total cr = of_collator (Collators s !! w) + d -> records_gain s s' w d.
Proof.
  intros [Hc Hn] Ec En Ex He Ht. unfold records_gain, records_exact, recorded. rewrite Ec, En, Ex.
  split; [split; [by apply map_Forall_insert_2|done]|]. intros a. unfold of_collator in *.
  rewrite from_option_insert. case_decide; lia.
Qed.
Lemma gain_nomination s s' n nr c cr d :
  records_exact s -> Nominators s' = <[n := nr]> (Nominators s) -> Collators s' = <[c := cr]> (Collators s) ->
  ExitQueue s' = ExitQueue s -> collator_exact cr ->
  StakingCollators.total cr = of_collator (Collators s !! c) -> nominator_exact nr ->
  StakingNominators.total nr = of_nominator (Nominators s !! n) + d -> records_gain s s' n d.
Proof.
  intros [Hc Hn] En Ec Ex He Ht Hne Hnt. unfold records_gain, records_exact, recorded. rewrite Ec, En, Ex.
  split; [split; by apply map_Forall_insert_2|]. intros a. unfold of_collator, of_nominator in *.
  rewrite !from_option_insert. repeat case_decide; lia.
Qed.
Lemma gain_leave s s' w e :
  records_exact s -> Collators s' = delete w (Collators s) -> Nominators s' = Nominators s ->
  ExitQueue s' = <[w := e]> (ExitQueue s) -> ExitQueue s !! w = None ->
  exit_total e = of_collator (Collators s !! w) -> records_gain s s' w 0.
Proof.
  intros [Hc Hn] Ec En Ex Hx Ht. unfold records_gain, records_exact, recorded. rewrite Ec, En, Ex.
  split; [split; [by apply map_Forall_delete|done]|]. intros a. unfold of_collator, of_exit in *.
  rewrite from_option_delete, from_option_insert, Hx. simpl. case_decide; lia.
Qed.

(** What a call puts at stake fits the records. *)
Lemma stake_fits who c s s' v :
  backed s -> call_ok c -> solvent_call (Signed who) c s -> staking_amount c = Some v ->
  dispatch (Signed who) c s = (Ok tt, s') -> 0 <= v /\ recorded s who + v < 2 ^ 128.
Proof using RL.
  intros Hb Hok Hs Hv H. split; [by destruct c; simpl in *; simplify_eq; destruct Hok|].
  unfold solvent_call in Hs. rewrite Hv, H in Hs. simpl in Hs. rewrite <- (bk_reserves s Hb).
  destruct (reserve who v (ledger s)) as [l|] eqn:Hl; [|by destruct c].
  destruct (reserve_moves _ _ _ _ Hl) as [_ Hr]. rewrite Hr in Hs. by destruct c.
Qed.

(** The totals a backed state holds are in range, one by one. *)
Lemma backed_collator s w c :
  backed s -> Collators s !! w = Some c ->
  collator_inv c /\ collator_exact c /\ 0 <= StakingCollators.total c <= recorded s w.
Proof using RL.
  intros Hb Hc. pose proof (records_nonneg s w (bk_inv s Hb) (bk_exact s Hb)) as Hp.
  split_and!; [by apply (inv_lookup s w c (bk_inv s Hb))|by apply (proj1 (bk_exact s Hb) w)|..];
    unfold recorded, of_collator in *; rewrite ?Hc in *; simpl in *; unfold Balance in *; lia.
Qed.
Lemma backed_nominator s w n :
  backed s -> Nominators s !! w = Some n ->
  nominator_exact n /\ 0 <= StakingNominators.total n <= recorded s w.
Proof using RL.
  intros Hb Hn. pose proof (records_nonneg s w (bk_inv s Hb) (bk_exact s Hb)) as Hp.
  split_and!; [by apply (proj2 (bk_exact s Hb) w)|..];
    unfold recorded, of_nominator in *; rewrite ?Hn in *; simpl in *; unfold Balance in *; lia.
Qed.

Ltac peel_records :=
  unfold deposit_event, Collators_insert, Nominators_insert, ExitQueue_insert, Collators_remove,
    TotalStaked_put; simpl;
  repeat first
    [ rewrite (proj1 (reserve_books _ _ _)) | rewrite (proj2 (reserve_books _ _ _))
    | rewrite reserve_exits | progress simpl ]; reflexivity.
Ltac at_entry :=
  repeat match goal with H : _ !! _ = Some _ |- _ => rewrite H end;
  repeat match goal with H : _ !! _ = None |- _ => rewrite H end.

Lemma add_nomination_exact c b x c' :
  StakingCollators.add_nomination c b = (x, c') -> collator_exact c ->
  collator_exact c' /\ StakingCollators.total c' = StakingCollators.total c.
Proof.
  unfold StakingCollators.add_nomination. intros H He. case_match; simplify_eq; [done|].
  by split; [apply nominations_exact|].
Qed.
Lemma nominate_extra_exact c b x c' :
  StakingCollators.nominate_extra c b = (x, c') -> collator_exact c ->
  collator_exact c' /\ StakingCollators.total c' = StakingCollators.total c.
Proof.
  unfold StakingCollators.nominate_extra. intros H He. destruct (bonds_extra _ _) as [[]|]; simplify_eq; [|done].
  by split; [apply nominations_exact|].
Qed.
Lemma nominate_less_exact c b x c' :
  StakingCollators.nominate_less c b = (x, c') -> collator_exact c ->
  collator_exact c' /\ StakingCollators.total c' = StakingCollators.total c.
Proof.
  unfold StakingCollators.nominate_less. intros H He.
  destruct (bonds_less _ _) as [[[]|]|]; simplify_eq; [|done..]. by split; [apply nominations_exact|].
Qed.
Lemma rm_nomination_exact c w x c' :
  StakingCollators.rm_nomination c w = (x, c') -> collator_exact c ->
  collator_exact c' /\ StakingCollators.total c' = StakingCollators.total c.
Proof.
  unfold StakingCollators.rm_nomination. intros H He. destruct (bonds_remove _ _ _) as [[] ?]; simplify_eq; [|done].
  by split; [apply nominations_exact|].
Qed.

Lemma gain_staked origin c r s s' w :
  records_gain s s' w (staked_by origin c r w) ->
  (forall who, origin = Signed who -> staking_amount c <> None -> who = w) ->
  records_exact s' /\ forall a, recorded s' a = recorded s a + staked_by origin c r a.
Proof using Type.
  intros [He Hr] Hw. split; [done|]. intros a. rewrite Hr. unfold staked_by.
  destruct origin as [|who|], (staking_amount c) eqn:E, r; simpl; repeat case_decide; try lia;
    exfalso; specialize (Hw who eq_refl ltac:(done)); congruence.
Qed.

(** The calls about an account's own bond, and those about a nomination. *)
Definition is_nominator_call (c : StakingCall) : bool :=
  match c with
  | call_nominate _ _ | call_nominate_extra _ _ | call_nominate_less _ _
  | call_nominator_leave_collator _ => true
  | _ => false
  end.

(** Runs a call that succeeds from a backed state: what it puts at stake fits,
    the records it reads are exact. *)
Ltac open_call Hb Hok Hs H :=
  pose proof H as H0;
  run_call H; simplify_eq; try (split; [done|]; intros a; unfold staked_by; simpl; lia);
  try (destruct (stake_fits _ _ _ _ _ Hb Hok Hs eq_refl H0) as [Hv Hlt]);
  repeat match goal with
         | E : Collators _ !! _ = Some _ |- _ =>
             lazymatch goal with
             | _ : collator_exact _ |- _ => fail
             | _ => destruct (backed_collator _ _ _ Hb E) as (Hci & Hce & Hct)
             end
         | E : Nominators _ !! _ = Some _ |- _ =>
             lazymatch goal with
             | _ : nominator_exact _ |- _ => fail
             | _ => destruct (backed_nominator _ _ _ Hb E) as (Hne & Hnt)
             end
         end.
Ltac nomination_write Hu :=
  match goal with |- context [staked_by (Signed ?who) _ _ _] =>
    apply (gain_staked _ _ _ _ _ who); [|naive_solver] end;
  eapply gain_nomination; [done|peel_records..|done| |done|]; at_entry; [done|];
  rewrite Hu; unfold staked_by; simpl; rewrite ?decide_True by done.

Lemma collator_call_records origin c s r s' :
  is_nominator_call c = false ->
  backed s -> call_ok c -> solvent_call origin c s -> books_kept origin c s ->
  dispatch origin c s = (r, s') ->
  records_exact s' /\ forall a, recorded s' a = recorded s a + staked_by origin c r a.
Proof using RL.
  intros Hc Hb Hok Hs Hk H. pose proof (bk_exact s Hb) as He.
  destruct c; try discriminate Hc; open_call Hb Hok Hs H.
  - apply (gain_staked _ _ _ _ _ 0%N); [|done]. by apply gain_same.
  - apply (gain_staked _ _ _ _ _ who); [|naive_solver]. eapply gain_collator; [done|peel_records..| |].
    + by apply new_exact.
    + apply bool_decide_eq_true in Heqb. rewrite Heqb. unfold staked_by. simpl. by rewrite decide_True.
  - apply (gain_staked _ _ _ _ _ candidate); [|done]. eapply gain_collator; [done|peel_records..| |].
    + apply force_exact; [done|]. destruct Hci as ([_ _ _ [Ha|(_ & _ & Hu & _)]] & _); [|done].
      apply active_is_active in Ha. by rewrite Ha in *.
    + at_entry. unfold staked_by. simpl. lia.
  - destruct (extra_exact t extra (RoundInfo.next_round_index (CurrentRound s))) as [Hx Ht]; [done|lia..|].
    apply (gain_staked _ _ _ _ _ who); [|naive_solver]. eapply gain_collator; [done|peel_records..|done|].
    rewrite Ht. at_entry. unfold staked_by. simpl. by rewrite decide_True.
  - destruct (less_exact _ _ _ _ _ Heqp Hce) as [Hx Ht]; [apply Hok|apply Hci|].
    apply (gain_staked _ _ _ _ _ who); [|done]. eapply gain_collator; [done|peel_records..|done|].
    rewrite Ht. at_entry. unfold staked_by. simpl. lia.
  - unfold solvent_call in Hs. unfold books_kept, nominators_of in Hk. simpl in Hs, Hk. rewrite Heqo in Hs, Hk.
    destruct Hs as [Hu Hx]. rewrite Hk. cbn [foldl].
    apply (gain_staked _ _ _ _ _ who); [|done]. eapply gain_leave; [done|peel_records..|done|].
    at_entry. unfold exit_total. simpl. rewrite (ce_total _ Hce), Hu. unfold unlocking_sum. simpl. lia.
Qed.

Lemma nominator_call_records origin c s r s' :
  is_nominator_call c = true ->
  backed s -> call_ok c -> solvent_call origin c s -> books_kept origin c s ->
  dispatch origin c s = (r, s') ->
  records_exact s' /\ forall a, recorded s' a = recorded s a + staked_by origin c r a.
Proof using RL.
  intros Hc Hb Hok Hs Hk H. pose proof (bk_exact s Hb) as He.
  assert (r <> Err (ModuleErr NominationNotExist) \/ forall a b, c <> call_nominate a b) as Hnom.
  { destruct c; auto. left. intros ->. unfold books_kept in Hk. rewrite H in Hk. by destruct origin. }
  destruct c; try discriminate Hc; open_call Hb Hok Hs H;
    try (exfalso; by destruct Hnom as [Hx|Hx]; [apply Hx | eapply Hx]); clear Hnom.
  - destruct (add_nomination_exact _ _ _ _ Heqp0 Hce) as [Hx Ht].
    destruct (nominator_add_exact _ _ _ Heqp Hne) as [Hy Hu]; [simpl; lia..|].
    by nomination_write Hu.
  - destruct (add_nomination_exact _ _ _ _ Heqp Hce) as [Hx Ht].
    apply (gain_staked _ _ _ _ _ who); [|naive_solver].
    eapply gain_nomination; [done|peel_records..|done| |by apply bond_new_exact|]; at_entry; [done|].
    unfold staked_by. simpl. by rewrite decide_True.
  - destruct (nominate_extra_exact _ _ _ _ Heqp0 Hce) as [Hx Ht].
    destruct (nominator_extra_exact _ _ _ _ Heqp Hne) as [Hy Hu]; [simpl; lia..|].
    by nomination_write Hu.
  - destruct (nominate_less_exact _ _ _ _ Heqp0 Hce) as [Hx Ht].
    destruct (nominator_less_exact _ _ _ _ _ Heqp Hne) as [Hy Hu]; [apply Hok|..|].
    { pose proof (bk_range s Hb who). rewrite (bk_reserves s Hb) in *. lia. }
    nomination_write Hu; lia.
  - destruct (rm_nomination_exact _ _ _ _ Heqp0 Hce) as [Hx Ht].
    destruct (nominator_rm_exact _ _ _ _ _ Heqp Hne) as [Hy Hu].
    nomination_write Hu; lia.
Qed.

Lemma call_records origin c s r s' :
  backed s -> call_ok c -> solvent_call origin c s -> books_kept origin c s ->
  dispatch origin c s = (r, s') ->
  records_exact s' /\ forall a, recorded s' a = recorded s a + staked_by origin c r a.
Proof using RL.
  destruct (is_nominator_call c) eqn:Hc; [by apply nominator_call_records | by apply collator_call_records].
Qed.

Lemma dispatch_backed origin c s :
  0 <= MaxNominationsPerCollator -> call_ok c -> solvent_call origin c s -> books_kept origin c s ->
  backed s -> backed (dispatch origin c s).2.
Proof using RL.
  intros Hm Hok Hs Hk Hb. destruct (dispatch origin c s) as [r s'] eqn:H. simpl.
  destruct (call_records origin c s r s' Hb Hok Hs Hk H) as [He Hr].
  pose proof (fun a => call_reserved origin c s r s' a H Hs Hk) as Hl.
  split; [| done | |].
  - pose proof (dispatch_inv origin c s Hm Hok (bk_inv s Hb)) as Hi. by rewrite H in Hi.
  - intros a. by rewrite Hl, Hr, (bk_reserves s Hb).
  - intros a. rewrite Hl. pose proof (bk_range s Hb a) as Hra. unfold staked_by.
    destruct origin as [|who|]; [lia| |lia]. destruct (staking_amount c) as [v|] eqn:Hv; [|lia].
    destruct r as [[]|e|]; [|lia..]. case_decide; [subst|lia].
    destruct (stake_fits who c s s' v Hb Hok Hs Hv H). rewrite (bk_reserves s Hb). lia.
Qed.

(** ** The end of a block *)

Context `{Iter : !StorageIter}.
Context {P B : Type} `{!PerThing P, !BigUint B}.

Lemma payout_reserved r s a :
  reserved_balance (ledger (payout_stakers (P := P) (B := B) r s)) a = reserved_balance (ledger s) a.
Proof using RL.
  assert (forall v to s', reserved_balance (ledger (mint v to s')) a = reserved_balance (ledger s') a) as Hm.
  { intros v to s'. unfold mint. case_match; [|done].
    destruct (deposit_into_existing to v (ledger s')) as [[i l]|] eqn:Hd; [|done].
    by destruct (deposit_pays to v _ _ _ a Hd). }
  unfold payout_stakers. case_match; [|done]. set (s0 := RoundStakerClipped_put _ s).
  change (ledger s) with (ledger s0). apply (foldl_proj (fun s => reserved_balance (ledger s) a)).
  intros s' [acc e]. unfold pay_collator.
  rewrite (foldl_proj (fun s => reserved_balance (ledger s) a)); [apply Hm|]. intros. apply Hm.
Qed.
Lemma enact_ledger r s : ledger (enact_election r s).2 = ledger s.
Proof using Type.
  unfold enact_election. destruct (elect _) as [[res w]|]; [|done]. simpl.
  rewrite (foldl_proj ledger); [done|]. by intros s' [who e].
Qed.

(** What the start of round [r] releases of a record. *)
Definition release_of {A} (f : A -> Z) (o : option A) (x : Z) : Z :=
  match o with Some e => released (f e) x | None => x end.

Lemma finalize_reserved now s a :
  RoundInfo.should_goto_next_round (CurrentRound s) now = true -> pallet_inv s ->
  let r := RoundInfo.next_round_index (CurrentRound s) in
  reserved_balance (ledger (on_finalize (P := P) (B := B) now s)) a
  = release_of (exit_release r) (ExitQueue s !! a)
     (release_of (nominator_unbonded r) (Nominators s !! a)
       (release_of (fun c => U.wrap 128 (unbonding_sum (due_unbonding r (StakingCollators.unbonding c))))
          (Collators s !! a) (reserved_balance (ledger s) a))).
Proof using RL.
  intros Hgo Hs r. unfold on_finalize. rewrite Hgo. unfold start_round.
  change (RoundInfo.index (RoundInfo.update (CurrentRound s) now (blocks_per_round (Settings s)))) with r.
  set (s0 := CurrentRound_put _ s). set (s1 := payout_stakers r s0).
  set (s2 := update_collators r s1). set (s3 := update_nominators r s2).
  unfold deposit_event. simpl. rewrite enact_ledger.
  pose proof (payout_books (P := P) (B := B) r s0) as [= _ _ H1 H2 H3 _]. fold s1 in H1, H2, H3.
  assert (ExitQueue s3 = ExitQueue s) as E3.
  { unfold s3, s2. by rewrite (update_nominators_frame ExitQueue), (update_collators_frame ExitQueue). }
  assert (Nominators s2 = Nominators s) as E2 by (unfold s2; by rewrite (update_collators_frame Nominators)).
  rewrite execute_exit_queue_reserved by (unfold exits_unsigned; rewrite E3; by apply inv_exits_unsigned).
  pose proof (update_nominators_reserved r s2 a) as R2.
  pose proof (update_collators_reserved r s1 a) as R1. fold s3 in R2. fold s2 in R1.
  rewrite E3, R2, E2, R1 by (intros k c Hc; rewrite H1 in Hc; by apply (inv_lookup s k c Hs)).
  unfold s1. rewrite payout_reserved. fold s1. rewrite H1.
  unfold release_of. by destruct (ExitQueue s !! a), (Nominators s !! a), (Collators s !! a).
Qed.

(** Each record gives up exactly what is released of it. *)
Lemma refreshed_held s r a :
  backed s ->
  let due c := U.wrap 128 (unbonding_sum (due_unbonding r (StakingCollators.unbonding c))) in
  0 <= from_option due 0 (Collators s !! a) <= of_collator (Collators s !! a) /\
  of_collator (refreshed r <$> Collators s !! a)
    = of_collator (Collators s !! a) - from_option due 0 (Collators s !! a).
Proof using RL.
  intros Hb due. destruct (Collators s !! a) as [c|] eqn:Hc; simpl; [|lia].
  destruct (backed_collator s a c Hb Hc) as (Hi & He & Ht). destruct (refreshed_exact r c Hi He) as [_ E].
  destruct Hi as (Hw & _ & Hu%chunks_unsigned). pose proof (due_unbonding_range r _ Hu) as Hd. destruct He as [Hs Hul].
  pose proof (sumZ_nonneg uc_value _ Hul : 0 <= unlocking_sum _) as H0.
  pose proof (proj1 (cwf_active _ Hw)) as Ha. pose proof (proj2 (cwf_total _ Hw)) as Ht2.
  unfold Balance in *. unfold due. rewrite wrap_id by (unfold U.ok; lia). lia.
Qed.
Lemma consolidated_held s r a :
  backed s ->
  0 <= @from_option _ Z (nominator_unbonded r) 0 (Nominators s !! a) <= of_nominator (Nominators s !! a) /\
  of_nominator ((fun n => StakingNominators.consolidate_unbonded n r) <$> Nominators s !! a)
    = of_nominator (Nominators s !! a) - @from_option _ Z (nominator_unbonded r) 0 (Nominators s !! a).
Proof using RL.
  intros Hb. destruct (Nominators s !! a) as [n|] eqn:Hn; simpl; [|lia].
  destruct (backed_nominator s a n Hb Hn) as (He & Ht).
  pose proof (bk_range s Hb a) as Hr. rewrite (bk_reserves s Hb) in Hr.
  destruct (nominator_consolidate_exact n r He) as (_ & E & ->); [unfold Balance in *; lia|].
  pose proof (due_unbonding_range r _ (ne_unbonding _ He)) as Hd.
  destruct (nominator_exact_range n He) as (H0 & H1 & H2). destruct He as [_ _ Hne].
  unfold Balance in *. lia.
Qed.
Lemma exit_held s r a :
  backed s ->
  0 <= from_option (exit_release r) 0 (ExitQueue s !! a) <= of_exit (ExitQueue s !! a) /\
  of_exit (ExitQueue s !! a ≫= exit_after r)
    = of_exit (ExitQueue s !! a) - from_option (exit_release r) 0 (ExitQueue s !! a).
Proof using Type.
  intros Hb. destruct (ExitQueue s !! a) as [e|] eqn:He; simpl; [|lia].
  destruct (inv_exits_unsigned s (bk_inv s Hb) a e He) as [Hr Hu]. unfold exit_release, exit_after, exit_total.
  pose proof (due_unbonding_range r _ Hu) as Hd. pose proof (unbonding_split r (leaving_unbonding e)) as Hsp.
  unfold Balance in *. case_decide; simpl; unfold exit_total; simpl; lia.
Qed.

Lemma release_all {X Y Z'} (f : X -> Z) (g : Y -> Z) (h : Z' -> Z) o p q x :
  0 <= from_option f 0 o -> 0 <= from_option g 0 p -> 0 <= from_option h 0 q ->
  from_option f 0 o + from_option g 0 p + from_option h 0 q <= x ->
  release_of h q (release_of g p (release_of f o x))
  = x - from_option f 0 o - from_option g 0 p - from_option h 0 q.
Proof using Type. destruct o, p, q; simpl; unfold released; lia. Qed.

Lemma finalize_backed now s : backed s -> backed (on_finalize (P := P) (B := B) now s).
Proof using RL.
  intros Hb. destruct (RoundInfo.should_goto_next_round (CurrentRound s) now) eqn:Hgo;
    [|by rewrite on_finalize_idle].
  set (r := RoundInfo.next_round_index (CurrentRound s)).
  destruct (on_finalize_books (P := P) (B := B) now s Hgo) as (_ & _ & Hc & Hn & Hx & _).
  fold r in Hc, Hn, Hx. set (s' := on_finalize now s) in *.
  assert (forall a, reserved_balance (ledger s') a = recorded s' a /\
            reserved_balance (ledger s') a <= reserved_balance (ledger s) a) as Hr.
  { intros a. pose proof (finalize_reserved now s a Hgo (bk_inv s Hb)) as E. simpl in E. fold r s' in E.
    destruct (refreshed_held s r a Hb) as [C1 C2], (consolidated_held s r a Hb) as [N1 N2],
      (exit_held s r a Hb) as [E1 E2]. rewrite (bk_reserves s Hb) in *.
    unfold recorded in *. rewrite Hc, Hn, Hx, C2, N2, E2.
    rewrite release_all in E by lia. lia. }
  split.
  - by apply on_finalize_inv, (bk_inv s Hb).
  - split; intros a x; rewrite ?Hc, ?Hn; intros (y & Hy & ->)%fmap_Some_1.
    + destruct (backed_collator s a y Hb Hy) as (Hi & He & _). by apply (refreshed_exact r y Hi He).
    + destruct (backed_nominator s a y Hb Hy) as (He & Ht). pose proof (bk_range s Hb a) as Hra.
      rewrite (bk_reserves s Hb) in Hra.
      by apply (nominator_consolidate_exact y r He); unfold Balance in *; lia.
  - intros a. apply Hr.
  - intros a. pose proof (bk_range s Hb a). pose proof (proj2 (Hr a)). lia.
Qed.

(** ** Runs *)

(** What the theorem asks of each event of a run: other pallets leave the
    reserves alone. *)
Fixpoint solvent_along (evs : list (PalletEvent (L := L))) s : Prop :=
  match evs with
  | [] => True
  | e :: evs =>
      match e with
      | ECall origin c => call_ok c /\ books_kept origin c s /\ solvent_call origin c s
      | ECurrency l => forall a, reserved_balance l a = reserved_balance (ledger s) a
      | _ => True
      end /\ solvent_along evs (apply_event (P := P) (B := B) e s)
  end.

Lemma backed_frame s s' :
  Collators s' = Collators s -> Nominators s' = Nominators s -> ExitQueue s' = ExitQueue s ->
  (forall a, reserved_balance (ledger s') a = reserved_balance (ledger s) a) ->
  pallet_inv s' -> backed s -> backed s'.
Proof using Type.
  intros Hc Hn Hx Hl Hi [_ He Hr Hg]. split; [done| | |]; unfold records_exact, recorded in *;
    rewrite ?Hc, ?Hn, ?Hx; [done| |]; intros a; by rewrite Hl.
Qed.

Lemma run_backed evs s :
  0 <= MaxNominationsPerCollator -> backed s -> solvent_along evs s ->
  backed (run_events (P := P) (B := B) evs s).
Proof using RL.
  intros Hm. revert s. induction evs as [|e evs IH]; intros s Hb Hs; [done|].
  destruct Hs as [He Hs]. apply IH; [|done]. destruct e as [origin c|now|author|l]; simpl in *.
  - by apply dispatch_backed; tauto.
  - by apply finalize_backed.
  - apply (backed_frame s); [done..| |done]. by apply note_author_inv, (bk_inv s Hb).
  - apply (backed_frame s); [done..| |done]. by apply inv_ledger, (bk_inv s Hb).
Qed.

(** The bonds of the genesis stakers are made in the same way. *)
Fixpoint solvent_stakers (stakers : list (AccountId * Balance)) s : Prop :=
  match stakers with
  | [] => True
  | (who, v) :: stakers =>
      U.ok 128 v /\ solvent_call (Signed who) (call_bond v) s /\
      solvent_stakers stakers (bond (Signed who) v s).2
  end.
Lemma build_backed stakers l s :
  0 <= MaxNominationsPerCollator -> (forall a, reserved_balance l a = 0) ->
  solvent_stakers stakers (empty_state l) -> build stakers l = Some s -> backed s.
Proof using RL.
  intros Hm Hl Hs H. unfold build in H.
  destruct (build_stakers stakers 0 (empty_state l)) as [[t s0]|] eqn:Hb; simplify_eq.
  assert (backed (empty_state l)) as He.
  { split; [apply empty_inv|split; apply map_Forall_empty|..]; intros a; simpl; by rewrite Hl. }
  assert (backed s0) as Hb0.
  { revert Hs He Hb. generalize (empty_state l) as s1, (0 : Z) as t1.
    induction stakers as [|[who v] stakers IH]; intros s1 t1 Hs He Hb; simpl in Hb; [by simplify_eq|].
    destruct Hs as (Hv & Hs1 & Hs2). destruct (v <=? _); [|done]. apply (IH (bond (Signed who) v s1).2 (t1 +128 v) Hs2); [|done].
    by apply (dispatch_backed (Signed who) (call_bond v)). }
  apply (backed_frame s0); [done..| |done]. revert Hb0. intros [Hi _ _ _]. by revert Hi; apply inv_frame.
Qed.

End Reserves.

(** ** Witness

    A collator bonds, a nominator backs it, both take something out; rounds pass,
    the nominator leaves, then the collator does, and the queue pays it out. *)
Definition mock_solvent_events : list (PalletEvent (L := Ledger)) :=
  [ECall (Signed 1%N) (call_bond 900); EBlock 10;
   ECall (Signed 10%N) (call_nominate 1%N 300); ECall (Signed 1%N) (call_bond_less 100);
   ECall (Signed 10%N) (call_nominate_less 1%N 50); EAuthor 1%N; EBlock 20;
   ECall (Signed 10%N) (call_nominator_leave_collator 1%N); ECall (Signed 1%N) call_collator_unbond;
   EBlock 30; EBlock 40].

Lemma mock_stakers_solvent : solvent_stakers mock_stakers (empty_state mock_ledger).
Proof. vm_compute. repeat split; discriminate. Qed.
Lemma mock_solvent : solvent_along (P := Z) (B := Limbs) mock_solvent_events mock_genesis.
Proof. vm_compute. repeat split; discriminate. Qed.
Lemma mock_no_reserves a : reserved_balance mock_ledger a = 0.
Proof. reflexivity. Qed.

