(* ===== verification/StakingExits.v ===== *)
(** * The staking pallet: who leaves gets the stake back, and when

    A collator that leaves goes through the exit queue.  Over every run that
    follows, the record of a clean exit is held until the round it names has
    started and is gone from then on, with all it held released; and that round
    comes, after as many blocks as the bond duration has. *)
From S2P Require Import Prelude StakingTypes Externals TaylorSeries Inflation StakingPallet.
From S2P Require Import StakingRounds StakingMock StakingCalls StakingInvariant StakingMaintenance.
From S2P Require Import StakingSchedule StakingNominations StakingReserves.

Section Exits.
Context {L : Type} `{!Currency L, !ReservableCurrency L, Cfg : !Config}.
Context `{!CurrencyLaws L, RL : !ReservableLaws L, Iter : !StorageIter}.
Context {P B : Type} `{!PerThing P, !BigUint B}.
Implicit Types s : State L.

(** ** The clock

    Rounds are counted in blocks: over consecutive blocks, the rounds gone by
    and the blocks of the current one add up to the blocks seen. *)

(** Nobody changes the settings, and [who] does not become a collator again. *)
Definition quiet (who : AccountId) (e : PalletEvent (L := L)) : Prop :=
  match e with
  | ECall Root (call_config _) => False
  | ECall (Signed w) (call_bond _) => w <> who
  | _ => True
  end.

Definition block_of (e : PalletEvent (L := L)) : option BlockNumber :=
  match e with EBlock n => Some n | _ => None end.
Definition blocks_of (evs : list (PalletEvent (L := L))) : list BlockNumber := omap block_of evs.

(** Block [now] is in the current round, and rounds have the length of the
    settings. *)
Record in_round (now : BlockNumber) s : Prop := {
  ir_length : RoundInfo.length (CurrentRound s) = blocks_per_round (Settings s);
  ir_start : 0 <= RoundInfo.start_in (CurrentRound s);
  ir_now : RoundInfo.start_in (CurrentRound s) <= now
    < RoundInfo.start_in (CurrentRound s) + blocks_per_round (Settings s);
}.
(** The blocks gone by, counted in rounds. *)
Definition ticks (now : BlockNumber) s : Z :=
  round_of s * blocks_per_round (Settings s) + (now - RoundInfo.start_in (CurrentRound s)).

Lemma in_round_frame now s s' :
  CurrentRound s' = CurrentRound s -> Settings s' = Settings s -> in_round now s -> in_round now s'.
Proof using Type. by intros Hr Hs [? ? ?]; split; rewrite ?Hr, ?Hs. Qed.
Lemma ticks_frame now s s' :
  CurrentRound s' = CurrentRound s -> Settings s' = Settings s -> ticks now s' = ticks now s.
Proof using Type. intros Hr Hs. unfold ticks, round_of. by rewrite Hr, Hs. Qed.

Lemma block_ticks now s :
  in_round now s -> now + 1 < 2 ^ 32 -> 0 <= round_of s < 2 ^ 32 - 1 ->
  let s' := on_finalize (P := P) (B := B) (now + 1) s in
  in_round (now + 1) s' /\ ticks (now + 1) s' = ticks now s + 1 /\ Settings s' = Settings s.
Proof using RL.
  intros [Hl Hs Hn] Hb Hr s'.
  assert (RoundInfo.should_goto_next_round (CurrentRound s) (now + 1)
    = (blocks_per_round (Settings s) <=? now + 1 - RoundInfo.start_in (CurrentRound s))) as Hgo.
  { unfold RoundInfo.should_goto_next_round. rewrite Hl, sub_exact by lia. done. }
  destruct (Z.leb_spec (blocks_per_round (Settings s)) (now + 1 - RoundInfo.start_in (CurrentRound s))).
  - destruct (on_finalize_books (P := P) (B := B) (now + 1) s Hgo) as (Hc & Hst & _).
    fold s' in Hc, Hst. split_and!; [|unfold ticks, round_of in *|done].
    + split; rewrite ?Hc, ?Hst; simpl; lia.
    + rewrite Hc, Hst. simpl. unfold RoundInfo.next_round_index. rewrite add_exact by lia. lia.
  - assert (s' = s) as -> by (by apply on_finalize_idle).
    split_and!; [split; lia | unfold ticks; lia | done].
Qed.

Lemma reserve_settings who v s : Settings (currency_reserve who v s) = Settings s.
Proof using Type. unfold currency_reserve. by destruct (reserve who v (ledger s)). Qed.
Lemma dispatch_settings origin c s :
  (forall x, origin = Root -> c <> call_config x) -> Settings (dispatch origin c s).2 = Settings s.
Proof using Type.
  intros Hc. destruct (dispatch origin c s) as [r s'] eqn:H. simpl.
  destruct c; run_call H; simplify_eq; try done; try (by destruct (Hc settings eq_refl));
    unfold deposit_event, TotalStaked_put; simpl; rewrite ?reserve_settings; simpl;
    rewrite ?reserve_settings; try done. by apply (foldl_proj Settings).
Qed.

(** What is not a block leaves the clock alone. *)
Lemma event_clock who e s :
  quiet who e -> block_of e = None ->
  CurrentRound (apply_event (P := P) (B := B) e s) = CurrentRound s /\
  Settings (apply_event (P := P) (B := B) e s) = Settings s.
Proof using Type.
  intros Hq Hb. destruct e as [origin c| | |]; try done. simpl in *. split; [apply dispatch_round|].
  apply dispatch_settings. by intros x -> ->.
Qed.

Lemma run_ticks who evs now n s :
  Forall (quiet who) evs -> blocks_of evs = seqZ (now + 1) n -> 0 <= n -> in_round now s ->
  now + n < 2 ^ 32 -> 0 <= round_of s -> round_of s + n < 2 ^ 32 ->
  let s' := run_events (P := P) (B := B) evs s in
  in_round (now + n) s' /\ ticks (now + n) s' = ticks now s + n /\ Settings s' = Settings s.
Proof using RL.
  intros Hq. revert now n s. induction Hq as [|e evs He Hq IH]; intros now n s Hbs Hn Hi Hlt H0 Hr.
  - simpl in *. assert (n = 0) as ->; [|by rewrite !Z.add_0_r].
    destruct (decide (0 < n)); [|lia]. by rewrite seqZ_cons in Hbs.
  - unfold blocks_of in Hbs. simpl in Hbs. destruct (block_of e) as [b|] eqn:Hb; fold (blocks_of evs) in Hbs.
    + destruct e as [|b'| |]; simplify_eq/=. destruct (decide (0 < n)); [|rewrite seqZ_nil in Hbs by lia; done].
      rewrite seqZ_cons in Hbs by lia. simplify_eq.
      destruct (block_ticks now s Hi ltac:(lia) ltac:(lia)) as (Hi' & Ht & Hst).
      pose proof (apply_event_round (P := P) (B := B) (EBlock (now + 1)) s ltac:(lia)) as Hrd. simpl in Hrd.
      destruct (IH (now + 1) (n - 1) (on_finalize (P := P) (B := B) (now + 1) s)) as (A & A1 & A2);
        [by replace (n - 1) with (Z.pred n) by lia; replace (now + 1 + 1) with (Z.succ (now + 1)) by lia
        |lia|done|lia|lia|lia|].
      replace (now + 1 + (n - 1)) with (now + n) in A, A1 by lia.
      split_and!; [done|lia|by etrans].
    + destruct (event_clock who e s He Hb) as [E1 E2].
      destruct (IH now n (apply_event (P := P) (B := B) e s)) as (A & A1 & A2);
        [done|done|by apply (in_round_frame now s)|done|unfold round_of in *; by rewrite E1|unfold round_of in *; by rewrite E1|].
      split_and!; [done| |by etrans]. simpl. rewrite A1. by rewrite (ticks_frame now s).
Qed.

(** So [k] rounds start in [k] times their length of blocks. *)
Lemma run_rounds who evs now n k s :
  Forall (quiet who) evs -> blocks_of evs = seqZ (now + 1) n -> in_round now s ->
  now + n < 2 ^ 32 -> 0 <= round_of s -> round_of s + n < 2 ^ 32 -> 0 <= k ->
  k * blocks_per_round (Settings s) <= n ->
  round_of s + k <= round_of (run_events (P := P) (B := B) evs s).
Proof using RL.
  intros Hq Hbs Hi Hlt H0 Hr Hk Hkn.
  pose proof (ir_now _ _ Hi) as Hnow.
  destruct (run_ticks who evs now n s) as ([_ _ Hn'] & Ht & Hst); [done..|nia|done|done|done|done|].
  unfold ticks in Ht. rewrite Hst in *. set (r' := round_of _) in *. nia.
Qed.

(** ** The record of a leaver *)

(** [who] left in round [r0], to be paid [stake] in round [W]: the record is there
    while it is the round [who] left in or one before [W], and not after. *)
Definition leaving (who : AccountId) (stake : Balance) (W r0 : RoundIndex) s : Prop :=
  Collators s !! who = None /\
  if decide (round_of s < W \/ round_of s = r0)
  then exists e, ExitQueue s !! who = Some e /\ when e = W /\ remaining e = stake
  else ExitQueue s !! who = None.

Lemma leaving_frame who stake W r0 s s' :
  CurrentRound s' = CurrentRound s -> Collators s' !! who = Collators s !! who ->
  ExitQueue s' !! who = ExitQueue s !! who -> leaving who stake W r0 s -> leaving who stake W r0 s'.
Proof using Type. unfold leaving, round_of. by intros -> -> ->. Qed.

(** No call touches the entries of an account that is no collator, but its own
    [bond]. *)
Lemma dispatch_not_collator who origin c s :
  Collators s !! who = None -> quiet who (ECall origin c) ->
  let s' := (dispatch origin c s).2 in
  Collators s' !! who = None /\ ExitQueue s' !! who = ExitQueue s !! who.
Proof using Type.
  intros Hw Hq s'. unfold s'. destruct (dispatch origin c s) as [r s2] eqn:H. simpl.
  destruct c; run_call H; simplify_eq; try done;
    unfold deposit_event, TotalStaked_put, Collators_insert, Nominators_insert; simpl;
    rewrite ?reserve_collators, ?reserve_exits; simpl;
    repeat match goal with
           | E : Collators s !! ?x = Some _ |- _ =>
               lazymatch goal with
               | _ : x <> who |- _ => fail
               | _ => assert (x <> who) by congruence
               end
           end;
    rewrite ?lookup_insert_ne, ?lookup_delete_ne by done; try done.
  rewrite leave_collators, (foldl_proj ExitQueue) by done. done.
Qed.

Lemma event_leaving who stake W r0 e s :
  quiet who e -> 0 <= round_of s < 2 ^ 32 - 1 -> r0 <= round_of s ->
  leaving who stake W r0 s -> leaving who stake W r0 (apply_event (P := P) (B := B) e s).
Proof using RL.
  intros Hq Hr Hr0 Hl. destruct e as [origin c|now|author|l]; simpl; [|..|done|done].
  - destruct (dispatch_not_collator who origin c s (proj1 Hl) Hq) as [Hc Hx].
    apply (leaving_frame _ _ _ _ s); [apply dispatch_round|by rewrite Hc, (proj1 Hl)|done|done].
  - destruct (RoundInfo.should_goto_next_round (CurrentRound s) now) eqn:Hgo; [|by rewrite on_finalize_idle].
    destruct (on_finalize_books (P := P) (B := B) now s Hgo) as (E1 & _ & E3 & _ & E5 & _).
    destruct Hl as [Hc Hx]. unfold leaving, round_of in *. rewrite E1, E3, E5, Hc. simpl.
    unfold RoundInfo.next_round_index. rewrite add_exact by lia. split; [done|].
    destruct (decide (_ < W \/ _)) as [?|?] in Hx.
    + destruct Hx as (x & -> & <- & <-). simpl. unfold exit_after.
      repeat case_decide; try lia; [by eexists|done].
    + rewrite Hx. case_decide; [lia|done].
Qed.

Lemma run_leaving who stake W r0 evs s :
  Forall (quiet who) evs -> 0 <= r0 <= round_of s -> round_of s + Z.of_nat (length evs) < 2 ^ 32 ->
  leaving who stake W r0 s -> leaving who stake W r0 (run_events (P := P) (B := B) evs s).
Proof using RL.
  intros Hq. revert s. induction Hq as [|e evs He _ IH]; intros s Hr Hn Hl; [done|]. simpl in *.
  pose proof (apply_event_round (P := P) (B := B) e s ltac:(lia)).
  apply IH; [lia..|]. by apply event_leaving; [|lia..|].
Qed.

(** What a collator's leaving leaves. *)
Lemma unbond_leaving who s s' :
  dispatch (Signed who) call_collator_unbond s = (Ok tt, s') ->
  exists c, Collators s !! who = Some c /\
    leaving who (StakingCollators.active c) (round_of s +32 bond_duration (Settings s)) (round_of s) s' /\
    CurrentRound s' = CurrentRound s /\ Settings s' = Settings s.
Proof using Type.
  intros H. assert (CurrentRound s' = CurrentRound s) as Hr.
  { pose proof (dispatch_round (Signed who) call_collator_unbond s) as E. by rewrite H in E. }
  assert (Settings s' = Settings s) as Hst.
  { pose proof (dispatch_settings (Signed who) call_collator_unbond s ltac:(done)) as E. by rewrite H in E. }
  run_call H; simplify_eq. eexists. split_and!; [done| |done..].
  split; [apply lookup_delete_eq|]. rewrite decide_True; [|right; unfold round_of; by rewrite Hr].
  eexists. split_and!; [apply lookup_insert_eq|done..].
Qed.

Lemma unbond_succeeds who c s :
  Collators s !! who = Some c -> exists s', dispatch (Signed who) call_collator_unbond s = (Ok tt, s').
Proof using Type.
  intros Hc. destruct (dispatch (Signed who) call_collator_unbond s) as [r s'] eqn:H.
  run_call H; simplify_eq. eauto.
Qed.

Lemma blocks_length evs now n : blocks_of evs = seqZ now n -> n <= Z.of_nat (length evs).
Proof using Type.
  intros H. assert (length (blocks_of evs) <= length evs)%nat as Hle.
  { clear H. unfold blocks_of. induction evs as [|e evs IH]; simpl; [done|]. destruct (block_of e);
      [by apply le_n_S|by apply Nat.le_le_succ_r]. }
  rewrite H, length_seqZ in Hle. lia.
Qed.

End Exits.

(** ** Witness

    Account 1 of [mock_solvent_events] leaves in round 3, once its nominator has
    gone; it nominates another collator, and after twenty blocks only that is
    reserved. *)
Definition mock_before_exit : State Ledger :=
  run_events (P := Z) (B := Limbs) (firstn 8 mock_solvent_events) mock_genesis.
Definition mock_after_exit : list (PalletEvent (L := Ledger)) :=
  ECall (Signed 1%N) (call_nominate 100%N 100) :: (EBlock <$> seqZ 21 20).

Lemma mock_before_exit_backed : backed mock_before_exit.
Proof.
  apply run_backed; [vm_compute; discriminate | |vm_compute; repeat split; discriminate].
  apply (build_backed mock_stakers mock_ledger);
    [vm_compute; discriminate|apply mock_no_reserves|apply mock_stakers_solvent|apply mock_build].
Qed.

