(* ===== verification/StakingNominatorLedger.v ===== *)
(** * The staking pallet: a nominator's ledger adds up its calls

    What is held for a nominator in a round follows from its calls alone: what it
    put up, less what it took out and is due by then.  The pallet keeps a total and
    chunks instead, which it rewrites at every round; every run of it agrees with
    the sum of the calls, and in a run in which reserves are made so does the
    money that is reserved. *)
From S2P Require Import Prelude StakingTypes Externals TaylorSeries Inflation StakingPallet.
From S2P Require Import StakingRounds StakingMock StakingCalls StakingInvariant StakingMaintenance.
From S2P Require Import StakingSchedule StakingNominations StakingReserves.

Section NominatorLedger.
Context {L : Type} `{!Currency L, !ReservableCurrency L, Cfg : !Config}.
Context `{!CurrencyLaws L, RL : !ReservableLaws L, Iter : !StorageIter}.
Context {P B : Type} `{!PerThing P, !BigUint B}.
Implicit Types s : State L.

(** ** The specification *)

(** What a call adds to what is held for [who] in round [r]: stakes count at
    once, what is taken out counts until it is due, and leaving a collator takes
    out the last bond to it.  A [nominate] that fails half-way counts too. *)
Definition call_held (who : AccountId) (origin : Origin) (c : StakingCall) s (r : RoundIndex) : Z :=
  let withdraw := RoundInfo.index (CurrentRound s) +32 bond_duration (Settings s) in
  match origin with
  | Signed w =>
      if decide (w = who) then
        match (dispatch origin c s).1, c with
        | (Ok _ | Err (ModuleErr NominationNotExist)), call_nominate _ v => v
        | Ok _, call_nominate_extra _ v => v
        | Ok _, call_nominate_less _ v => - from_round withdraw v r
        | Ok _, call_nominator_leave_collator candidate =>
            - from_round withdraw (default 0 (last (given s who candidate))) r
        | _, _ => 0
        end
      else 0
  | _ => 0
  end.

(** The sum over a run. *)
Fixpoint run_held (who : AccountId) (evs : list (PalletEvent (L := L))) s (r : RoundIndex) : Z :=
  match evs with
  | [] => 0
  | e :: evs =>
      match e with ECall origin c => call_held who origin c s r | _ => 0 end
      + run_held who evs (apply_event (P := P) (B := B) e s) r
  end.

(** What the pallet holds for [who] in round [r] if nothing else happens. *)
Definition held_by s (who : AccountId) (r : RoundIndex) : Z :=
  from_option (fun n => nominator_locked_at n r) 0 (Nominators s !! who).

(** ** One event *)

Lemma held_frame s s' who r : Nominators s' !! who = Nominators s !! who -> held_by s' who r = held_by s who r.
Proof using Type. unfold held_by. by intros ->. Qed.

Lemma locked_add n b n' r :
  StakingNominators.add_nomination n b = (true, n') ->
  U.eqm 128 (nominator_locked_at n' r) (nominator_locked_at n r + Bond.amount b).
Proof using Type.
  unfold StakingNominators.add_nomination. intros H. case_match; simplify_eq.
  unfold nominator_locked_at. simpl. rewrite eqm_u_add. apply eqm_eq. lia.
Qed.
Lemma locked_extra n b x n' r :
  StakingNominators.nominate_extra n b = (Some x, n') ->
  U.eqm 128 (nominator_locked_at n' r) (nominator_locked_at n r + Bond.amount b).
Proof using Type.
  unfold StakingNominators.nominate_extra. intros H. destruct (bonds_extra _ _) as [[]|]; simplify_eq.
  unfold nominator_locked_at. simpl. rewrite eqm_u_add. apply eqm_eq. lia.
Qed.
Lemma locked_less n b w x n' r :
  StakingNominators.nominate_less n b w = (Some (Some x), n') ->
  nominator_locked_at n' r = nominator_locked_at n r - from_round w (Bond.amount b) r.
Proof using Type.
  unfold StakingNominators.nominate_less. intros H. destruct (bonds_less _ _) as [[[]|]|]; simplify_eq.
  unfold nominator_locked_at. simpl. rewrite due_unbonding_snoc. lia.
Qed.
Lemma locked_leave n c w x n' r :
  StakingNominators.rm_nomination n c w = (Some x, n') ->
  nominator_locked_at n' r
  = nominator_locked_at n r - from_round w (default 0 (last (amounts c (StakingNominators.nominations n)))) r.
Proof using Type.
  unfold StakingNominators.rm_nomination. intros H.
  pose proof (bonds_remove_last None (StakingNominators.nominations n) c) as Hl.
  destruct (bonds_remove _ _ _) as [[v|] l]; simplify_eq. simpl in Hl.
  destruct (last _); simplify_eq. unfold nominator_locked_at. simpl. rewrite due_unbonding_snoc. lia.
Qed.
Lemma locked_consolidated n r r' :
  r <= r' -> U.eqm 128 (nominator_locked_at (StakingNominators.consolidate_unbonded n r) r')
               (nominator_locked_at n r').
Proof using Type.
  intros Hr. unfold StakingNominators.consolidate_unbonded, nominator_locked_at.
  pose proof (drain_unbonding_sum r (StakingNominators.total n) (StakingNominators.unbonding n)) as Hs.
  pose proof (drain_unbonding_kept r (StakingNominators.total n) (StakingNominators.unbonding n)) as Hk.
  destruct (drain_unbonding r _ _) as [t k]. simpl in *. rewrite Hs, Hk.
  rewrite (due_unbonding_later r r' (StakingNominators.unbonding n)) by done.
  apply eqm_eq. unfold due_unbonding. lia.
Qed.

Lemma held_insert s s' w n' who r d :
  Nominators s' = <[w := n']> (Nominators s) ->
  (w = who -> U.eqm 128 (nominator_locked_at n' r) (held_by s w r + d)) ->
  U.eqm 128 (held_by s' who r) (held_by s who r + if decide (w = who) then d else 0).
Proof using Type.
  intros E Hn. unfold held_by at 1. rewrite E. case_decide as Hw.
  - subst. rewrite lookup_insert_eq. by apply Hn.
  - rewrite lookup_insert_ne by done. apply eqm_eq. unfold held_by. lia.
Qed.
Lemma held_kept s s' who r : Nominators s' = Nominators s -> U.eqm 128 (held_by s' who r) (held_by s who r + 0).
Proof using Type. intros E. apply eqm_eq. rewrite (held_frame s s') by by rewrite E. lia. Qed.

Ltac peel_nominators :=
  unfold deposit_event, Nominators_insert, Collators_insert, ExitQueue_insert, Collators_remove,
    TotalStaked_put; simpl;
  repeat first [ rewrite (proj2 (reserve_books _ _ _)) | rewrite (proj2 (leave_books _ _)) | progress simpl ];
  reflexivity.
Ltac nominator_write :=
  eapply held_insert; [peel_nominators|intros ->]; unfold held_by, given, nominated_by;
  repeat match goal with E : Nominators _ !! _ = _ |- _ => rewrite E end; simpl.

Lemma call_adds who origin c s r :
  U.eqm 128 (held_by (dispatch origin c s).2 who r) (held_by s who r + call_held who origin c s r).
Proof using Type.
  destruct (dispatch origin c s) as [res s'] eqn:H. unfold call_held. rewrite H. simpl.
  destruct c; run_call H; simplify_eq;
    try (repeat match goal with |- context [decide ?Q] => destruct (decide Q) end;
         apply held_kept; peel_nominators).
  - nominator_write. by apply (locked_add _ _ _ _ Heqp).
  - nominator_write. by apply (locked_add _ _ _ _ Heqp).
  - nominator_write. apply eqm_eq. unfold nominator_locked_at. simpl. unfold unbonding_sum. simpl. lia.
  - nominator_write. apply eqm_eq. unfold nominator_locked_at. simpl. unfold unbonding_sum. simpl. lia.
  - nominator_write. by apply (locked_extra _ _ _ _ _ Heqp).
  - nominator_write. by apply eqm_eq, (locked_less _ _ _ _ _ _ Heqp).
  - nominator_write. by apply eqm_eq, (locked_leave _ _ _ _ _ _ Heqp).
Qed.

(** The start of a round changes nothing for that round and later ones. *)
Lemma block_keeps_held who now s r :
  let s' := on_finalize (P := P) (B := B) now s in
  round_of s' <= r -> U.eqm 128 (held_by s' who r) (held_by s who r).
Proof using Type.
  intros s' Hr. unfold s' in *. destruct (RoundInfo.should_goto_next_round (CurrentRound s) now) eqn:Hgo;
    [|by rewrite on_finalize_idle].
  destruct (on_finalize_books (P := P) (B := B) now s Hgo) as (E1 & _ & _ & E4 & _).
  unfold held_by, round_of in *. rewrite E4, E1 in *. simpl in Hr.
  destruct (Nominators s !! who) as [n|]; simpl; [|done]. by apply locked_consolidated.
Qed.

Lemma event_adds who e s r :
  round_of (apply_event (P := P) (B := B) e s) <= r ->
  U.eqm 128 (held_by (apply_event (P := P) (B := B) e s) who r)
    (held_by s who r + match e with ECall origin c => call_held who origin c s r | _ => 0 end).
Proof using Type.
  intros Hr. destruct e as [origin c|now|author|l]; simpl.
  - apply call_adds.
  - rewrite Z.add_0_r. by apply block_keeps_held.
  - by rewrite Z.add_0_r.
  - by rewrite Z.add_0_r.
Qed.

(** Rounds do not go back. *)
Lemma run_round evs s :
  0 <= round_of s -> round_of s + Z.of_nat (length evs) < 2 ^ 32 ->
  round_of s <= round_of (run_events (P := P) (B := B) evs s)
    <= round_of s + Z.of_nat (length evs).
Proof using Type.
  revert s. induction evs as [|e evs IH]; intros s H0 Hn; simpl in *; [lia|].
  pose proof (apply_event_round (P := P) (B := B) e s ltac:(lia)).
  destruct (IH (apply_event (P := P) (B := B) e s)) as [H1 H2]; lia.
Qed.

Lemma run_adds who evs s r :
  0 <= round_of s -> round_of s + Z.of_nat (length evs) < 2 ^ 32 ->
  round_of (run_events (P := P) (B := B) evs s) <= r ->
  U.eqm 128 (held_by (run_events (P := P) (B := B) evs s) who r)
    (held_by s who r + run_held who evs s r).
Proof using Type.
  revert s. induction evs as [|e evs IH]; intros s H0 Hn Hr; simpl in *; [by rewrite Z.add_0_r|].
  pose proof (apply_event_round (P := P) (B := B) e s ltac:(lia)) as Hr1.
  set (s1 := apply_event (P := P) (B := B) e s) in *.
  pose proof (run_round evs s1 ltac:(lia) ltac:(lia)) as Hr2.
  unfold run_events in *. rewrite (IH s1) by lia.
  pose proof (event_adds who e s r ltac:(fold s1; lia)) as He. fold s1 in He. rewrite He.
  apply eqm_eq. lia.
Qed.

(** [C6] A nominator's ledger is the sum of its calls: over any run of the pallet,
    from the current round on, what it holds for an account in a round is what it
    held for it before, plus what the account's calls put up, less what they took
    out that is due by then, modulo [2^128].  The calls that count are the
    successful ones and a [nominate] that fails half-way, with
    [NominationNotExist], after the nominator was written.  The totals and chunks that every
    round rewrites never lose or invent a unit of it. *)
Theorem nominator_refinement who evs s r :
  0 <= round_of s -> round_of s + Z.of_nat (length evs) < 2 ^ 32 ->
  round_of (run_events (P := P) (B := B) evs s) <= r ->
  U.eqm 128 (held_by (run_events (P := P) (B := B) evs s) who r)
    (held_by s who r + run_held who evs s r).
Proof using Type. apply run_adds. Qed.

(** After the block that starts a round, a nominator's total is what is held for
    it in that round. *)
Lemma started_total now s who :
  RoundInfo.should_goto_next_round (CurrentRound s) now = true ->
  let s' := on_finalize (P := P) (B := B) now s in
  of_nominator (Nominators s' !! who) = held_by s' who (round_of s').
Proof using Type.
  intros Hgo s'. destruct (on_finalize_books (P := P) (B := B) now s Hgo) as (E1 & _ & _ & E4 & _).
  fold s' in E1, E4. unfold held_by, round_of. rewrite E1, E4. simpl.
  set (r := RoundInfo.next_round_index (CurrentRound s)).
  destruct (Nominators s !! who) as [n|]; simpl; [|done].
  unfold nominator_locked_at, StakingNominators.consolidate_unbonded.
  pose proof (drain_unbonding_kept r (StakingNominators.total n) (StakingNominators.unbonding n)) as Hk.
  destruct (drain_unbonding r _ _) as [t k]. simpl in *. subst k.
  assert (due_unbonding r (filter (fun ch => r < ub_round ch) (StakingNominators.unbonding n)) = []) as ->.
  { unfold due_unbonding. apply filter_none, Forall_forall. intros ch [Hch _]%list_elem_of_filter. tauto. }
  unfold unbonding_sum. simpl. unfold Balance. lia.
Qed.

End NominatorLedger.

(** ** Witnesses

    Account 10 nominates in round 2, adds to the nomination and takes some out, and
    leaves the collator in round 3: 400 are held, 250 from round 4 on, and nothing
    in round 5. *)
Definition mock_nominator_events : list (PalletEvent (L := Ledger)) :=
  [EBlock 10; ECall (Signed 10%N) (call_nominate 100%N 300);
   ECall (Signed 10%N) (call_nominate_extra 100%N 100);
   ECall (Signed 10%N) (call_nominate_less 100%N 150); EBlock 20;
   ECall (Signed 10%N) (call_nominator_leave_collator 100%N); EBlock 30].

Example mock_held :
  run_held (P := Z) (B := Limbs) 10%N mock_nominator_events mock_genesis <$> [3; 4; 5]
  = [400; 250; 0].
Proof. vm_compute. reflexivity. Qed.

Lemma nominator_refinement_witness :
  let s' := run_events (P := Z) (B := Limbs) mock_nominator_events mock_genesis in
  round_of s' = 4 /\ held_by mock_genesis 10%N 4 = 0 /\
  U.eqm 128 (held_by s' 10%N 4)
    (held_by mock_genesis 10%N 4
     + run_held (P := Z) (B := Limbs) 10%N mock_nominator_events mock_genesis 4).
Proof.
  intros s'. split; [vm_compute; reflexivity|]. split; [vm_compute; reflexivity|].
  apply (nominator_refinement (P := Z) (B := Limbs)); vm_compute; first [reflexivity|discriminate].
Defined.

