(* ===== verification/StakingElection.v ===== *)
(** * The staking pallet: elections, snapshots and payouts

    The election data provider (who can be elected, who votes with what
    weight), what is recorded of an election's result, and the rewards a
    round's record is turned into. *)
From S2P Require Import Prelude StakingTypes Externals TaylorSeries Inflation StakingPallet.
From S2P Require Import StakingRounds StakingMock StakingCalls StakingInvariant.

Section Exposures.
Context {L : Type} `{!Currency L, !ReservableCurrency L, Cfg : !Config, Iter : !StorageIter}.
Implicit Types s : State L.

(** ** Exposures *)

(** One voter of a support. *)
Definition exposure_step (validator : AccountId) (issuance : Balance)
    (acc : Balance * list IndividualExposure * Balance) (v : AccountId * Z)
    : Balance * list IndividualExposure * Balance :=
  let '(own, others, total) := acc in
  let '(nominator, weight) := v in
  let stake := to_currency weight issuance in
  if N.eqb nominator validator
  then (U.sat_add 128 own stake, others, U.sat_add 128 total stake)
  else (own, others ++ [mkIndividualExposure nominator stake], U.sat_add 128 total stake).

Definition voter_stake (issuance : Balance) (v : AccountId * Z) : Z := to_currency v.2 issuance.

Lemma sat_add_min a b c : 0 <= c -> U.sat_add 128 (Z.min a (U.max 128)) c + 0 * b = Z.min (a + c) (U.max 128).
Proof. unfold U.sat_add. lia. Qed.

Lemma exposure_loop validator issuance l own others total :
  (forall w, U.ok 128 (to_currency w issuance)) ->
  foldl (exposure_step validator issuance)
    (Z.min own (U.max 128), others, Z.min total (U.max 128)) l
  = (Z.min (own + sumZ (voter_stake issuance) (filter (fun v => v.1 = validator) l)) (U.max 128),
     others ++ ((fun v => mkIndividualExposure v.1 (voter_stake issuance v))
                  <$> filter (fun v => v.1 <> validator) l),
     Z.min (total + sumZ (voter_stake issuance) l) (U.max 128)).
Proof.
  intros Hok. revert own others total. induction l as [|[n w] l IH]; intros own others total; simpl.
  - by rewrite !Z.add_0_r, app_nil_r.
  - rewrite !filter_cons. simpl. unfold voter_stake at 1 3. simpl.
    pose proof (sat_add_min total 0 (to_currency w issuance) (proj1 (Hok w))) as Ht.
    pose proof (sat_add_min own 0 (to_currency w issuance) (proj1 (Hok w))) as Ho.
    rewrite Z.mul_0_l, Z.add_0_r in Ht, Ho. rewrite Ht.
    destruct (N.eqb_spec n validator).
    + rewrite Ho, IH. rewrite decide_True, decide_False by tauto. simpl.
      unfold voter_stake at 2. simpl. by rewrite !Z.add_assoc.
    + rewrite IH. rewrite decide_False, decide_True by done. simpl.
      by rewrite <- app_assoc, !Z.add_assoc.
Qed.

Lemma sumZ_partition validator issuance (l : list (AccountId * Z)) :
  sumZ (voter_stake issuance) l
  = sumZ (voter_stake issuance) (filter (fun v => v.1 = validator) l)
    + sumZ ie_value ((fun v => mkIndividualExposure v.1 (voter_stake issuance v))
                       <$> filter (fun v => v.1 <> validator) l).
Proof.
  induction l as [|[n w] l IH]; [done|]. rewrite !filter_cons. cbn [fst].
  destruct (decide (n = validator)).
  - rewrite (decide_False (P := n <> validator)) by tauto.
    rewrite !sumZ_cons, IH. lia.
  - rewrite (decide_True (P := n <> validator)) by done.
    rewrite fmap_cons, !sumZ_cons, IH. cbn [ie_value]. lia.
Qed.

(** The exposure of an elected collator: every other voter is listed in
    order with its stake, what the collator voted for itself is [own], and
    [total] is the whole support, each saturating at the largest balance; short
    of saturation [total] is [own] plus the listed stakes. *)
Theorem collect_exposure_spec issuance validator support :
  (forall w, U.ok 128 (to_currency w issuance)) ->
  let voters := support_voters support in
  let '(who, e) := collect_exposure issuance (validator, support) in
  who = validator /\
  Exposure.others e
    = ((fun v => mkIndividualExposure v.1 (voter_stake issuance v))
         <$> filter (fun v => v.1 <> validator) voters) /\
  Exposure.own e
    = Z.min (sumZ (voter_stake issuance) (filter (fun v => v.1 = validator) voters)) (U.max 128) /\
  Exposure.total e = Z.min (sumZ (voter_stake issuance) voters) (U.max 128) /\
  (sumZ (voter_stake issuance) voters <= U.max 128 ->
     Exposure.total e = Exposure.own e + sumZ ie_value (Exposure.others e)).
Proof.
  intros Hok voters. unfold collect_exposure. fold voters.
  change (fun acc v => _) with (exposure_step validator issuance).
  change (0, [], 0) with (Z.min 0 (U.max 128), @nil IndividualExposure, Z.min 0 (U.max 128)).
  rewrite exposure_loop by done. simpl. split_and!; try done.
  intros Hle.
  rewrite (sumZ_partition validator) in Hle |- *.
  assert (0 <= sumZ ie_value ((fun v => mkIndividualExposure v.1 (voter_stake issuance v))
             <$> filter (fun v => v.1 <> validator) voters)) as Hn; [|lia].
  apply sumZ_nonneg, Forall_fmap, Forall_forall. intros v _. apply Hok.
Qed.
(** ** Recording an election *)

(** The exposure recorded for [who] in round [r]. *)
Definition clipped s (r : RoundIndex) (who : AccountId) : option Exposure :=
  RoundStakerClipped s !! r ≫= (fun m => m !! who).

Lemma clip_lookup r r' e s who :
  clipped (clip r e s) r' who
  = if decide (r' = r /\ who = e.1) then Some e.2 else clipped s r' who.
Proof.
  unfold clipped, clip. simpl. destruct (decide (r' = r)) as [->|Hr].
  - rewrite lookup_insert_eq. simpl. destruct (decide (who = e.1)) as [->|Hw].
    + rewrite lookup_insert_eq. by rewrite decide_True.
    + rewrite lookup_insert_ne by done. rewrite decide_False by tauto.
      by destruct (RoundStakerClipped s !! r).
  - rewrite lookup_insert_ne by done. by rewrite decide_False by tauto.
Qed.

Lemma clip_events r l s :
  events (foldl (fun s e => clip r e s) s l)
  = events s ++ ((fun e => CollatorChoosen r e.1 (Exposure.total e.2)) <$> l).
Proof.
  revert s. induction l as [|e l IH]; intros s; simpl; [by rewrite app_nil_r|].
  rewrite IH. simpl. by rewrite <- app_assoc.
Qed.

(** [C27] Processing an election with distinct winners returns them in order,
    records exactly their exposures for the round (what was recorded for other
    rounds or accounts stays), announces each, and touches nothing else. *)
Theorem process_election_spec supports r s :
  NoDup supports.*1 ->
  let exposures := collect_exposures supports s in
  let '(elected, s') := process_election supports r s in
  elected = supports.*1 /\
  (forall who e, (who, e) ∈ exposures -> clipped s' r who = Some e) /\
  (forall r' who, r' <> r \/ ~ who ∈ elected -> clipped s' r' who = clipped s r' who) /\
  events s' = events s ++ ((fun e => CollatorChoosen r e.1 (Exposure.total e.2)) <$> exposures) /\
  Collators s' = Collators s /\ Nominators s' = Nominators s /\ ledger s' = ledger s.
Proof.
  intros Hnd exposures. unfold process_election. fold exposures.
  assert (exposures.*1 = supports.*1) as Hex.
  { unfold exposures, collect_exposures. rewrite <- list_fmap_compose. apply list_fmap_ext.
    intros i [v sup] _. unfold compose, collect_exposure. by destruct (foldl _ _ _) as [[]]. }
  rewrite Hex. rewrite <- Hex in Hnd.
  assert (forall r' who, clipped (foldl (fun s e => clip r e s) s exposures) r' who
    = match (list_to_map exposures : gmap AccountId Exposure) !! who with
      | Some e => if decide (r' = r) then Some e else clipped s r' who
      | None => clipped s r' who
      end) as Hl.
  { intros r' who. apply (foldl_keyed (fun k s => clipped s r' k)
      (fun _ e x => if decide (r' = r) then Some e else x)); [done| |].
    - intros s' k e. rewrite clip_lookup. simpl. by repeat case_decide; try tauto.
    - intros s' k k' e Hk. rewrite clip_lookup. simpl. case_decide; [|done]. by destruct H. }
  split_and!; try done; [intros who e He | intros r' who Hr | apply clip_events | by apply foldl_proj ..].
  - rewrite Hl. apply (elem_of_list_to_map_1 _ _ _ Hnd) in He. rewrite He. by rewrite decide_True.
  - rewrite Hl. destruct (list_to_map exposures !! who) as [e|] eqn:He; [|done].
    apply elem_of_list_to_map_2 in He.
    assert (who ∈ supports.*1) as Hw by (rewrite <- Hex; apply list_elem_of_fmap; by exists (who, e)).
    rewrite decide_False; [done|]. tauto.
Qed.

(** ** The data provider *)

Lemma targets_all s : get_npos_targets s ≡ₚ (map_to_list (Collators s)).*1.
Proof. unfold get_npos_targets. by rewrite storage_iter_perm. Qed.

(** The target snapshot lists every collator exactly once, active or not; it
    is refused exactly when the limit is below the number of {e active} ones.
    When all collators are active, as after the maintenance of a round, it
    respects the limit. *)
Theorem targets_spec max_len s :
  match targets max_len s with
  | inl _ => exists n, max_len = Some n /\ n < active_count s
  | inr (ts, w) =>
      NoDup ts /\ (forall who, who ∈ ts <-> is_Some (Collators s !! who)) /\
      w = db_reads (active_count s) /\
      (forall n, max_len = Some n ->
         map_Forall (fun _ c => StakingCollators.status c = Active) (Collators s) ->
         Z.of_nat (length ts) <= n)
  end.
Proof.
  unfold targets, too_big. destruct max_len as [n|]; [destruct (Z.ltb_spec n (active_count s))|];
    [by exists n|..]; (split_and!; [| |done|]).
  1, 4: rewrite targets_all; apply NoDup_fst_map_to_list.
  1, 3: intros who; unfold get_npos_targets; rewrite list_elem_of_fmap; split;
    [intros [[k c] [-> Hk%elem_of_storage_iter]]; by eexists |
     intros [c Hc]; exists (who, c); by rewrite elem_of_storage_iter].
  - intros n' [= <-] Hact. unfold active_count in *. rewrite filter_all in *.
    + unfold get_npos_targets. by rewrite length_fmap.
    + apply Forall_forall. intros [k c] Hk%elem_of_storage_iter. simpl.
      apply active_is_active. exact (Hact k c Hk).
  - done.
Qed.

(** The vote of a collator and of a nominator. *)
Definition collator_vote s (who : AccountId) (c : StakingCollators) : Voter :=
  (who, to_vote (if decide (StakingCollators.status c = Active)
                 then StakingCollators.active c else 0) (total_issuance (ledger s)), [who]).
Definition nominator_vote s (who : AccountId) (n : StakingNominators) : Voter :=
  (who, to_vote (StakingNominators.total n) (total_issuance (ledger s)),
   Bond.owner <$> StakingNominators.nominations n).

(** The voter snapshot holds one self vote per collator, weighing its active
    stake (nothing while it is not active), and one vote per nominator,
    weighing its whole total, unbonding included, for the candidates of its
    bonds; and nothing else. *)
Theorem get_npos_voters_spec s v :
  v ∈ get_npos_voters s <->
  (exists who c, Collators s !! who = Some c /\ v = collator_vote s who c) \/
  (exists who n, Nominators s !! who = Some n /\ v = nominator_vote s who n).
Proof.
  assert (forall who c, Collators s !! who = Some c ->
    (who, slashable_balance_of_fn Validator s who, [who]) = collator_vote s who c) as Hc.
  { intros who c H. unfold collator_vote, slashable_balance_of_fn, slashable_balance_of_vote_weight,
      slashable_balance_of. rewrite H. unfold StakingCollators.is_active. by case_decide; case_bool_decide. }
  assert (forall who n, Nominators s !! who = Some n ->
    (who, slashable_balance_of_fn Nominator s who, Bond.owner <$> StakingNominators.nominations n)
    = nominator_vote s who n) as Hn.
  { intros who n H. unfold nominator_vote, slashable_balance_of_fn, slashable_balance_of_vote_weight,
      slashable_balance_of. by rewrite H. }
  unfold get_npos_voters. rewrite elem_of_app, !list_elem_of_fmap. split.
  - intros [([k c] & -> & Hk%elem_of_storage_iter)|([k n] & -> & Hk%elem_of_storage_iter)];
      [left; exists k, c | right; exists k, n]; simpl; auto.
  - intros [(k & c & Hk & ->)|(k & n & Hk & ->)]; [left; exists (k, c) | right; exists (k, n)];
      rewrite elem_of_storage_iter; simpl; split; auto; symmetry; auto.
Qed.

(** ** Payouts *)
Context {P B : Type} `{PT : !PerThing P, !BigUint B}.

Lemma state_clipped_put s : RoundStakerClipped_put (RoundStakerClipped s) s = s.
Proof. by destruct s. Qed.

Lemma payout_early r s : ~ PayoutDuration < r -> payout_stakers (P := P) (B := B) r s = s.
Proof. intros Hr. unfold payout_stakers. by rewrite (proj2 (Z.ltb_ge _ _)) by lia. Qed.

Lemma payout_clipped r s :
  PayoutDuration < r ->
  RoundStakerClipped (payout_stakers (P := P) (B := B) r s) !! (r -32 PayoutDuration) = None.
Proof.
  intros Hr. unfold payout_stakers. rewrite (proj2 (Z.ltb_lt _ _)) by done.
  assert (forall v to s', RoundStakerClipped (mint v to s') = RoundStakerClipped s') as Hm.
  { intros v to s'. unfold mint. case_match; [|done]. by destruct (deposit_into_existing _ _ _) as [[]|]. }
  rewrite (foldl_proj RoundStakerClipped); [apply lookup_delete_eq|].
  intros s' [acc e]. unfold pay_collator. rewrite foldl_proj; [apply Hm|]. intros. apply Hm.
Qed.

(** A round is paid out once: the payout consumes the record of the round,
    and paying the same round again changes nothing. *)
Theorem payout_stakers_idempotent r s :
  payout_stakers (P := P) (B := B) r (payout_stakers (P := P) (B := B) r s)
  = payout_stakers (P := P) (B := B) r s.
Proof.
  destruct (decide (PayoutDuration < r)) as [Hr|Hr].
  - pose proof (payout_clipped r s Hr) as Hn. set (s' := payout_stakers r s) in *.
    unfold payout_stakers. rewrite (proj2 (Z.ltb_lt _ _)) by done.
    rewrite Hn. simpl. rewrite delete_id by done.
    assert (storage_iter (∅ : gmap AccountId Exposure) = []) as ->.
    { apply Permutation_nil. rewrite storage_iter_perm. by rewrite map_to_list_empty. }
    apply state_clipped_put.
  - by rewrite !payout_early.
Qed.

Context `{PTL : !PerThingLaws P}.

Lemma half_part (p : P) n :
  0 <= n -> 2 * deconstruct p <= ACCURACY -> 0 <= pt_mul_balance p n /\ 2 * pt_mul_balance p n <= n + 1.
Proof using PTL.
  intros Hn Hp. pose proof (pt_mul_balance_nearest p n Hn). pose proof accuracy_range.
  pose proof (deconstruct_range p). split; nia.
Qed.

(** A collator's reward is at most the payout of the round (give or take the
    rounding of its two halves), whatever stake and points were recorded. *)
Theorem collator_reward_bound payout total_stake total_points own point :
  0 <= payout < 2 ^ 128 - 1 ->
  0 <= collator_reward (P := P) payout total_stake total_points own point <= payout + 1.
Proof using PTL.
  intros Hp. unfold collator_reward. pose proof accuracy_range.
  assert (2 * deconstruct (from_rational (P := P) 50 100) <= ACCURACY) as Hh.
  { rewrite from_rational_deconstruct by lia.
    pose proof (Z.div_mod (50 * ACCURACY) 100). pose proof (Z.mod_pos_bound (50 * ACCURACY) 100). lia. }
  destruct (half_part (pt_mul (from_rational 50 100) (from_rational own total_stake)) payout)
    as [H1 H2]; [lia | pose proof (pt_mul_le_l (from_rational (P := P) 50 100) (from_rational own total_stake)); lia|].
  destruct (half_part (pt_mul (from_rational 50 100) (from_rational point total_points)) payout)
    as [H3 H4]; [lia | pose proof (pt_mul_le_l (from_rational (P := P) 50 100) (from_rational point total_points)); lia|].
  rewrite add_exact by lia. lia.
Qed.
End Exposures.

(** ** Witnesses *)

Lemma collect_exposure_spec_witness :
  let voters := [(300%N, 600); (10%N, 250); (300%N, 40)] in
  let '(who, e) := collect_exposure 1000 (300%N, mkSupport 890 voters) in
  who = 300%N /\
  Exposure.others e = ((fun v => mkIndividualExposure v.1 (voter_stake 1000 v))
                         <$> filter (fun v => v.1 <> 300%N) voters) /\
  Exposure.own e
    = Z.min (sumZ (voter_stake 1000) (filter (fun v => v.1 = 300%N) voters)) (U.max 128) /\
  Exposure.total e = Z.min (sumZ (voter_stake 1000) voters) (U.max 128) /\
  (sumZ (voter_stake 1000) voters <= U.max 128 ->
     Exposure.total e = Exposure.own e + sumZ ie_value (Exposure.others e)).
Proof.
  intros voters. apply (collect_exposure_spec 1000 300%N (mkSupport 890 voters)).
  intros w. simpl. unfold U.ok, U.max. lia.
Defined.

Lemma process_election_spec_witness :
  let supports := [(100%N, mkSupport 500 [(100%N, 500)]); (300%N, mkSupport 600 [(300%N, 600)])] in
  let '(elected, s') := process_election supports 2 mock_genesis in
  elected = [100%N; 300%N] /\
  (forall who e, (who, e) ∈ collect_exposures supports mock_genesis -> clipped s' 2 who = Some e) /\
  (forall r' who, r' <> 2 \/ ~ who ∈ elected -> clipped s' r' who = clipped mock_genesis r' who) /\
  events s' = events mock_genesis ++
    ((fun e => CollatorChoosen 2 e.1 (Exposure.total e.2)) <$> collect_exposures supports mock_genesis) /\
  Collators s' = Collators mock_genesis /\ Nominators s' = Nominators mock_genesis /\
  ledger s' = ledger mock_genesis.
Proof.
  intros supports. apply (process_election_spec supports 2 mock_genesis).
  apply (bool_decide_unpack (NoDup supports.*1)). vm_compute. exact I.
Defined.

Lemma collator_reward_bound_witness :
  0 <= collator_reward (P := Z) 10 2000 10000 600 5000 <= 10 + 1.
Proof. apply collator_reward_bound. lia. Defined.
