(* ===== verification/StakingRewards.v ===== *)
(** * The staking pallet: from an election to the rewards

    What an election records is paid out [PayoutDuration] rounds later.  In
    between the chain goes on: calls, authored blocks, moves of money, the
    starts of other rounds.  The record of the round survives all of it, and
    when the payout is due every account that still holds money is credited
    exactly what the record owes it. *)
From S2P Require Import Prelude StakingTypes Externals TaylorSeries Inflation StakingPallet.
From S2P Require Import StakingRounds StakingMock StakingCalls StakingInvariant StakingMaintenance.
From S2P Require Import StakingMoney StakingElection StakingTyped StakingSchedule StakingPayout.

Section Rewards.
Context {L : Type} `{!Currency L, !ReservableCurrency L, Cfg : !Config, Iter : !StorageIter}.
Context `{CL : !CurrencyLaws L, RL : !ReservableLaws L}.
Context {P B : Type} `{!PerThing P, !BigUint B, PTL : !PerThingLaws P}.
Implicit Types s : State L.

(** ** The payout as a list of rewards *)

Definition entry_rewards (payout total_stake : Balance) (total_points : RewardPoint)
    (point : AccountId -> RewardPoint) (e : AccountId * Exposure) : list (AccountId * Balance) :=
  (e.1, collator_reward (P := P) payout total_stake total_points (Exposure.own e.2) (point e.1))
  :: ((fun n => (ie_who n, nominator_reward (P := P) payout total_stake (ie_value n)))
        <$> Exposure.others e.2).

(** The rewards of round [r] for the entries [l], from the stake and issuance
    recorded in [s] and the points recorded in [s']. *)
Definition rewards_for (r : RoundIndex) s s' (l : list (AccountId * Exposure))
    : list (AccountId * Balance) :=
  let total_stake := map_get (TotalStakedAt s) r in
  let payout := compute_total_payout (P := P) (B := B) total_stake (map_get (TotalIssuanceAt s) r)
                  25 20 50 5 (BlocksPerRound *32 6000) in
  l ≫= entry_rewards payout total_stake (map_get (TotalPoints s') r)
         (fun who => map_get (CollatorPoints s') (r, who)).

(** The entries elected for round [r]. *)
Definition entries r s : list (AccountId * Exposure) :=
  storage_iter (default ∅ (RoundStakerClipped s !! r)).

Definition pay (l : list (AccountId * Balance)) s : State L :=
  foldl (fun s d => mint d.2 d.1 s) s l.

Lemma pay_app l k s : pay (l ++ k) s = pay k (pay l s).
Proof using Type. apply foldl_app. Qed.

Lemma pay_collator_pays r payout T TP e s :
  pay_collator (P := P) r payout T TP e s
  = pay (entry_rewards payout T TP (fun who => map_get (CollatorPoints s) (r, who)) e) s.
Proof using Type.
  destruct e as [acc e]. unfold pay_collator, entry_rewards, pay. simpl.
  set (s1 := mint _ _ s). clearbody s1. revert s1.
  induction (Exposure.others e) as [|n l IH]; intros s1; simpl; [done | apply IH].
Qed.

(** [payout_stakers] pays the rewards of the round, in order. *)
Lemma payout_pays r s :
  PayoutDuration < r ->
  let paid_round := r -32 PayoutDuration in
  payout_stakers (P := P) (B := B) r s
  = pay (rewards_for paid_round s s (entries paid_round s))
      (RoundStakerClipped_put (delete paid_round (RoundStakerClipped s)) s).
Proof using Type.
  intros Hr pr. unfold payout_stakers. rewrite (proj2 (Z.ltb_lt _ _) Hr).
  unfold rewards_for. fold pr. fold (entries pr s).
  set (T := map_get (TotalStakedAt s) pr). set (payout := compute_total_payout _ _ _ _ _ _ _).
  set (TP := map_get (TotalPoints s) pr).
  change (CollatorPoints s) with
    (CollatorPoints (RoundStakerClipped_put (delete pr (RoundStakerClipped s)) s)).
  set (s0 := RoundStakerClipped_put _ s). clearbody s0 T TP payout. revert s0.
  induction (entries pr s) as [|e l IH]; intros s0; [done|].
  cbn [foldl]. rewrite bind_cons, pay_app, IH, pay_collator_pays.
  by rewrite <- pay_collator_pays, pay_collator_points.
Qed.

(** ** Paying a list of rewards *)

(** What the rewards credit to [a]: only those above the minimum balance are
    paid. *)
Definition credit (a : AccountId) (d : AccountId * Balance) : Z :=
  if decide (d.1 = a /\ minimum_balance < d.2) then d.2 else 0.
Definition credited (a : AccountId) (l : list (AccountId * Balance)) : Z := sumZ (credit a) l.

Lemma credited_elem a v l :
  Forall (fun d => 0 <= d.2) l -> (a, v) ∈ l -> minimum_balance < v -> v <= credited a l.
Proof using Type.
  intros Hl Hin Hm. assert (credit a (a, v) = v) as <-.
  { unfold credit. by rewrite decide_True. }
  apply (sumZ_elem (credit a)); [|done].
  eapply Forall_impl; [exact Hl|]. intros d Hd. unfold credit. by case_decide.
Qed.

(** The money an account must hold, and the room it must have, for its
    rewards. *)
Definition can_receive (l : L) (a : AccountId) (due : list (AccountId * Balance)) : Prop :=
  0 < balance_of l a /\ free_balance l a + sumZ snd due < 2 ^ 128.

Lemma credited_one a d :
  credited a [d] = if decide (d.1 = a /\ minimum_balance < d.2) then d.2 else 0.
Proof using Type. unfold credited. rewrite sumZ_cons. apply Z.add_0_r. Qed.

(** One reward: it is credited and announced if it is [a]'s and above the
    minimum, and nothing else changes for [a]. *)
Lemma mint_credits a d s :
  0 <= d.2 -> 0 < balance_of (ledger s) a -> free_balance (ledger s) a + d.2 < 2 ^ 128 ->
  let s' := mint d.2 d.1 s in
  balance_of (ledger s') a = balance_of (ledger s) a + credited a [d] /\
  free_balance (ledger s') a <= free_balance (ledger s) a + d.2 /\
  (exists new, events s' = events s ++ new /\
     (d.1 = a -> minimum_balance < d.2 -> Rewarded a d.2 ∈ new)).
Proof using CL RL.
  intros Hd Ha Hroom s'. subst s'. rewrite credited_one. unfold mint, Balance in *.
  destruct (Z.ltb_spec minimum_balance d.2) as [Hmin|Hmin].
  - destruct (deposit_into_existing d.1 d.2 (ledger s)) as [[imb l]|] eqn:Hdep.
    + pose proof (deposit_amount _ _ _ _ _ Hdep) as ->.
      destruct (deposit_pays _ _ _ _ _ a Hdep) as [Hr Hf]. unfold balance_of. simpl.
      rewrite Hr, Hf. destruct (decide (a = d.1)) as [->|Hne].
      * rewrite decide_True by done. split_and!; [lia | lia|]. eexists. split; [done|]. left.
      * rewrite decide_False by (intros [Heq _]; congruence). split_and!; [lia | lia|].
        eexists. split; [done|]. congruence.
    + assert (d.1 <> a) as Hne.
      { intros <-. by destruct (deposit_succeeds d.1 d.2 (ledger s) Hd Ha Hroom); simplify_eq. }
      rewrite decide_False by (intros [Heq _]; congruence). split_and!; [lia | lia|].
      exists []. split; [by rewrite app_nil_r | done].
  - rewrite decide_False by lia. split_and!; [lia | lia|].
    exists []. split; [by rewrite app_nil_r | lia].
Qed.

Lemma pay_credits a l s :
  Forall (fun d => 0 <= d.2) l -> can_receive (ledger s) a l ->
  balance_of (ledger (pay l s)) a = balance_of (ledger s) a + credited a l /\
  exists new, events (pay l s) = events s ++ new /\
    forall v, (a, v) ∈ l -> minimum_balance < v -> Rewarded a v ∈ new.
Proof using CL RL.
  intros Hl. revert s. induction Hl as [|d l Hd Hl IH]; intros s [Ha Hroom].
  - split; [unfold credited; simpl; lia|]. exists []. split; [by rewrite app_nil_r|].
    intros v Hv. by apply elem_of_nil in Hv.
  - rewrite sumZ_cons in Hroom. pose proof (sumZ_nonneg snd l Hl).
    destruct (mint_credits a d s Hd Ha ltac:(lia)) as (Hb & Hf & new & Hev & Hnew).
    assert (0 <= credited a [d]) as Hc by (rewrite credited_one; by case_decide).
    destruct (IH (mint d.2 d.1 s)) as (Hb' & new' & Hev' & Hnew'); [split; lia|].
    change (pay (d :: l) s) with (pay l (mint d.2 d.1 s)). split.
    + rewrite Hb', Hb. unfold credited. simpl. lia.
    + exists (new ++ new'). split; [by rewrite Hev', Hev, <- app_assoc|].
      intros v [<-|Hv]%elem_of_cons Hmin; apply elem_of_app; [left; by apply Hnew | right; auto].
Qed.

Lemma rewards_nonneg r s s' l :
  state_typed s -> Forall (fun d => 0 <= d.2) (rewards_for r s s' l).
Proof using PTL.
  intros Hs. unfold rewards_for. set (payout := compute_total_payout _ _ _ _ _ _ _).
  assert (0 <= payout) as Hp.
  { apply compute_total_payout_range. by apply (map_get_ok _ 128), st_issuance_at. }
  apply Forall_bind, Forall_true. intros e. constructor.
  - apply (add_ok 128). lia.
  - apply Forall_fmap, Forall_true. intros n. by apply mul_balance_nonneg.
Qed.

(** ** The record of a round *)

(** What is kept of a round for its payout. *)
Definition record_of (r : Z) s : option (gmap AccountId Exposure) * option Balance * option Balance :=
  (RoundStakerClipped s !! r, TotalStakedAt s !! r, TotalIssuanceAt s !! r).

(** The records of all rounds. *)
Definition records s := (RoundStakerClipped s, TotalStakedAt s, TotalIssuanceAt s).

Lemma record_of_records r s s' : records s' = records s -> record_of r s' = record_of r s.
Proof using Type. unfold records, record_of. by intros [= -> -> ->]. Qed.

Lemma record_of_rewards r s s' :
  record_of r s' = record_of r s ->
  rewards_for r s' s' (entries r s') = rewards_for r s s' (entries r s).
Proof using Type.
  intros [= Hc HT HI]. unfold rewards_for, entries.
  assert (map_get (TotalStakedAt s') r = map_get (TotalStakedAt s) r) as -> by exact (f_equal (default 0) HT).
  assert (map_get (TotalIssuanceAt s') r = map_get (TotalIssuanceAt s) r) as -> by exact (f_equal (default 0) HI).
  assert (RoundStakerClipped s' !! r = RoundStakerClipped s !! r) as -> by exact Hc. done.
Qed.

Lemma reserve_records who v s : records (currency_reserve who v s) = records s.
Proof using Type. unfold currency_reserve. by destruct (reserve who v (ledger s)). Qed.
Lemma leave_records (l : list Bond) s :
  records (foldl (fun s b => currency_unreserve (Bond.owner b) (Bond.amount b) s) s l) = records s.
Proof using Type. by apply foldl_proj. Qed.

(** No call writes a record. *)
Lemma dispatch_records origin c s : records (dispatch origin c s).2 = records s.
Proof using Type.
  destruct (dispatch origin c s) as [r s'] eqn:Hd. simpl.
  destruct c; run_call Hd; simplify_eq; try reflexivity;
    unfold deposit_event, TotalStaked_put; try apply leave_records;
    match goal with
    | |- context [currency_reserve ?who ?v ?x] => exact (reserve_records who v x)
    end.
Qed.

Lemma mint_records v to s : records (mint v to s) = records s.
Proof using Type. unfold mint. case_match; [|done]. by destruct (deposit_into_existing _ _ _) as [[]|]. Qed.
Lemma pay_records l s : records (pay l s) = records s.
Proof using Type. apply foldl_proj. intros. apply mint_records. Qed.

(** A payout consumes the record of its round and no other. *)
Lemma payout_record r n s :
  (PayoutDuration < n -> r <> n -32 PayoutDuration) ->
  record_of r (payout_stakers (P := P) (B := B) n s) = record_of r s.
Proof using Type.
  intros Hr. destruct (decide (PayoutDuration < n)) as [Hn|Hn]; [|by rewrite payout_early].
  rewrite payout_pays by done. rewrite (record_of_records r _ _ (pay_records _ _)).
  unfold record_of. simpl. rewrite lookup_delete_ne; [done|]. by apply not_eq_sym, Hr.
Qed.

(** An election writes the record of its own round. *)
Lemma enact_record r n s : r <> n -> record_of r (enact_election n s).2 = record_of r s.
Proof using Type.
  intros Hr. unfold enact_election. destruct (elect _) as [[res w]|]; [|done]. simpl.
  rewrite foldl_proj; [done|]. intros s' e. unfold clip, record_of. simpl.
  by rewrite lookup_insert_ne.
Qed.

(** The start of a round after the payout: the maintenance, the election, what
    is recorded and announced. *)
Definition after_payout (bpr : Z) (n : RoundIndex) s : State L :=
  let s := (enact_election n (execute_exit_queue n (update_nominators n (update_collators n s)))).2 in
  let s := TotalStakedAt_put (<[n := TotalStaked s]> (TotalStakedAt s)) s in
  let s := TotalIssuanceAt_put (<[n := total_issuance (ledger s)]> (TotalIssuanceAt s)) s in
  deposit_event (NewRoundStart n (n *32 bpr)) s.

Lemma on_finalize_split now s :
  RoundInfo.should_goto_next_round (CurrentRound s) now = true ->
  let n := RoundInfo.next_round_index (CurrentRound s) in
  let bpr := blocks_per_round (Settings s) in
  on_finalize (P := P) (B := B) now s
  = after_payout bpr n (payout_stakers (P := P) (B := B) n
      (CurrentRound_put (RoundInfo.mk n now bpr) s)).
Proof using Type. intros Hgo. unfold on_finalize. by rewrite Hgo. Qed.

Lemma after_payout_record r bpr n s :
  r <> n -> record_of r (after_payout bpr n s) = record_of r s.
Proof using Type.
  intros Hr. unfold after_payout.
  assert (forall e s', record_of r (deposit_event e s') = record_of r s') as -> by done.
  set (s1 := (enact_election n _).2).
  transitivity (record_of r s1); [unfold record_of; simpl; by rewrite !lookup_insert_ne|].
  unfold s1. rewrite enact_record by done.
  rewrite (execute_exit_queue_frame (record_of r)), (update_nominators_frame (record_of r)),
    (update_collators_frame (record_of r)) by done. done.
Qed.

(** A round that starts leaves every record alone but its own and the one it
    pays out. *)
Lemma on_finalize_record r now s :
  let n := RoundInfo.next_round_index (CurrentRound s) in
  r <> n -> (PayoutDuration < n -> r <> n -32 PayoutDuration) ->
  record_of r (on_finalize (P := P) (B := B) now s) = record_of r s.
Proof using Type.
  intros n Hn Hp. destruct (RoundInfo.should_goto_next_round (CurrentRound s) now) eqn:Hgo;
    [|by rewrite on_finalize_idle].
  rewrite on_finalize_split, after_payout_record, payout_record by done. done.
Qed.

(** ** A run until the payout is due *)

(** A step after which the payout of round [r] is still to come. *)
Definition pending_step (r : RoundIndex) s s' : Prop :=
  step (P := P) (B := B) s s' /\ round_of s' < r + PayoutDuration.

Lemma step_round_of s s' :
  step (P := P) (B := B) s s' -> 0 <= round_of s < 2 ^ 32 - 1 ->
  round_of s' = round_of s \/ round_of s' = round_of s + 1.
Proof using Type.
  intros Hstep Hr. assert (exists e, s' = apply_event (P := P) (B := B) e s) as [e ->].
  { destruct Hstep; [by exists (ECall origin c) | by exists (EBlock now) | by exists (EAuthor a)
      | by exists (ECurrency l)]. }
  pose proof (apply_event_round (P := P) (B := B) e s Hr). lia.
Qed.

(** The record of [r] survives every step in the rounds [r] to
    [r + PayoutDuration - 1]. *)
Lemma pending_step_record r s s' :
  0 <= r -> r + PayoutDuration < 2 ^ 32 -> r <= round_of s < r + PayoutDuration ->
  pending_step r s s' ->
  record_of r s' = record_of r s /\ r <= round_of s' < r + PayoutDuration.
Proof using Type.
  intros H0 Hb Hr [Hstep Hp]. pose proof (step_round_of s s' Hstep ltac:(lia)) as Hn.
  split; [|lia]. destruct Hstep; [| |done..].
  - apply record_of_records, dispatch_records.
  - destruct (RoundInfo.should_goto_next_round (CurrentRound s) now) eqn:Hgo;
      [|by rewrite on_finalize_idle].
    assert (RoundInfo.next_round_index (CurrentRound s) = round_of s + 1) as Hx.
    { unfold RoundInfo.next_round_index, round_of. apply add_exact. unfold round_of in Hr. lia. }
    destruct (on_finalize_books (P := P) (B := B) now s Hgo) as [Hc _].
    unfold round_of in Hp. rewrite Hc in Hp. simpl in Hp. rewrite Hx in Hp.
    apply on_finalize_record; rewrite Hx; [lia|]. intros HD.
    rewrite sub_exact by lia. lia.
Qed.

Lemma pending_run_record r s s' :
  0 <= r -> r + PayoutDuration < 2 ^ 32 -> r <= round_of s < r + PayoutDuration ->
  rtc (pending_step r) s s' -> record_of r s' = record_of r s.
Proof using Type.
  intros H0 Hb Hr Hrun. revert Hr. induction Hrun as [s|s s1 s2 H1 _ IH]; intros Hr; [done|].
  destruct (pending_step_record r s s1 H0 Hb Hr H1) as [<- Hr1]. by apply IH.
Qed.

(** ** The block that pays a round out *)

Lemma after_payout_money a bpr n s :
  balance_of (ledger (after_payout bpr n s)) a = balance_of (ledger s) a.
Proof using RL.
  assert (money 0 a (after_payout bpr n s) = money 0 a s) as Hm; [|unfold money in Hm; lia].
  unfold after_payout. rewrite money_event by done.
  match goal with
  | |- money 0 a (TotalIssuanceAt_put _ (TotalStakedAt_put _ ?x)) = _ =>
      change (money 0 a x = money 0 a s)
  end.
  by rewrite enact_money, exit_queue_money, update_nominators_money, update_collators_money.
Qed.

Lemma enact_events n s : exists new, events (enact_election n s).2 = events s ++ new.
Proof using Type.
  unfold enact_election. destruct (elect _) as [[res w]|]; [|exists []; by rewrite app_nil_r].
  unfold process_election. cbn [snd]. rewrite clip_events. by eexists.
Qed.

Lemma after_payout_events bpr n s : exists new, events (after_payout bpr n s) = events s ++ new.
Proof using Type.
  unfold after_payout. set (s1 := execute_exit_queue _ _).
  assert (events s1 = events s) as Hs1.
  { unfold s1. by rewrite (execute_exit_queue_frame events), (update_nominators_frame events),
      (update_collators_frame events). }
  destruct (enact_events n s1) as [new Hnew]. eexists. simpl. rewrite Hnew, Hs1.
  by rewrite <- app_assoc.
Qed.

(** The block at whose end round [r + PayoutDuration] starts. *)
Lemma payout_block r a now s :
  0 < r -> 0 < PayoutDuration -> r + PayoutDuration < 2 ^ 32 ->
  round_of s = r + PayoutDuration - 1 ->
  RoundInfo.should_goto_next_round (CurrentRound s) now = true ->
  state_typed s ->
  let due := rewards_for r s s (entries r s) in
  let s' := on_finalize (P := P) (B := B) now s in
  can_receive (ledger s) a due ->
  balance_of (ledger s') a = balance_of (ledger s) a + credited a due /\
  exists new, events s' = events s ++ new /\
    forall v, (a, v) ∈ due -> minimum_balance < v -> Rewarded a v ∈ new.
Proof using CL RL PTL.
  intros H0 HD Hb Hr Hgo Hty due s' Ha. unfold s'. rewrite on_finalize_split by done.
  assert (RoundInfo.next_round_index (CurrentRound s) = r + PayoutDuration) as ->.
  { unfold RoundInfo.next_round_index. fold (round_of s). rewrite Hr.
    rewrite add_exact; lia. }
  set (n := r + PayoutDuration). set (s0 := CurrentRound_put _ s).
  assert (n -32 PayoutDuration = r) as Hn by (unfold n, RoundIndex in *; rewrite sub_exact; lia).
  rewrite payout_pays by (unfold n; lia). rewrite Hn.
  change (rewards_for r s0 s0 (entries r s0)) with due.
  set (s1 := RoundStakerClipped_put _ s0).
  destruct (pay_credits a due s1) as (Hbal & new & Hev & Hnew);
    [by apply rewards_nonneg | exact Ha|].
  destruct (after_payout_events (blocks_per_round (Settings s)) n (pay due s1)) as [more Hmore].
  rewrite after_payout_money. split; [exact Hbal|]. exists (new ++ more).
  split; [by rewrite Hmore, Hev, <- app_assoc|]. intros v Hv Hm. apply elem_of_app. left. auto.
Qed.

Lemma entries_reward r s s' who e d :
  clipped s r who = Some e -> d ∈ rewards_for r s s' [(who, e)] -> d ∈ rewards_for r s s' (entries r s).
Proof using Type.
  unfold clipped, rewards_for, entries. intros He Hd.
  rewrite list_elem_of_bind in Hd |- *. destruct Hd as (x & Hd & ->%list_elem_of_singleton).
  exists (who, e). split; [exact Hd|]. apply elem_of_storage_iter.
  unfold RoundIndex in *. by destruct (RoundStakerClipped s !! r).
Qed.

(** [C8] Whoever is elected is paid.  Let [s] be a state of round [r], [who] a
    collator recorded for it with exposure [e], and let the chain run on in any
    way up to the end of round [r + PayoutDuration - 1], in the state [s'].  The
    block that starts round [r + PayoutDuration] then announces to the collator
    and to each of its nominators the reward that the exposure, the stake and
    the issuance recorded in [s] and the points of round [r] give, provided the
    reward is above the minimum balance and the account can receive it (it still
    holds money, and its rewards do not overflow its balance); and
    it credits the account with exactly its rewards of that round. *)
Theorem elected_are_paid r s s' now who e a v :
  0 < r -> 0 < PayoutDuration -> r + PayoutDuration < 2 ^ 32 ->
  round_of s = r -> clipped s r who = Some e ->
  rtc (pending_step r) s s' -> state_typed s' ->
  round_of s' = r + PayoutDuration - 1 ->
  RoundInfo.should_goto_next_round (CurrentRound s') now = true ->
  let due := rewards_for r s s' (entries r s) in
  let s'' := on_finalize (P := P) (B := B) now s' in
  (a, v) ∈ rewards_for r s s' [(who, e)] -> minimum_balance < v ->
  can_receive (ledger s') a due ->
  balance_of (ledger s'') a = balance_of (ledger s') a + credited a due /\
  v <= credited a due /\
  exists new, events s'' = events s' ++ new /\ Rewarded a v ∈ new.
Proof using CL RL PTL.
  intros H0 HD Hb Hr He Hrun Hty Hr' Hgo due s'' Hv Hm Ha.
  pose proof (pending_run_record r s s' ltac:(lia) Hb ltac:(lia) Hrun) as Hrec.
  assert (due = rewards_for r s' s' (entries r s')) as Hdue by (symmetry; by apply record_of_rewards).
  pose proof (entries_reward r s s' who e (a, v) He Hv) as Hin. fold due in Hin.
  assert (v <= credited a due) as Hle.
  { assert (Forall (fun d => 0 <= d.2) due) as Hpos by (rewrite Hdue; by apply rewards_nonneg).
    by apply credited_elem. }
  rewrite Hdue in *.
  destruct (payout_block r a now s' H0 HD Hb Hr' Hgo Hty Ha) as (Hbal & new & Hev & Hnew).
  split; [exact Hbal|]. split; [exact Hle|]. exists new. split; [exact Hev|]. by apply Hnew.
Qed.
End Rewards.

(** ** A round paid out *)

(** Blocks of the mock chain after which the payout of [r] is still to come. *)
Fixpoint blocks_pending (r : RoundIndex) (n : nat) (now : BlockNumber) (s : State Ledger) : bool :=
  match n with
  | O => true
  | S n =>
      let s := on_finalize (P := Z) (B := Limbs) now s in
      (round_of s <? r + PayoutDuration) && blocks_pending r n (now + 1) s
  end.

Lemma run_blocks_pending r n now s :
  blocks_pending r n now s = true -> rtc (pending_step (P := Z) (B := Limbs) r) s (run_blocks n now s).
Proof.
  revert now s. induction n as [|n IH]; intros now s H; [done|].
  cbn [blocks_pending] in H. apply andb_prop in H as [H1%Z.ltb_lt H2].
  eapply rtc_l; [split; [apply step_finalize | exact H1] | by apply IH].
Qed.

(** Round 3 of the run of [round_overpaid], as it starts: account 10 has backed
    collator 100, which is elected. *)
Definition rich_elected : State Ledger := run_to_block 11 21 rich_nominated.

Example rich_rewards :
  entries 3 rich_elected
    = [(100%N, Exposure.mk 1000000000000500 500 [mkIndividualExposure 10%N 1000000000000000])] /\
  rewards_for (P := Z) (B := Limbs) 3 rich_elected rich_round_3 (entries 3 rich_elected)
    = [(100%N, 190100000); (10%N, 380200000)].
Proof. vm_compute. by split. Qed.

Lemma elected_are_paid_witness :
  let s := rich_elected in
  let s' := rich_round_3 in
  let s'' := on_finalize (P := Z) (B := Limbs) 40 s' in
  let due := rewards_for (P := Z) (B := Limbs) 3 s s' (entries 3 s) in
  balance_of (ledger s'') 10%N = balance_of (ledger s') 10%N + credited 10%N due /\
  380200000 <= credited 10%N due /\
  exists new, events s'' = events s' ++ new /\ Rewarded 10%N 380200000 ∈ new.
Proof.
  intros s s' s'' due.
  refine (elected_are_paid (P := Z) (B := Limbs) 3 s s' 40 100%N
    (Exposure.mk 1000000000000500 500 [mkIndividualExposure 10%N 1000000000000000]) 10%N 380200000
    _ _ _ _ _ _ rich_round_3_typed _ _ _ _ _);
    [reflexivity | reflexivity | reflexivity | vm_compute; reflexivity | vm_compute; reflexivity |
     | vm_compute; reflexivity | vm_compute; reflexivity
     | apply list_elem_of_lookup_2 with 1%nat; vm_compute; reflexivity | reflexivity
     | split; apply Z.ltb_lt; vm_compute; reflexivity].
  eapply rtc_l; [split; [apply (step_author (P := Z) (B := Limbs) 100%N) | vm_compute; reflexivity]|].
  apply run_blocks_pending. vm_compute. reflexivity.
Defined.
