(* ===== verification/StakingDefects.v ===== *)
(** * The staking pallet: where the code departs from its intent

    Runs of the pallet, in the configuration of [mock.rs], on which a write
    that survives an error, a search in an unsorted list, or a stale total has
    an effect its authors did not mean. *)
From S2P Require Import Prelude StakingTypes Externals StakingPallet StakingRounds StakingMock.

(** The state a call leaves, whatever its result. *)
Abbreviation after r := (snd r).

(** Account 10 nominates 300 with 200 and then 100 with 200: its nominations
    are in the order 300, 100. *)
Definition unsorted_nominator : State Ledger :=
  after (nominate (Signed 10%N) 100%N 200 (after (nominate (Signed 10%N) 300%N 200 at_round_2))).

(** A failed call buys votes: nominating 300 again, with money the account
    does not have, fails with [NominationNotExist] but leaves the nominator
    written, so that its vote weighs a million although 400 is reserved. *)
Theorem failed_nominate_inflates_vote :
  let s := unsorted_nominator in
  let '(r, s') := nominate (Signed 10%N) 300%N 1000000 s in
  r = Err (ModuleErr NominationNotExist) /\
  slashable_balance_of 10%N Nominator s = 400 /\
  slashable_balance_of 10%N Nominator s' = 1000400 /\
  ledger s' = ledger s /\ reserved_balance (ledger s') 10%N = 400 /\
  free_balance (ledger s') 10%N = 600.
Proof. vm_compute. repeat split. Qed.

(** A failed call locks money: after nominating 300 again fails, leaving 300
    drops both of its bonds and schedules only the second amount; two rounds
    later 100 has come back of the 200 that backed 300, and the rest stays
    reserved with no bond or chunk for it. *)
Theorem failed_nominate_locks_funds :
  let s := after (nominate (Signed 10%N) 300%N 100 unsorted_nominator) in
  let s := after (nominator_leave_collator (Signed 10%N) 300%N s) in
  let s := run_to_block 11 41 s in
  Nominators s !! 10%N = Some (StakingNominators.mk [Bond.mk 100%N 200] 400 [] []) /\
  reserved_balance (ledger s) 10%N = 300.
Proof. vm_compute. repeat split. Qed.

(** Genesis counts a staker whose bond fails: in [mock.rs] account 400 bonds
    less than the minimum and is no collator, but [TotalStaked] holds its 400
    on top of the 1600 that are bonded. *)
Theorem genesis_counts_failed_bond :
  Collators mock_genesis !! 400%N = None /\
  TotalStaked mock_genesis = 2000 /\
  map_sum (fun e => StakingCollators.total e.2) (Collators mock_genesis) = 1600.
Proof. vm_compute. repeat split. Qed.

(** The limit of a target snapshot is not kept: with collators that have
    bonded and are not active yet, a snapshot limited to none returns three. *)
Theorem targets_exceed_limit :
  exists ts w, targets (Some 0) mock_genesis = inr (ts, w) /\ length ts = 3%nat.
Proof. eexists _, _. split; vm_compute; reflexivity. Qed.

(** [TotalStaked] drifts upwards: a collator bonds 1000, takes 400 out again
    and waits; its reserve and its record come down to 600, [TotalStaked] stays
    at what it was. *)
Theorem total_staked_drifts :
  let s0 := run_to_block 1 11 (after (bond (Signed 1%N) 1000 mock_genesis)) in
  let s := run_to_block 11 41 (after (bond_less (Signed 1%N) 400 s0)) in
  reserved_balance (ledger s) 1%N = 600 /\
  (StakingCollators.total <$> Collators s !! 1%N) = Some 600 /\
  TotalStaked s = TotalStaked s0.
Proof. vm_compute. repeat split. Qed.

(** Leaving after [bond_extra] loses the extra: what has not become active is
    in no record any more, so that three rounds later it is still reserved. *)
Theorem collator_unbond_loses_extra :
  let s := run_to_block 1 11 (after (bond (Signed 1%N) 500 mock_genesis)) in
  let s := after (bond_extra (Signed 1%N) 300 s) in
  let s := run_to_block 11 51 (after (collator_unbond (Signed 1%N) s)) in
  Collators s !! 1%N = None /\ ExitQueue s !! 1%N = None /\
  reserved_balance (ledger s) 1%N = 300.
Proof. vm_compute. repeat split. Qed.

(** Bonding again while an exit is pending and leaving again overwrites the
    queued record: of the 1000 reserved only the second bond is ever released
    ([AlreadyInQueue] is never raised). *)
Theorem second_exit_overwrites_first :
  let s := run_to_block 1 11 (after (bond (Signed 1%N) 500 mock_genesis)) in
  let s := after (collator_unbond (Signed 1%N) s) in
  let s := run_to_block 11 21 (after (bond (Signed 1%N) 500 s)) in
  let s := after (collator_unbond (Signed 1%N) s) in
  let s := run_to_block 21 61 s in
  Collators s !! 1%N = None /\ ExitQueue s !! 1%N = None /\
  reserved_balance (ledger s) 1%N = 500.
Proof. vm_compute. repeat split. Qed.

(** A collator that leaves does not free its nominators' votes: account 10 has
    backed 300 and 100 with 200 each; once 300 is gone its 200 are free again, but
    it goes on voting for 100 with all of 400, and however long it waits the bond
    with 300 cannot be taken back. *)
Theorem unbond_inflates_vote :
  let s := after (collator_unbond (Signed 300%N) unsorted_nominator) in
  let s := run_to_block 11 41 s in
  reserved_balance (ledger s) 10%N = 200 /\
  slashable_balance_of 10%N Nominator s = 400 /\
  nominator_leave_collator (Signed 10%N) 300%N s = (Err (ModuleErr CandidateNotExist), s) /\
  filter (fun v : Voter => v.1.1 = 10%N) (get_npos_voters s) = [(10%N, 400, [300%N; 100%N])].
Proof. vm_compute. repeat split. Qed.
