(* ===== verification/Treasury.v ===== *)
(** * The treasury pallet

    [pallets/treasury/src/lib.rs]: donations to the treasury's account and
    allocations from it. *)
From S2P Require Import Prelude StakingTypes Externals.

(** [trait Config]: the account that [PalletId::into_account] derives. *)
Class TreasuryConfig := { account_id : AccountId }.

(** [type ProposalIndex = u32] *)
Definition ProposalIndex : Type := Z.

(** [struct Proposal]; no call of the pallet uses it. *)
Record Proposal := mkProposal { user : AccountId; amount_ : Balance }.

Inductive Error := InsufficientBalance | ScantyAmount | FailedDonation | FailedAllocation.

Inductive Event :=
  | DonationReceived (who : AccountId) (amount pot : Balance)
  | FundsAllocated (who : AccountId) (amount pot : Balance).

(** The pallet has no storage of its own: the currency's ledger and the events
    are all its state. *)
Record TreasuryState (L : Type) := mkTreasury { tr_ledger : L; tr_events : list Event }.
Arguments mkTreasury {L}.
Arguments tr_ledger {L} _.
Arguments tr_events {L} _.

Section Treasury.
Context {L : Type} `{!Currency L, TC : !TreasuryConfig}.
Implicit Types s : TreasuryState L.

Definition Call : Type := M (TreasuryState L) (DispatchError Error) unit.

(** The money in the pot: the existential deposit is not part of it. *)
Definition pot (l : L) : Balance := U.sat_sub (free_balance l account_id) minimum_balance.

(** [T::Currency::transfer(..).map_err(|_| e)?] *)
Definition transfer_or (e : Error) (src dst : AccountId) (amount : Balance) : Call :=
  fun s => match transfer src dst amount (tr_ledger s) with
           | Some l => (Ok tt, mkTreasury l (tr_events s))
           | None => (Err (ModuleErr e), s)
           end.

Definition deposit (e : L -> Event) s : TreasuryState L :=
  mkTreasury (tr_ledger s) (tr_events s ++ [e (tr_ledger s)]).

Definition donate (origin : RawOrigin AccountId) (amount : Balance) : Call :=
  let! sender := ensure_signed origin in
  ensure (minimum_balance <=? amount) (ModuleErr ScantyAmount) ;;;
  transfer_or FailedDonation sender account_id amount ;;;
  modify (deposit (fun l => DonationReceived sender amount (pot l))).

Definition allocate (origin : RawOrigin AccountId) (dest : AccountId) (amount : Balance) : Call :=
  ensure_root origin ;;;
  ensure (minimum_balance <=? amount) (ModuleErr ScantyAmount) ;;;
  transfer_or FailedAllocation account_id dest amount ;;;
  modify (deposit (fun l => FundsAllocated dest amount (pot l))).

(** What a transfer of [v] from [src] to [dst] did to the free balances. *)
Definition moved (src dst : AccountId) (v : Balance) (l l' : L) : Prop :=
  v <= free_balance l src /\
  free_balance l' dst = free_balance l dst + v /\
  free_balance l' src <= free_balance l src - v /\
  (forall a, a <> src -> a <> dst -> free_balance l' a = free_balance l a).

Lemma transfer_moved `{!CurrencyLaws L} src dst v l l' :
  transfer src dst v l = Some l' -> src <> dst -> moved src dst v l l'.
Proof.
  intros Ht Hne. split_and!.
  - by eapply transfer_enough.
  - by eapply transfer_receives.
  - by eapply transfer_sends.
  - intros a. by eapply transfer_others.
Qed.

(** A donation either fails and changes nothing, with [ScantyAmount] exactly
    when it is below the minimum balance, or moves exactly the amount from the
    donor to the treasury, touches no other account, and announces the pot as
    it is after the donation. *)
Theorem donate_spec `{!CurrencyLaws L} who amount s :
  who <> account_id ->
  let '(r, s') := donate (Signed who) amount s in
  match r with
  | Ok _ =>
      minimum_balance <= amount /\ moved who account_id amount (tr_ledger s) (tr_ledger s') /\
      tr_events s' = tr_events s ++ [DonationReceived who amount (pot (tr_ledger s'))]
  | Err e => s' = s /\ (e = ModuleErr ScantyAmount <-> amount < minimum_balance)
  | Panic => False
  end.
Proof.
  intros Hne. unfold donate, transfer_or. unfold_monad.
  destruct (Z.leb_spec minimum_balance amount) as [Hm|Hm]; simpl.
  - destruct (transfer who account_id amount (tr_ledger s)) as [l|] eqn:Ht; simpl.
    + split_and!; [done | by apply transfer_moved | done].
    + split; [done|]. split; [done | lia].
  - split; [done|]. by split.
Qed.

(** Only the root origin allocates; an allocation either fails and changes
    nothing, or moves exactly the amount from the treasury, which has it, to the
    destination, and announces the pot as it is afterwards. *)
Theorem allocate_spec `{!CurrencyLaws L} origin dest amount s :
  dest <> account_id ->
  let '(r, s') := allocate origin dest amount s in
  match r with
  | Ok _ =>
      origin = Root /\ minimum_balance <= amount /\
      moved account_id dest amount (tr_ledger s) (tr_ledger s') /\
      tr_events s' = tr_events s ++ [FundsAllocated dest amount (pot (tr_ledger s'))]
  | Err e => s' = s /\ (e = BadOrigin <-> origin <> Root)
  | Panic => False
  end.
Proof.
  intros Hne. unfold allocate, transfer_or. unfold_monad. destruct origin; simpl; [|by split..].
  destruct (Z.leb_spec minimum_balance amount) as [Hm|Hm]; simpl; [|by split].
  destruct (transfer account_id dest amount (tr_ledger s)) as [l|] eqn:Ht; simpl; [|by split].
  split_and!; [done | done | by apply transfer_moved; [|congruence] | done].
Qed.
End Treasury.

(** ** A treasury over the reference ledger *)

#[export] Instance mock_treasury : TreasuryConfig := {| account_id := 77%N |}.

Definition mock_treasury_state (pot : N) : TreasuryState Ledger :=
  mkTreasury (mkLedger (<[1%N := 100%N]> {[77%N := pot]}) ∅ (100 + Z.of_N pot)) [].

(** The pot leaves out the existential deposit "so treasury account never
    gets deleted", but an allocation is not limited by the pot: the whole free
    balance can be allocated and the treasury's account is left with nothing. *)
Theorem allocate_beyond_pot :
  let s := mock_treasury_state 1000 in
  let '(r, s') := allocate Root 1%N 1000 s in
  r = Ok tt /\ pot (tr_ledger s) = 999 /\ free_balance (tr_ledger s') account_id = 0.
Proof. vm_compute. repeat split. Qed.

Lemma donate_spec_witness :
  let s := mock_treasury_state 1000 in
  let '(r, s') := donate (Signed 1%N) 60 s in
  match r with
  | Ok _ =>
      minimum_balance <= 60 /\ moved 1%N account_id 60 (tr_ledger s) (tr_ledger s') /\
      tr_events s' = tr_events s ++ [DonationReceived 1%N 60 (pot (tr_ledger s'))]
  | Err e => s' = s /\ (e = ModuleErr ScantyAmount <-> 60 < minimum_balance)
  | Panic => False
  end.
Proof. intros s. apply (donate_spec 1%N 60 s). discriminate. Defined.

Lemma allocate_spec_witness :
  let s := mock_treasury_state 1000 in
  let '(r, s') := allocate Root 1%N 60 s in
  match r with
  | Ok _ =>
      @Root AccountId = Root /\ minimum_balance <= 60 /\
      moved account_id 1%N 60 (tr_ledger s) (tr_ledger s') /\
      tr_events s' = tr_events s ++ [FundsAllocated 1%N 60 (pot (tr_ledger s'))]
  | Err e => s' = s /\ (e = BadOrigin <-> @Root AccountId <> Root)
  | Panic => False
  end.
Proof. intros s. apply (allocate_spec Root 1%N 60 s). discriminate. Defined.
