(* ===== verification/CrowdloanRewards.v ===== *)
(** * The crowdloan rewards pallet

    [pallets/crowdloan-rewards/src/lib.rs]: contributors of the crowdloan earn
    their reward block by block and claim it from the treasury's account through
    a native account they associate with their relay-chain account. *)
From Stdlib Require Import Strings.Byte Sorting.Sorted.
From S2P Require Import Prelude StakingTypes Externals Treasury.

(** An account of the relay chain, as its 32-byte key. *)
Definition RelayChainAccountId : Type := N.

(** [trait Config] with the codec and the signature check of [sp_runtime]. *)
Class CrowdloanConfig := {
  MultiSignature : Type;
  encode : AccountId -> list byte;
  verify : MultiSignature -> list byte -> RelayChainAccountId -> bool;
}.

Record RewardInfo := mkRewardInfo {
  total_reward : Balance;
  claimed_reward : Balance;
  last_paid : BlockNumber;
}.

Inductive Error :=
  | InvalidEndBlock | AlreadyInitReward | InvalidSignature | AlreadyAssociated | AlreadyPaid
  | NoAssociatedAccount | NotContributedYet | BadRelayAccount | WrongConversionU128ToBalance
  | RewardFailed | ScantyReward.

Inductive Event :=
  | AssociatedAccountEvent (who : AccountId) (relay : RelayChainAccountId)
  | UpdateAssociateAccount (who : AccountId) (relay : RelayChainAccountId)
  | RewardPaid (who : AccountId) (amount : Balance).

(** Storage, with the block number of [frame_system] and the ledger of the
    currency the treasury's configuration names. *)
Record CrowdloanState (L : Type) := mkCrowdloan {
  Contributors : gmap RelayChainAccountId RewardInfo;
  AssociatedAccount : gmap AccountId RelayChainAccountId;
  CurrentRewardEndIn : BlockNumber;
  RewardPeriod : BlockNumber;
  block_number : BlockNumber;
  cr_ledger : L;
  cr_events : list Event;
}.
Arguments mkCrowdloan {L}.
Arguments Contributors {L} _.
Arguments AssociatedAccount {L} _.
Arguments CurrentRewardEndIn {L} _.
Arguments RewardPeriod {L} _.
Arguments block_number {L} _.
Arguments cr_ledger {L} _.
Arguments cr_events {L} _.

Section Crowdloan.
Context {L : Type} `{!Currency L, TC : !TreasuryConfig, CC : !CrowdloanConfig}.
Implicit Types s : CrowdloanState L.

Definition Call (A : Type) : Type := M (CrowdloanState L) (DispatchError Error) A.

Definition Contributors_put v s : CrowdloanState L :=
  mkCrowdloan v (AssociatedAccount s) (CurrentRewardEndIn s) (RewardPeriod s) (block_number s)
    (cr_ledger s) (cr_events s).
Definition AssociatedAccount_put v s : CrowdloanState L :=
  mkCrowdloan (Contributors s) v (CurrentRewardEndIn s) (RewardPeriod s) (block_number s)
    (cr_ledger s) (cr_events s).
Definition period_put (end_in period : BlockNumber) s : CrowdloanState L :=
  mkCrowdloan (Contributors s) (AssociatedAccount s) end_in period (block_number s)
    (cr_ledger s) (cr_events s).
Definition block_number_put v s : CrowdloanState L :=
  mkCrowdloan (Contributors s) (AssociatedAccount s) (CurrentRewardEndIn s) (RewardPeriod s) v
    (cr_ledger s) (cr_events s).
Definition cr_ledger_put v s : CrowdloanState L :=
  mkCrowdloan (Contributors s) (AssociatedAccount s) (CurrentRewardEndIn s) (RewardPeriod s)
    (block_number s) v (cr_events s).
Definition cr_deposit_event e s : CrowdloanState L :=
  mkCrowdloan (Contributors s) (AssociatedAccount s) (CurrentRewardEndIn s) (RewardPeriod s)
    (block_number s) (cr_ledger s) (cr_events s ++ [e]).

(** ** Calls *)

(** The loop of [initialize_reward]. *)
Definition record_contributions (contributions : list (RelayChainAccountId * Z)) (rate : Z)
    (now : BlockNumber) : Call unit :=
  for_each contributions (fun '(account, amount) =>
    let reward_info := mkRewardInfo (U.sat_mul 128 amount rate) 0 now in
    modify (fun s => Contributors_put (<[account := reward_info]> (Contributors s)) s)).

Definition initialize_reward (origin : RawOrigin AccountId)
    (contributions : list (RelayChainAccountId * Z)) (rate : Z) (end_block : BlockNumber)
    : Call unit :=
  ensure_root origin ;;;
  let! now := gets block_number in
  ensure (now <? end_block) (ModuleErr InvalidEndBlock) ;;;
  let! current_reward_end_in := gets CurrentRewardEndIn in
  ensure (current_reward_end_in <=? now) (ModuleErr AlreadyInitReward) ;;;
  record_contributions contributions rate now ;;;
  modify (period_put end_block (end_block -32 now)).

Definition associate_account (origin : RawOrigin AccountId) (relay_account : RelayChainAccountId)
    (proof : MultiSignature) : Call unit :=
  let! who := ensure_signed origin in
  let payload := encode who in
  ensure (verify proof payload relay_account) (ModuleErr InvalidSignature) ;;;
  let! associated := gets (fun s => AssociatedAccount s !! who) in
  ensure (bool_decide (associated = None)) (ModuleErr AlreadyAssociated) ;;;
  modify (fun s => AssociatedAccount_put (<[who := relay_account]> (AssociatedAccount s)) s) ;;;
  modify (cr_deposit_event (AssociatedAccountEvent who relay_account)).

Definition update_associate_account (origin : RawOrigin AccountId)
    (associated_native_account : AccountId) (relay_account : RelayChainAccountId)
    (proof : MultiSignature) : Call unit :=
  let! who := ensure_signed origin in
  let payload := encode who in
  ensure (verify proof payload relay_account) (ModuleErr InvalidSignature) ;;;
  let! associated := gets (fun s => AssociatedAccount s !! who) in
  ensure (bool_decide (associated = None)) (ModuleErr AlreadyAssociated) ;;;
  let! relay := gets (fun s => AssociatedAccount s !! associated_native_account) in
  let! relay_associated_account := ok_or relay (ModuleErr NoAssociatedAccount) in
  ensure (N.eqb relay_account relay_associated_account) (ModuleErr BadRelayAccount) ;;;
  modify (fun s => AssociatedAccount_put
                     (delete associated_native_account (AssociatedAccount s)) s) ;;;
  modify (fun s => AssociatedAccount_put (<[who := relay_account]> (AssociatedAccount s)) s) ;;;
  modify (cr_deposit_event (UpdateAssociateAccount who relay_account)).

(** A division of unsigned integers panics on zero. *)
Definition checked_div (a b : Z) : Call Z := if b =? 0 then panic else ret (a / b).

(** [T::Currency::transfer(..).map_err(|_| e)?] *)
Definition cr_transfer_or (e : Error) (src dst : AccountId) (amount : Balance) : Call unit :=
  fun s => match transfer src dst amount (cr_ledger s) with
           | Some l => (Ok tt, cr_ledger_put l s)
           | None => (Err (ModuleErr e), s)
           end.

(** A [u32] block number and a [u128] balance convert into one another, so that
    [WrongConversionU128ToBalance] is not raised. *)
Definition get_money (origin : RawOrigin AccountId) : Call unit :=
  let! who := ensure_signed origin in
  let! now := gets block_number in
  let! relay := gets (fun s => AssociatedAccount s !! who) in
  let! relay_account := ok_or relay (ModuleErr NoAssociatedAccount) in
  let! info := gets (fun s => Contributors s !! relay_account) in
  let! info := ok_or info (ModuleErr NotContributedYet) in
  ensure (claimed_reward info <? total_reward info) (ModuleErr AlreadyPaid) ;;;
  let! reward_period := gets RewardPeriod in
  let! reward_per_block := checked_div (total_reward info) reward_period in
  let reward_period_as_balance := U.sat_sub now (last_paid info) in
  let left_over := total_reward info -128 claimed_reward info in
  let accrued := U.sat_mul 128 reward_per_block reward_period_as_balance in
  let amount := if left_over <? accrued then left_over else accrued in
  let info := mkRewardInfo (total_reward info)
                (U.sat_add 128 (claimed_reward info) amount) now in
  modify (fun s => Contributors_put (<[relay_account := info]> (Contributors s)) s) ;;;
  ensure (minimum_balance <=? amount) (ModuleErr ScantyReward) ;;;
  cr_transfer_or RewardFailed account_id who amount ;;;
  modify (cr_deposit_event (RewardPaid who amount)).

(** ** Steps and invariant *)

Inductive CrowdloanCall :=
  | call_initialize_reward (contributions : list (RelayChainAccountId * Z)) (rate : Z)
      (end_block : BlockNumber)
  | call_associate_account (relay_account : RelayChainAccountId) (proof : MultiSignature)
  | call_update_associate_account (associated_native_account : AccountId)
      (relay_account : RelayChainAccountId) (proof : MultiSignature)
  | call_get_money.

Definition crowdloan_dispatch (origin : RawOrigin AccountId) (c : CrowdloanCall) : Call unit :=
  match c with
  | call_initialize_reward cs rate end_block => initialize_reward origin cs rate end_block
  | call_associate_account relay proof => associate_account origin relay proof
  | call_update_associate_account native relay proof =>
      update_associate_account origin native relay proof
  | call_get_money => get_money origin
  end.

(** The arguments have their types: contributions and rate are [u32]. *)
Definition crowdloan_call_ok (c : CrowdloanCall) : Prop :=
  match c with
  | call_initialize_reward cs rate end_block =>
      Forall (fun e => U.ok 32 e.2) cs /\ U.ok 32 rate /\ U.ok 32 end_block
  | _ => True
  end.

Definition info_ok (i : RewardInfo) : Prop :=
  0 <= claimed_reward i <= total_reward i /\ total_reward i < 2 ^ 64 /\ U.ok 32 (last_paid i).

(** Nobody was paid more than the total, and once there are contributors there
    is a period to divide by. *)
Record crowdloan_inv s : Prop := {
  ci_info : map_Forall (fun _ i => info_ok i) (Contributors s);
  ci_period : Contributors s <> ∅ -> 0 < RewardPeriod s < 2 ^ 32;
  ci_block : U.ok 32 (block_number s);
}.

Inductive crowdloan_step : CrowdloanState L -> CrowdloanState L -> Prop :=
  | cstep_call origin c s : crowdloan_call_ok c -> crowdloan_step s (crowdloan_dispatch origin c s).2
  | cstep_block n s : U.ok 32 n -> crowdloan_step s (block_number_put n s)
  | cstep_currency l s : crowdloan_step s (cr_ledger_put l s).

Definition crowdloan_empty (l : L) : CrowdloanState L := mkCrowdloan ∅ ∅ 0 0 0 l [].

(** ** A claim *)

(** What contributor [i] can claim in block [now]. *)
Definition claimable (period now : BlockNumber) (i : RewardInfo) : Z :=
  Z.min (total_reward i / period * Z.max (now - last_paid i) 0)
        (total_reward i - claimed_reward i).

Definition paid (amount : Z) (now : BlockNumber) (i : RewardInfo) : RewardInfo :=
  mkRewardInfo (total_reward i) (claimed_reward i + amount) now.

Lemma claimable_range period now i :
  info_ok i -> 0 < period -> 0 <= claimable period now i <= total_reward i - claimed_reward i.
Proof.
  intros (Hc & Ht & Hl) Hp. unfold claimable. pose proof (Z.div_pos (total_reward i) period). nia.
Qed.

Lemma paid_ok period now i :
  info_ok i -> 0 < period -> U.ok 32 now -> info_ok (paid (claimable period now i) now i).
Proof.
  intros Hi Hp Hn. pose proof (claimable_range period now i Hi Hp). destruct Hi as (Hc & Ht & _).
  split_and!; simpl; try lia; apply Hn.
Qed.

Lemma amount_claimable period now i :
  info_ok i -> 0 < period < 2 ^ 32 -> U.ok 32 now ->
  let accrued := U.sat_mul 128 (total_reward i / period) (U.sat_sub now (last_paid i)) in
  let left_over := total_reward i -128 claimed_reward i in
  (if left_over <? accrued then left_over else accrued) = claimable period now i.
Proof.
  intros (Hc & Ht & Hl) Hp Hn. unfold U.ok, claimable in *. simpl.
  rewrite sub_exact by lia. unfold U.sat_mul, U.sat_sub, U.max.
  pose proof (Z.div_pos (total_reward i) period ltac:(lia) ltac:(lia)).
  assert (total_reward i / period <= total_reward i) by (apply Z.div_le_upper_bound; nia).
  set (q := total_reward i / period) in *. set (e := Z.max (now - last_paid i) 0) in *.
  assert (0 <= e < 2 ^ 32) by lia. assert (q * e < 2 ^ 96) by nia.
  rewrite (Z.min_l (q * e)) by lia. destruct (Z.ltb_spec (total_reward i - claimed_reward i) (q * e)); lia.
Qed.

Lemma get_money_run who relay i s :
  crowdloan_inv s -> AssociatedAccount s !! who = Some relay ->
  Contributors s !! relay = Some i -> claimed_reward i < total_reward i ->
  let amount := claimable (RewardPeriod s) (block_number s) i in
  let s1 := Contributors_put (<[relay := paid amount (block_number s) i]> (Contributors s)) s in
  get_money (Signed who) s =
    if decide (amount < minimum_balance) then (Err (ModuleErr ScantyReward), s1)
    else match transfer account_id who amount (cr_ledger s) with
         | None => (Err (ModuleErr RewardFailed), s1)
         | Some l => (Ok tt, cr_deposit_event (RewardPaid who amount) (cr_ledger_put l s1))
         end.
Proof.
  intros [Hi Hp Hb] Ha Hc Hlt amount s1. pose proof (Hi relay i Hc) as Hinfo.
  assert (0 < RewardPeriod s < 2 ^ 32) as Hper.
  { apply Hp. intros He. by rewrite He, lookup_empty in Hc. }
  unfold get_money, checked_div, cr_transfer_or. unfold_monad. rewrite Ha, Hc.
  rewrite (proj2 (Z.ltb_lt _ _) Hlt). rewrite (proj2 (Z.eqb_neq _ _)) by lia.
  rewrite (amount_claimable (RewardPeriod s) (block_number s) i Hinfo Hper Hb).
  fold amount. pose proof (claimable_range (RewardPeriod s) (block_number s) i Hinfo ltac:(lia)) as Hr.
  fold amount in Hr.
  assert (U.sat_add 128 (claimed_reward i) amount = claimed_reward i + amount) as ->.
  { unfold U.sat_add, U.max. destruct Hinfo as (? & ? & _). lia. }
  change (mkRewardInfo _ _ _) with (paid amount (block_number s) i). fold s1.
  case_decide; [by rewrite (proj2 (Z.leb_gt _ _)) by lia|].
  rewrite (proj2 (Z.leb_le _ _)) by lia. simpl. by destruct (transfer _ _ _ _).
Qed.

(** The claims that are refused at once. *)
Lemma get_money_refused origin s :
  (forall who relay i, origin = Signed who -> AssociatedAccount s !! who = Some relay ->
     Contributors s !! relay = Some i -> ~ claimed_reward i < total_reward i) ->
  exists e, get_money origin s = (Err e, s).
Proof.
  intros H. unfold get_money. unfold_monad. destruct origin as [|who|]; simpl; eauto.
  destruct (AssociatedAccount s !! who) as [relay|] eqn:Ha; simpl; eauto.
  destruct (Contributors s !! relay) as [i|] eqn:Hc; simpl; eauto.
  rewrite (proj2 (Z.ltb_ge _ _)); [by eauto|]. specialize (H who relay i eq_refl Ha Hc). lia.
Qed.

(** Every claim is one or the other. *)
Lemma get_money_cases origin s :
  (exists who relay i, origin = Signed who /\ AssociatedAccount s !! who = Some relay /\
     Contributors s !! relay = Some i /\ claimed_reward i < total_reward i) \/
  (exists e, get_money origin s = (Err e, s)).
Proof.
  destruct origin as [|who|]; [right; by eexists| |right; by eexists].
  destruct (AssociatedAccount s !! who) as [relay|] eqn:Ha;
    [|right; apply get_money_refused; intros; simplify_eq; congruence].
  destruct (Contributors s !! relay) as [i|] eqn:Hc;
    [|right; apply get_money_refused; intros; simplify_eq; congruence].
  destruct (decide (claimed_reward i < total_reward i)); [left; by exists who, relay, i|].
  right. apply get_money_refused. intros. by simplify_eq.
Qed.

(** ** The invariant holds *)

Lemma inv_claim relay i amount s :
  crowdloan_inv s -> Contributors s !! relay = Some i -> info_ok (paid amount (block_number s) i) ->
  crowdloan_inv (Contributors_put (<[relay := paid amount (block_number s) i]> (Contributors s)) s).
Proof.
  intros [Hi Hp Hb] Hc Hok. split; simpl; [by apply map_Forall_insert_2 | | done].
  intros _. apply Hp. intros He. by rewrite He, lookup_empty in Hc.
Qed.

Lemma get_money_inv origin s :
  crowdloan_inv s ->
  crowdloan_inv (get_money origin s).2 /\ (get_money origin s).1 <> Panic.
Proof.
  intros Hs.
  destruct (get_money_cases origin s) as [(who & relay & i & -> & Ha & Hc & Hlt)|[e ->]]; [|done].
  rewrite (get_money_run who relay i s) by done. destruct Hs as [Hi Hp Hb] eqn:HE.
  assert (0 < RewardPeriod s) as Hper.
  { apply Hp. intros He. by rewrite He, lookup_empty in Hc. }
  pose proof (inv_claim relay i _ s Hs Hc (paid_ok _ _ i (Hi relay i Hc) Hper Hb)) as [? ? ?].
  case_decide; [by split|]. by destruct (transfer _ _ _ _).
Qed.

Lemma record_contributions_run cs rate now s :
  record_contributions cs rate now s
  = (Ok tt, Contributors_put (foldl (fun m e =>
       <[e.1 := mkRewardInfo (U.sat_mul 128 e.2 rate) 0 now]> m) (Contributors s) cs) s).
Proof.
  unfold record_contributions. revert s. induction cs as [|[a v] cs IH]; intros s; simpl.
  - by destruct s.
  - unfold bind, modify at 1. by rewrite IH.
Qed.

Lemma initialize_inv origin cs rate end_block s :
  crowdloan_call_ok (call_initialize_reward cs rate end_block) -> crowdloan_inv s ->
  crowdloan_inv (initialize_reward origin cs rate end_block s).2 /\
  (initialize_reward origin cs rate end_block s).1 <> Panic.
Proof.
  intros (Hcs & Hr & He) Hs. pose proof Hs as [Hi Hp Hb].
  unfold initialize_reward. destruct origin; [|done..]. unfold_monad. simpl.
  destruct (Z.ltb_spec (block_number s) end_block); [|done]. simpl.
  destruct (CurrentRewardEndIn s <=? block_number s); [|done].
  rewrite record_contributions_run. simpl.
  split; [|done]. unfold U.ok in *. split; simpl; [| |done].
  - apply foldl_inv; [done|]. intros m [a v] Hin Hm. apply map_Forall_insert_2; [|done].
    rewrite Forall_forall in Hcs. specialize (Hcs _ Hin). simpl in *. unfold U.ok in *.
    assert (0 <= v * rate < 2 ^ 64) by nia.
    split_and!; simpl; unfold U.sat_mul, U.max, U.ok; lia.
  - intros _. rewrite sub_exact by lia. lia.
Qed.

Lemma crowdloan_dispatch_inv origin c s :
  crowdloan_call_ok c -> crowdloan_inv s ->
  crowdloan_inv (crowdloan_dispatch origin c s).2 /\ (crowdloan_dispatch origin c s).1 <> Panic.
Proof.
  intros Hok Hs. destruct c; simpl; [by apply initialize_inv | | | by apply get_money_inv].
  - destruct (associate_account _ _ _ s) as [r s'] eqn:H.
    unfold associate_account in H. run H; split; try done; by destruct Hs.
  - destruct (update_associate_account _ _ _ _ s) as [r s'] eqn:H.
    unfold update_associate_account in H. run H; split; try done; by destruct Hs.
Qed.

Lemma crowdloan_empty_inv l : crowdloan_inv (crowdloan_empty l).
Proof. split; simpl; [apply map_Forall_empty | done | unfold U.ok; lia]. Qed.

(** [C17] In every state reachable from the empty one, by calls with any origin,
    new blocks and other pallets' transfers, nobody has claimed more than the
    reward, and the next call cannot panic: the period divided by is not zero
    as soon as somebody can claim. *)
Theorem crowdloan_reachable l s origin c :
  rtc crowdloan_step (crowdloan_empty l) s -> crowdloan_call_ok c ->
  crowdloan_inv s /\ (crowdloan_dispatch origin c s).1 <> Panic.
Proof.
  intros Hr Hok. assert (crowdloan_inv s) as Hs; [|split; [done | by apply crowdloan_dispatch_inv]].
  clear Hok. pose proof (crowdloan_empty_inv l) as H0. revert H0.
  induction Hr as [s|s1 s2 s3 Hstep _ IH]; intros H1; [done|]. apply IH.
  destruct Hstep; [by apply crowdloan_dispatch_inv | by destruct H1 | by destruct H1].
Qed.

(** [C29] A claim in any state that keeps the invariant of this pallet, on every
    branch: only a signed origin is served; an account without an association, a
    relay account without a contribution and a reward that is paid already are
    refused and nothing changes.  Otherwise the contributor is due the whole
    reward per block for the blocks since the last claim, and no more than what
    is left; that amount is marked claimed in {e every} case, but is paid and
    announced only when it reaches the minimum balance and the treasury has it.
    Nothing else changes. *)
Theorem get_money_spec origin s :
  crowdloan_inv s ->
  let '(r, s') := get_money origin s in
  match origin with
  | Signed who =>
      match AssociatedAccount s !! who with
      | None => r = Err (ModuleErr NoAssociatedAccount) /\ s' = s
      | Some relay =>
          match Contributors s !! relay with
          | None => r = Err (ModuleErr NotContributedYet) /\ s' = s
          | Some i =>
              let amount := Z.min (total_reward i / RewardPeriod s * Z.max (block_number s - last_paid i) 0)
                                  (total_reward i - claimed_reward i) in
              let claimed l events :=
                mkCrowdloan (<[relay := mkRewardInfo (total_reward i) (claimed_reward i + amount)
                                          (block_number s)]> (Contributors s))
                  (AssociatedAccount s) (CurrentRewardEndIn s) (RewardPeriod s) (block_number s)
                  l events in
              if decide (total_reward i <= claimed_reward i) then
                r = Err (ModuleErr AlreadyPaid) /\ s' = s
              else if decide (amount < minimum_balance) then
                r = Err (ModuleErr ScantyReward) /\ s' = claimed (cr_ledger s) (cr_events s)
              else
                match transfer account_id who amount (cr_ledger s) with
                | None => r = Err (ModuleErr RewardFailed) /\ s' = claimed (cr_ledger s) (cr_events s)
                | Some l => r = Ok tt /\ s' = claimed l (cr_events s ++ [RewardPaid who amount])
                end
          end
      end
  | _ => r = Err BadOrigin /\ s' = s
  end.
Proof.
  intros Hs. destruct origin as [|who|]; [done| |done].
  destruct (AssociatedAccount s !! who) as [relay|] eqn:Ha.
  2: { unfold get_money. unfold_monad. by rewrite Ha. }
  destruct (Contributors s !! relay) as [i|] eqn:Hc.
  2: { unfold get_money. unfold_monad. by rewrite Ha, Hc. }
  cbv zeta. case_decide as Hle.
  - unfold get_money. unfold_monad. rewrite Ha, Hc. by rewrite (proj2 (Z.ltb_ge _ _)) by lia.
  - rewrite (get_money_run who relay i s) by (done || lia).
    fold (claimable (RewardPeriod s) (block_number s) i).
    case_decide; [by split|]. by destruct (transfer _ _ _ _).
Qed.

(** [get_money] called by [who] in each of the blocks [times]. *)
Definition claim_all (who : AccountId) (times : list BlockNumber) s : CrowdloanState L :=
  foldl (fun s t => (get_money (Signed who) (block_number_put t s)).2) s times.

(** [C18] However often and whenever a contributor claims, what its account gains
    is at most what was left of the reward. *)
Theorem claims_bounded `{!CurrencyLaws L} who relay i times s :
  who <> account_id -> crowdloan_inv s -> Forall (U.ok 32) times ->
  AssociatedAccount s !! who = Some relay -> Contributors s !! relay = Some i ->
  free_balance (cr_ledger (claim_all who times s)) who
  <= free_balance (cr_ledger s) who + (total_reward i - claimed_reward i).
Proof.
  intros Hne Hs Ht. revert i s Hs. induction Ht as [|t times Ht _ IH]; intros i s Hs Ha Hc; simpl.
  { destruct (ci_info s Hs relay i Hc) as [? _]. lia. }
  set (s0 := block_number_put t s).
  assert (crowdloan_inv s0) as Hs0 by (by destruct Hs).
  pose proof (get_money_inv (Signed who) s0 Hs0) as [Hs1 _].
  destruct (decide (claimed_reward i < total_reward i)) as [Hlt|Hge].
  - rewrite (get_money_run who relay i s0) in Hs1 |- * by done.
    set (amount := claimable _ _ i) in *. set (s1 := Contributors_put _ s0) in *.
    assert (Contributors s1 !! relay = Some (paid amount t i)) as Hc1 by apply lookup_insert_eq.
    assert (0 <= amount) as Hpos.
    { apply (claimable_range (RewardPeriod s0) (block_number s0) i); [by apply (ci_info s Hs relay)|].
      apply (ci_period s Hs). intros He. by rewrite He, lookup_empty in Hc. }
    case_decide; [|destruct (transfer account_id who amount (cr_ledger s0)) as [l|] eqn:Htr];
      (etrans; [apply (IH (paid amount t i)); [done.. |apply Hc1]|]); simpl; [lia| |lia].
    rewrite (transfer_receives _ _ _ _ _ Htr) by congruence. simpl. lia.
  - assert (exists e, get_money (Signed who) s0 = (Err e, s0)) as [e He].
    { apply get_money_refused. intros who' relay' i' [= <-] Ha' Hc'.
      change (AssociatedAccount s !! who = Some relay') in Ha'.
      change (Contributors s !! relay' = Some i') in Hc'. by simplify_eq. }
    rewrite He in *. by apply (IH i s0).
Qed.

(** ** Vesting *)

(** The specification: a reward of [total] vests from block [start] on, in equal
    parts per block of the period. *)
Definition vested (total period start now : Z) : Z := Z.min total (total / period * (now - start)).

(** The record of a contributor in block [now] follows the specification. *)
Record vesting (total period start now : Z) (i : RewardInfo) : Prop := {
  vest_total : total_reward i = total;
  vest_claimed : claimed_reward i = vested total period start (last_paid i);
  vest_start : start <= last_paid i <= now;
}.

(** A claim in block [now] brings the record up to what has vested by then. *)
Lemma vesting_claim who relay period start i s :
  crowdloan_inv s -> AssociatedAccount s !! who = Some relay -> Contributors s !! relay = Some i ->
  RewardPeriod s = period -> vesting (total_reward i) period start (block_number s) i ->
  let s' := (get_money (Signed who) s).2 in
  exists i', Contributors s' !! relay = Some i' /\
    vesting (total_reward i) period start (block_number s) i' /\
    claimed_reward i' = vested (total_reward i) period start (block_number s) /\
    AssociatedAccount s' = AssociatedAccount s /\ RewardPeriod s' = RewardPeriod s.
Proof.
  intros Hs Ha Hc <- Hv. pose proof (ci_info s Hs relay i Hc) as Hi.
  assert (0 < RewardPeriod s) as Hp.
  { apply (ci_period s Hs). intros He. by rewrite He, lookup_empty in Hc. }
  destruct Hv as [_ Hcl Hst]. unfold vested in *.
  assert (0 <= total_reward i / RewardPeriod s) as Hq by (apply Z.div_pos; destruct Hi; lia).
  set (q := total_reward i / RewardPeriod s) in *.
  destruct (decide (claimed_reward i < total_reward i)) as [Hlt|Hge]; cbv zeta.
  - rewrite (get_money_run who relay i s) by done. cbv zeta.
    set (amount := claimable _ _ i). set (s1 := Contributors_put _ s).
    assert (forall s', Contributors s' = Contributors s1 -> AssociatedAccount s' = AssociatedAccount s ->
      RewardPeriod s' = RewardPeriod s ->
      exists i', Contributors s' !! relay = Some i' /\
        vesting (total_reward i) (RewardPeriod s) start (block_number s) i' /\
        claimed_reward i' = Z.min (total_reward i) (q * (block_number s - start)) /\
        AssociatedAccount s' = AssociatedAccount s /\ RewardPeriod s' = RewardPeriod s) as Hgoal.
    { intros s' -> -> ->. exists (paid amount (block_number s) i).
      assert (claimed_reward i + amount = Z.min (total_reward i) (q * (block_number s - start))) as Heq.
      { unfold amount, claimable. fold q. nia. }
      split_and!; try done; [apply lookup_insert_eq|]. split; simpl; [done|exact Heq|lia]. }
    case_decide; [by apply Hgoal|]. by destruct (transfer _ _ _ _); apply Hgoal.
  - destruct (get_money_refused (Signed who) s) as [e He].
    { intros ??? [= <-] Ha' Hc'. by simplify_eq. }
    rewrite He. exists i. split_and!; try done. nia.
Qed.

(** [C19] Claims implement linear vesting, whenever they are made: what is recorded
    as claimed after a claim in block [t] is exactly what has vested by [t],
    however often and in whichever earlier blocks the contributor claimed. *)
Theorem claims_implement_vesting who relay i start times t s :
  crowdloan_inv s -> AssociatedAccount s !! who = Some relay -> Contributors s !! relay = Some i ->
  vesting (total_reward i) (RewardPeriod s) start (last_paid i) i ->
  Sorted Z.le (last_paid i :: times ++ [t]) -> Forall (U.ok 32) (times ++ [t]) ->
  exists i', Contributors (claim_all who (times ++ [t]) s) !! relay = Some i' /\
    total_reward i' = total_reward i /\
    claimed_reward i' = vested (total_reward i) (RewardPeriod s) start t.
Proof.
  intros Hs Ha Hc Hv Hsort Hok. apply Sorted_StronglySorted in Hsort; [|intros ???; lia].
  set (total := total_reward i) in *. set (period := RewardPeriod s) in *.
  assert (forall times now i s, crowdloan_inv s -> AssociatedAccount s !! who = Some relay ->
    Contributors s !! relay = Some i -> RewardPeriod s = period -> vesting total period start now i ->
    StronglySorted Z.le (now :: times ++ [t]) -> Forall (U.ok 32) (times ++ [t]) ->
    exists i', Contributors (claim_all who (times ++ [t]) s) !! relay = Some i' /\
      total_reward i' = total /\ claimed_reward i' = vested total period start t) as Hgen.
  2: { by apply (Hgen times (last_paid i) i s). }
  clearbody total period. clear i s times Hs Ha Hc Hv Hsort Hok.
  intros times. induction times as [|t1 times IH]; intros now i s Hs Ha Hc Hp Hv Hsort Hok;
    apply StronglySorted_inv in Hsort as [Hsort Hall]; simpl in *;
    apply Forall_cons in Hok as [Ht Hok]; apply Forall_cons in Hall as [Hle Hall].
  all: match type of Ht with U.ok 32 ?b =>
         set (s0 := block_number_put b s);
         assert (crowdloan_inv s0) as Hs0 by (by destruct Hs);
         assert (vesting (total_reward i) period start b i) as Hv0
           by (destruct Hv; split; [done|congruence|lia]);
         destruct (vesting_claim who relay period start i s0 Hs0 Ha Hc Hp Hv0)
           as (i' & Hc' & Hv' & Hcl & Ha' & Hp'); rewrite (vest_total _ _ _ _ _ Hv) in Hcl, Hv'
       end.
  - exists i'. split; [done|]. split; [by destruct Hv'|done].
  - apply (IH t1 i'); try done; [by apply get_money_inv|by rewrite Ha'|by rewrite Hp'].
Qed.

(** A claim that fails is lost: with [ScantyReward] or [RewardFailed] nothing
    is paid, but the amount is marked claimed, and what is left of the reward
    has shrunk by it. *)
Theorem failed_claim_is_lost who relay i s s' e :
  crowdloan_inv s -> AssociatedAccount s !! who = Some relay -> Contributors s !! relay = Some i ->
  e = ScantyReward \/ e = RewardFailed ->
  get_money (Signed who) s = (Err (ModuleErr e), s') ->
  cr_ledger s' = cr_ledger s /\
  exists i', Contributors s' !! relay = Some i' /\
    total_reward i' - claimed_reward i'
      = total_reward i - claimed_reward i - claimable (RewardPeriod s) (block_number s) i.
Proof.
  intros Hs Ha Hc He H. destruct (decide (claimed_reward i < total_reward i)) as [Hlt|Hge].
  - rewrite (get_money_run who relay i s) in H by done.
    assert (forall a, Contributors (Contributors_put
      (<[relay := paid a (block_number s) i]> (Contributors s)) s) !! relay
      = Some (paid a (block_number s) i)) as Hl by (intros; apply lookup_insert_eq).
    case_decide; [|destruct (transfer _ _ _ _)]; simplify_eq; (split; [done|]);
      eexists; (split; [apply Hl|]); simpl; lia.
  - unfold get_money in H. unfold_monad. rewrite Ha, Hc in H.
    rewrite (proj2 (Z.ltb_ge _ _)) in H by lia. destruct He; simplify_eq.
Qed.

(** A reward of less than one unit per block of the period is never paid:
    every claim fails with [ScantyReward], at any block. *)
Theorem small_reward_never_paid who relay i s :
  crowdloan_inv s -> 0 < minimum_balance ->
  AssociatedAccount s !! who = Some relay -> Contributors s !! relay = Some i ->
  claimed_reward i < total_reward i < RewardPeriod s ->
  exists s', get_money (Signed who) s = (Err (ModuleErr ScantyReward), s') /\
    cr_ledger s' = cr_ledger s.
Proof.
  intros Hs Hm Ha Hc Hlt. destruct (ci_info s Hs relay i Hc) as (Hcl & _ & _).
  rewrite (get_money_run who relay i s) by (done || lia).
  rewrite decide_True; [by eexists|]. unfold claimable. rewrite Z.div_small by lia. lia.
Qed.

Lemma get_money_associated origin s :
  AssociatedAccount (get_money origin s).2 = AssociatedAccount s.
Proof.
  destruct (get_money origin s) as [r s'] eqn:H.
  unfold get_money, checked_div, cr_transfer_or in H. by run H.
Qed.

(** [C35] Associations are authorised: a call changes what relay account a native
    account is associated with only in two ways.  The account itself signs the
    call and shows the relay account's signature of its own id, and had no
    association; or its association moves to the signer of the call, who shows
    the signature of that same relay account. *)
Theorem association_authorised origin c s a :
  let s' := (crowdloan_dispatch origin c s).2 in
  AssociatedAccount s' !! a <> AssociatedAccount s !! a ->
  exists who relay proof, origin = Signed who /\ verify proof (encode who) relay = true /\
    AssociatedAccount s !! who = None /\ AssociatedAccount s' !! who = Some relay /\
    (a = who \/ AssociatedAccount s !! a = Some relay /\ AssociatedAccount s' !! a = None).
Proof.
  intros s'. unfold s'. destruct c as [cs rate eb|relay proof|native relay proof|]; simpl.
  - destruct (initialize_reward _ _ _ _ s) as [r s1] eqn:H. unfold initialize_reward in H.
    unfold_monad. destruct origin; [|by simplify_eq..]. simpl in H.
    destruct (_ <? _); [|by simplify_eq]. simpl in H. destruct (_ <=? _); [|by simplify_eq].
    rewrite record_contributions_run in H. by simplify_eq.
  - destruct (associate_account _ _ _ s) as [r s1] eqn:H. unfold associate_account in H.
    run H; simpl in *; try done. intros Hne. exists who, relay, proof.
    case_bool_decide; [|done]. rewrite lookup_insert_eq. split_and!; try done.
    left. destruct (decide (who = a)); [done|]. by rewrite lookup_insert_ne in Hne.
  - destruct (update_associate_account _ _ _ _ s) as [r s1] eqn:H.
    unfold update_associate_account in H. run H; simpl in *; try done. intros Hne.
    exists who, relay, proof. case_bool_decide; [|done]. rewrite lookup_insert_eq.
    split_and!; try done.
    destruct (decide (who = a)) as [->|Hwa]; [by left|]. right.
    rewrite lookup_insert_ne in Hne |- * by done.
    destruct (decide (native = a)) as [->|Hna].
    + rewrite lookup_delete_eq in Hne |- *. split; [|done].
      by match goal with H : N.eqb _ _ = true |- _ => apply N.eqb_eq in H as -> end.
    + by rewrite lookup_delete_ne in Hne.
  - by rewrite get_money_associated.
Qed.
End Crowdloan.

(** ** Witnesses *)

(** A signature that names the payload and the account it signs for. *)
#[export] Instance mock_crowdloan : CrowdloanConfig := {|
  MultiSignature := list byte * RelayChainAccountId;
  encode a := match Byte.of_N a with Some b => [b] | None => [] end;
  verify sig payload relay := bool_decide (sig = (payload, relay));
|}.

(** Relay account 900 contributed 100 at rate 10 over 100 blocks, account 1 is
    associated with it, and the treasury holds [pot]. *)
Definition mock_rewards (pot : N) : CrowdloanState Ledger :=
  let s := crowdloan_empty (tr_ledger (mock_treasury_state pot)) in
  let s := (initialize_reward Root [(900%N, 100)] 10 100 s).2 in
  (associate_account (Signed 1%N) 900%N ([x01], 900%N) s).2.
Definition mock_info : RewardInfo := mkRewardInfo 1000 0 0.

Lemma mock_initialize_ok : crowdloan_call_ok (call_initialize_reward [(900%N, 100)] 10 100).
Proof. split_and!; [by repeat constructor|..]; unfold U.ok; lia. Qed.

Lemma mock_rewards_reachable pot :
  rtc crowdloan_step (crowdloan_empty (tr_ledger (mock_treasury_state pot))) (mock_rewards pot).
Proof.
  eapply rtc_l; [apply (cstep_call Root), mock_initialize_ok|].
  apply rtc_once. exact (cstep_call (Signed 1%N) (call_associate_account 900%N ([x01], 900%N)) _ I).
Qed.

Lemma mock_rewards_inv pot t : U.ok 32 t -> crowdloan_inv (block_number_put t (mock_rewards pot)).
Proof.
  intros Ht. assert (crowdloan_inv (mock_rewards pot)) as Hs; [|by destruct Hs].
  pose proof (crowdloan_dispatch_inv Root (call_initialize_reward [(900%N, 100)] 10 100) _
    mock_initialize_ok (crowdloan_empty_inv (tr_ledger (mock_treasury_state pot)))) as [Hs _].
  exact (proj1 (crowdloan_dispatch_inv (Signed 1%N)
    (call_associate_account 900%N ([x01], 900%N)) _ I Hs)).
Qed.

Lemma crowdloan_reachable_witness :
  crowdloan_inv (mock_rewards 5000) /\
  (crowdloan_dispatch (Signed 1%N) call_get_money (mock_rewards 5000)).1 <> Panic.
Proof.
  by apply (crowdloan_reachable (tr_ledger (mock_treasury_state 5000)) (mock_rewards 5000)
    (Signed 1%N) call_get_money (mock_rewards_reachable 5000)).
Defined.

Lemma get_money_spec_witness :
  let s := block_number_put 30 (mock_rewards 5000) in
  let '(r, s') := get_money (Signed 1%N) s in
  r = Ok tt /\
  s' = mkCrowdloan (<[900%N := mkRewardInfo 1000 300 30]> (Contributors s)) (AssociatedAccount s)
         (CurrentRewardEndIn s) (RewardPeriod s) 30 (cr_ledger s')
         (cr_events s ++ [RewardPaid 1%N 300]).
Proof.
  intros s. assert (crowdloan_inv s) as Hs by (apply mock_rewards_inv; unfold U.ok; lia).
  pose proof (get_money_spec (Signed 1%N) s Hs) as H.
  clear Hs. vm_compute in H |- *. exact H.
Defined.

Lemma claims_bounded_witness :
  free_balance (cr_ledger (claim_all 1%N [10; 20; 500] (mock_rewards 5000))) 1%N
  <= free_balance (cr_ledger (mock_rewards 5000)) 1%N + (1000 - 0).
Proof.
  apply (claims_bounded 1%N 900%N mock_info).
  - discriminate.
  - apply (mock_rewards_inv 5000 0). unfold U.ok; lia.
  - by repeat constructor.
  - vm_compute. reflexivity.
  - vm_compute. reflexivity.
Defined.

(** 700 of the 1000 have vested by block 70 of 100. *)
Lemma claims_implement_vesting_witness :
  vested 1000 100 0 70 = 700 /\
  exists i', Contributors (claim_all 1%N ([10; 20; 45] ++ [70]) (mock_rewards 5000)) !! 900%N = Some i' /\
    total_reward i' = 1000 /\ claimed_reward i' = vested 1000 100 0 70.
Proof.
  split; [reflexivity|].
  apply (claims_implement_vesting 1%N 900%N mock_info 0 [10; 20; 45] 70 (mock_rewards 5000)).
  - apply (mock_rewards_inv 5000 0). unfold U.ok; lia.
  - vm_compute. reflexivity.
  - vm_compute. reflexivity.
  - split; [reflexivity|reflexivity|simpl; lia].
  - repeat constructor; simpl; lia.
  - repeat constructor; simpl; lia.
Defined.

(** The treasury is empty when the whole reward is claimed. *)
Lemma failed_claim_is_lost_witness :
  let s := block_number_put 100 (mock_rewards 5) in
  let s' := (get_money (Signed 1%N) s).2 in
  cr_ledger s' = cr_ledger s /\
  exists i', Contributors s' !! 900%N = Some i' /\
    total_reward i' - claimed_reward i' = 1000 - 0 - claimable (RewardPeriod s) (block_number s) mock_info.
Proof.
  intros s s'. apply (failed_claim_is_lost 1%N 900%N mock_info s s' RewardFailed).
  - apply mock_rewards_inv. unfold U.ok; lia.
  - vm_compute. reflexivity.
  - vm_compute. reflexivity.
  - by right.
  - vm_compute. reflexivity.
Defined.

Lemma small_reward_never_paid_witness :
  let s := mkCrowdloan {[900%N := mkRewardInfo 99 0 0]} {[1%N := 900%N]} 100 100 5000
             (tr_ledger (mock_treasury_state 5000)) [] in
  exists s', get_money (Signed 1%N) s = (Err (ModuleErr ScantyReward), s') /\
    cr_ledger s' = cr_ledger s.
Proof.
  intros s. apply (small_reward_never_paid 1%N 900%N (mkRewardInfo 99 0 0) s).
  - split; simpl; [|lia | unfold U.ok; lia].
    apply map_Forall_singleton. split_and!; unfold U.ok; simpl; lia.
  - done.
  - vm_compute. reflexivity.
  - vm_compute. reflexivity.
  - simpl. lia.
Defined.

Lemma association_authorised_witness :
  let s := crowdloan_empty (tr_ledger (mock_treasury_state 5)) in
  let s' := (crowdloan_dispatch (Signed 1%N) (call_associate_account 900%N ([x01], 900%N)) s).2 in
  exists who relay proof, Signed 1%N = Signed who /\ verify proof (encode who) relay = true /\
    AssociatedAccount s !! who = None /\ AssociatedAccount s' !! who = Some relay /\
    (1%N = who \/ AssociatedAccount s !! 1%N = Some relay /\ AssociatedAccount s' !! 1%N = None).
Proof. intros s s'. apply association_authorised. vm_compute. discriminate. Defined.
