(* ===== verification/RuntimeFunds.v ===== *)
(** * The Halongbay runtime: two pallets on one ledger

    [runtime/halongbay/src/lib.rs] composes the treasury and the crowdloan
    rewards pallet over one [Balances]: donations fill the treasury's account,
    root allocates from it and contributors claim from it.  This file puts the
    two models together and shows that the account's books balance, and under
    which condition every claim can be paid. *)
From S2P Require Import Prelude StakingTypes Externals Treasury CrowdloanRewards.

(** The calls of the treasury, as [#[pallet::call]] generates them. *)
Inductive TreasuryCall :=
  | call_donate (amount : Balance)
  | call_allocate (dest : AccountId) (amount : Balance).

Section Runtime.
Context {L : Type} `{!Currency L, TC : !TreasuryConfig, CC : !CrowdloanConfig}.

Definition treasury_dispatch (origin : RawOrigin AccountId) (c : TreasuryCall)
    : Treasury.Call (L := L) :=
  match c with
  | call_donate amount => donate origin amount
  | call_allocate dest amount => allocate origin dest amount
  end.

(** [enum Call] of [construct_runtime!], the two pallets of this repository. *)
Inductive RuntimeCall :=
  | Crowdloan (c : CrowdloanCall)
  | Treasury (c : TreasuryCall).

Inductive RuntimeError :=
  | CrowdloanError (e : CrowdloanRewards.Error)
  | TreasuryError (e : Treasury.Error).

(** The storage of both pallets; the ledger and the block number of
    [frame_system] are in the crowdloan's state. *)
Record RuntimeState := mkRuntime {
  rt_crowdloan : CrowdloanState L;
  rt_treasury : list Treasury.Event;
}.
Implicit Types r : RuntimeState.

Definition rt_ledger r : L := cr_ledger (rt_crowdloan r).
Definition crowdloan_put (c : CrowdloanState L) r : RuntimeState := mkRuntime c (rt_treasury r).
Definition treasury_view r : TreasuryState L := mkTreasury (rt_ledger r) (rt_treasury r).
Definition treasury_put (t : TreasuryState L) r : RuntimeState :=
  mkRuntime (cr_ledger_put (tr_ledger t) (rt_crowdloan r)) (tr_events t).

(** [DispatchError::Module { index, .. }]: the error of a pallet, tagged. *)
Definition module_error {E} (tag : E -> RuntimeError) (x : outcome (DispatchError E) unit)
    : outcome (DispatchError RuntimeError) unit :=
  match x with
  | Ok a => Ok a
  | Err BadOrigin => Err BadOrigin
  | Err (ModuleErr e) => Err (ModuleErr (tag e))
  | Panic => Panic
  end.

Definition runtime_dispatch (origin : RawOrigin AccountId) (call : RuntimeCall)
    : M RuntimeState (DispatchError RuntimeError) unit :=
  fun r => match call with
           | Crowdloan c =>
               let '(x, s) := crowdloan_dispatch origin c (rt_crowdloan r) in
               (module_error CrowdloanError x, crowdloan_put s r)
           | Treasury c =>
               let '(x, t) := treasury_dispatch origin c (treasury_view r) in
               (module_error TreasuryError x, treasury_put t r)
           end.

Definition call_args_ok (call : RuntimeCall) : Prop :=
  match call with
  | Crowdloan c => crowdloan_call_ok c
  | Treasury (call_donate _) => True
  | Treasury (call_allocate dest _) => dest <> account_id
  end.

(** ** The books of the treasury's account *)

Definition treasury_flow (e : Treasury.Event) : Z :=
  match e with DonationReceived _ v _ => v | FundsAllocated _ v _ => - v end.
Definition reward_flow (e : CrowdloanRewards.Event) : Z :=
  match e with RewardPaid _ v => - v | _ => 0 end.
(** What the events of both pallets say went into the account, less what went
    out of it. *)
Definition booked r : Z :=
  sumZ treasury_flow (rt_treasury r) + sumZ reward_flow (cr_events (rt_crowdloan r)).
Definition treasury_balance r : Z := free_balance (rt_ledger r) account_id.
(** What the account lacks against the books. *)
Definition unbooked r : Z := booked r - treasury_balance r.

(** A step of the runtime.  The account of a pallet has no key: it signs
    nothing.  [rs_other] is anything else that moves money, and leaves the
    treasury's account alone. *)
Inductive runtime_step : RuntimeState -> RuntimeState -> Prop :=
  | rs_call origin call r :
      origin <> Signed account_id -> call_args_ok call ->
      runtime_step r (runtime_dispatch origin call r).2
  | rs_block n r :
      U.ok 32 n -> runtime_step r (crowdloan_put (block_number_put n (rt_crowdloan r)) r)
  | rs_other l r :
      free_balance l account_id = treasury_balance r ->
      runtime_step r (crowdloan_put (cr_ledger_put l (rt_crowdloan r)) r).

Context `{CL : !CurrencyLaws L}.

(** A payment out of the account costs it the amount, and dust if it dies. *)
Lemma paid_out dst v (l l' : L) :
  transfer account_id dst v l = Some l' -> dst <> account_id ->
  0 <= free_balance l account_id - v - free_balance l' account_id <= minimum_balance.
Proof using CL.
  intros Ht Hne. pose proof (transfer_sends _ _ _ _ _ Ht (not_eq_sym Hne)).
  pose proof (transfer_enough _ _ _ _ _ Ht (not_eq_sym Hne)). pose proof (minimum_balance_nonneg (L := L)).
  destruct (transfer_reaps _ _ _ _ _ Ht (not_eq_sym Hne)) as [|[??]]; lia.
Qed.

Lemma books_frame s r :
  cr_ledger s = rt_ledger r -> cr_events s = cr_events (rt_crowdloan r) ->
  unbooked (crowdloan_put s r) = unbooked r.
Proof using Type.
  unfold unbooked, booked, treasury_balance, rt_ledger. simpl. by intros -> ->.
Qed.
Lemma books_event e s r :
  reward_flow e = 0 -> cr_ledger s = rt_ledger r -> cr_events s = cr_events (rt_crowdloan r) ->
  unbooked (crowdloan_put (cr_deposit_event e s) r) = unbooked r.
Proof using Type.
  unfold unbooked, booked, treasury_balance, rt_ledger. simpl. intros He -> ->.
  rewrite sumZ_app. simpl. lia.
Qed.

Lemma treasury_dispatch_books origin c r t x :
  origin <> Signed account_id -> call_args_ok (Treasury c) ->
  treasury_dispatch origin c (treasury_view r) = (x, t) ->
  0 <= unbooked (treasury_put t r) - unbooked r <= minimum_balance.
Proof using CL.
  intros Ho Hok H. pose proof (minimum_balance_nonneg (L := L)) as Hm.
  unfold treasury_dispatch in H.
  destruct c as [v|dest v]; unfold donate, allocate, transfer_or in H; run H;
    unfold unbooked, booked, treasury_balance, rt_ledger; simpl; rewrite ?sumZ_app; simpl;
    unfold rt_ledger in *; try lia.
  - pose proof (transfer_receives _ _ _ _ _ ltac:(eassumption) ltac:(congruence)). lia.
  - pose proof (paid_out _ _ _ _ ltac:(eassumption) Hok). lia.
Qed.

Lemma crowdloan_dispatch_books origin c r s x :
  origin <> Signed account_id ->
  crowdloan_dispatch origin c (rt_crowdloan r) = (x, s) ->
  0 <= unbooked (crowdloan_put s r) - unbooked r <= minimum_balance.
Proof using CL.
  intros Ho H. pose proof (minimum_balance_nonneg (L := L)) as Hm.
  destruct c as [cs rate eb|relay proof|native relay proof|]; simpl in H.
  - unfold initialize_reward in H. unfold_monad. destruct origin; simpl in H;
      [|by simplify_eq; rewrite books_frame by done; lia..].
    destruct (_ <? _); simpl in H; [|simplify_eq; rewrite books_frame by done; lia].
    destruct (_ <=? _); simpl in H; [|simplify_eq; rewrite books_frame by done; lia].
    rewrite record_contributions_run in H. simplify_eq. rewrite books_frame by done. lia.
  - unfold associate_account in H. run H; simpl in *; rewrite ?books_event, ?books_frame by done; lia.
  - unfold update_associate_account in H.
    run H; simpl in *; rewrite ?books_event, ?books_frame by done; lia.
  - unfold get_money, checked_div, cr_transfer_or in H. run H; simpl in *;
      try (rewrite books_frame by done; lia);
      pose proof (paid_out _ _ _ _ ltac:(eassumption) ltac:(congruence));
      unfold unbooked, booked, treasury_balance, rt_ledger; simpl; rewrite ?sumZ_app; simpl; lia.
Qed.

Lemma runtime_step_books r r' :
  runtime_step r r' -> 0 <= unbooked r' - unbooked r <= minimum_balance.
Proof using CL.
  pose proof (minimum_balance_nonneg (L := L)).
  intros [origin [c|c] r1 Ho Hok|n r1 Hn|l r1 Hl].
  - simpl. destruct (crowdloan_dispatch origin c (rt_crowdloan r1)) as [x s] eqn:E.
    by eapply crowdloan_dispatch_books.
  - simpl. destruct (treasury_dispatch origin c (treasury_view r1)) as [x t] eqn:E.
    by eapply treasury_dispatch_books.
  - unfold unbooked, booked, treasury_balance, rt_ledger. simpl. lia.
  - unfold unbooked, booked, treasury_balance, rt_ledger in *. simpl. lia.
Qed.

(** [C21] The books balance.  Over any run of the runtime the treasury's account
    changes by the donations, allocations and rewards that the events of the two
    pallets announce: nothing leaves it unannounced but the dust of less than
    the minimum balance that a payment may leave, and nothing announced is not
    paid. *)
Theorem treasury_books n r r' :
  nsteps runtime_step n r r' ->
  let lost := treasury_balance r + (booked r' - booked r) - treasury_balance r' in
  0 <= lost <= Z.of_nat n * minimum_balance.
Proof using CL.
  intros Hr. simpl. enough (0 <= unbooked r' - unbooked r <= Z.of_nat n * minimum_balance)
    by (unfold unbooked in *; lia).
  induction Hr as [r|n r1 r2 r3 Hs _ IH]; [lia|].
  pose proof (runtime_step_books r1 r2 Hs). lia.
Qed.

(** ** Solvency *)

(** What contributors may still claim. *)
Definition unclaimed (e : RelayChainAccountId * RewardInfo) : Z :=
  total_reward e.2 - claimed_reward e.2.
Definition outstanding r : Z := map_sum unclaimed (Contributors (rt_crowdloan r)).

(** The treasury holds all of it and its existential deposit. *)
Record funded r : Prop := {
  fd_inv : crowdloan_inv (rt_crowdloan r);
  fd_covers : outstanding r + minimum_balance (L := L) <= treasury_balance r;
}.

(** A step that is not root's, and does not take from the treasury. *)
Inductive user_step : RuntimeState -> RuntimeState -> Prop :=
  | us_call who call r :
      who <> account_id -> call_args_ok call ->
      user_step r (runtime_dispatch (Signed who) call r).2
  | us_block n r :
      U.ok 32 n -> user_step r (crowdloan_put (block_number_put n (rt_crowdloan r)) r)
  | us_other l r :
      treasury_balance r <= free_balance l account_id ->
      user_step r (crowdloan_put (cr_ledger_put l (rt_crowdloan r)) r).

Lemma unclaimed_nonneg r :
  crowdloan_inv (rt_crowdloan r) ->
  map_Forall (fun k i => 0 <= unclaimed (k, i)) (Contributors (rt_crowdloan r)).
Proof using Type.
  intros Hs k i Hi. destruct (ci_info _ Hs k i Hi) as [? _]. unfold unclaimed. simpl. lia.
Qed.
Lemma unclaimed_one r relay i :
  crowdloan_inv (rt_crowdloan r) -> Contributors (rt_crowdloan r) !! relay = Some i ->
  0 <= total_reward i - claimed_reward i <= outstanding r.
Proof using Type.
  intros Hs Hi. pose proof (unclaimed_nonneg r Hs) as Hn. split.
  - apply (Hn relay i Hi).
  - unfold outstanding. rewrite (map_sum_delete _ relay i _ Hi). unfold unclaimed at 1. simpl.
    assert (0 <= map_sum unclaimed (delete relay (Contributors (rt_crowdloan r)))); [|lia].
    apply sumZ_nonneg, Forall_forall. intros [k i'] [_ Hk]%elem_of_map_to_list%lookup_delete_Some.
    by apply (Hn k i').
Qed.

(** A claim takes its amount off what is outstanding. *)
Lemma outstanding_claim relay i a now (s : CrowdloanState L) r :
  Contributors (rt_crowdloan r) !! relay = Some i ->
  Contributors s = <[relay := paid a now i]> (Contributors (rt_crowdloan r)) ->
  outstanding (crowdloan_put s r) = outstanding r - a.
Proof using Type.
  intros Hi Hs. unfold outstanding. simpl. rewrite Hs, map_sum_insert, Hi.
  unfold unclaimed, paid. simpl. lia.
Qed.

Lemma claim_facts who relay i r :
  funded r -> AssociatedAccount (rt_crowdloan r) !! who = Some relay ->
  Contributors (rt_crowdloan r) !! relay = Some i ->
  0 <= claimable (RewardPeriod (rt_crowdloan r)) (block_number (rt_crowdloan r)) i
    <= treasury_balance r - minimum_balance (L := L).
Proof using Type.
  intros [Hs Hc] Ha Hi. pose proof (unclaimed_one r relay i Hs Hi).
  assert (0 < RewardPeriod (rt_crowdloan r)) as Hp.
  { apply (ci_period _ Hs). intros He. by rewrite He, lookup_empty in Hi. }
  pose proof (claimable_range _ (block_number (rt_crowdloan r)) i (ci_info _ Hs relay i Hi) Hp). lia.
Qed.

Lemma funded_get_money who r :
  who <> account_id -> funded r ->
  funded (crowdloan_put (get_money (Signed who) (rt_crowdloan r)).2 r).
Proof using CL.
  intros Hne Hf. pose proof Hf as [Hs Hc]. pose proof (get_money_inv (Signed who) _ Hs) as [Hs' _].
  split; [exact Hs'|]. unfold treasury_balance, rt_ledger in *. simpl.
  destruct (get_money_cases (Signed who) (rt_crowdloan r))
    as [(who' & relay & i & [= <-] & Ha & Hi & Hlt)|[e He]]; [|by rewrite He; destruct r].
  pose proof (claim_facts who relay i r Hf Ha Hi) as Hcl. unfold treasury_balance, rt_ledger in Hcl.
  rewrite (get_money_run who relay i _ Hs Ha Hi Hlt). set (amount := claimable _ _ i) in *.
  assert (forall s, Contributors s = <[relay := paid amount (block_number (rt_crowdloan r)) i]>
                                       (Contributors (rt_crowdloan r)) ->
            outstanding (crowdloan_put s r) = outstanding r - amount) as Ho
    by (intros s; by apply outstanding_claim).
  case_decide; [rewrite Ho by done; simpl; lia|].
  destruct (transfer account_id who amount (cr_ledger (rt_crowdloan r))) as [l|] eqn:Ht;
    rewrite Ho by done; simpl; [|lia].
  destruct (transfer_reaps _ _ _ _ _ Ht (not_eq_sym Hne)) as [->|[_ Hd]]; [lia|].
  pose proof (unclaimed_one r relay i Hs Hi).
  pose proof (claimable_range (RewardPeriod (rt_crowdloan r)) (block_number (rt_crowdloan r)) i) as Hr.
  fold amount in Hr. destruct Hr; [by apply (ci_info _ Hs relay)| |lia].
  apply (ci_period _ Hs). intros He. by rewrite He, lookup_empty in Hi.
Qed.

Lemma funded_donate who v r :
  who <> account_id -> funded r ->
  funded (treasury_put (donate (Signed who) v (treasury_view r)).2 r).
Proof using CL.
  intros Hne [Hs Hc]. destruct (donate (Signed who) v (treasury_view r)) as [x t] eqn:H.
  assert (treasury_balance r <= free_balance (tr_ledger t) account_id) as Hle.
  { pose proof (minimum_balance_nonneg (L := L)). unfold donate, transfer_or in H.
    unfold treasury_balance. run H; simpl; try lia.
    rewrite (transfer_receives _ _ _ _ _ ltac:(eassumption) Hne). lia. }
  split; [by destruct Hs|]. unfold treasury_balance, rt_ledger, outstanding in *. simpl. lia.
Qed.

Lemma funded_user_step r r' : user_step r r' -> funded r -> funded r'.
Proof using CL.
  intros [who [c|[v|dest v]] r1 Hne Hok|n r1 Hn|l r1 Hl] Hf.
  - simpl. destruct c as [cs rate eb|relay proof|native relay proof|].
    + by destruct r1, Hf.
    + pose proof (crowdloan_dispatch_inv (Signed who) (call_associate_account relay proof) _ Hok (fd_inv _ Hf)) as [Hs _].
      simpl in *. destruct (associate_account _ _ _ _) as [x s] eqn:H. unfold associate_account in H.
      split; [exact Hs|]. destruct Hf as [_ Hc]. unfold treasury_balance, rt_ledger, outstanding in *.
      run H; simpl in *; done.
    + pose proof (crowdloan_dispatch_inv (Signed who) (call_update_associate_account native relay proof) _ Hok (fd_inv _ Hf)) as [Hs _].
      simpl in *. destruct (update_associate_account _ _ _ _ _) as [x s] eqn:H.
      unfold update_associate_account in H.
      split; [exact Hs|]. destruct Hf as [_ Hc]. unfold treasury_balance, rt_ledger, outstanding in *.
      run H; simpl in *; done.
    + pose proof (funded_get_money who r1 Hne Hf) as Hg. simpl.
      by destruct (get_money (Signed who) (rt_crowdloan r1)).
  - simpl. pose proof (funded_donate who v r1 Hne Hf) as Hg. simpl in Hg.
    by destruct (donate (Signed who) v (treasury_view r1)).
  - simpl. destruct Hf as [Hs Hc]. by split; [destruct Hs|].
  - destruct Hf as [[Hi Hp Hb] Hc]. by split.
  - destruct Hf as [Hs Hc]. split; [by destruct Hs|].
    unfold treasury_balance, rt_ledger, outstanding in *. simpl in *. lia.
Qed.

(** The currency lets a funded account pay: no lock or hold is on the
    treasury's account. *)
Definition treasury_spendable (l : L) : Prop :=
  forall dst v, dst <> account_id -> minimum_balance (L := L) <= v <= free_balance l account_id ->
    is_Some (transfer account_id dst v l).

(** [C20] Claims are served.  Once the treasury covers everything contributors may
    still claim, then after any number of donations, claims, associations,
    blocks and transfers between other accounts a contributor who is due at
    least the existential deposit is paid exactly what is due. *)
Theorem claims_served r r' who relay i :
  funded r -> rtc user_step r r' -> treasury_spendable (rt_ledger r') -> who <> account_id ->
  AssociatedAccount (rt_crowdloan r') !! who = Some relay ->
  Contributors (rt_crowdloan r') !! relay = Some i ->
  let due := claimable (RewardPeriod (rt_crowdloan r')) (block_number (rt_crowdloan r')) i in
  0 < due -> minimum_balance (L := L) <= due ->
  let '(x, r'') := runtime_dispatch (Signed who) (Crowdloan call_get_money) r' in
  x = Ok tt /\ free_balance (rt_ledger r'') who = free_balance (rt_ledger r') who + due /\
  cr_events (rt_crowdloan r'') = cr_events (rt_crowdloan r') ++ [RewardPaid who due].
Proof using CL.
  intros Hf Hr Hsp Hne Ha Hi due Hdue0 Hdue.
  assert (funded r') as Hf' by (clear -Hf Hr CL; induction Hr; eauto using funded_user_step).
  pose proof (fd_inv _ Hf') as Hs. pose proof (claim_facts who relay i r' Hf' Ha Hi) as Hcl.
  fold due in Hcl. pose proof (minimum_balance_nonneg (L := L)).
  assert (claimed_reward i < total_reward i) as Hlt by (unfold due, claimable in Hdue0; lia).
  simpl. rewrite (get_money_run who relay i _ Hs Ha Hi Hlt). fold due. rewrite decide_False by lia.
  destruct (Hsp who due Hne) as [l Ht]; [unfold treasury_balance in Hcl; lia|].
  unfold rt_ledger in *. rewrite Ht. split_and!; [done | | done].
  simpl. by rewrite (transfer_receives _ _ _ _ _ Ht (not_eq_sym Hne)).
Qed.
End Runtime.

(** ** A runtime over the reference ledger *)

Definition mock_runtime (pot : N) : RuntimeState (L := Ledger) := mkRuntime (mock_rewards pot) [].

Lemma mock_spendable l : treasury_spendable (L := Ledger) l.
Proof.
  intros dst v Hne Hv. change (free_balance l account_id) with (lget (ledger_free l) 77%N) in Hv.
  simpl. rewrite decide_False by (intros E; by apply Hne). rewrite decide_True; [by eexists|].
  change (minimum_balance (L := Ledger)) with 1 in Hv. unfold Balance in *. lia.
Qed.

Lemma mock_funded : funded (mock_runtime 1001).
Proof.
  split; [apply (mock_rewards_inv 1001 0); by split|].
  apply Z.leb_le. vm_compute. reflexivity.
Qed.

(** Account 1 donates 60 and the runtime reaches block 30. *)
Definition mock_donated : RuntimeState (L := Ledger) :=
  (runtime_dispatch (Signed 1%N) (Treasury (call_donate 60)) (mock_runtime 1001)).2.
Definition mock_block_30 : RuntimeState (L := Ledger) :=
  crowdloan_put (block_number_put 30 (rt_crowdloan mock_donated)) mock_donated.

Lemma claims_served_witness :
  let r := mock_block_30 in
  let due := claimable (RewardPeriod (rt_crowdloan r)) (block_number (rt_crowdloan r)) mock_info in
  let '(x, r') := runtime_dispatch (Signed 1%N) (Crowdloan call_get_money) r in
  x = Ok tt /\ free_balance (rt_ledger r') 1%N = free_balance (rt_ledger r) 1%N + due /\
  cr_events (rt_crowdloan r') = cr_events (rt_crowdloan r) ++ [RewardPaid 1%N due].
Proof.
  apply (claims_served (mock_runtime 1001) mock_block_30 1%N 900%N mock_info).
  - apply mock_funded.
  - eapply rtc_l; [apply (us_call 1%N (Treasury (call_donate 60))); [discriminate | exact I]|].
    apply rtc_once, (us_block 30). by split.
  - apply mock_spendable.
  - discriminate.
  - vm_compute. reflexivity.
  - vm_compute. reflexivity.
  - vm_compute. reflexivity.
  - vm_compute. discriminate.
Defined.

Lemma treasury_books_witness :
  let r := mock_runtime 1001 in
  let lost := treasury_balance r + (booked mock_block_30 - booked r) - treasury_balance mock_block_30 in
  0 <= lost <= Z.of_nat 2 * minimum_balance (L := Ledger).
Proof.
  apply (treasury_books 2 (mock_runtime 1001) mock_block_30).
  eapply nsteps_l; [apply (rs_call (Signed 1%N) (Treasury (call_donate 60))); [discriminate | exact I]|].
  apply nsteps_once, (rs_block 30). by split.
Defined.

(** Root can break the promise: an allocation may take what contributors are
    owed.  The treasury covers the whole reward of 1000, root allocates 900, and
    the claim of all of it in block 100 is marked as paid, fails, and is lost. *)
Theorem allocation_starves_claims :
  let r := mock_runtime 1001 in
  funded r /\
  let r := (runtime_dispatch Root (Treasury (call_allocate 2%N 900)) r).2 in
  let r := crowdloan_put (block_number_put 100 (rt_crowdloan r)) r in
  let '(x, r') := runtime_dispatch (Signed 1%N) (Crowdloan call_get_money) r in
  x = Err (ModuleErr (CrowdloanError RewardFailed)) /\ rt_ledger r' = rt_ledger r /\
  Contributors (rt_crowdloan r') !! 900%N = Some (mkRewardInfo 1000 1000 100) /\
  (runtime_dispatch (Signed 1%N) (Crowdloan call_get_money) r').1
    = Err (ModuleErr (CrowdloanError AlreadyPaid)).
Proof. split; [apply mock_funded|]. vm_compute. repeat split. Qed.
