(* ===== verification/AuthorInherent.v ===== *)
(** * The author inherent pallet

    [pallets/author-inherent/src/lib.rs]: the author of a block states its
    account in an inherent extrinsic.  The pallet holds the author while the
    block runs, logs it in the digest and refuses a block without one. *)
From Stdlib Require Import Strings.Byte.
From S2P Require Import Prelude StakingTypes Externals TaylorSeries Inflation StakingPallet.
From S2P Require Import StakingRounds.

(** ** Traits *)

(** [trait EventHandler], over the state of the pallet that handles it. *)
Class EventHandler (S : Type) := handle_author : AccountId -> S -> S.
(** [trait CanAuthor] *)
Class CanAuthor (S : Type) := allows_author : AccountId -> S -> bool.

(** The implementations for [()] and for the staking pallet. *)
#[export] Instance unit_EventHandler : EventHandler unit := fun _ s => s.
#[export] Instance unit_CanAuthor : CanAuthor unit := fun _ _ => true.
#[export] Instance staking_EventHandler {L} : EventHandler (State L) := note_author.
#[export] Instance staking_CanAuthor {L} : CanAuthor (State L) := can_author.

(** ** Codec and inherent data *)

Definition Identifier : Type := list byte.
(** [ENGINE_ID], [b"auth"] *)
Definition ENGINE_ID : Identifier := [x61; x75; x74; x68].
(** [INHERENT_IDENTIFIER], [b"author__"] *)
Definition INHERENT_IDENTIFIER : Identifier := [x61; x75; x74; x68; x6f; x72; x5f; x5f].

(** The SCALE codec of account ids. *)
Class AccountCodec := {
  encode : AccountId -> list byte;
  decode : list byte -> option AccountId;
}.
(** An account id is 32 bytes and decodes to itself. *)
Class AccountCodecLaws `{!AccountCodec} : Prop := {
  decode_encode a : (a < 2 ^ 256)%N -> decode (encode a) = Some a;
  encode_length a : length (encode a) = 32%nat;
}.

(** [sp_inherents::InherentData]: encoded values by identifier; [None] is an
    error, a value that is there already or that does not decode. *)
Class InherentData (D : Type) := {
  data_new : D;
  put_data : Identifier -> list byte -> D -> option D;
  get_data : Identifier -> D -> option (option (list byte));
}.
Class InherentDataLaws (D : Type) `{!InherentData D} : Prop := {
  get_data_new i : get_data i data_new = Some None;
  put_data_new i v : is_Some (put_data i v data_new);
  get_put_data i v d d' : put_data i v d = Some d' -> get_data i d' = Some (Some v);
  get_put_other i j v d d' : put_data i v d = Some d' -> i <> j -> get_data j d' = get_data j d;
}.

(** [enum InherentError] *)
Inductive InherentError := Other (message : string).
Definition is_fatal_error (self : InherentError) : bool := match self with Other _ => true end.

(** ** The pallet *)

Inductive Error := AuthorAlreadySet | CannotBeAuthor.

(** [DigestItem::Consensus] items of the block's digest. *)
Definition Digest : Type := list (Identifier * list byte).

Record AuthorState := mkAuthorState { Author : option AccountId; digest : Digest }.

Inductive Call := set_author_call (author : AccountId).

Section AuthorInherent.
Context `{AC : !AccountCodec}.

Definition on_initialize (s : AuthorState) : AuthorState * Weight :=
  (mkAuthorState None (digest s), 0).

Definition set_author (origin : RawOrigin AccountId) (author : AccountId)
    : M AuthorState (DispatchError Error) unit :=
  ensure_none origin ;;;
  let! current := gets Author in
  ensure (bool_decide (current = None)) (ModuleErr AuthorAlreadySet) ;;;
  modify (fun s => mkAuthorState (Some author) (digest s)) ;;;
  modify (fun s => mkAuthorState (Author s) (digest s ++ [(ENGINE_ID, encode author)])).

(** The assertion aborts the block. *)
Definition on_finalize : M AuthorState (DispatchError Error) unit :=
  let! author := gets Author in
  assert_ (bool_decide (is_Some author)).

(** [bytes[from..to]], which panics out of range. *)
Definition slice (from to : nat) (bytes : list byte) : option (list byte) :=
  if decide (from <= to <= length bytes)%nat then Some (take (to - from) (drop from bytes)) else None.

(** [find_author]; it does not look at the digests. *)
Definition find_author (digests : Digest) (s : AuthorState)
    : outcome (DispatchError Error) (option (list byte)) :=
  match Author s with
  | None => Ok None
  | Some authority_id =>
      match slice 4 24 (encode authority_id) with
      | Some h160 => Ok (Some h160)
      | None => Panic
      end
  end.

(** ** The inherent *)
Context {D : Type} `{ID : !InherentData D}.

(** [InherentError::try_from]; [decode_error] is the derived decoder. *)
Definition try_from (decode_error : list byte -> option InherentError) (id : Identifier)
    (data : list byte) : option InherentError :=
  if bool_decide (id = INHERENT_IDENTIFIER) then decode_error data else None.

Definition provide_inherent_data (author : list byte) (data : D) : option D :=
  put_data INHERENT_IDENTIFIER author data.

(** [None]: not ours; otherwise the application error is passed on. *)
Definition try_handle_error (decode_error : list byte -> option InherentError) (id : Identifier)
    (error : list byte) : option InherentError :=
  if bool_decide (id <> INHERENT_IDENTIFIER) then None else decode_error error.

Definition is_inherent_required (data : D) : InherentError + option InherentError :=
  inr (Some (Other "AuthorInherentRequired"%string)).

Definition create_inherent (data : D) : outcome (DispatchError Error) (option Call) :=
  match get_data INHERENT_IDENTIFIER data with
  | None => Panic
  | Some None => Ok None
  | Some (Some author_raw) =>
      match decode author_raw with
      | None => Panic
      | Some author => Ok (Some (set_author_call author))
      end
  end.

Definition check_inherent (call : Call) (data : D) : InherentError + unit := inr tt.

Definition is_inherent (call : Call) : bool := match call with set_author_call _ => true end.

(** ** A block *)

(** The state after the extrinsics of a block; a failed one leaves the state it
    failed in. *)
Definition apply_extrinsics (xts : list (RawOrigin AccountId * AccountId)) (s : AuthorState)
    : AuthorState :=
  foldl (fun s x => (set_author x.1 x.2 s).2) s xts.

(** A block: initialisation, extrinsics, finalisation. *)
Definition run_block (xts : list (RawOrigin AccountId * AccountId)) (s : AuthorState)
    : outcome (DispatchError Error) unit * AuthorState :=
  on_finalize (apply_extrinsics xts (on_initialize s).1).

(** The unsigned authors among the extrinsics. *)
Definition stated_authors (xts : list (RawOrigin AccountId * AccountId)) : list AccountId :=
  omap (fun x => match x.1 with NoOrigin => Some x.2 | _ => None end) xts.

(** The author and the digest after the extrinsics. *)
Lemma apply_extrinsics_spec xts s :
  apply_extrinsics xts s =
  match Author s, stated_authors xts with
  | None, a :: _ => mkAuthorState (Some a) (digest s ++ [(ENGINE_ID, encode a)])
  | _, _ => s
  end.
Proof.
  unfold apply_extrinsics. revert s. induction xts as [|[o a] xts IH]; intros s.
  - by destruct (Author s).
  - cbn [foldl fst snd]. rewrite IH. destruct o; simpl; [by unfold set_author..|].
    unfold set_author. unfold_monad. simpl. destruct (Author s) as [b|] eqn:Ha; simpl.
    + by rewrite Ha.
    + done.
Qed.

(** A block is accepted exactly when some extrinsic of it states an author
    without a signature.  The first one to do so is the author of the block,
    whatever was set before and whoever tries afterwards, and the digest grows
    by its one entry. *)
Theorem run_block_spec xts s :
  let '(r, s') := run_block xts s in
  match stated_authors xts with
  | a :: _ =>
      r = Ok tt /\ Author s' = Some a /\ digest s' = digest s ++ [(ENGINE_ID, encode a)]
  | [] => r = Panic /\ Author s' = None /\ digest s' = digest s
  end.
Proof.
  unfold run_block, on_finalize. unfold_monad. rewrite apply_extrinsics_spec. simpl.
  by destruct (stated_authors xts).
Qed.

(** [C36] The inherent round trip: from the encoded account the node puts into the
    inherent data, the runtime creates the extrinsic that, in a fresh block,
    sets exactly this account, and block import finds bytes 4 to 23 of its
    encoding as the author's address. *)
Theorem inherent_roundtrip `{!AccountCodecLaws, !InherentDataLaws D} author s :
  (author < 2 ^ 256)%N ->
  exists data, provide_inherent_data (encode author) data_new = Some data /\
    create_inherent data = Ok (Some (set_author_call author)) /\
    let s' := (set_author NoOrigin author (on_initialize s).1).2 in
    Author s' = Some author /\
    exists h160, find_author (digest s') s' = Ok (Some h160) /\ length h160 = 20%nat /\
      (exists pre post, length pre = 4%nat /\ encode author = pre ++ h160 ++ post).
Proof.
  intros Hau. destruct (put_data_new INHERENT_IDENTIFIER (encode author)) as [data Hd].
  exists data. split; [done|]. split.
  { unfold create_inherent. by rewrite (get_put_data _ _ _ _ Hd), decode_encode by done. }
  split; [done|]. pose proof (encode_length author) as Hl.
  unfold find_author, slice. simpl. rewrite decide_True by lia.
  exists (take 20 (drop 4 (encode author))). split; [done|]. split.
  - rewrite length_take, length_drop. lia.
  - exists (take 4 (encode author)), (drop 20 (drop 4 (encode author))).
    split; [rewrite length_take; lia|]. by rewrite !take_drop.
Qed.
End AuthorInherent.

(** ** Witness instances *)

Definition byte_of (a : N) : byte := default x00 (Byte.of_N (a mod 256)).

(** The 256-bit number as [n] bytes, lowest first, and back. *)
Fixpoint key_bytes (n : nat) (a : N) : list byte :=
  match n with O => [] | S n => byte_of a :: key_bytes n (a / 256) end.
Definition key_of_bytes (l : list byte) : N := foldr (fun b a => (Byte.to_N b + 256 * a)%N) 0%N l.

Lemma byte_of_val a : Byte.to_N (byte_of a) = (a mod 256)%N.
Proof.
  unfold byte_of. pose proof (N.mod_lt a 256 ltac:(lia)) as Hlt.
  destruct (Byte.of_N (a mod 256)) as [b|] eqn:Hb; simpl.
  - by apply Byte.to_of_N.
  - apply Byte.of_N_None_iff in Hb. lia.
Qed.

Lemma key_bytes_val n a : key_of_bytes (key_bytes n a) = (a mod 256 ^ N.of_nat n)%N.
Proof.
  revert a. induction n as [|n IH]; intros a; [by rewrite N.mod_1_r|].
  cbn [key_bytes key_of_bytes foldr]. fold (key_of_bytes (key_bytes n (a / 256))).
  rewrite IH, byte_of_val, Nat2N.inj_succ, N.pow_succ_r' by lia.
  by rewrite N.Div0.mod_mul_r.
Qed.

Lemma key_bytes_length n a : length (key_bytes n a) = n.
Proof. revert a. induction n as [|n IH]; intros a; simpl; [done | by rewrite IH]. Qed.

#[export] Instance mock_codec : AccountCodec := {|
  encode a := key_bytes 32 a;
  decode l := Some (key_of_bytes l);
|}.
#[export] Instance mock_codec_laws : AccountCodecLaws.
Proof.
  split.
  - intros a Ha. unfold decode, encode, mock_codec. rewrite key_bytes_val.
    rewrite N.mod_small; [done|]. exact Ha.
  - intros a. apply key_bytes_length.
Qed.

Definition InherentList : Type := list (Identifier * list byte).
#[export] Instance list_inherent_data : InherentData InherentList := {|
  data_new := [];
  put_data i v d := if decide (i ∈ d.*1) then None else Some ((i, v) :: d);
  get_data i d := Some (snd <$> head (filter (fun e => e.1 = i) d));
|}.
#[export] Instance list_inherent_data_laws : InherentDataLaws InherentList.
Proof.
  split; simpl.
  - done.
  - intros i v. by eexists.
  - intros i v d d' H. case_decide; simplify_eq. rewrite filter_cons. by rewrite decide_True.
  - intros i j v d d' H Hij. case_decide; simplify_eq. rewrite filter_cons. by rewrite decide_False.
Qed.

Lemma inherent_roundtrip_witness :
  let s := mkAuthorState None [] in
  exists data, provide_inherent_data (D := InherentList) (encode 7%N) data_new = Some data /\
    create_inherent data = Ok (Some (set_author_call 7%N)) /\
    let s' := (set_author NoOrigin 7%N (on_initialize s).1).2 in
    Author s' = Some 7%N /\
    exists h160, find_author (digest s') s' = Ok (Some h160) /\ length h160 = 20%nat /\
      (exists pre post, length pre = 4%nat /\ encode 7%N = pre ++ h160 ++ post).
Proof. intros s. apply (inherent_roundtrip (D := InherentList) 7%N s). reflexivity. Defined.
