(* ===== verification/PalletTests.v ===== *)
(** * The tests of the treasury, crowdloan and author inherent pallets

    The mocks of [pallets/{treasury,crowdloan-rewards}/src/mock.rs] and the tests
    of the three pallets, replayed on the models: each [Example] is the test of
    its name, with the errors, balances and events the test expects. *)
From Stdlib Require Import Strings.Byte.
From S2P Require Import Prelude StakingTypes Externals Treasury CrowdloanRewards RuntimeFunds.
From S2P Require Import AuthorInherent StakingMock.

(** ** The treasury *)

Module TreasuryTests.
Definition ONE_COIN_UNIT : Balance := 1000000000000.
Definition MINIMUM_BALANCE : Balance := 500.
(** The mock's existential deposit. *)
#[local] Instance currency : Currency Ledger := ledger_currency MINIMUM_BALANCE.

Definition mock_test : TreasuryState Ledger :=
  let balances := [(1%N, 1000 * ONE_COIN_UNIT); (2%N, 1000 * ONE_COIN_UNIT)] in
  mkTreasury (mkLedger (list_to_map ((fun e => (e.1, Z.to_N e.2)) <$> balances)) ∅ (sumZ snd balances)) [].

Example donate_with_scanty_amount : donate (Signed 1%N) 1 mock_test = (Err (ModuleErr ScantyAmount), mock_test).
Proof. reflexivity. Qed.

Example allocate_with_scanty_amount :
  allocate Root 1%N 1 mock_test = (Err (ModuleErr ScantyAmount), mock_test).
Proof. reflexivity. Qed.

Example donate_work :
  let fund := 100 * ONE_COIN_UNIT in
  let '(r, s) := donate (Signed 1%N) fund mock_test in
  r = Ok tt /\ tr_events s = [DonationReceived 1%N fund (fund - MINIMUM_BALANCE)].
Proof. vm_compute. by split. Qed.

Example allocate_work :
  let fund := 100 * ONE_COIN_UNIT in
  let reward := 50 * ONE_COIN_UNIT in
  let s := (donate (Signed 1%N) fund mock_test).2 in
  let '(r, s) := allocate Root 3%N reward s in
  r = Ok tt /\
  tr_events s = [DonationReceived 1%N fund (fund - MINIMUM_BALANCE);
                 FundsAllocated 3%N reward (fund - reward - MINIMUM_BALANCE)].
Proof. vm_compute. by split. Qed.

Example allocate_error :
  allocate Root 1%N (100000 * ONE_COIN_UNIT) mock_test = (Err (ModuleErr FailedAllocation), mock_test).
Proof. reflexivity. Qed.

Example donate_error :
  donate (Signed 1%N) (1000000 * ONE_COIN_UNIT) mock_test = (Err (ModuleErr FailedDonation), mock_test).
Proof. reflexivity. Qed.
End TreasuryTests.

(** ** The crowdloan rewards *)

Module CrowdloanTests.
Definition Runtime : Type := RuntimeState (L := Ledger).
(** The public keys of [get_ed25519_pairs]; the signature of a pair over a
    payload is the one of [mock_crowdloan]. *)
Definition pair (i : N) : RelayChainAccountId := (900 + i)%N.
Definition sign (i : N) (payload : AccountId) : MultiSignature := (CrowdloanRewards.encode payload, pair i).

Definition Crowdloan_call (origin : RawOrigin AccountId) (c : CrowdloanCall) (s : Runtime)
    : option CrowdloanRewards.Error * Runtime :=
  let '(r, s) := runtime_dispatch origin (Crowdloan c) s in
  (match r with Err (ModuleErr (CrowdloanError e)) => Some e | _ => None end, s).

(** [ExtBuilder::build]: the rewards are initialised in the genesis block. *)
Definition build (contributions : list (RelayChainAccountId * Z)) : Runtime :=
  let l := mkLedger {[100%N := 100000000%N]} ∅ 100000000 in
  let s := mkRuntime (crowdloan_empty l) [] in
  let s := (Crowdloan_call Root (call_initialize_reward contributions 10 10) s).2 in
  crowdloan_put (block_number_put 1 (rt_crowdloan s)) s.
Definition mock_test : Runtime := build [(1%N, 500); (2%N, 500); (pair 0, 500)].
Definition run_to_block (n : BlockNumber) (s : Runtime) : Runtime :=
  if decide (block_number (rt_crowdloan s) < n)
  then crowdloan_put (block_number_put n (rt_crowdloan s)) s else s.
Definition events (s : Runtime) : list CrowdloanRewards.Event := cr_events (rt_crowdloan s).
Definition info_of (who : RelayChainAccountId) (s : Runtime) : option RewardInfo :=
  Contributors (rt_crowdloan s) !! who.
Definition treasury_funded (s : Runtime) : Runtime :=
  (runtime_dispatch (Signed 100%N) (Treasury (call_donate 10000000)) s).2.

Example init_reward_work :
  let again := call_initialize_reward [(1%N, 500); (2%N, 500)] 10 in
  let s := run_to_block 10 mock_test in
  (Crowdloan_call Root (again 10) mock_test).1 = Some AlreadyInitReward /\
  (Crowdloan_call Root (again 10) s).1 = Some InvalidEndBlock /\
  (Crowdloan_call Root (again 20) s).1 = None.
Proof. vm_compute. repeat split. Qed.

Example associate_account_work :
  let call := call_associate_account (pair 0) (sign 0 1%N) in
  (Crowdloan_call (Signed 2%N) call mock_test).1 = Some InvalidSignature /\
  let '(r, s) := Crowdloan_call (Signed 1%N) call mock_test in
  r = None /\ (Crowdloan_call (Signed 1%N) call s).1 = Some AlreadyAssociated /\
  events s = [AssociatedAccountEvent 1%N (pair 0)].
Proof. vm_compute. repeat split. Qed.

(** The states of [get_money_work]: accounts 11, who has not contributed, and 1,
    who has, are associated; 1 claims in the blocks 2, 8 and 11. *)
Definition associated : Runtime :=
  let s := treasury_funded mock_test in
  let s := (Crowdloan_call (Signed 11%N) (call_associate_account (pair 1) (sign 1 11%N)) s).2 in
  (Crowdloan_call (Signed 1%N) (call_associate_account (pair 0) (sign 0 1%N)) s).2.
Definition claimed_at (n : BlockNumber) (s : Runtime) : Runtime :=
  (Crowdloan_call (Signed 1%N) call_get_money (run_to_block n s)).2.

Example get_money_work :
  let claim who s := (Crowdloan_call (Signed who) call_get_money s).1 in
  let s2 := claimed_at 2 associated in
  let s8 := claimed_at 8 s2 in
  let s11 := claimed_at 11 s8 in
  claim 1%N (treasury_funded mock_test) = Some NoAssociatedAccount /\
  claim 11%N associated = Some NotContributedYet /\
  claim 1%N (run_to_block 2 associated) = None /\ claim 1%N s2 = Some ScantyReward /\
  info_of (pair 0) s2 = Some (mkRewardInfo 5000 1000 2) /\
  (claimed_reward <$> info_of (pair 0) s8) = Some 4000 /\
  (claimed_reward <$> info_of (pair 0) s11) = Some 5000 /\
  claim 1%N s11 = Some AlreadyPaid /\
  events s11 = [AssociatedAccountEvent 11%N (pair 1); AssociatedAccountEvent 1%N (pair 0);
                RewardPaid 1%N 1000; RewardPaid 1%N 3000; RewardPaid 1%N 1000].
Proof. vm_compute. repeat split. Qed.

Example update_associate_account_work :
  let update who native i sig s :=
    Crowdloan_call (Signed who) (call_update_associate_account native (pair i) sig) s in
  let s := (Crowdloan_call (Signed 1%N) (call_associate_account (pair 0) (sign 0 1%N))
              (treasury_funded mock_test)).2 in
  (update 2%N 1%N 1%N (sign 1 2%N) s).1 = Some BadRelayAccount /\
  (update 2%N 1%N 0%N (sign 1 2%N) s).1 = Some InvalidSignature /\
  (update 2%N 2%N 1%N (sign 1 2%N) s).1 = Some NoAssociatedAccount /\
  let s := claimed_at 5 s in
  let '(r, s) := update 3%N 1%N 0%N (sign 0 3%N) s in
  r = None /\
  let s := run_to_block 6 s in
  let '(r, s) := Crowdloan_call (Signed 3%N) call_get_money s in
  r = None /\ (Crowdloan_call (Signed 1%N) call_get_money s).1 = Some NoAssociatedAccount.
Proof. vm_compute. repeat split. Qed.
End CrowdloanTests.

(** ** The author inherent *)

Module AuthorTests.
(** [roll_to], for the pallet alone; the block number of [frame_system] is an
    argument. *)
Fixpoint roll (blocks : nat) (s : AuthorState) : AuthorState :=
  match blocks with O => s | S n => roll n (AuthorInherent.on_initialize s).1 end.
Definition roll_to (from to : BlockNumber) (s : AuthorState) : AuthorState := roll (Z.to_nat (to - from)) s.

Example set_author_works :
  let s := mkAuthorState None [] in
  let '(r, s) := set_author NoOrigin 1%N s in
  r = Ok tt /\
  let '(r, s) := set_author NoOrigin 1%N (roll_to 0 1 s) in
  r = Ok tt /\ Author (roll_to 1 2 s) = None.
Proof. vm_compute. repeat split. Qed.

Example double_author_fails :
  let s := (set_author NoOrigin 1%N (mkAuthorState None [])).2 in
  set_author NoOrigin 1%N s = (Err (ModuleErr AuthorAlreadySet), s).
Proof. vm_compute. reflexivity. Qed.
End AuthorTests.
