(* ===== verification/NodeMaintenance.v ===== *)
(** * The node's Ethereum pools

    [node/src/service.rs]: the two tasks that run on every imported block, for
    the pool of event filters and the pool of pending transactions, as
    [start_node_impl] and [start_dev] spawn them. *)
From S2P Require Import Prelude.

(** [FILTER_RETAIN_THRESHOLD] and [TRANSACTION_RETAIN_THRESHOLD] *)
Definition FILTER_RETAIN_THRESHOLD : Z := 100.
Definition TRANSACTION_RETAIN_THRESHOLD : Z := 5.

(** The digest log of the Frontier pallet: [try_to_frontier] recognises its
    items, [end_block] gives the transactions an [EndBlock] lists. *)
Class FrontierLog := {
  DigestLog : Type;
  ConsensusLog : Type;
  TxHash : Type;
  TxHash_eq_dec : EqDecision TxHash;
  TxHash_countable : @Countable TxHash TxHash_eq_dec;
  try_to_frontier : DigestLog -> option ConsensusLog;
  end_block : ConsensusLog -> option (list TxHash);
}.
#[export] Existing Instance TxHash_eq_dec.
#[export] Existing Instance TxHash_countable.

(** A pool entry remembers the block it was made at. *)
Record Pooled (A : Type) := mkPooled { pooled : A; at_block : Z }.
Arguments mkPooled {A}.
Arguments pooled {A} _.
Arguments at_block {A} _.

(** What a task sees of an imported block. *)
Record Notification `{FrontierLog} := mkNotification {
  number : Z;
  logs : list DigestLog;
}.

Section Filters.
Context `{Countable K} {A : Type}.
Implicit Types pool : gmap K (Pooled A).

(** [v.at_block + threshold] in [u64] *)
Definition lifespan_limit (threshold : Z) (v : Pooled A) : Z := U.add 64 (at_block v) threshold.

(** "frontier-filter-pool": the loop runs over a clone of the pool. *)
Definition maintain_filter_pool (imported_number : Z) pool : gmap K (Pooled A) :=
  foldl (fun locked e =>
           if lifespan_limit FILTER_RETAIN_THRESHOLD e.2 <=? imported_number
           then delete e.1 locked else locked)
    pool (map_to_list pool).

Lemma maintain_filter_pool_lookup n pool k :
  maintain_filter_pool n pool !! k
  = pool !! k ≫= fun v => if lifespan_limit FILTER_RETAIN_THRESHOLD v <=? n then None else Some v.
Proof.
  unfold maintain_filter_pool.
  rewrite (foldl_keyed (fun k (m : gmap K (Pooled A)) => m !! k)
    (fun _ v x => if lifespan_limit FILTER_RETAIN_THRESHOLD v <=? n then None else x)).
  - rewrite list_to_map_to_list. destruct (pool !! k) as [v|]; simpl; [|done]. by case_match.
  - apply NoDup_fst_map_to_list.
  - intros s' k' v. simpl. case_match; [apply lookup_delete_eq | done].
  - intros s' k' k'' v Hne. simpl. case_match; [by apply lookup_delete_ne | done].
Qed.

(** A filter lives for a hundred blocks: over any sequence of imported blocks
    it is kept, untouched, exactly as long as all their numbers are below its
    own block plus 100. *)
Theorem filter_lifetime pool k v (imported : list Z) :
  pool !! k = Some v -> 0 <= at_block v < 2 ^ 64 - FILTER_RETAIN_THRESHOLD ->
  foldl (fun p n => maintain_filter_pool n p) pool imported !! k
  = if decide (Forall (fun n => n < at_block v + FILTER_RETAIN_THRESHOLD) imported)
    then Some v else None.
Proof.
  intros Hk Hb. assert (lifespan_limit FILTER_RETAIN_THRESHOLD v
    = at_block v + FILTER_RETAIN_THRESHOLD) as Hl.
  { unfold lifespan_limit. apply add_exact. unfold FILTER_RETAIN_THRESHOLD in *. lia. }
  assert (forall l p, p !! k = None -> foldl (fun p n => maintain_filter_pool n p) p l !! k = None)
    as Hgone.
  { intros l. induction l as [|n l IH]; intros p Hp; simpl; [done|]. apply IH.
    by rewrite maintain_filter_pool_lookup, Hp. }
  revert pool Hk. induction imported as [|n l IH]; intros pool Hk; cbn [foldl].
  - by rewrite decide_True.
  - pose proof (maintain_filter_pool_lookup n pool k) as Hm. rewrite Hk in Hm. simpl in Hm.
    rewrite Hl in Hm. destruct (Z.leb_spec (at_block v + FILTER_RETAIN_THRESHOLD) n).
    + rewrite Hgone by done. rewrite decide_False; [done|]. rewrite Forall_cons. lia.
    + rewrite IH by done. apply decide_ext. rewrite Forall_cons. intuition lia.
Qed.
End Filters.

Section Pending.
Context `{FL : !FrontierLog} {A : Type}.
Implicit Types pool : gmap TxHash (Pooled A).

(** The loop over the digest's logs: the last one recognised stays. *)
Definition find_log (ls : list DigestLog) : option ConsensusLog :=
  foldl (fun frontier_log l =>
           match try_to_frontier l with Some log => Some log | None => frontier_log end) None ls.

(** [locked.retain(..)] twice. *)
Definition retain_pending (frontier_log : option ConsensusLog) (imported_number : Z) pool
    : gmap TxHash (Pooled A) :=
  let pool := match frontier_log ≫= end_block with
              | Some transaction_hashes => filter (fun e => ~ e.1 ∈ transaction_hashes) pool
              | None => pool
              end in
  filter (fun e => imported_number < lifespan_limit TRANSACTION_RETAIN_THRESHOLD e.2) pool.

(** "frontier-pending-transactions" of [start_node_impl], which reads the logs
    forwards, and of [start_dev], which reads them backwards. *)
Definition maintain_pending (n : Notification) pool : gmap TxHash (Pooled A) :=
  retain_pending (find_log (logs n)) (number n) pool.
Definition maintain_pending_dev (n : Notification) pool : gmap TxHash (Pooled A) :=
  retain_pending (find_log (reverse (logs n))) (number n) pool.

(** The Frontier items of a digest. *)
Definition frontier_logs (ls : list DigestLog) : list ConsensusLog := omap try_to_frontier ls.

Lemma find_log_last ls : find_log ls = last (frontier_logs ls).
Proof.
  unfold find_log, frontier_logs. induction ls as [|l ls IH] using rev_ind; [done|].
  rewrite foldl_app, omap_app. simpl. rewrite IH.
  destruct (try_to_frontier l); [by rewrite last_snoc | by rewrite app_nil_r].
Qed.

Lemma omap_rev {X Y} (f : X -> option Y) (l : list X) : omap f (reverse l) = reverse (omap f l).
Proof.
  induction l as [|x l IH]; [done|]. rewrite reverse_cons, omap_app, IH. simpl.
  destruct (f x); [by rewrite reverse_cons | by rewrite app_nil_r].
Qed.

(** The hashes the notified block processed. *)
Definition processed (log : option ConsensusLog) : list TxHash := default [] (log ≫= end_block).

Lemma retain_pending_lookup log n pool h v :
  0 <= at_block v < 2 ^ 64 - TRANSACTION_RETAIN_THRESHOLD -> pool !! h = Some v ->
  retain_pending log n pool !! h
  = if decide (~ h ∈ processed log /\ n < at_block v + TRANSACTION_RETAIN_THRESHOLD)
    then Some v else None.
Proof.
  intros Hb Hv. assert (lifespan_limit TRANSACTION_RETAIN_THRESHOLD v
    = at_block v + TRANSACTION_RETAIN_THRESHOLD) as Hl.
  { unfold lifespan_limit. apply add_exact. unfold TRANSACTION_RETAIN_THRESHOLD in *. lia. }
  assert (forall n' (p : gmap TxHash (Pooled A)) o, p !! h = o ->
    filter (fun e => n' < lifespan_limit TRANSACTION_RETAIN_THRESHOLD e.2) p !! h
    = o ≫= fun v => if decide (n' < lifespan_limit TRANSACTION_RETAIN_THRESHOLD v)
                    then Some v else None) as Hf.
  { intros n' p o <-. rewrite map_lookup_filter. destruct (p !! h); [|done]. simpl.
    case_decide; by simplify_option_eq. }
  unfold retain_pending, processed. destruct (log ≫= end_block) as [hs|]; simpl.
  - destruct (decide (h ∈ hs)) as [Hin|Hout].
    + rewrite (Hf _ _ None); [by rewrite decide_False by tauto|].
      apply map_lookup_filter_None. right. intros v' _ Hn. by apply Hn.
    + rewrite (Hf _ _ (Some v)); [|by apply map_lookup_filter_Some]. simpl. rewrite Hl.
      apply decide_ext. tauto.
  - rewrite (Hf _ _ (Some v) Hv). simpl. rewrite Hl. apply decide_ext.
    pose proof (not_elem_of_nil h). tauto.
Qed.

(** [C37] A pending transaction leaves the pool when the block that processed it is
    imported or when it is five blocks old, whichever is first, and stays
    otherwise; what counts as processed is the last Frontier log of the digest
    under [start_node_impl] and the first one under [start_dev]. *)
Theorem maintain_pending_spec n pool h v :
  0 <= at_block v < 2 ^ 64 - TRANSACTION_RETAIN_THRESHOLD -> pool !! h = Some v ->
  let alive log := ~ h ∈ processed log /\ number n < at_block v + TRANSACTION_RETAIN_THRESHOLD in
  maintain_pending n pool !! h
    = (if decide (alive (last (frontier_logs (logs n)))) then Some v else None) /\
  maintain_pending_dev n pool !! h
    = (if decide (alive (head (frontier_logs (logs n)))) then Some v else None).
Proof.
  intros Hb Hv alive. unfold maintain_pending, maintain_pending_dev. rewrite !find_log_last.
  split; [by rewrite (retain_pending_lookup _ _ _ h v)|].
  unfold frontier_logs. rewrite omap_rev, last_reverse.
  by rewrite (retain_pending_lookup _ _ _ h v).
Qed.

(** The two variants agree on every digest with at most one Frontier log,
    which is what the runtime produces. *)
Theorem maintain_pending_agree n pool :
  (length (frontier_logs (logs n)) <= 1)%nat -> maintain_pending n pool = maintain_pending_dev n pool.
Proof.
  intros Hl. unfold maintain_pending, maintain_pending_dev. rewrite !find_log_last. f_equal.
  unfold frontier_logs in *. rewrite omap_rev.
  by destruct (omap try_to_frontier (logs n)) as [|x [|y l]]; [..|simpl in Hl; lia].
Qed.
End Pending.

(** ** Witnesses *)

(** Logs that are numbers: the even ones are Frontier's and list one hash. *)
#[export] Instance mock_logs : FrontierLog := {|
  DigestLog := N; ConsensusLog := N; TxHash := N;
  TxHash_eq_dec := _; TxHash_countable := _;
  try_to_frontier l := if N.even l then Some l else None;
  end_block log := Some [log];
|}.

Lemma filter_lifetime_witness :
  let pool := {[1%N := mkPooled tt 50]} in
  foldl (fun p n => maintain_filter_pool n p) pool [120; 149] !! 1%N
    = (if decide (Forall (fun n => n < 50 + FILTER_RETAIN_THRESHOLD) [120; 149])
       then Some (mkPooled tt 50) else None).
Proof.
  apply (filter_lifetime (K := N) {[1%N := mkPooled tt 50]} 1%N (mkPooled tt 50));
    [reflexivity | simpl; unfold FILTER_RETAIN_THRESHOLD; lia].
Defined.

Lemma maintain_pending_spec_witness :
  let n := mkNotification _ 12 [3; 4; 6]%N in
  let pool := {[4%N := mkPooled tt 10]} in
  let alive log := ~ 4%N ∈ processed log /\ number n < 10 + TRANSACTION_RETAIN_THRESHOLD in
  maintain_pending n pool !! 4%N
    = (if decide (alive (last (frontier_logs (logs n)))) then Some (mkPooled tt 10) else None) /\
  maintain_pending_dev n pool !! 4%N
    = (if decide (alive (head (frontier_logs (logs n)))) then Some (mkPooled tt 10) else None).
Proof.
  intros n pool. apply (maintain_pending_spec n pool 4%N (mkPooled tt 10));
    [simpl; unfold TRANSACTION_RETAIN_THRESHOLD; lia | reflexivity].
Defined.

Lemma maintain_pending_agree_witness :
  let n := mkNotification _ 12 [3; 4]%N in
  let pool : gmap N (Pooled unit) := {[4%N := mkPooled tt 10]} in
  maintain_pending n pool = maintain_pending_dev n pool.
Proof. intros n pool. apply (maintain_pending_agree n pool). vm_compute. lia. Defined.
