(* ===== verification/Networks.v ===== *)
(** * The three networks

    What distinguishes PolkaFoundry, PolkaSmith and Halongbay: the constants of
    [runtime/*/src/constants.rs], the block limits of [runtime/common/src/lib.rs],
    the staging chain specifications of [node/src/chain_spec/*.rs] and the
    election weights of
    [runtime/halongbay/src/weights/pallet_election_provider_multi_phase.rs]. *)
From S2P Require Import Prelude StakingTypes Externals.
#[local] Open Scope pallet_scope.

(** [cli::ForceChain]; also the variants of [client::Client]. *)
Inductive ForceChain := PolkaFoundry | PolkaSmith | Halongbay.
#[export] Instance ForceChain_eq_dec : EqDecision ForceChain.
Proof. solve_decision. Defined.

(** ** [constants::time] *)

Record Time := mkTime { MILLISECS_PER_BLOCK : Z; CHAIN_ID : Z; SS58PREFIX : Z }.

Definition halongbay_time : Time :=
  {| MILLISECS_PER_BLOCK := 12000; CHAIN_ID := 11; SS58PREFIX := 42 |}.
Definition polkafoundry_time : Time :=
  {| MILLISECS_PER_BLOCK := 6000; CHAIN_ID := 13; SS58PREFIX := 99 |}.
Definition polkasmith_time : Time :=
  {| MILLISECS_PER_BLOCK := 6000; CHAIN_ID := 11; SS58PREFIX := 42 |}.
Definition time (c : ForceChain) : Time :=
  match c with
  | PolkaFoundry => polkafoundry_time
  | PolkaSmith => polkasmith_time
  | Halongbay => halongbay_time
  end.

Definition SLOT_DURATION (t : Time) : Z := MILLISECS_PER_BLOCK t.
(** Time as a number of blocks; [as BlockNumber] truncates to 32 bits. *)
Definition MINUTES (t : Time) : Z := 60000 / U.wrap 32 (MILLISECS_PER_BLOCK t).
Definition HOURS (t : Time) : Z := MINUTES t *32 60.
Definition DAYS (t : Time) : Z := HOURS t *32 24.
Definition EPOCH_DURATION_IN_BLOCKS (t : Time) : Z := 10 *32 MINUTES t.
(** [pallet_timestamp] accepts a block at least this long after its parent. *)
Definition MinimumPeriod (t : Time) : Z := SLOT_DURATION t / 2.

(** ** [constants::version] *)

Record RuntimeVersion := mkRuntimeVersion {
  runtime_spec_name : string;
  impl_name : string;
  authoring_version : Z;
  spec_version : Z;
  impl_version : Z;
  transaction_version : Z;
}.

Definition halongbay_version : RuntimeVersion := mkRuntimeVersion "halongbay" "halongbay" 1 1 1 1.
Definition polkafoundry_version : RuntimeVersion :=
  mkRuntimeVersion "polkafoundry" "polkafoundry" 1 1 1 1.
Definition polkasmith_version : RuntimeVersion := mkRuntimeVersion "polkasmith" "polkasmith" 1 1 1 1.
Definition version (c : ForceChain) : RuntimeVersion :=
  match c with
  | PolkaFoundry => polkafoundry_version
  | PolkaSmith => polkasmith_version
  | Halongbay => halongbay_version
  end.

(** ** [runtime_common] *)

Definition BlockHashCount : BlockNumber := 250.

(** [frame_support::weights::DispatchClass], [frame_system::limits] *)
Inductive DispatchClass := Normal | Operational | Mandatory.
#[export] Instance DispatchClass_eq_dec : EqDecision DispatchClass.
Proof. solve_decision. Defined.
Definition all_classes : list DispatchClass := [Normal; Operational; Mandatory].
Record WeightsPerClass := mkWeightsPerClass {
  base_extrinsic : Weight;
  max_total : option Weight;
  reserved : option Weight;
}.

Section BlockLimits.
(** [frame_support::weights::constants::WEIGHT_PER_SECOND] *)
Context {P : Type} `{PT : !PerThing P} (WEIGHT_PER_SECOND : Weight).

Definition NORMAL_DISPATCH_RATIO : P := from_percent 75.
Definition MAXIMUM_BLOCK_WEIGHT : Weight := U.mul 64 2 WEIGHT_PER_SECOND.

(** The [max_total] of the normal class, and what is [reserved] for operational
    extrinsics, in [BlockWeights]. *)
Definition normal_max_total : Weight := pt_mul_balance NORMAL_DISPATCH_RATIO MAXIMUM_BLOCK_WEIGHT.
Definition operational_reserved : Weight :=
  U.sub 64 MAXIMUM_BLOCK_WEIGHT (pt_mul_balance NORMAL_DISPATCH_RATIO MAXIMUM_BLOCK_WEIGHT).

(** [OffchainSolutionLengthLimit], from the length limit of normal extrinsics. *)
Definition OffchainSolutionLengthLimit (normal_length : Z) : Z :=
  pt_mul_balance (from_rational 90 100 : P) normal_length.

(** [BlockLength], from the constructor of [limits]: at most five megabytes, of
    which normal extrinsics may use their ratio. *)
Definition BlockLength {T} (max_with_normal_ratio : Z -> P -> T) : T :=
  max_with_normal_ratio (5 * 1024 * 1024) NORMAL_DISPATCH_RATIO.

Definition AVERAGE_ON_INITIALIZE_RATIO : P := from_percent 10.

(** The builder of [frame_system::limits]: [for_class] changes the weights of
    the classes it names, from the defaults it is given. *)
Definition for_class (classes : list DispatchClass) (f : WeightsPerClass -> WeightsPerClass)
    (w : DispatchClass -> WeightsPerClass) : DispatchClass -> WeightsPerClass :=
  fun class => if decide (class ∈ classes) then f (w class) else w class.

(** [BlockWeights], before [build_or_panic]: the weight of an empty block, the
    weights of the classes, the share [on_initialize] takes on average. *)
Definition BlockWeights (BlockExecutionWeight ExtrinsicBaseWeight : Weight)
    (builder : DispatchClass -> WeightsPerClass) : Weight * (DispatchClass -> WeightsPerClass) * P :=
  let w := for_class all_classes (fun w => mkWeightsPerClass ExtrinsicBaseWeight (max_total w) (reserved w))
             builder in
  let w := for_class [Normal] (fun w =>
             mkWeightsPerClass (base_extrinsic w) (Some normal_max_total) (reserved w)) w in
  let w := for_class [Operational] (fun w =>
             mkWeightsPerClass (base_extrinsic w) (Some MAXIMUM_BLOCK_WEIGHT)
               (Some operational_reserved)) w in
  (BlockExecutionWeight, w, AVERAGE_ON_INITIALIZE_RATIO).

(** [OffchainSolutionWeightLimit], from the [max_extrinsic] of the normal class;
    [None] is a panic. *)
Definition OffchainSolutionWeightLimit (max_extrinsic : option Weight) (BlockExecutionWeight : Weight)
    : option Weight :=
  (fun m => U.sat_sub m BlockExecutionWeight) <$> max_extrinsic.
End BlockLimits.

(** ** Chain specifications *)

(** [chain_spec::Extensions] *)
Record Extensions := mkExtensions { relay_chain : string; para_id : Z }.

(** The entries of [chain_properties]. *)
Record Properties := mkProperties { tokenSymbol : string; tokenDecimals : Z; ss58Format : Z }.

(** [GenesisConfig]: the pallets configured with anything but their default. *)
Record GenesisConfig := mkGenesis {
  code : list Byte.byte;
  balances : list (AccountId * Balance);
  sudo_key : AccountId;
  parachain_id : Z;
  authorities : list AccountId;
}.

Record ChainSpec := mkChainSpec {
  spec_name : string;
  spec_id : string;
  genesis : GenesisConfig;
  properties : option Properties;
  extensions : Extensions;
}.

(** The account of every staging specification. *)
Definition tung : AccountId := 0xea8e9d3cfedc8afec25785703681d424e6aba10b728927b89d87a3776b47ee32%N.

(** [HLB], [PKF], [PKS] *)
Definition HLB : Balance := 1000000000000.
Definition PKF : Balance := 1000000000000000000.
Definition PKS : Balance := 1000000000000000000.
Definition ExistentialDeposit : Balance := 500.

(** [*_staging_testnet_config_genesis]; the three differ in the unit. *)
Definition halongbay_staging_testnet_config_genesis (wasm_binary : list Byte.byte) : GenesisConfig :=
  let ENDOWMENT := U.mul 128 200000000 HLB in
  let endowed_accounts := [tung] in
  mkGenesis wasm_binary ((fun k => (k, ENDOWMENT)) <$> endowed_accounts) tung 1111 [tung].
Definition polkafoundry_staging_testnet_config_genesis (wasm_binary : list Byte.byte)
    : GenesisConfig :=
  let ENDOWMENT := U.mul 128 200000000 PKF in
  let endowed_accounts := [tung] in
  mkGenesis wasm_binary ((fun k => (k, ENDOWMENT)) <$> endowed_accounts) tung 1111 [tung].
Definition polkasmith_staging_testnet_config_genesis (wasm_binary : list Byte.byte) : GenesisConfig :=
  let ENDOWMENT := U.mul 128 200000000 PKS in
  let endowed_accounts := [tung] in
  mkGenesis wasm_binary ((fun k => (k, ENDOWMENT)) <$> endowed_accounts) tung 1111 [tung].

(** [*_staging_testnet_config]: [wasm] is the [WASM_BINARY] of the build. *)
Definition halongbay_staging_testnet_config (wasm : option (list Byte.byte)) : string + ChainSpec :=
  match wasm with
  | None => inl "Halongbay development wasm not available"%string
  | Some wasm_binary =>
      inr (mkChainSpec "Halongbay PC1" "halongbay_staging_testnet"
             (halongbay_staging_testnet_config_genesis wasm_binary)
             (Some (mkProperties "HLB" 12 42)) (mkExtensions "rococo-local" 1111))
  end.
(** Its [chain_properties] is not passed on. *)
Definition polkafoundry_staging_testnet_config (wasm : option (list Byte.byte)) : string + ChainSpec :=
  match wasm with
  | None => inl "PolkaFoundry development wasm not available"%string
  | Some wasm_binary =>
      inr (mkChainSpec "PolkaFoundry PC1" "polkafoundry_staging_testnet"
             (polkafoundry_staging_testnet_config_genesis wasm_binary)
             None (mkExtensions "polkadot-local" 1111))
  end.
Definition polkasmith_staging_testnet_config (wasm : option (list Byte.byte)) : string + ChainSpec :=
  match wasm with
  | None => inl "PolkaSmith development wasm not available"%string
  | Some wasm_binary =>
      inr (mkChainSpec "PolkaSmith PC1" "polkasmith_staging_testnet"
             (polkasmith_staging_testnet_config_genesis wasm_binary)
             (Some (mkProperties "PKS" 18 98)) (mkExtensions "kusama-local" 2009))
  end.

Definition staging (c : ForceChain) (wasm : option (list Byte.byte)) : string + ChainSpec :=
  match c with
  | PolkaFoundry => polkafoundry_staging_testnet_config wasm
  | PolkaSmith => polkasmith_staging_testnet_config wasm
  | Halongbay => halongbay_staging_testnet_config wasm
  end.
(** The unit of the network's token. *)
Definition unit_of (c : ForceChain) : Balance :=
  match c with PolkaFoundry => PKF | PolkaSmith => PKS | Halongbay => HLB end.

(** ** Election weights *)

Section ElectionWeights.
(** [T::DbWeight] *)
Context (db_reads db_writes : Z -> Weight).

(** [a.saturating_add(b)] and [a.saturating_mul(b)] of 64-bit weights. *)
#[local] Abbreviation sadd := (U.sat_add 64).
#[local] Abbreviation smul := (U.sat_mul 64).

Definition on_initialize_nothing : Weight := sadd 21275000 (db_reads 7).
Definition on_initialize_open_signed : Weight := sadd (sadd 105345000 (db_reads 8)) (db_writes 4).
Definition on_initialize_open_unsigned_with_snapshot : Weight :=
  sadd (sadd 104974000 (db_reads 8)) (db_writes 4).
Definition on_initialize_open_unsigned_without_snapshot : Weight :=
  sadd (sadd 18915000 (db_reads 1)) (db_writes 1).
Definition elect_queued : Weight := sadd (sadd 7459479000 (db_reads 2)) (db_writes 6).
Definition submit_unsigned (v t a d : Z) : Weight :=
  sadd (sadd (sadd (sadd (sadd (sadd 0 (smul 4075000 v)) (smul 17000 t)) (smul 13902000 a))
          (smul 3805000 d)) (db_reads 6)) (db_writes 1).
Definition feasibility_check (v t a d : Z) : Weight :=
  sadd (sadd (sadd (sadd (sadd 0 (smul 4208000 v)) (smul 587000 t)) (smul 10207000 a))
          (smul 3984000 d)) (db_reads 3).
End ElectionWeights.

(** ** Properties *)

(** The block times divide a minute: a day is counted as exactly the blocks
    that take 24 hours, nothing wraps around, and the timestamp pallet's minimum
    period is exactly half a slot. *)
Theorem time_exact c :
  MINUTES (time c) * MILLISECS_PER_BLOCK (time c) = 60 * 1000 /\
  DAYS (time c) * MILLISECS_PER_BLOCK (time c) = 24 * 60 * 60 * 1000 /\
  EPOCH_DURATION_IN_BLOCKS (time c) * MILLISECS_PER_BLOCK (time c) = 10 * 60 * 1000 /\
  MinimumPeriod (time c) * 2 = SLOT_DURATION (time c).
Proof. by destruct c. Qed.

Section Limits.
Context {P : Type} `{PT : !PerThing P, PTL : !PerThingLaws P}.

(** The product of a ratio that divides evenly is exact. *)
Lemma pt_mul_balance_exact (p : P) n k :
  0 <= n -> deconstruct p * n = ACCURACY (P := P) * k -> pt_mul_balance p n = k.
Proof using PTL.
  intros Hn Hk. pose proof (pt_mul_balance_nearest p n Hn) as Hr.
  pose proof (accuracy_range (P := P)) as Ha. rewrite Hk in Hr.
  assert (Z.abs (pt_mul_balance p n - k) * ACCURACY (P := P) * 2 <= ACCURACY (P := P)) as H.
  { rewrite <- Z.mul_sub_distr_l in Hr. rewrite Z.abs_mul, (Z.abs_eq ACCURACY) in Hr by lia. lia. }
  nia.
Qed.

(** With parts per billion, normal extrinsics get exactly three quarters of a
    block and operational ones keep exactly the rest in reserve; the off-chain
    solution is limited to nine tenths of the normal length, to the byte. *)
Theorem block_limits w tenth :
  ACCURACY (P := P) = 1000000000 -> 0 <= w < 2 ^ 62 -> 0 <= tenth ->
  4 * normal_max_total (P := P) (2 * w) = 3 * MAXIMUM_BLOCK_WEIGHT (2 * w) /\
  normal_max_total (P := P) (2 * w) + operational_reserved (P := P) (2 * w) =
    MAXIMUM_BLOCK_WEIGHT (2 * w) /\
  OffchainSolutionLengthLimit (P := P) (10 * tenth) = 9 * tenth.
Proof using PTL.
  intros Ha Hw Ht. unfold normal_max_total, operational_reserved, OffchainSolutionLengthLimit.
  assert (MAXIMUM_BLOCK_WEIGHT (2 * w) = 4 * w) as ->.
  { unfold MAXIMUM_BLOCK_WEIGHT, U.mul. rewrite wrap_id; unfold U.ok; lia. }
  assert (deconstruct (NORMAL_DISPATCH_RATIO (P := P)) = 750000000) as Hr.
  { unfold NORMAL_DISPATCH_RATIO. rewrite from_percent_deconstruct, Ha by lia. reflexivity. }
  rewrite (pt_mul_balance_exact _ _ (3 * w)) by (rewrite ?Hr, ?Ha; lia).
  assert (deconstruct (from_rational 90 100 : P) = 900000000) as Ho.
  { rewrite from_rational_deconstruct by (rewrite ?Ha; lia). by rewrite Ha. }
  rewrite (pt_mul_balance_exact _ _ (9 * tenth)) by (rewrite ?Ho, ?Ha; lia).
  unfold U.sub. rewrite wrap_id by (unfold U.ok; lia). lia.
Qed.

(** Whatever the defaults: every class pays the base weight of an extrinsic,
    normal extrinsics are limited to their share, operational ones to the whole
    block with the remaining share reserved, and nothing is changed for
    mandatory ones; the weight limit of the off-chain solution is that of a
    normal extrinsic without the empty block, and never negative. *)
Theorem block_weights_classes w block base builder m :
  let '(b, per_class, _) := BlockWeights (P := P) w block base builder in
  b = block /\ (forall c, base_extrinsic (per_class c) = base) /\
  max_total (per_class Normal) = Some (normal_max_total (P := P) w) /\
  reserved (per_class Normal) = reserved (builder Normal) /\
  max_total (per_class Operational) = Some (MAXIMUM_BLOCK_WEIGHT w) /\
  reserved (per_class Operational) = Some (operational_reserved (P := P) w) /\
  max_total (per_class Mandatory) = max_total (builder Mandatory) /\
  OffchainSolutionWeightLimit (Some m) block = Some (Z.max (m - block) 0).
Proof using Type. split_and!; try done. by intros []. Qed.
End Limits.

(** Two seconds of compute, 5 MB of length of which three quarters are normal. *)
Lemma block_limits_witness :
  normal_max_total (P := Z) 1000000000000 = 1500000000000 /\
  OffchainSolutionLengthLimit (P := Z) 3932160 = 3538944 /\
  normal_max_total (P := Z) 1000000000000 + operational_reserved (P := Z) 1000000000000
    = MAXIMUM_BLOCK_WEIGHT 1000000000000.
Proof.
  split; [reflexivity|]. split; [reflexivity|].
  apply (block_limits (P := Z) 500000000000 393216); [reflexivity|lia|lia].
Defined.

(** A staging specification needs the wasm of its runtime and carries it in
    its genesis.  The genesis is sound: every account once, with at least the
    existential deposit, an issuance that fits a balance, a sudo key and
    authorities that are funded; where the specification states the decimals of
    the token they are those of the runtime's unit. *)
Theorem staging_genesis c wasm :
  match staging c wasm with
  | inl _ => wasm = None
  | inr spec =>
      wasm = Some (code (genesis spec)) /\
      NoDup (balances (genesis spec)).*1 /\
      Forall (fun e => ExistentialDeposit <= e.2) (balances (genesis spec)) /\
      U.ok 128 (sumZ snd (balances (genesis spec))) /\
      sudo_key (genesis spec) ∈ (balances (genesis spec)).*1 /\
      authorities (genesis spec) <> [] /\
      Forall (fun a => a ∈ (balances (genesis spec)).*1) (authorities (genesis spec)) /\
      (forall p, properties spec = Some p -> 10 ^ tokenDecimals p = unit_of c)
  end.
Proof.
  assert (forall x : AccountId, x ∈ [x]) as Hin by (intros; by apply list_elem_of_singleton).
  destruct c, wasm as [w|]; simpl; try done;
    (split_and!; [done|apply NoDup_singleton|by repeat constructor|by vm_compute
                 |apply Hin|done|by repeat constructor|]);
    intros p Hp; by simplify_eq.
Qed.

(** A runtime of one network is not taken for another's: the names differ. *)
Theorem version_identifies c c' :
  runtime_spec_name (version c) = runtime_spec_name (version c') -> c = c'.
Proof. by destruct c, c'. Qed.

(** Where the networks' identities disagree.  PolkaSmith's specification states
    an address format and a parachain id its runtime does not have, and its
    EVM chain id is Halongbay's; everything else agrees and is distinct. *)
Theorem network_identities c c' wasm spec :
  staging c (Some wasm) = inr spec ->
  (para_id (extensions spec) = parachain_id (genesis spec) <-> c <> PolkaSmith) /\
  (forall p, properties spec = Some p -> ss58Format p = SS58PREFIX (time c) <-> c <> PolkaSmith) /\
  (CHAIN_ID (time c) = CHAIN_ID (time c') <->
     c = c' \/ (c <> PolkaFoundry /\ c' <> PolkaFoundry)).
Proof.
  intros Hs. destruct c, c'; simpl in Hs; simplify_eq; simpl;
    (split_and!; [split; congruence|intros p Hp; simplify_eq; simpl; split; congruence|]);
    (split; [intros ?; try lia; (by left) || (right; split; congruence)
            |intros [?|[? ?]]; congruence]).
Qed.

Lemma network_identities_witness :
  exists spec, staging PolkaSmith (Some []) = inr spec /\
    (CHAIN_ID (time PolkaSmith) = CHAIN_ID (time Halongbay) <->
       PolkaSmith = Halongbay \/ (PolkaSmith <> PolkaFoundry /\ Halongbay <> PolkaFoundry)).
Proof.
  eexists. split; [reflexivity|].
  exact (proj2 (proj2 (network_identities PolkaSmith Halongbay [] _ eq_refl))).
Defined.

Section WeightProperties.
Context (db_reads db_writes : Z -> Weight).

Lemma sat_add_exact a b : 0 <= a + b < 2 ^ 64 -> U.sat_add 64 a b = a + b.
Proof. unfold U.sat_add, U.max. lia. Qed.
Lemma sat_mul_exact a b : 0 <= a * b < 2 ^ 64 -> U.sat_mul 64 a b = a * b.
Proof. unfold U.sat_mul, U.max. lia. Qed.

(** Innermost first, an operation that does not saturate is the exact one. *)
Ltac desaturate :=
  repeat match goal with
  | |- context [U.sat_mul 64 ?a ?b] => rewrite (sat_mul_exact a b) by lia
  | |- context [U.sat_add 64 ?a ?b] =>
      lazymatch a with context [U.sat_add] => fail | _ => rewrite (sat_add_exact a b) by lia end
  end.

(** For arguments of 32 bits, and database weights of less than half the range,
    the saturating arithmetic of the election weights never saturates: the
    weights are the linear functions that were benchmarked. *)
Theorem election_weights_exact v t a d :
  U.ok 32 v -> U.ok 32 t -> U.ok 32 a -> U.ok 32 d ->
  0 <= db_reads 6 < 2 ^ 62 -> 0 <= db_writes 1 < 2 ^ 62 -> 0 <= db_reads 3 < 2 ^ 62 ->
  submit_unsigned db_reads db_writes v t a d =
    4075000 * v + 17000 * t + 13902000 * a + 3805000 * d + db_reads 6 + db_writes 1 /\
  feasibility_check db_reads v t a d =
    4208000 * v + 587000 * t + 10207000 * a + 3984000 * d + db_reads 3.
Proof.
  unfold U.ok, submit_unsigned, feasibility_check. change (2 ^ 32) with 4294967296.
  change (2 ^ 62) with 4611686018427387904. intros. split; desaturate; lia.
Qed.
End WeightProperties.

(** The database weights of [RocksDbWeight], 25 and 100 microseconds. *)
Lemma election_weights_exact_witness :
  submit_unsigned (fun n => 25000000 * n) (fun n => 100000000 * n) 10 5 8 2
    = 4075000 * 10 + 17000 * 5 + 13902000 * 8 + 3805000 * 2 + 25000000 * 6 + 100000000 * 1 /\
  feasibility_check (fun n => 25000000 * n) 10 5 8 2
    = 4208000 * 10 + 587000 * 5 + 10207000 * 8 + 3984000 * 2 + 25000000 * 3.
Proof.
  apply (election_weights_exact (fun n => 25000000 * n) (fun n => 100000000 * n) 10 5 8 2);
    unfold U.ok; lia.
Defined.
