(* ===== verification/Runtime.v ===== *)
(** * The three runtimes

    [runtime/{halongbay,polkafoundry,polkasmith}/src/lib.rs]: which pallets each
    runtime is made of and the constants its pallets are configured with.  The
    three files differ in the unit of the token and in the crowdloan and treasury
    pallets, which only Halongbay has. *)
From Stdlib Require Import Strings.Byte.
From S2P Require Import Prelude StakingTypes Externals Networks.

(** ** [construct_runtime!] *)

Module Part.
(** What a runtime uses of a pallet; [ConfigT] is [Config<T>], [EventT] is
    [Event<T>]. *)
Inductive t :=
  | Pallet | Call | Storage | Config | ConfigT | Event | EventT | Inherent | Origin
  | ValidateUnsigned.
#[export] Instance eq_dec : EqDecision t.
Proof. solve_decision. Defined.
End Part.

Record PalletDecl := mkPallet {
  pallet_name : string;
  pallet_path : string;
  pallet_parts : list Part.t;
  (** [= 99] *)
  pallet_index : option Z;
}.

Section Tables.
Import Part.
#[local] Abbreviation pallet name path parts := (mkPallet name path parts None).
#[local] Open Scope string_scope.

Definition polkafoundry_pallets : list PalletDecl :=
  [pallet "System" "frame_system" [Pallet; Call; Config; Storage; EventT];
   pallet "RandomnessCollectiveFlip" "pallet_randomness_collective_flip" [Pallet; Call; Storage];
   pallet "Timestamp" "pallet_timestamp" [Pallet; Call; Storage; Inherent];
   pallet "Balances" "pallet_balances" [Pallet; Call; Storage; ConfigT; EventT];
   pallet "ParachainSystem" "cumulus_pallet_parachain_system" [Pallet; Call; Storage; Inherent; EventT];
   pallet "TransactionPayment" "pallet_transaction_payment" [Pallet; Storage];
   pallet "ParachainInfo" "parachain_info" [Pallet; Storage; Config];
   pallet "Sudo" "pallet_sudo" [Pallet; Call; ConfigT; Storage; EventT];
   pallet "EVM" "pallet_evm" [Pallet; Call; Storage; Config; EventT];
   pallet "Ethereum" "pallet_ethereum" [Pallet; Call; Storage; Event; Config; ValidateUnsigned];
   pallet "Aura" "pallet_aura" [Pallet; ConfigT];
   pallet "AuraExt" "cumulus_pallet_aura_ext" [Pallet; Config];
   pallet "XcmpQueue" "cumulus_pallet_xcmp_queue" [Pallet; Call; Storage; EventT];
   pallet "PolkadotXcm" "pallet_xcm" [Pallet; Call; EventT; Origin];
   pallet "CumulusXcm" "cumulus_pallet_xcm" [Pallet; Call; EventT; Origin];
   pallet "DmpQueue" "cumulus_pallet_dmp_queue" [Pallet; Call; Storage; EventT];
   mkPallet "Spambot" "cumulus_ping" [Pallet; Call; Storage; EventT] (Some 99)].

Definition polkasmith_pallets : list PalletDecl :=
  [pallet "System" "frame_system" [Pallet; Call; Config; Storage; EventT];
   pallet "RandomnessCollectiveFlip" "pallet_randomness_collective_flip" [Pallet; Call; Storage];
   pallet "Timestamp" "pallet_timestamp" [Pallet; Call; Storage; Inherent];
   pallet "Balances" "pallet_balances" [Pallet; Call; Storage; ConfigT; EventT];
   pallet "ParachainSystem" "cumulus_pallet_parachain_system" [Pallet; Call; Storage; Inherent; EventT];
   pallet "TransactionPayment" "pallet_transaction_payment" [Pallet; Storage];
   pallet "ParachainInfo" "parachain_info" [Pallet; Storage; Config];
   pallet "Sudo" "pallet_sudo" [Pallet; Call; ConfigT; Storage; EventT];
   pallet "EVM" "pallet_evm" [Pallet; Call; Storage; Config; EventT];
   pallet "Ethereum" "pallet_ethereum" [Pallet; Call; Storage; Event; Config; ValidateUnsigned];
   pallet "Aura" "pallet_aura" [Pallet; ConfigT];
   pallet "AuraExt" "cumulus_pallet_aura_ext" [Pallet; Config];
   pallet "XcmpQueue" "cumulus_pallet_xcmp_queue" [Pallet; Call; Storage; EventT];
   pallet "PolkadotXcm" "pallet_xcm" [Pallet; Call; EventT; Origin];
   pallet "CumulusXcm" "cumulus_pallet_xcm" [Pallet; Call; EventT; Origin];
   pallet "DmpQueue" "cumulus_pallet_dmp_queue" [Pallet; Call; Storage; EventT];
   mkPallet "Spambot" "cumulus_ping" [Pallet; Call; Storage; EventT] (Some 99)].

Definition halongbay_pallets : list PalletDecl :=
  [pallet "System" "frame_system" [Pallet; Call; Config; Storage; EventT];
   pallet "RandomnessCollectiveFlip" "pallet_randomness_collective_flip" [Pallet; Call; Storage];
   pallet "Timestamp" "pallet_timestamp" [Pallet; Call; Storage; Inherent];
   pallet "Balances" "pallet_balances" [Pallet; Call; Storage; ConfigT; EventT];
   pallet "ParachainSystem" "cumulus_pallet_parachain_system" [Pallet; Call; Storage; Inherent; EventT];
   pallet "TransactionPayment" "pallet_transaction_payment" [Pallet; Storage];
   pallet "ParachainInfo" "parachain_info" [Pallet; Storage; Config];
   pallet "Sudo" "pallet_sudo" [Pallet; Call; ConfigT; Storage; EventT];
   pallet "EVM" "pallet_evm" [Pallet; Call; Storage; Config; EventT];
   pallet "Ethereum" "pallet_ethereum" [Pallet; Call; Storage; Event; Config; ValidateUnsigned];
   pallet "Crowdloan" "pallet_crowdloan_rewards" [Pallet; Call; Storage; EventT];
   pallet "Treasury" "pallet_treasury" [Pallet; Call; Storage; EventT];
   pallet "Aura" "pallet_aura" [Pallet; ConfigT];
   pallet "AuraExt" "cumulus_pallet_aura_ext" [Pallet; Config];
   pallet "XcmpQueue" "cumulus_pallet_xcmp_queue" [Pallet; Call; Storage; EventT];
   pallet "PolkadotXcm" "pallet_xcm" [Pallet; Call; EventT; Origin];
   pallet "CumulusXcm" "cumulus_pallet_xcm" [Pallet; Call; EventT; Origin];
   pallet "DmpQueue" "cumulus_pallet_dmp_queue" [Pallet; Call; Storage; EventT];
   mkPallet "Spambot" "cumulus_ping" [Pallet; Call; Storage; EventT] (Some 99)].
End Tables.

Definition pallets (c : ForceChain) : list PalletDecl :=
  match c with
  | PolkaFoundry => polkafoundry_pallets
  | PolkaSmith => polkasmith_pallets
  | Halongbay => halongbay_pallets
  end.

(** ** [parameter_types!] *)

Section Parameters.
Context (MAXIMUM_BLOCK_WEIGHT : Weight).

Definition MaxLocks : Z := 50.
Definition TransactionByteFee : Balance := 1.
Definition ReservedXcmpWeight : Weight := MAXIMUM_BLOCK_WEIGHT / 4.
Definition ReservedDmpWeight : Weight := MAXIMUM_BLOCK_WEIGHT / 4.
Definition MaxDownwardMessageWeight : Weight := MAXIMUM_BLOCK_WEIGHT / 10.
Definition UnitWeightCost : Weight := 1000.
(** [U256::from(u32::max_value())] *)
Definition BlockGasLimit : Z := U.max 32.
Definition ChainId (c : ForceChain) : Z := CHAIN_ID (time c).
End Parameters.

(** [constants::weights] *)
Definition GAS_PER_SECOND : Z := 40000000.
Definition WEIGHT_PER_GAS (WEIGHT_PER_SECOND : Weight) : Z := WEIGHT_PER_SECOND / GAS_PER_SECOND.

(** ** Properties of the constants *)

(** The runtimes are made of the same pallets under the same names, each once,
    except that Halongbay has the crowdloan and treasury pallets after
    [Ethereum]; the staking and author inherent pallets are in none. *)
Theorem runtime_pallets c :
  NoDup (pallet_name <$> pallets c) /\
  filter (fun p => pallet_path p <> "pallet_crowdloan_rewards"%string /\
                   pallet_path p <> "pallet_treasury"%string) (pallets c) = pallets PolkaSmith /\
  ("pallet_treasury"%string ∈ (pallet_path <$> pallets c) <-> c = Halongbay) /\
  ("pallet_crowdloan_rewards"%string ∈ (pallet_path <$> pallets c) <-> c = Halongbay).
Proof.
  split_and!; [destruct c; apply (bool_decide_eq_true_1 _); by vm_compute
              | by destruct c; vm_compute | destruct c; apply (bool_decide_eq_true_1 _); by vm_compute..].
Qed.

(** Messages of the relay chain and of other chains get up to a quarter of a
    block each, so that half of it is always left to extrinsics, and a single
    downward message less than half of its quarter. *)
Theorem message_weights w :
  0 <= w ->
  ReservedXcmpWeight w + ReservedDmpWeight w <= w / 2 /\
  2 * MaxDownwardMessageWeight w <= ReservedDmpWeight w + 1.
Proof.
  unfold ReservedXcmpWeight, ReservedDmpWeight, MaxDownwardMessageWeight.
  Z.to_euclidean_division_equations. lia.
Qed.

(** The gas limit of a block is not bounded by its weight: at the stated weight
    per gas it is worth more than fifty full blocks. *)
Theorem gas_limit_exceeds_block :
  let second := 1000000000000 in
  50 * (2 * second) < BlockGasLimit * WEIGHT_PER_GAS second.
Proof. vm_compute. reflexivity. Qed.
