(* ===== verification/XcmConfig.v ===== *)
(** * The cross-chain messages of the runtimes

    [runtime/{halongbay,polkafoundry,polkasmith}/src/lib.rs], lines 219 to 353:
    which locations have an account here, which origin a message from a
    location dispatches its calls with, which assets may come in, which messages
    are executed at what price, and where messages may be sent.  The three files
    hold the same text; each is written out below, and the theorems are about
    all three.  The builders are those of [xcm_builder] and [cumulus], classes
    of operations with their documented behaviour as laws. *)
From S2P Require Import Prelude StakingTypes Externals Networks.

(** ** Locations, assets and origins of [xcm::v0] *)

(** What the runtimes do not look at is a code. *)
Inductive NetworkId := Any | Polkadot | Kusama | Named (name : N).
Inductive BodyId := Unit | OtherBody (b : N).
(** A location is the list of its junctions: [X1 a] is [[a]], [X2 a b] is
    [[a; b]]. *)
Inductive Junction :=
  | Parent
  | Parachain (id : Z)
  | AccountId32 (network : NetworkId) (id : AccountId)
  | Plurality (id : BodyId) (part : N)
  | OtherJunction (j : N).
Definition MultiLocation : Type := list Junction.

Inductive MultiAsset :=
  | ConcreteFungible (id : MultiLocation) (amount : Balance)
  | OtherAsset (a : N).

Inductive OriginKind := Native | SovereignAccount | Superuser | XcmKind.

#[export] Instance NetworkId_eq_dec : EqDecision NetworkId.
Proof. solve_decision. Defined.
#[export] Instance BodyId_eq_dec : EqDecision BodyId.
Proof. solve_decision. Defined.
#[export] Instance Junction_eq_dec : EqDecision Junction.
Proof. solve_decision. Defined.

(** [cumulus_pallet_xcm::Origin] *)
Inductive CumulusOrigin := Relay | SiblingParachain (id : Z).
(** [Origin], as [construct_runtime!] generates it. *)
Inductive RuntimeOrigin :=
  | system (o : RawOrigin AccountId)
  | CumulusXcm (o : CumulusOrigin)
  | PolkadotXcm.

(** ** Tuples

    A tuple of handlers tries each in turn: the first that accepts decides. *)

Fixpoint first_some {A B} (fs : list (A -> option B)) (a : A) : option B :=
  match fs with
  | [] => None
  | f :: fs => match f a with Some b => Some b | None => first_some fs a end
  end.

(** Handlers that accept different inputs can be tried in any order. *)
Lemma first_some_iff {A B} (fs : list (A -> option B)) a b :
  (forall f g b b', f ∈ fs -> g ∈ fs -> f a = Some b -> g a = Some b' -> b = b') ->
  first_some fs a = Some b <-> exists f, f ∈ fs /\ f a = Some b.
Proof.
  intros Hu. split.
  - clear Hu. induction fs as [|f fs IH]; simpl; [done|]. destruct (f a) eqn:Hf.
    + intros [= ->]. exists f. split; [by left | done].
    + intros (g & Hg & Hb)%IH. exists g. split; [by right | done].
  - intros (f & Hf & Hb). induction Hf as [fs|f g fs Hf IH]; simpl; [by rewrite Hb|].
    destruct (g a) as [b'|] eqn:Hg.
    + f_equal. apply (Hu g f); [by left | by right | done..].
    + apply IH; [|done]. intros f1 f2 b1 b2 H1 H2. apply Hu; by right.
Qed.

(** ** [xcm_builder], [xcm_executor] and the queues of [cumulus] *)

Section Xcm.
(** Messages, and the state the runtime's handlers work on. *)
Context {Xcm State : Type}.

(** [xcm_executor::traits]: [Convert], [ConvertOrigin] and [ShouldExecute].
    [None] is [Err], which hands back what was to be converted; the weight
    credit is passed on either way. *)
Definition Convert : Type := MultiLocation -> option AccountId.
Definition ConvertOrigin : Type := MultiLocation * OriginKind -> option RuntimeOrigin.
Definition ShouldExecute : Type :=
  MultiLocation -> bool -> Xcm -> Weight -> Weight -> option unit * Weight.

(** [SendXcm]: sent, not this router's destination, or another error. *)
Inductive SendResult := Sent | CannotReachDestination | SendError.
Definition SendXcm : Type := MultiLocation -> Xcm -> State -> SendResult * State.

(** [TransactAsset]: deposit and withdraw. *)
Record TransactAsset := mkTransactAsset {
  deposit_asset : MultiAsset -> MultiLocation -> State -> option State;
  withdraw_asset : MultiAsset -> MultiLocation -> State -> option State;
}.

Class XcmBuilder := {
  ParentIsDefault : Convert;
  SiblingParachainConvertsVia : Convert;
  AccountId32Aliases : NetworkId -> Convert;
  SovereignSignedViaLocation : Convert -> ConvertOrigin;
  RelayChainAsNative : RuntimeOrigin -> ConvertOrigin;
  SiblingParachainAsNative : ConvertOrigin;
  ParentAsSuperuser : ConvertOrigin;
  SignedAccountId32AsNative : NetworkId -> ConvertOrigin;
  IsConcrete : MultiLocation -> MultiAsset -> option Balance;
  (** over the runtime's [Balances] *)
  CurrencyAdapter : (MultiAsset -> option Balance) -> Convert -> TransactAsset;
  NativeAsset : MultiAsset -> MultiLocation -> bool;
  TakeWeightCredit : ShouldExecute;
  AllowTopLevelPaidExecutionFrom : (MultiLocation -> bool) -> ShouldExecute;
  AllowUnpaidExecutionFrom : (MultiLocation -> bool) -> ShouldExecute;
  (** the messages that "place assets in the Holding Register to pay for
      execution" *)
  places_assets : Xcm -> bool;
  ParentAsUmp : SendXcm;
  XcmpQueue : SendXcm;
  EnsureXcmOrigin : (RuntimeOrigin -> option MultiLocation) -> RuntimeOrigin -> option MultiLocation;
  (** [AccountId::default()] and [ParaId::into_account] *)
  account_default : AccountId;
  para_account : Z -> AccountId;
}.

Class XcmBuilderLaws `{XcmBuilder} : Prop := {
  (** "The parent (Relay-chain) origin converts to the default [AccountId]." *)
  parent_is_default l a : ParentIsDefault l = Some a <-> l = [Parent] /\ a = account_default;
  (** "Sibling parachain origins convert to AccountId via the [ParaId::into]." *)
  sibling_converts l a :
    SiblingParachainConvertsVia l = Some a <->
    exists id, l = [Parent; Parachain id] /\ a = para_account id;
  (** "Straight up local [AccountId32] origins just alias directly to
      [AccountId]", of this network or of any. *)
  account_aliases net l a :
    AccountId32Aliases net l = Some a <-> l = [AccountId32 net a] \/ l = [AccountId32 Any a];
  (** "This attempts to derive an [AccountId] from the origin location using
      [LocationToAccountId] and then turn that into the usual [Signed] origin." *)
  sovereign_signed f l k o :
    SovereignSignedViaLocation f (l, k) = Some o <->
    k = SovereignAccount /\ exists a, f l = Some a /\ o = system (Signed a);
  (** "Native converter for Relay-chain (Parent) location." *)
  relay_native r l k o :
    RelayChainAsNative r (l, k) = Some o <-> k = Native /\ l = [Parent] /\ o = r;
  (** "Native converter for sibling Parachains; will convert to a [SiblingPara]
      origin." *)
  sibling_native l k o :
    SiblingParachainAsNative (l, k) = Some o <->
    k = Native /\ exists id, l = [Parent; Parachain id] /\ o = CumulusXcm (SiblingParachain id);
  (** "Superuser converter for the Relay-chain (Parent) location.  This will
      allow it to issue a transaction from the Root origin." *)
  parent_superuser l k o :
    ParentAsSuperuser (l, k) = Some o <-> k = Superuser /\ l = [Parent] /\ o = system Root;
  (** "This just converts an [AccountId32] origin into a normal
      [Origin::Signed] origin of the same 32-byte value." *)
  account_native net l k o :
    SignedAccountId32AsNative net (l, k) = Some o <->
    k = Native /\ exists a, (l = [AccountId32 net a] \/ l = [AccountId32 Any a]) /\
      o = system (Signed a);
  (** "Use this currency when it is a fungible asset matching the given
      location." *)
  is_concrete id asset v : IsConcrete id asset = Some v <-> asset = ConcreteFungible id v;
  (** The adapter moves only what its matcher accepts, for accounts its
      converter yields. *)
  adapter_deposits m f asset l s s' :
    deposit_asset (CurrencyAdapter m f) asset l s = Some s' -> is_Some (m asset) /\ is_Some (f l);
  (** "Accepts an asset iff it is a native asset" of its origin. *)
  native_asset asset l : NativeAsset asset l = true <-> exists v, asset = ConcreteFungible l v;
  (** "Execution barrier that just takes [shallow_weight] from [weight_credit]." *)
  credit_taken l top m w c : (TakeWeightCredit l top m w c).1 <> None <-> w <= c;
  (** "Allows execution from [origin] if it is contained in [T] taking payments
      into account." *)
  paid_allowed T l top m w c :
    (AllowTopLevelPaidExecutionFrom T l top m w c).1 <> None ->
    T l = true /\ top = true /\ places_assets m = true;
  (** "Allows execution from any origin that is contained in [T] without any
      payments." *)
  unpaid_allowed T l top m w c :
    (AllowUnpaidExecutionFrom T l top m w c).1 <> None <-> T l = true;
  (** "Use UMP to communicate with the relay chain.." *)
  ump_other l m s : l <> [Parent] -> ParentAsUmp l m s = (CannotReachDestination, s);
  ump_parent m s : (ParentAsUmp [Parent] m s).1 <> CannotReachDestination;
  (** "..and XCMP to communicate with the sibling chains." *)
  xcmp_other l m s :
    (forall id, l <> [Parent; Parachain id]) -> XcmpQueue l m s = (CannotReachDestination, s);
  xcmp_sibling id m s : (XcmpQueue [Parent; Parachain id] m s).1 <> CannotReachDestination;
  (** "[EnsureOrigin] for origins that convert to a location." *)
  ensure_converts f o l : EnsureXcmOrigin f o = Some l -> f o = Some l;
}.

Context `{XB : XcmBuilder}.

(** A tuple of barriers: the first that lets the message through decides. *)
Fixpoint first_of (bs : list ShouldExecute) : ShouldExecute :=
  fun l top m w c =>
    match bs with
    | [] => (None, c)
    | b :: bs =>
        match b l top m w c with
        | (Some _, c) => (Some tt, c)
        | (None, c) => first_of bs l top m w c
        end
    end.

(** A tuple of routers: the first that can reach the destination decides. *)
Fixpoint first_router (rs : list SendXcm) : SendXcm :=
  fun l m s =>
    match rs with
    | [] => (CannotReachDestination, s)
    | r :: rs =>
        match r l m s with
        | (CannotReachDestination, s) => first_router rs l m s
        | res => res
        end
    end.

(** ** The configuration *)

(** [match_type! { ParentOrParentsUnitPlurality }] *)
Definition ParentOrParentsUnitPlurality (l : MultiLocation) : bool :=
  match l with
  | [Parent] => true
  | [Parent; Plurality Unit _] => true
  | _ => false
  end.
(** [All<MultiLocation>] *)
Definition All {A} (a : A) : bool := true.

(** [type Barrier] *)
Definition Barrier : ShouldExecute :=
  first_of [TakeWeightCredit; AllowTopLevelPaidExecutionFrom All;
            AllowUnpaidExecutionFrom ParentOrParentsUnitPlurality].

(** [impl xcm_executor::Config for XcmConfig], with the types it is made of.
    [Trader] is [UsingComponents<IdentityFee, RococoLocation, ..>]: the asset
    fees are paid in, and the fee of a weight. *)
Record XcmConfig := mkXcmConfig {
  LocationToAccountId : Convert;
  XcmSender : SendXcm;
  AssetTransactor : TransactAsset;
  OriginConverter : ConvertOrigin;
  IsReserve : MultiAsset -> MultiLocation -> bool;
  IsTeleporter : MultiAsset -> MultiLocation -> bool;
  (** [Ancestry] of the [LocationInverter] *)
  Ancestry : Z -> MultiLocation;
  barrier : ShouldExecute;
  (** the unit of the [FixedWeightBounds] *)
  Weigher : Weight;
  Trader : MultiLocation * (Weight -> Balance);
}.

(** [IdentityFee] *)
Definition IdentityFee (w : Weight) : Balance := w.
(** [LocalOriginToLocation = ()]: "No local origins on this chain are allowed
    to dispatch XCM sends/executions." *)
Definition LocalOriginToLocation : RuntimeOrigin -> option MultiLocation := first_some [].

(** [impl pallet_xcm::Config for Runtime] *)
Record PalletXcm := mkPalletXcm {
  SendXcmOrigin : RuntimeOrigin -> option MultiLocation;
  pallet_XcmRouter : SendXcm;
  ExecuteXcmOrigin : RuntimeOrigin -> option MultiLocation;
  XcmExecuteFilter : MultiLocation * Xcm -> bool;
  XcmTeleportFilter : MultiLocation * list MultiAsset -> bool;
  XcmReserveTransferFilter : MultiLocation * list MultiAsset -> bool;
}.

Definition halongbay_xcm : XcmConfig :=
  let RococoLocation := [Parent] in
  let RococoNetwork := Polkadot in
  let RelayChainOrigin := CumulusXcm Relay in
  let LocationToAccountId :=
    first_some [ParentIsDefault; SiblingParachainConvertsVia; AccountId32Aliases RococoNetwork] in
  let LocalAssetTransactor := CurrencyAdapter (IsConcrete RococoLocation) LocationToAccountId in
  let XcmOriginToTransactDispatchOrigin :=
    first_some [SovereignSignedViaLocation LocationToAccountId; RelayChainAsNative RelayChainOrigin;
                SiblingParachainAsNative; ParentAsSuperuser; SignedAccountId32AsNative RococoNetwork] in
  {| LocationToAccountId := LocationToAccountId;
     XcmSender := first_router [ParentAsUmp; XcmpQueue];
     AssetTransactor := LocalAssetTransactor;
     OriginConverter := XcmOriginToTransactDispatchOrigin;
     IsReserve := NativeAsset;
     IsTeleporter := NativeAsset;
     Ancestry id := [Parachain id];
     barrier := Barrier;
     Weigher := 1000;
     Trader := (RococoLocation, IdentityFee) |}.

Definition halongbay_pallet_xcm : PalletXcm :=
  {| SendXcmOrigin := EnsureXcmOrigin LocalOriginToLocation;
     pallet_XcmRouter := first_router [ParentAsUmp; XcmpQueue];
     ExecuteXcmOrigin := EnsureXcmOrigin LocalOriginToLocation;
     XcmExecuteFilter := All;
     XcmTeleportFilter := All;
     XcmReserveTransferFilter _ := false |}.

Definition polkafoundry_xcm : XcmConfig :=
  let RococoLocation := [Parent] in
  let RococoNetwork := Polkadot in
  let RelayChainOrigin := CumulusXcm Relay in
  let LocationToAccountId :=
    first_some [ParentIsDefault; SiblingParachainConvertsVia; AccountId32Aliases RococoNetwork] in
  let LocalAssetTransactor := CurrencyAdapter (IsConcrete RococoLocation) LocationToAccountId in
  let XcmOriginToTransactDispatchOrigin :=
    first_some [SovereignSignedViaLocation LocationToAccountId; RelayChainAsNative RelayChainOrigin;
                SiblingParachainAsNative; ParentAsSuperuser; SignedAccountId32AsNative RococoNetwork] in
  {| LocationToAccountId := LocationToAccountId;
     XcmSender := first_router [ParentAsUmp; XcmpQueue];
     AssetTransactor := LocalAssetTransactor;
     OriginConverter := XcmOriginToTransactDispatchOrigin;
     IsReserve := NativeAsset;
     IsTeleporter := NativeAsset;
     Ancestry id := [Parachain id];
     barrier := Barrier;
     Weigher := 1000;
     Trader := (RococoLocation, IdentityFee) |}.

Definition polkafoundry_pallet_xcm : PalletXcm :=
  {| SendXcmOrigin := EnsureXcmOrigin LocalOriginToLocation;
     pallet_XcmRouter := first_router [ParentAsUmp; XcmpQueue];
     ExecuteXcmOrigin := EnsureXcmOrigin LocalOriginToLocation;
     XcmExecuteFilter := All;
     XcmTeleportFilter := All;
     XcmReserveTransferFilter _ := false |}.

Definition polkasmith_xcm : XcmConfig :=
  let RococoLocation := [Parent] in
  let RococoNetwork := Polkadot in
  let RelayChainOrigin := CumulusXcm Relay in
  let LocationToAccountId :=
    first_some [ParentIsDefault; SiblingParachainConvertsVia; AccountId32Aliases RococoNetwork] in
  let LocalAssetTransactor := CurrencyAdapter (IsConcrete RococoLocation) LocationToAccountId in
  let XcmOriginToTransactDispatchOrigin :=
    first_some [SovereignSignedViaLocation LocationToAccountId; RelayChainAsNative RelayChainOrigin;
                SiblingParachainAsNative; ParentAsSuperuser; SignedAccountId32AsNative RococoNetwork] in
  {| LocationToAccountId := LocationToAccountId;
     XcmSender := first_router [ParentAsUmp; XcmpQueue];
     AssetTransactor := LocalAssetTransactor;
     OriginConverter := XcmOriginToTransactDispatchOrigin;
     IsReserve := NativeAsset;
     IsTeleporter := NativeAsset;
     Ancestry id := [Parachain id];
     barrier := Barrier;
     Weigher := 1000;
     Trader := (RococoLocation, IdentityFee) |}.

Definition polkasmith_pallet_xcm : PalletXcm :=
  {| SendXcmOrigin := EnsureXcmOrigin LocalOriginToLocation;
     pallet_XcmRouter := first_router [ParentAsUmp; XcmpQueue];
     ExecuteXcmOrigin := EnsureXcmOrigin LocalOriginToLocation;
     XcmExecuteFilter := All;
     XcmTeleportFilter := All;
     XcmReserveTransferFilter _ := false |}.

(** [WeightPrice]: "1_000 ROC per second of weight". *)
Definition WeightPrice : MultiLocation * Balance := ([Parent], 1000).

Definition xcm_config (c : ForceChain) : XcmConfig :=
  match c with
  | PolkaFoundry => polkafoundry_xcm
  | PolkaSmith => polkasmith_xcm
  | Halongbay => halongbay_xcm
  end.
Definition pallet_xcm (c : ForceChain) : PalletXcm :=
  match c with
  | PolkaFoundry => polkafoundry_pallet_xcm
  | PolkaSmith => polkasmith_pallet_xcm
  | Halongbay => halongbay_pallet_xcm
  end.

Lemma first_of_allows bs l top m w c :
  (first_of bs l top m w c).1 <> None ->
  exists b c', b ∈ bs /\ (b l top m w c').1 <> None.
Proof.
  revert c. induction bs as [|b bs IH]; intros c H; simpl in H; [done|].
  destruct (b l top m w c) as [[u|] c'] eqn:E.
  - exists b, c. split; [by left|]. by rewrite E.
  - destruct (IH c' H) as (b' & c'' & Hb & Hn). exists b', c''. split; [by right | done].
Qed.
Lemma first_of_last bs b l top m w c :
  (forall c', (b l top m w c').1 <> None) -> (first_of (bs ++ [b]) l top m w c).1 <> None.
Proof.
  intros Hb. revert c. induction bs as [|b' bs IH]; intros c; simpl.
  - specialize (Hb c). by destruct (b l top m w c) as [[]?].
  - by destruct (b' l top m w c) as [[]?].
Qed.

Context `{XL : !XcmBuilderLaws}.

(** ** What the configuration allows *)

(** The account of a location: the relay chain, a sibling chain, and an account
    of this network; no other location has one. *)
Inductive located : MultiLocation -> AccountId -> Prop :=
  | located_parent : located [Parent] account_default
  | located_sibling id : located [Parent; Parachain id] (para_account id)
  | located_account net a : net = Polkadot \/ net = Any -> located [AccountId32 net a] a.

Lemma located_fun l a b : located l a -> located l b -> a = b.
Proof using Type. intros Ha Hb. inversion Ha; subst; inversion Hb; congruence. Qed.

Lemma location_account c l a : LocationToAccountId (xcm_config c) l = Some a <-> located l a.
Proof using XL.
  set (fs := [ParentIsDefault; SiblingParachainConvertsVia; AccountId32Aliases Polkadot]).
  assert (LocationToAccountId (xcm_config c) = first_some fs) as -> by by destruct c.
  assert (forall f b, f ∈ fs -> f l = Some b -> located l b) as Hs.
  { intros f b Hf Hb. unfold fs in Hf. set_unfold in Hf. destruct_or?; subst.
    - apply parent_is_default in Hb as [-> ->]. constructor.
    - apply sibling_converts in Hb as (id & -> & ->). constructor.
    - apply account_aliases in Hb as [->| ->]; constructor; auto. }
  rewrite first_some_iff by (intros; eapply located_fun; eauto). split.
  - intros (f & Hf & Hb). by apply (Hs f).
  - unfold fs. destruct 1 as [|id|net a Hn].
    + exists ParentIsDefault. split; [set_solver | by apply parent_is_default].
    + exists SiblingParachainConvertsVia. split; [set_solver | apply sibling_converts; eauto].
    + exists (AccountId32Aliases Polkadot). split; [set_solver | apply account_aliases].
      destruct Hn; subst; auto.
Qed.

(** The origin of a call in a message from [l] that asks for the kind [k]. *)
Inductive dispatches : MultiLocation -> OriginKind -> RuntimeOrigin -> Prop :=
  | dispatches_sovereign l a : located l a -> dispatches l SovereignAccount (system (Signed a))
  | dispatches_relay : dispatches [Parent] Native (CumulusXcm Relay)
  | dispatches_sibling id :
      dispatches [Parent; Parachain id] Native (CumulusXcm (SiblingParachain id))
  | dispatches_root : dispatches [Parent] Superuser (system Root)
  | dispatches_account net a :
      net = Polkadot \/ net = Any -> dispatches [AccountId32 net a] Native (system (Signed a)).

Lemma dispatches_fun l k o o' : dispatches l k o -> dispatches l k o' -> o = o'.
Proof using Type.
  intros Ho Ho'. destruct Ho; inversion Ho'; subst; try congruence.
  repeat f_equal. by eapply located_fun.
Qed.

(** [C22] Which origin a cross-chain call gets, in every runtime: the sovereign
    account of its location, the relay chain or the sibling chain it comes
    from, the very account it names; and root for nobody but the relay chain
    asking for it.  Every other message has its calls refused. *)
Theorem transact_origins c l k o :
  OriginConverter (xcm_config c) (l, k) = Some o <-> dispatches l k o.
Proof using XL.
  set (to_account := LocationToAccountId (xcm_config c)).
  set (fs := [SovereignSignedViaLocation to_account; RelayChainAsNative (CumulusXcm Relay);
              SiblingParachainAsNative; ParentAsSuperuser; SignedAccountId32AsNative Polkadot]).
  assert (OriginConverter (xcm_config c) = first_some fs) as -> by by destruct c.
  assert (forall f o, f ∈ fs -> f (l, k) = Some o -> dispatches l k o) as Hs.
  { intros f o' Hf Ho. unfold fs in Hf. set_unfold in Hf. destruct_or?; subst.
    - apply sovereign_signed in Ho as (-> & a & Ha & ->). constructor. by apply (location_account c).
    - apply relay_native in Ho as (-> & -> & ->). constructor.
    - apply sibling_native in Ho as (-> & id & -> & ->). constructor.
    - apply parent_superuser in Ho as (-> & -> & ->). constructor.
    - apply account_native in Ho as (-> & a & [->| ->] & ->); constructor; auto. }
  rewrite first_some_iff by (intros; eapply dispatches_fun; eauto). split.
  - intros (f & Hf & Ho). by apply (Hs f).
  - unfold fs. destruct 1 as [l a Ha| |id| |net a Hn].
    + exists (SovereignSignedViaLocation to_account). split; [set_solver|].
      apply sovereign_signed. split; [done|]. exists a. split; [by apply location_account | done].
    + exists (RelayChainAsNative (CumulusXcm Relay)). split; [set_solver | by apply relay_native].
    + exists SiblingParachainAsNative. split; [set_solver | apply sibling_native; eauto].
    + exists ParentAsSuperuser. split; [set_solver | by apply parent_superuser].
    + exists (SignedAccountId32AsNative Polkadot). split; [set_solver | apply account_native].
      split; [done|]. exists a. destruct Hn; subst; auto.
Qed.

(** [C23] Money from elsewhere: an asset that is accepted from a location, as
    teleported or out of its reserve, and that can be credited to an account
    here is the relay chain's token, coming from the relay chain, and the
    account that of a known location. *)
Theorem only_relay_token_enters c asset from who s s' :
  IsTeleporter (xcm_config c) asset from = true \/ IsReserve (xcm_config c) asset from = true ->
  deposit_asset (AssetTransactor (xcm_config c)) asset who s = Some s' ->
  from = [Parent] /\ (exists v, asset = ConcreteFungible [Parent] v) /\ exists a, located who a.
Proof using XL.
  assert (AssetTransactor (xcm_config c)
    = CurrencyAdapter (IsConcrete [Parent]) (LocationToAccountId (xcm_config c))) as -> by by destruct c.
  assert (IsTeleporter (xcm_config c) = NativeAsset /\ IsReserve (xcm_config c) = NativeAsset)
    as [-> ->] by by destruct c.
  intros Hfrom [[v Hv] [a Ha]]%adapter_deposits. apply is_concrete in Hv as ->.
  assert (NativeAsset (ConcreteFungible [Parent] v) from = true) as Hn by tauto.
  apply native_asset in Hn as [v' [= -> ->]].
  split_and!; [done | by exists v' | exists a; by apply (location_account c)].
Qed.

(** No account and no other origin of the chain can send a message or have one
    executed by hand. *)
Theorem no_local_messages c o :
  SendXcmOrigin (pallet_xcm c) o = None /\ ExecuteXcmOrigin (pallet_xcm c) o = None.
Proof using XL.
  assert (SendXcmOrigin (pallet_xcm c) = EnsureXcmOrigin LocalOriginToLocation /\
    ExecuteXcmOrigin (pallet_xcm c) = EnsureXcmOrigin LocalOriginToLocation) as [-> ->] by by destruct c.
  destruct (EnsureXcmOrigin LocalOriginToLocation o) eqn:He; [|done].
  by apply ensure_converts in He.
Qed.

(** Messages leave for the relay chain and for sibling chains and for nowhere
    else; one that cannot leave changes nothing. *)
Definition routed (l : MultiLocation) : bool :=
  match l with [Parent] | [Parent; Parachain _] => true | _ => false end.
Theorem routes c l m s :
  XcmSender (xcm_config c) = pallet_XcmRouter (pallet_xcm c) /\
  if routed l then (XcmSender (xcm_config c) l m s).1 <> CannotReachDestination
  else XcmSender (xcm_config c) l m s = (CannotReachDestination, s).
Proof using XL.
  split; [by destruct c|].
  assert (XcmSender (xcm_config c) = first_router [ParentAsUmp; XcmpQueue]) as -> by by destruct c.
  cbn [first_router]. destruct (decide (l = [Parent])) as [->|Hp].
  { pose proof (ump_parent m s) as H. simpl. by destruct (ParentAsUmp [Parent] m s) as [[] s']. }
  rewrite ump_other by done. destruct (routed l) eqn:Hr.
  - destruct l as [|[] [|[] [|]]]; try done.
    pose proof (xcmp_sibling id m s) as H. by destruct (XcmpQueue _ m s) as [[] s'].
  - rewrite xcmp_other; [done|]. by intros id ->.
Qed.

(** The price of a message: every instruction costs the same weight, and a unit
    of weight one unit of the relay chain's token: [WeightPrice], which asks for
    1000 units for a whole second of weight, is used nowhere. *)
Theorem message_price c :
  Weigher (xcm_config c) = 1000 /\
  Trader (xcm_config c) = ([Parent], IdentityFee) /\
  forall second, 1000 < second -> WeightPrice.2 < (Trader (xcm_config c)).2 second.
Proof using Type. destruct c; split_and!; try done; intros second Hs; exact Hs. Qed.

(** Who can have a message executed for free: a message that has no weight
    credit and pays for nothing is executed exactly for the relay chain and for
    its unit plurality, and for no other location. *)
Theorem unpaid_execution rt l top m w c :
  (forall c', (TakeWeightCredit l top m w c').1 = None) ->
  top = false \/ places_assets m = false ->
  (barrier (xcm_config rt) l top m w c).1 <> None <->
  l = [Parent] \/ exists part, l = [Parent; Plurality Unit part].
Proof using XL.
  intros Hc Hp. assert (barrier (xcm_config rt) = Barrier) as -> by by destruct rt. split.
  - intros (b & c' & Hb & Hn)%first_of_allows.
    apply elem_of_cons in Hb as [->|Hb]; [by rewrite Hc in Hn|].
    apply elem_of_cons in Hb as [->|Hb].
    { apply paid_allowed in Hn as (_ & Ht & Hm). destruct Hp; congruence. }
    apply list_elem_of_singleton in Hb as ->. apply unpaid_allowed in Hn.
    destruct l as [|[] [|[| | |[] |] [|]]]; simpl in Hn; try done; eauto.
  - intros Hl. apply (first_of_last [TakeWeightCredit; AllowTopLevelPaidExecutionFrom All]).
    intros c'. apply unpaid_allowed. by destruct Hl as [->|[part ->]].
Qed.
End Xcm.

(** ** Builders that behave as documented

    A message is whether it places assets, the state a map of balances and the
    messages that were sent. *)
Definition MockState : Type := gmap AccountId Z * list (MultiLocation * bool).

Definition mock_send (reach : MultiLocation -> bool) : @SendXcm bool MockState :=
  fun l m s => if reach l then (Sent, (s.1, s.2 ++ [(l, m)])) else (CannotReachDestination, s).
Definition allow_if (b : bool) (c : Weight) : option unit * Weight := (if b then Some tt else None, c).
Definition alias_of (net : NetworkId) (l : MultiLocation) : option AccountId :=
  match l with
  | [AccountId32 n a] => if decide (n = net \/ n = Any) then Some a else None
  | _ => None
  end.
Definition mock_move (sign : Z) (m : MultiAsset -> option Balance) (f : Convert) (asset : MultiAsset)
    (l : MultiLocation) (s : MockState) : option MockState :=
  match m asset, f l with
  | Some v, Some a => Some (<[a := default 0 (s.1 !! a) + sign * v]> s.1, s.2)
  | _, _ => None
  end.

#[export] Instance mock_xcm_builder : @XcmBuilder bool MockState := {|
  ParentIsDefault l := if decide (l = [Parent]) then Some 0%N else None;
  SiblingParachainConvertsVia l :=
    match l with [Parent; Parachain id] => Some (1 + Z.to_N id)%N | _ => None end;
  AccountId32Aliases := alias_of;
  SovereignSignedViaLocation f lk :=
    match lk.2, f lk.1 with SovereignAccount, Some a => Some (system (Signed a)) | _, _ => None end;
  RelayChainAsNative r lk :=
    match lk.2 with Native => if decide (lk.1 = [Parent]) then Some r else None | _ => None end;
  SiblingParachainAsNative lk :=
    match lk with ([Parent; Parachain id], Native) => Some (CumulusXcm (SiblingParachain id)) | _ => None end;
  ParentAsSuperuser lk :=
    match lk.2 with Superuser => if decide (lk.1 = [Parent]) then Some (system Root) else None | _ => None end;
  SignedAccountId32AsNative net lk :=
    match lk.2, alias_of net lk.1 with Native, Some a => Some (system (Signed a)) | _, _ => None end;
  IsConcrete id asset :=
    match asset with ConcreteFungible i v => if decide (i = id) then Some v else None | _ => None end;
  CurrencyAdapter m f := mkTransactAsset (mock_move 1 m f) (mock_move (-1) m f);
  NativeAsset asset l := match asset with ConcreteFungible i _ => bool_decide (i = l) | _ => false end;
  TakeWeightCredit l top m w c := allow_if (w <=? c) (if w <=? c then c - w else c);
  AllowTopLevelPaidExecutionFrom T l top m w c := allow_if (T l && top && m) c;
  AllowUnpaidExecutionFrom T l top m w c := allow_if (T l) c;
  places_assets m := m;
  ParentAsUmp := mock_send (fun l => bool_decide (l = [Parent]));
  XcmpQueue := mock_send (fun l => match l with [Parent; Parachain _] => true | _ => false end);
  EnsureXcmOrigin f o := f o;
  account_default := 0%N;
  para_account id := (1 + Z.to_N id)%N;
|}.

Lemma alias_of_iff net l a : alias_of net l = Some a <-> l = [AccountId32 net a] \/ l = [AccountId32 Any a].
Proof.
  split.
  - destruct l as [|[] [|]]; simpl; try done. case_decide as H; [|done]. intros [= ->].
    destruct H; subst; auto.
  - intros [->| ->]; simpl; by rewrite decide_True by auto.
Qed.

Ltac split_matches :=
  repeat match goal with |- context [match ?x with _ => _ end] => destruct x eqn:? end; simplify_eq.

#[export] Instance mock_xcm_laws : XcmBuilderLaws.
Proof.
  split; simpl.
  1, 2, 5, 6, 7, 9: intros; split_matches; naive_solver.
  - intros net l a. apply alias_of_iff.
  - intros f l k o. split_matches; naive_solver.
  - intros net l k o. setoid_rewrite <- alias_of_iff. split_matches; naive_solver.
  - intros m f asset l s s'. unfold mock_move. by destruct (m asset), (f l).
  - intros [i v|a] l; [rewrite bool_decide_eq_true|]; naive_solver.
  - intros l top m w c. destruct (Z.leb_spec w c); simpl; split; intros; lia || done.
  - intros T l top m w c. destruct (T l), top, m; done.
  - intros T l top m w c. by destruct (T l).
  - intros l m s Hl. unfold mock_send. by rewrite bool_decide_eq_false_2.
  - done.
  - intros l m s Hl. unfold mock_send. destruct l as [|[] [|[] [|]]]; try done. by destruct (Hl id).
  - done.
  - done.
Qed.

(** ** Witnesses *)

Lemma transact_origins_witness :
  OriginConverter (xcm_config Halongbay) ([Parent], Superuser) = Some (system Root) /\
  OriginConverter (xcm_config Halongbay) ([Parent; Parachain 2000], Superuser) = None.
Proof.
  split; [apply transact_origins; constructor|].
  destruct (OriginConverter _ _) as [o|] eqn:Ho; [|done].
  apply (transact_origins Halongbay) in Ho. inversion Ho.
Defined.

Lemma only_relay_token_enters_witness :
  let asset := ConcreteFungible [Parent] 70 in
  let s' := (<[5%N := 70]> ∅, []) in
  deposit_asset (AssetTransactor (xcm_config Halongbay)) asset [AccountId32 Any 5%N] (∅, []) = Some s' /\
  [Parent] = [Parent] /\ (exists v, asset = ConcreteFungible [Parent] v) /\
  exists a, located [AccountId32 Any 5%N] a.
Proof.
  intros asset s'. split; [reflexivity|].
  eapply (only_relay_token_enters Halongbay asset [Parent] [AccountId32 Any 5%N] (∅, []) s').
  - left. reflexivity.
  - reflexivity.
Defined.
