(* ===== verification/RuntimeApi.v ===== *)
(** * What the runtimes offer the node

    [runtime/{halongbay,polkafoundry,polkasmith}/src/lib.rs], from the
    transaction converter on: how an Ethereum transaction is wrapped, which
    checks a signed extrinsic goes through, and the runtime APIs.  The pallets
    and [Executive] behind the APIs are a class of operations; the three files
    hold the same text, with the constants of their own network. *)
From Stdlib Require Import Strings.Byte.
From S2P Require Import Prelude StakingTypes Externals Networks Runtime.

(** ** Ethereum *)

Section Ethereum.

(** [evm::Config]: the runtime sets one of its fields. *)
Context {Rest : Type}.
Record EvmConfig := mkEvmConfig { estimate : bool; other_fields : Rest }.

(** [pallet_evm] and its runner; [State] is the chain's state. *)
Context {State Address Bytes CallInfo CreateInfo EvmError DispatchErr : Type}.
Class Evm := {
  evm_config : EvmConfig;
  runner_call : Address -> Address -> Bytes -> Z -> Z -> option Z -> option Z -> EvmConfig ->
    State -> (CallInfo + EvmError) * State;
  runner_create : Address -> Bytes -> Z -> Z -> option Z -> option Z -> EvmConfig ->
    State -> (CreateInfo + EvmError) * State;
  (** [err.into()] *)
  evm_error_into : EvmError -> DispatchErr;
}.

Definition map_err {A} (r : (A + EvmError) * State) `{Evm} : (A + DispatchErr) * State :=
  (match r.1 with inl a => inl a | inr e => inr (evm_error_into e) end, r.2).

(** [U256::low_u64] *)
Definition low_u64 (x : Z) : Z := U.wrap 64 x.

(** The configuration both queries run with: a copy of the pallet's with
    [estimate] set, or the pallet's own. *)
Definition query_config `{Evm} (estimate : bool) : EvmConfig :=
  let config := if estimate then Some (mkEvmConfig true (other_fields evm_config)) else None in
  default evm_config config.

(** [EthereumRuntimeRPCApi::call] *)
Definition eth_call `{Evm} (from to : Address) (data : Bytes) (value gas_limit : Z)
    (gas_price nonce : option Z) (estimate : bool) (s : State) : (CallInfo + DispatchErr) * State :=
  map_err (runner_call from to data value (low_u64 gas_limit) gas_price nonce
             (query_config estimate) s).

(** [EthereumRuntimeRPCApi::create] *)
Definition eth_create `{Evm} (from : Address) (data : Bytes) (value gas_limit : Z)
    (gas_price nonce : option Z) (estimate : bool) (s : State) : (CreateInfo + DispatchErr) * State :=
  map_err (runner_create from data value (low_u64 gas_limit) gas_price nonce
             (query_config estimate) s).

(** A query runs with the gas it was given as long as that fits 64 bits, an
    estimate differs from an execution in the one field of the configuration,
    and what the runner answers is passed on. *)
Theorem eth_query_spec `{Evm} from to data value gas_limit gas_price nonce est s :
  0 <= gas_limit < 2 ^ 64 ->
  let config := mkEvmConfig (est || estimate evm_config) (other_fields evm_config) in
  eth_call from to data value gas_limit gas_price nonce est s
    = map_err (runner_call from to data value gas_limit gas_price nonce config s) /\
  eth_create from data value gas_limit gas_price nonce est s
    = map_err (runner_create from data value gas_limit gas_price nonce config s).
Proof.
  intros Hg config. unfold eth_call, eth_create, low_u64. rewrite wrap_id by done.
  assert (query_config est = config) as ->; [|done].
  unfold query_config, config. by destruct est, evm_config.
Qed.

(** A gas limit of [2^64] and above is cut off: a call that offers all the gas
    there is runs with none. *)
Theorem eth_gas_truncated `{Evm} from to data value gas_price nonce est s :
  eth_call from to data value (2 ^ 64) gas_price nonce est s
  = eth_call from to data value 0 gas_price nonce est s.
Proof. reflexivity. Qed.

(** ** [TransactionConverter] *)

(** The extrinsic types and the SCALE codec. *)
Context {Transaction Call UncheckedExtrinsic OpaqueExtrinsic : Type}.
Class ExtrinsicCodec := {
  (** [pallet_ethereum::Call::transact(..).into()] *)
  transact : Transaction -> Call;
  new_unsigned : Call -> UncheckedExtrinsic;
  xt_encode : UncheckedExtrinsic -> list byte;
  (** [decode] of the opaque extrinsic *)
  opaque_decode : list byte -> option OpaqueExtrinsic;
  opaque_bytes : OpaqueExtrinsic -> list byte;
  (** what an encoded extrinsic holds after its length prefix, and the prefix *)
  xt_payload : UncheckedExtrinsic -> list byte;
  length_prefix : nat -> list byte;
}.
(** An extrinsic is encoded "with the length prefix of a [Vec<u8>]", so that it
    decodes as one. *)
Class ExtrinsicCodecLaws `{ExtrinsicCodec} : Prop := {
  xt_encode_prefixed xt : xt_encode xt = length_prefix (length (xt_payload xt)) ++ xt_payload xt;
  opaque_decode_prefixed bs :
    exists o, opaque_decode (length_prefix (length bs) ++ bs) = Some o /\ opaque_bytes o = bs;
}.

Definition convert_transaction `{ExtrinsicCodec} (transaction : Transaction) : UncheckedExtrinsic :=
  new_unsigned (transact transaction).
(** [None]: the [expect] panics. *)
Definition convert_transaction_opaque `{ExtrinsicCodec} (transaction : Transaction)
    : option OpaqueExtrinsic :=
  let extrinsic := new_unsigned (transact transaction) in
  let encoded := xt_encode extrinsic in
  opaque_decode encoded.

(** "Encoded extrinsic is always valid": the conversion never panics, and the
    opaque extrinsic carries the bytes of the typed one. *)
Theorem convert_never_panics `{ExtrinsicCodecLaws} transaction :
  exists o, convert_transaction_opaque transaction = Some o /\
    opaque_bytes o = xt_payload (convert_transaction transaction).
Proof.
  unfold convert_transaction_opaque. rewrite xt_encode_prefixed. apply opaque_decode_prefixed.
Qed.
End Ethereum.


(** ** [SignedExtra] *)

Section SignedExtensions.
(** The state, the calls, the reasons to refuse a transaction, the balances. *)
Context {State Call Invalid Balances : Type}.

(** [SignedExtension::pre_dispatch]: [Some e] is [Err(e)]. *)
Definition SignedExtension : Type := AccountId -> Call -> State -> option Invalid * State.

Class SignedExtensions := {
  CheckSpecVersion : SignedExtension;
  CheckTxVersion : SignedExtension;
  CheckGenesis : SignedExtension;
  CheckEra : SignedExtension;
  CheckNonce : SignedExtension;
  CheckWeight : SignedExtension;
  ChargeTransactionPayment : SignedExtension;
  balances : State -> Balances;
  (** the [SignedExtension] that [sp_runtime] makes of a tuple *)
  pre_dispatch : list SignedExtension -> SignedExtension;
}.

(** Only the payment touches the balances: "Require the transactor pay for
    themselves"; a payment that cannot be made is an error.  A tuple of extensions
    runs in order up to the first error. *)
Class SignedExtensionsLaws `{SignedExtensions} : Prop := {
  checks_keep_balances x who call s :
    x ∈ [CheckSpecVersion; CheckTxVersion; CheckGenesis; CheckEra; CheckNonce; CheckWeight] ->
    balances (x who call s).2 = balances s;
  failed_charge_keeps_balances who call s :
    (ChargeTransactionPayment who call s).1 <> None ->
    balances (ChargeTransactionPayment who call s).2 = balances s;
  pre_dispatch_nil who call s : pre_dispatch [] who call s = (None, s);
  pre_dispatch_cons x xs who call s :
    pre_dispatch (x :: xs) who call s =
      match x who call s with
      | (None, s) => pre_dispatch xs who call s
      | res => res
      end;
}.

Context `{SE : SignedExtensions}.

Definition halongbay_SignedExtra : list SignedExtension :=
  [CheckSpecVersion; CheckTxVersion; CheckGenesis; CheckEra; CheckNonce; CheckWeight;
   ChargeTransactionPayment].
Definition polkafoundry_SignedExtra : list SignedExtension :=
  [CheckSpecVersion; CheckTxVersion; CheckGenesis; CheckEra; CheckNonce; CheckWeight;
   ChargeTransactionPayment].
Definition polkasmith_SignedExtra : list SignedExtension :=
  [CheckSpecVersion; CheckTxVersion; CheckGenesis; CheckEra; CheckNonce; CheckWeight;
   ChargeTransactionPayment].
Definition SignedExtra (c : ForceChain) : list SignedExtension :=
  match c with
  | PolkaFoundry => polkafoundry_SignedExtra
  | PolkaSmith => polkasmith_SignedExtra
  | Halongbay => halongbay_SignedExtra
  end.

Context `{SL : !SignedExtensionsLaws}.

(** Extensions that keep [f], followed by one that keeps it when it fails, keep
    it when they fail. *)
Lemma pre_dispatch_fails {X} (f : State -> X) xs y who call s e s' :
  (forall x s, x ∈ xs -> f (x who call s).2 = f s) ->
  (forall s, (y who call s).1 <> None -> f (y who call s).2 = f s) ->
  pre_dispatch (xs ++ [y]) who call s = (Some e, s') -> f s' = f s.
Proof using SL.
  intros Hxs Hy. revert s. induction xs as [|x xs IH]; intros s H; simpl app in H;
    rewrite pre_dispatch_cons in H.
  - specialize (Hy s). destruct (y who call s) as [[e'|] s1]; rewrite ?pre_dispatch_nil in H;
      simplify_eq. by apply Hy.
  - pose proof (Hxs x s ltac:(by left)) as Hx. destruct (x who call s) as [[e'|] s1]; simpl in Hx.
    + by simplify_eq.
    + rewrite <- Hx. apply IH; [|done]. intros x' s2 Hx'. apply Hxs. by right.
Qed.

(** [C24] An extrinsic that is refused costs nothing: whichever check of the
    tuple refuses it, the balances are as they were, in every runtime; the
    payment is the last check, made after all others have passed. *)
Theorem refused_pays_nothing c who call s e s' :
  pre_dispatch (SignedExtra c) who call s = (Some e, s') -> balances s' = balances s.
Proof using SL.
  assert (SignedExtra c = [CheckSpecVersion; CheckTxVersion; CheckGenesis; CheckEra; CheckNonce;
    CheckWeight] ++ [ChargeTransactionPayment]) as -> by by destruct c.
  apply pre_dispatch_fails.
  - intros x s1 Hx. by apply checks_keep_balances.
  - intros s1. apply failed_charge_keeps_balances.
Qed.
End SignedExtensions.

(** ** [impl_runtime_apis!] *)

Section RuntimeApis.
Context {State Header Block Extrinsic InherentData CheckInherents ApplyResult Source Validity : Type}.
Context {Metadata AuraId SessionKey KeyType H160 H256 EvmAccount EthBlock Receipt Status : Type}.
Context {CollationInfo DispatchInfo FeeDetails : Type}.
Context {Rest CallInfo CreateInfo EvmError DispatchErr : Type}.

(** [Executive], the pallets and the types the APIs call. *)
Class Pallets := {
  Executive_execute_block : Block -> State -> State;
  Executive_initialize_block : Header -> State -> State;
  Executive_apply_extrinsic : Extrinsic -> State -> ApplyResult * State;
  Executive_finalize_block : State -> Header * State;
  Executive_validate_transaction : Source -> Extrinsic -> State -> Validity * State;
  Executive_offchain_worker : Header -> State -> State;
  Runtime_metadata : Metadata;
  create_extrinsics : InherentData -> State -> list Extrinsic;
  check_extrinsics : InherentData -> Block -> State -> CheckInherents;
  Aura_slot_duration : State -> Z;
  Aura_authorities : State -> list AuraId;
  SessionKeys_generate : option (list byte) -> State -> list byte * State;
  SessionKeys_decode : list byte -> option (list (SessionKey * KeyType));
  System_account_nonce : AccountId -> State -> Z;
  EVM_account_basic : H160 -> State -> EvmAccount;
  EVM_account_codes : H160 -> State -> list byte;
  EVM_account_storages : H160 -> H256 -> State -> H256;
  FeeCalculator_min_gas_price : Z;
  Ethereum_find_author : State -> H160;
  Ethereum_current_transaction_statuses : State -> option (list Status);
  Ethereum_current_block : State -> option EthBlock;
  Ethereum_current_receipts : State -> option (list Receipt);
  ParachainSystem_collect_collation_info : State -> CollationInfo;
  TransactionPayment_query_info : Extrinsic -> Z -> State -> DispatchInfo;
  TransactionPayment_query_fee_details : Extrinsic -> Z -> State -> FeeDetails;
  (** [U256::to_big_endian] into 32 bytes; [H256::from_slice], [None] is a
      panic; the bytes of a hash *)
  to_big_endian : Z -> list byte;
  H256_from_slice : list byte -> option H256;
  H256_bytes : H256 -> list byte;
}.

(** The number that bytes are, most significant first. *)
Definition be_value (l : list byte) : Z :=
  foldl (fun acc b => acc * 256 + Z.of_N (Byte.to_N b)) 0 l.

Class PalletsLaws `{Pallets} : Prop := {
  (** "Write to the slice in big-endian format." *)
  to_big_endian_value x :
    0 <= x < 2 ^ 256 -> length (to_big_endian x) = 32%nat /\ be_value (to_big_endian x) = x;
  (** "Panics if the length of [src] is not 32 bytes." *)
  from_slice_bytes l h : H256_from_slice l = Some h -> H256_bytes h = l;
  from_slice_total l : length l = 32%nat -> is_Some (H256_from_slice l);
}.

Context `{PL : Pallets}.
Context {EV : @Evm Rest State H160 (list byte) CallInfo CreateInfo EvmError DispatchErr}.

(** The traits the runtimes implement, one field per method. *)
Record CoreApi := mkCoreApi {
  api_version : RuntimeVersion;
  execute_block : Block -> State -> State;
  initialize_block : Header -> State -> State;
  metadata : Metadata;
}.
Record BlockBuilderApi := mkBlockBuilderApi {
  apply_extrinsic : Extrinsic -> State -> ApplyResult * State;
  finalize_block : State -> Header * State;
  inherent_extrinsics : InherentData -> State -> list Extrinsic;
  check_inherents : Block -> InherentData -> State -> CheckInherents;
  validate_transaction : Source -> Extrinsic -> State -> Validity * State;
  offchain_worker : Header -> State -> State;
}.
Record ConsensusApi := mkConsensusApi {
  slot_duration : State -> Z;
  authorities : State -> list AuraId;
  generate_session_keys : option (list byte) -> State -> list byte * State;
  decode_session_keys : list byte -> option (list (SessionKey * KeyType));
  account_nonce : AccountId -> State -> Z;
}.
Record EthereumApi := mkEthereumApi {
  chain_id : Z;
  account_basic : H160 -> State -> EvmAccount;
  gas_price : Z;
  account_code_at : H160 -> State -> list byte;
  author : State -> H160;
  (** [None] is a panic *)
  storage_at : H160 -> Z -> State -> option H256;
  call : H160 -> H160 -> list byte -> Z -> Z -> option Z -> option Z -> bool ->
    State -> (CallInfo + DispatchErr) * State;
  create : H160 -> list byte -> Z -> Z -> option Z -> option Z -> bool ->
    State -> (CreateInfo + DispatchErr) * State;
  current_transaction_statuses : State -> option (list Status);
  current_block : State -> option EthBlock;
  current_receipts : State -> option (list Receipt);
  current_all : State -> option EthBlock * option (list Receipt) * option (list Status);
}.
Record PaymentApi := mkPaymentApi {
  collect_collation_info : State -> CollationInfo;
  query_info : Extrinsic -> Z -> State -> DispatchInfo;
  query_fee_details : Extrinsic -> Z -> State -> FeeDetails;
}.

(** *** Halongbay *)
Definition halongbay_core : CoreApi :=
  {| api_version := halongbay_version;
     execute_block := Executive_execute_block;
     initialize_block := Executive_initialize_block;
     metadata := Runtime_metadata |}.
Definition halongbay_block_builder : BlockBuilderApi :=
  {| apply_extrinsic := Executive_apply_extrinsic;
     finalize_block := Executive_finalize_block;
     inherent_extrinsics := create_extrinsics;
     check_inherents block data := check_extrinsics data block;
     validate_transaction := Executive_validate_transaction;
     offchain_worker := Executive_offchain_worker |}.
Definition halongbay_consensus : ConsensusApi :=
  {| slot_duration := Aura_slot_duration;
     authorities := Aura_authorities;
     generate_session_keys := SessionKeys_generate;
     decode_session_keys := SessionKeys_decode;
     account_nonce := System_account_nonce |}.
Definition halongbay_ethereum : EthereumApi :=
  {| chain_id := CHAIN_ID halongbay_time;
     account_basic := EVM_account_basic;
     gas_price := FeeCalculator_min_gas_price;
     account_code_at := EVM_account_codes;
     author := Ethereum_find_author;
     storage_at address index s :=
       let tmp := to_big_endian index in
       (fun key => EVM_account_storages address key s) <$> H256_from_slice tmp;
     call := eth_call;
     create := eth_create;
     current_transaction_statuses := Ethereum_current_transaction_statuses;
     current_block := Ethereum_current_block;
     current_receipts := Ethereum_current_receipts;
     current_all s :=
       (Ethereum_current_block s, Ethereum_current_receipts s, Ethereum_current_transaction_statuses s) |}.
Definition halongbay_payment : PaymentApi :=
  {| collect_collation_info := ParachainSystem_collect_collation_info;
     query_info := TransactionPayment_query_info;
     query_fee_details := TransactionPayment_query_fee_details |}.

(** *** PolkaFoundry *)
Definition polkafoundry_core : CoreApi :=
  {| api_version := polkafoundry_version;
     execute_block := Executive_execute_block;
     initialize_block := Executive_initialize_block;
     metadata := Runtime_metadata |}.
Definition polkafoundry_block_builder : BlockBuilderApi :=
  {| apply_extrinsic := Executive_apply_extrinsic;
     finalize_block := Executive_finalize_block;
     inherent_extrinsics := create_extrinsics;
     check_inherents block data := check_extrinsics data block;
     validate_transaction := Executive_validate_transaction;
     offchain_worker := Executive_offchain_worker |}.
Definition polkafoundry_consensus : ConsensusApi :=
  {| slot_duration := Aura_slot_duration;
     authorities := Aura_authorities;
     generate_session_keys := SessionKeys_generate;
     decode_session_keys := SessionKeys_decode;
     account_nonce := System_account_nonce |}.
Definition polkafoundry_ethereum : EthereumApi :=
  {| chain_id := CHAIN_ID polkafoundry_time;
     account_basic := EVM_account_basic;
     gas_price := FeeCalculator_min_gas_price;
     account_code_at := EVM_account_codes;
     author := Ethereum_find_author;
     storage_at address index s :=
       let tmp := to_big_endian index in
       (fun key => EVM_account_storages address key s) <$> H256_from_slice tmp;
     call := eth_call;
     create := eth_create;
     current_transaction_statuses := Ethereum_current_transaction_statuses;
     current_block := Ethereum_current_block;
     current_receipts := Ethereum_current_receipts;
     current_all s :=
       (Ethereum_current_block s, Ethereum_current_receipts s, Ethereum_current_transaction_statuses s) |}.
Definition polkafoundry_payment : PaymentApi :=
  {| collect_collation_info := ParachainSystem_collect_collation_info;
     query_info := TransactionPayment_query_info;
     query_fee_details := TransactionPayment_query_fee_details |}.

(** *** PolkaSmith *)
Definition polkasmith_core : CoreApi :=
  {| api_version := polkasmith_version;
     execute_block := Executive_execute_block;
     initialize_block := Executive_initialize_block;
     metadata := Runtime_metadata |}.
Definition polkasmith_block_builder : BlockBuilderApi :=
  {| apply_extrinsic := Executive_apply_extrinsic;
     finalize_block := Executive_finalize_block;
     inherent_extrinsics := create_extrinsics;
     check_inherents block data := check_extrinsics data block;
     validate_transaction := Executive_validate_transaction;
     offchain_worker := Executive_offchain_worker |}.
Definition polkasmith_consensus : ConsensusApi :=
  {| slot_duration := Aura_slot_duration;
     authorities := Aura_authorities;
     generate_session_keys := SessionKeys_generate;
     decode_session_keys := SessionKeys_decode;
     account_nonce := System_account_nonce |}.
Definition polkasmith_ethereum : EthereumApi :=
  {| chain_id := CHAIN_ID polkasmith_time;
     account_basic := EVM_account_basic;
     gas_price := FeeCalculator_min_gas_price;
     account_code_at := EVM_account_codes;
     author := Ethereum_find_author;
     storage_at address index s :=
       let tmp := to_big_endian index in
       (fun key => EVM_account_storages address key s) <$> H256_from_slice tmp;
     call := eth_call;
     create := eth_create;
     current_transaction_statuses := Ethereum_current_transaction_statuses;
     current_block := Ethereum_current_block;
     current_receipts := Ethereum_current_receipts;
     current_all s :=
       (Ethereum_current_block s, Ethereum_current_receipts s, Ethereum_current_transaction_statuses s) |}.
Definition polkasmith_payment : PaymentApi :=
  {| collect_collation_info := ParachainSystem_collect_collation_info;
     query_info := TransactionPayment_query_info;
     query_fee_details := TransactionPayment_query_fee_details |}.

Definition core_api (c : ForceChain) : CoreApi :=
  match c with
  | PolkaFoundry => polkafoundry_core
  | PolkaSmith => polkasmith_core
  | Halongbay => halongbay_core
  end.
Definition ethereum_api (c : ForceChain) : EthereumApi :=
  match c with
  | PolkaFoundry => polkafoundry_ethereum
  | PolkaSmith => polkasmith_ethereum
  | Halongbay => halongbay_ethereum
  end.

Context `{PLL : !PalletsLaws}.

(** A storage query never panics, and reads the slot whose key is the index, in
    big-endian bytes, whichever the network: queries for different indices read
    different slots. *)
Theorem storage_at_slot c address index s :
  0 <= index < 2 ^ 256 ->
  exists key, storage_at (ethereum_api c) address index s = Some (EVM_account_storages address key s) /\
    be_value (H256_bytes key) = index.
Proof using PLL.
  intros Hi. destruct (to_big_endian_value index Hi) as [Hlen Hval].
  destruct (from_slice_total _ Hlen) as [key Hkey]. exists key.
  assert (storage_at (ethereum_api c) address index s
    = (fun key => EVM_account_storages address key s) <$> H256_from_slice (to_big_endian index)) as ->
    by by destruct c.
  rewrite Hkey. split; [done|]. by rewrite (from_slice_bytes _ _ Hkey).
Qed.

(** Queries run alike on every network: with the gas they were given while that
    fits 64 bits, and with [estimate] set if they asked for it. *)
Theorem queries_alike c from to data value gas_limit gas_price nonce est s :
  0 <= gas_limit < 2 ^ 64 ->
  let config := mkEvmConfig (est || estimate evm_config) (other_fields evm_config) in
  call (ethereum_api c) from to data value gas_limit gas_price nonce est s
    = map_err (runner_call from to data value gas_limit gas_price nonce config s) /\
  create (ethereum_api c) from data value gas_limit gas_price nonce est s
    = map_err (runner_create from data value gas_limit gas_price nonce config s).
Proof using Type. intros Hg. destruct c; by apply eth_query_spec. Qed.

(** The networks tell themselves apart by the name in their version, and a
    bulk query answers what the single queries do. *)
Theorem api_identifies c c' s :
  (api_version (core_api c) = api_version (core_api c') -> c = c') /\
  current_all (ethereum_api c) s
  = (current_block (ethereum_api c) s, current_receipts (ethereum_api c) s,
     current_transaction_statuses (ethereum_api c) s).
Proof using Type. split; [destruct c, c'; by inversion 1 | by destruct c]. Qed.
End RuntimeApis.

(** ** A transaction refused

    The state is a nonce and a balance, a call its stated nonce and its fee. *)
Fixpoint in_order {State Call} (xs : list (@SignedExtension State Call string))
    : @SignedExtension State Call string :=
  fun who call s =>
    match xs with
    | [] => (None, s)
    | x :: xs =>
        match x who call s with
        | (None, s) => in_order xs who call s
        | res => res
        end
    end.
Definition pass {State Call} : @SignedExtension State Call string := fun _ _ s => (None, s).
#[export] Instance mock_extensions : @SignedExtensions (Z * Z) (Z * Z) string Z := {|
  CheckSpecVersion := pass; CheckTxVersion := pass; CheckGenesis := pass; CheckEra := pass;
  CheckNonce _ call s :=
    if call.1 =? s.1 then (None, (s.1 + 1, s.2)) else (Some "Stale"%string, s);
  CheckWeight := pass;
  ChargeTransactionPayment _ call s :=
    if call.2 <=? s.2 then (None, (s.1, s.2 - call.2)) else (Some "Payment"%string, s);
  balances := snd;
  pre_dispatch := in_order;
|}.
#[export] Instance mock_extensions_laws : SignedExtensionsLaws.
Proof.
  split; simpl.
  - intros x who call s Hx. set_unfold in Hx. destruct_or?; subst; simpl; try done. by case_match.
  - intros who call s. by case_match.
  - done.
  - done.
Qed.

Lemma refused_pays_nothing_witness :
  pre_dispatch (SignedExtra Halongbay) 1%N (3, 50) (3, 40) = (Some "Payment"%string, (4, 40)) /\
  balances (4, 40) = balances (3, 40).
Proof.
  split; [reflexivity|].
  apply (refused_pays_nothing Halongbay 1%N (3, 50) (3, 40) "Payment"%string). reflexivity.
Defined.
