(* ===== verification/RuntimeConfig.v ===== *)
(** * How the runtimes configure their pallets

    [runtime/{halongbay,polkafoundry,polkasmith}/src/lib.rs]: the [Config] of
    every pallet of [construct_runtime!] but [pallet_xcm], which is in
    [XcmConfig]; Halongbay's parameters for the staking pallet, whose
    configuration is not enabled; and the benchmarking API.  Each of the three
    files is written out.  A type of the Rust code is named by its path, so that
    which pallets a configuration relies on can be read off it. *)
From Stdlib Require Import Strings.Byte.
From S2P Require Import Prelude StakingTypes Externals StakingPallet StakingMock Networks Runtime.

#[local] Open Scope string_scope.
#[local] Open Scope Z_scope.
#[local] Open Scope list_scope.
#[local] Open Scope pallet_scope.

(** ** Types *)

(** A type: [()], a type by its path and arguments, or a pallet of the runtime by
    its name in [construct_runtime!]. *)
Inductive TypeExpr :=
  | Empty
  | Path (path : string) (args : list TypeExpr)
  | InRuntime (p : string).

(** A type without arguments is written as its path. *)
Definition named (path : string) : TypeExpr := Path path [].
Coercion named : string >-> TypeExpr.

(** The pallets a type mentions. *)
Fixpoint mentions (t : TypeExpr) : list string :=
  match t with
  | Empty => []
  | Path _ args => flat_map mentions args
  | InRuntime p => [p]
  end.

(** ** [Config] *)

Module frame_system.
Record Config := mkConfig {
  BaseCallFilter : TypeExpr;
  BlockWeights : TypeExpr;
  BlockLength : TypeExpr;
  AccountId : TypeExpr;
  Call : TypeExpr;
  Lookup : TypeExpr;
  Index : TypeExpr;
  BlockNumber : TypeExpr;
  Hash : TypeExpr;
  Hashing : TypeExpr;
  Header : TypeExpr;
  Event : TypeExpr;
  Origin : TypeExpr;
  BlockHashCount : Z;
  DbWeight : TypeExpr;
  Version : RuntimeVersion;
  PalletInfo : TypeExpr;
  OnNewAccount : TypeExpr;
  OnKilledAccount : TypeExpr;
  AccountData : TypeExpr;
  SystemWeightInfo : TypeExpr;
  SS58Prefix : Z;
  OnSetCode : TypeExpr;
}.
Definition types (c : Config) : list TypeExpr :=
  [BaseCallFilter c; BlockWeights c; BlockLength c; AccountId c; Call c; Lookup c; Index c;
   BlockNumber c; Hash c; Hashing c; Header c; Event c; Origin c; DbWeight c; PalletInfo c;
   OnNewAccount c; OnKilledAccount c; AccountData c; SystemWeightInfo c; OnSetCode c].
End frame_system.

Module pallet_aura.
Record Config := mkConfig {
  AuthorityId : TypeExpr;
}.
Definition types (c : Config) : list TypeExpr :=
  [AuthorityId c].
End pallet_aura.

Module pallet_timestamp.
Record Config := mkConfig {
  Moment : TypeExpr;
  OnTimestampSet : TypeExpr;
  MinimumPeriod : Z;
  WeightInfo : TypeExpr;
}.
Definition types (c : Config) : list TypeExpr :=
  [Moment c; OnTimestampSet c; WeightInfo c].
End pallet_timestamp.

Module pallet_balances.
Record Config := mkConfig {
  MaxLocks : Z;
  Balance : TypeExpr;
  Event : TypeExpr;
  DustRemoval : TypeExpr;
  ExistentialDeposit : Z;
  AccountStore : TypeExpr;
  WeightInfo : TypeExpr;
}.
Definition types (c : Config) : list TypeExpr :=
  [Balance c; Event c; DustRemoval c; AccountStore c; WeightInfo c].
End pallet_balances.

Module pallet_transaction_payment.
Record Config := mkConfig {
  OnChargeTransaction : TypeExpr;
  TransactionByteFee : Z;
  WeightToFee : TypeExpr;
  FeeMultiplierUpdate : TypeExpr;
}.
Definition types (c : Config) : list TypeExpr :=
  [OnChargeTransaction c; WeightToFee c; FeeMultiplierUpdate c].
End pallet_transaction_payment.

Module pallet_sudo.
Record Config := mkConfig {
  Event : TypeExpr;
  Call : TypeExpr;
}.
Definition types (c : Config) : list TypeExpr :=
  [Event c; Call c].
End pallet_sudo.

Module cumulus_pallet_dmp_queue.
Record Config := mkConfig {
  Event : TypeExpr;
  XcmExecutor : TypeExpr;
  ExecuteOverweightOrigin : TypeExpr;
}.
Definition types (c : Config) : list TypeExpr :=
  [Event c; XcmExecutor c; ExecuteOverweightOrigin c].
End cumulus_pallet_dmp_queue.

Module cumulus_pallet_parachain_system.
Record Config := mkConfig {
  Event : TypeExpr;
  OnValidationData : TypeExpr;
  SelfParaId : TypeExpr;
  OutboundXcmpMessageSource : TypeExpr;
  DmpMessageHandler : TypeExpr;
  ReservedDmpWeight : Z;
  XcmpMessageHandler : TypeExpr;
  ReservedXcmpWeight : Z;
}.
Definition types (c : Config) : list TypeExpr :=
  [Event c; OnValidationData c; SelfParaId c; OutboundXcmpMessageSource c; DmpMessageHandler c;
   XcmpMessageHandler c].
End cumulus_pallet_parachain_system.

Module parachain_info.
Record Config := mkConfig {}.
End parachain_info.

Module cumulus_pallet_aura_ext.
Record Config := mkConfig {}.
End cumulus_pallet_aura_ext.

Module cumulus_pallet_xcm.
Record Config := mkConfig {
  Event : TypeExpr;
  XcmExecutor : TypeExpr;
}.
Definition types (c : Config) : list TypeExpr :=
  [Event c; XcmExecutor c].
End cumulus_pallet_xcm.

Module cumulus_pallet_xcmp_queue.
Record Config := mkConfig {
  Event : TypeExpr;
  XcmExecutor : TypeExpr;
  ChannelInfo : TypeExpr;
}.
Definition types (c : Config) : list TypeExpr :=
  [Event c; XcmExecutor c; ChannelInfo c].
End cumulus_pallet_xcmp_queue.

Module cumulus_ping.
Record Config := mkConfig {
  Event : TypeExpr;
  Origin : TypeExpr;
  Call : TypeExpr;
  XcmSender : TypeExpr;
}.
Definition types (c : Config) : list TypeExpr :=
  [Event c; Origin c; Call c; XcmSender c].
End cumulus_ping.

Module pallet_ethereum.
Record Config := mkConfig {
  Event : TypeExpr;
  FindAuthor : TypeExpr;
  StateRoot : TypeExpr;
}.
Definition types (c : Config) : list TypeExpr :=
  [Event c; FindAuthor c; StateRoot c].
End pallet_ethereum.

Module pallet_evm.
Record Config := mkConfig {
  FeeCalculator : TypeExpr;
  GasWeightMapping : TypeExpr;
  CallOrigin : TypeExpr;
  WithdrawOrigin : TypeExpr;
  AddressMapping : TypeExpr;
  Currency : TypeExpr;
  Event : TypeExpr;
  Runner : TypeExpr;
  Precompiles : TypeExpr;
  ChainId : Z;
  BlockGasLimit : Z;
  OnChargeTransaction : TypeExpr;
}.
Definition types (c : Config) : list TypeExpr :=
  [FeeCalculator c; GasWeightMapping c; CallOrigin c; WithdrawOrigin c; AddressMapping c;
   Currency c; Event c; Runner c; Precompiles c; OnChargeTransaction c].
End pallet_evm.

Module pallet_crowdloan_rewards.
Record Config := mkConfig {
  Event : TypeExpr;
  RelayChainAccountId : TypeExpr;
}.
Definition types (c : Config) : list TypeExpr :=
  [Event c; RelayChainAccountId c].
End pallet_crowdloan_rewards.

Module pallet_treasury.
Record Config := mkConfig {
  PalletId : list byte;
  Currency : TypeExpr;
  Event : TypeExpr;
}.
Definition types (c : Config) : list TypeExpr :=
  [Currency c; Event c].
End pallet_treasury.

(** The limit on the weight of a block, which some constants are fractions of. *)
Section Config.
Context (MAXIMUM_BLOCK_WEIGHT : Weight).

(** The eight bytes of a [PalletId]. *)
Definition TreasuryPalletId : list byte := String.list_byte_of_string "Treasury".

(** [runtime/halongbay/src/lib.rs] *)

Definition halongbay_frame_system : frame_system.Config :=
  {| frame_system.BaseCallFilter := Empty;
     frame_system.BlockWeights := "BlockWeights";
     frame_system.BlockLength := "BlockLength";
     frame_system.AccountId := "AccountId";
     frame_system.Call := "Call";
     frame_system.Lookup := Path "AccountIdLookup" [named "AccountId"; Empty];
     frame_system.Index := "Index";
     frame_system.BlockNumber := "BlockNumber";
     frame_system.Hash := "Hash";
     frame_system.Hashing := "BlakeTwo256";
     frame_system.Header := Path "generic::Header" [named "BlockNumber"; named "BlakeTwo256"];
     frame_system.Event := "Event";
     frame_system.Origin := "Origin";
     frame_system.BlockHashCount := Networks.BlockHashCount;
     frame_system.DbWeight := "RocksDbWeight";
     frame_system.Version := version Halongbay;
     frame_system.PalletInfo := "PalletInfo";
     frame_system.OnNewAccount := Empty;
     frame_system.OnKilledAccount := Empty;
     frame_system.AccountData := Path "pallet_balances::AccountData" [named "Balance"];
     frame_system.SystemWeightInfo := Empty;
     frame_system.SS58Prefix := Networks.SS58PREFIX (time Halongbay);
     frame_system.OnSetCode :=
       Path "cumulus_pallet_parachain_system::ParachainSetCode" [named "Self"] |}.
Definition halongbay_pallet_aura : pallet_aura.Config :=
  {| pallet_aura.AuthorityId := "AuraId" |}.
Definition halongbay_pallet_timestamp : pallet_timestamp.Config :=
  {| pallet_timestamp.Moment := "Moment";
     pallet_timestamp.OnTimestampSet := Empty;
     pallet_timestamp.MinimumPeriod := Networks.MinimumPeriod (time Halongbay);
     pallet_timestamp.WeightInfo := Empty |}.
Definition halongbay_pallet_balances : pallet_balances.Config :=
  {| pallet_balances.MaxLocks := Runtime.MaxLocks;
     pallet_balances.Balance := "Balance";
     pallet_balances.Event := "Event";
     pallet_balances.DustRemoval := Empty;
     pallet_balances.ExistentialDeposit := Networks.ExistentialDeposit;
     pallet_balances.AccountStore := InRuntime "System";
     pallet_balances.WeightInfo := Empty |}.
Definition halongbay_pallet_transaction_payment : pallet_transaction_payment.Config :=
  {| pallet_transaction_payment.OnChargeTransaction :=
       Path "pallet_transaction_payment::CurrencyAdapter" [InRuntime "Balances"; Empty];
     pallet_transaction_payment.TransactionByteFee := Runtime.TransactionByteFee;
     pallet_transaction_payment.WeightToFee := Path "IdentityFee" [named "Balance"];
     pallet_transaction_payment.FeeMultiplierUpdate := Empty |}.
Definition halongbay_pallet_sudo : pallet_sudo.Config :=
  {| pallet_sudo.Event := "Event";
     pallet_sudo.Call := "Call" |}.
Definition halongbay_cumulus_pallet_dmp_queue : cumulus_pallet_dmp_queue.Config :=
  {| cumulus_pallet_dmp_queue.Event := "Event";
     cumulus_pallet_dmp_queue.XcmExecutor := Path "XcmExecutor" [named "XcmConfig"];
     cumulus_pallet_dmp_queue.ExecuteOverweightOrigin :=
       Path "frame_system::EnsureRoot" [named "AccountId"] |}.
Definition halongbay_cumulus_pallet_parachain_system : cumulus_pallet_parachain_system.Config :=
  {| cumulus_pallet_parachain_system.Event := "Event";
     cumulus_pallet_parachain_system.OnValidationData := Empty;
     cumulus_pallet_parachain_system.SelfParaId := InRuntime "ParachainInfo";
     cumulus_pallet_parachain_system.OutboundXcmpMessageSource := InRuntime "XcmpQueue";
     cumulus_pallet_parachain_system.DmpMessageHandler := InRuntime "DmpQueue";
     cumulus_pallet_parachain_system.ReservedDmpWeight :=
       Runtime.ReservedDmpWeight MAXIMUM_BLOCK_WEIGHT;
     cumulus_pallet_parachain_system.XcmpMessageHandler := InRuntime "XcmpQueue";
     cumulus_pallet_parachain_system.ReservedXcmpWeight :=
       Runtime.ReservedXcmpWeight MAXIMUM_BLOCK_WEIGHT |}.
Definition halongbay_parachain_info : parachain_info.Config :=
  parachain_info.mkConfig.
Definition halongbay_cumulus_pallet_aura_ext : cumulus_pallet_aura_ext.Config :=
  cumulus_pallet_aura_ext.mkConfig.
Definition halongbay_cumulus_pallet_xcm : cumulus_pallet_xcm.Config :=
  {| cumulus_pallet_xcm.Event := "Event";
     cumulus_pallet_xcm.XcmExecutor := Path "XcmExecutor" [named "XcmConfig"] |}.
Definition halongbay_cumulus_pallet_xcmp_queue : cumulus_pallet_xcmp_queue.Config :=
  {| cumulus_pallet_xcmp_queue.Event := "Event";
     cumulus_pallet_xcmp_queue.XcmExecutor := Path "XcmExecutor" [named "XcmConfig"];
     cumulus_pallet_xcmp_queue.ChannelInfo := InRuntime "ParachainSystem" |}.
Definition halongbay_cumulus_ping : cumulus_ping.Config :=
  {| cumulus_ping.Event := "Event";
     cumulus_ping.Origin := "Origin";
     cumulus_ping.Call := "Call";
     cumulus_ping.XcmSender := "XcmRouter" |}.
Definition halongbay_pallet_ethereum : pallet_ethereum.Config :=
  {| pallet_ethereum.Event := "Event";
     pallet_ethereum.FindAuthor := Empty;
     pallet_ethereum.StateRoot := "pallet_ethereum::IntermediateStateRoot" |}.
Definition halongbay_pallet_evm : pallet_evm.Config :=
  {| pallet_evm.FeeCalculator := Empty;
     pallet_evm.GasWeightMapping := Empty;
     pallet_evm.CallOrigin := "EnsureAddressTruncated";
     pallet_evm.WithdrawOrigin := "EnsureAddressTruncated";
     pallet_evm.AddressMapping := Path "HashedAddressMapping" [named "BlakeTwo256"];
     pallet_evm.Currency := InRuntime "Balances";
     pallet_evm.Event := "Event";
     pallet_evm.Runner := Path "pallet_evm::runner::stack::Runner" [named "Self"];
     pallet_evm.Precompiles := Path "precompiles::PolkafoundryPrecompiles" [named "Self"];
     pallet_evm.ChainId := Runtime.ChainId Halongbay;
     pallet_evm.BlockGasLimit := Runtime.BlockGasLimit;
     pallet_evm.OnChargeTransaction := Empty |}.
Definition halongbay_pallet_crowdloan_rewards : pallet_crowdloan_rewards.Config :=
  {| pallet_crowdloan_rewards.Event := "Event";
     pallet_crowdloan_rewards.RelayChainAccountId := "AccountId32" |}.
Definition halongbay_pallet_treasury : pallet_treasury.Config :=
  {| pallet_treasury.PalletId := TreasuryPalletId;
     pallet_treasury.Currency := InRuntime "Balances";
     pallet_treasury.Event := "Event" |}.

(** [runtime/polkafoundry/src/lib.rs] *)

Definition polkafoundry_frame_system : frame_system.Config :=
  {| frame_system.BaseCallFilter := Empty;
     frame_system.BlockWeights := "BlockWeights";
     frame_system.BlockLength := "BlockLength";
     frame_system.AccountId := "AccountId";
     frame_system.Call := "Call";
     frame_system.Lookup := Path "AccountIdLookup" [named "AccountId"; Empty];
     frame_system.Index := "Index";
     frame_system.BlockNumber := "BlockNumber";
     frame_system.Hash := "Hash";
     frame_system.Hashing := "BlakeTwo256";
     frame_system.Header := Path "generic::Header" [named "BlockNumber"; named "BlakeTwo256"];
     frame_system.Event := "Event";
     frame_system.Origin := "Origin";
     frame_system.BlockHashCount := Networks.BlockHashCount;
     frame_system.DbWeight := "RocksDbWeight";
     frame_system.Version := version PolkaFoundry;
     frame_system.PalletInfo := "PalletInfo";
     frame_system.OnNewAccount := Empty;
     frame_system.OnKilledAccount := Empty;
     frame_system.AccountData := Path "pallet_balances::AccountData" [named "Balance"];
     frame_system.SystemWeightInfo := Empty;
     frame_system.SS58Prefix := Networks.SS58PREFIX (time PolkaFoundry);
     frame_system.OnSetCode :=
       Path "cumulus_pallet_parachain_system::ParachainSetCode" [named "Self"] |}.
Definition polkafoundry_pallet_aura : pallet_aura.Config :=
  {| pallet_aura.AuthorityId := "AuraId" |}.
Definition polkafoundry_pallet_timestamp : pallet_timestamp.Config :=
  {| pallet_timestamp.Moment := "Moment";
     pallet_timestamp.OnTimestampSet := Empty;
     pallet_timestamp.MinimumPeriod := Networks.MinimumPeriod (time PolkaFoundry);
     pallet_timestamp.WeightInfo := Empty |}.
Definition polkafoundry_pallet_balances : pallet_balances.Config :=
  {| pallet_balances.MaxLocks := Runtime.MaxLocks;
     pallet_balances.Balance := "Balance";
     pallet_balances.Event := "Event";
     pallet_balances.DustRemoval := Empty;
     pallet_balances.ExistentialDeposit := Networks.ExistentialDeposit;
     pallet_balances.AccountStore := InRuntime "System";
     pallet_balances.WeightInfo := Empty |}.
Definition polkafoundry_pallet_transaction_payment : pallet_transaction_payment.Config :=
  {| pallet_transaction_payment.OnChargeTransaction :=
       Path "pallet_transaction_payment::CurrencyAdapter" [InRuntime "Balances"; Empty];
     pallet_transaction_payment.TransactionByteFee := Runtime.TransactionByteFee;
     pallet_transaction_payment.WeightToFee := Path "IdentityFee" [named "Balance"];
     pallet_transaction_payment.FeeMultiplierUpdate := Empty |}.
Definition polkafoundry_pallet_sudo : pallet_sudo.Config :=
  {| pallet_sudo.Event := "Event";
     pallet_sudo.Call := "Call" |}.
Definition polkafoundry_cumulus_pallet_dmp_queue : cumulus_pallet_dmp_queue.Config :=
  {| cumulus_pallet_dmp_queue.Event := "Event";
     cumulus_pallet_dmp_queue.XcmExecutor := Path "XcmExecutor" [named "XcmConfig"];
     cumulus_pallet_dmp_queue.ExecuteOverweightOrigin :=
       Path "frame_system::EnsureRoot" [named "AccountId"] |}.
Definition polkafoundry_cumulus_pallet_parachain_system : cumulus_pallet_parachain_system.Config :=
  {| cumulus_pallet_parachain_system.Event := "Event";
     cumulus_pallet_parachain_system.OnValidationData := Empty;
     cumulus_pallet_parachain_system.SelfParaId := InRuntime "ParachainInfo";
     cumulus_pallet_parachain_system.OutboundXcmpMessageSource := InRuntime "XcmpQueue";
     cumulus_pallet_parachain_system.DmpMessageHandler := InRuntime "DmpQueue";
     cumulus_pallet_parachain_system.ReservedDmpWeight :=
       Runtime.ReservedDmpWeight MAXIMUM_BLOCK_WEIGHT;
     cumulus_pallet_parachain_system.XcmpMessageHandler := InRuntime "XcmpQueue";
     cumulus_pallet_parachain_system.ReservedXcmpWeight :=
       Runtime.ReservedXcmpWeight MAXIMUM_BLOCK_WEIGHT |}.
Definition polkafoundry_parachain_info : parachain_info.Config :=
  parachain_info.mkConfig.
Definition polkafoundry_cumulus_pallet_aura_ext : cumulus_pallet_aura_ext.Config :=
  cumulus_pallet_aura_ext.mkConfig.
Definition polkafoundry_cumulus_pallet_xcm : cumulus_pallet_xcm.Config :=
  {| cumulus_pallet_xcm.Event := "Event";
     cumulus_pallet_xcm.XcmExecutor := Path "XcmExecutor" [named "XcmConfig"] |}.
Definition polkafoundry_cumulus_pallet_xcmp_queue : cumulus_pallet_xcmp_queue.Config :=
  {| cumulus_pallet_xcmp_queue.Event := "Event";
     cumulus_pallet_xcmp_queue.XcmExecutor := Path "XcmExecutor" [named "XcmConfig"];
     cumulus_pallet_xcmp_queue.ChannelInfo := InRuntime "ParachainSystem" |}.
Definition polkafoundry_cumulus_ping : cumulus_ping.Config :=
  {| cumulus_ping.Event := "Event";
     cumulus_ping.Origin := "Origin";
     cumulus_ping.Call := "Call";
     cumulus_ping.XcmSender := "XcmRouter" |}.
Definition polkafoundry_pallet_ethereum : pallet_ethereum.Config :=
  {| pallet_ethereum.Event := "Event";
     pallet_ethereum.FindAuthor := Empty;
     pallet_ethereum.StateRoot := "pallet_ethereum::IntermediateStateRoot" |}.
Definition polkafoundry_pallet_evm : pallet_evm.Config :=
  {| pallet_evm.FeeCalculator := Empty;
     pallet_evm.GasWeightMapping := Empty;
     pallet_evm.CallOrigin := "EnsureAddressTruncated";
     pallet_evm.WithdrawOrigin := "EnsureAddressTruncated";
     pallet_evm.AddressMapping := Path "HashedAddressMapping" [named "BlakeTwo256"];
     pallet_evm.Currency := InRuntime "Balances";
     pallet_evm.Event := "Event";
     pallet_evm.Runner := Path "pallet_evm::runner::stack::Runner" [named "Self"];
     pallet_evm.Precompiles := Path "precompiles::PolkafoundryPrecompiles" [named "Self"];
     pallet_evm.ChainId := Runtime.ChainId PolkaFoundry;
     pallet_evm.BlockGasLimit := Runtime.BlockGasLimit;
     pallet_evm.OnChargeTransaction := Empty |}.

(** [runtime/polkasmith/src/lib.rs] *)

Definition polkasmith_frame_system : frame_system.Config :=
  {| frame_system.BaseCallFilter := Empty;
     frame_system.BlockWeights := "BlockWeights";
     frame_system.BlockLength := "BlockLength";
     frame_system.AccountId := "AccountId";
     frame_system.Call := "Call";
     frame_system.Lookup := Path "AccountIdLookup" [named "AccountId"; Empty];
     frame_system.Index := "Index";
     frame_system.BlockNumber := "BlockNumber";
     frame_system.Hash := "Hash";
     frame_system.Hashing := "BlakeTwo256";
     frame_system.Header := Path "generic::Header" [named "BlockNumber"; named "BlakeTwo256"];
     frame_system.Event := "Event";
     frame_system.Origin := "Origin";
     frame_system.BlockHashCount := Networks.BlockHashCount;
     frame_system.DbWeight := "RocksDbWeight";
     frame_system.Version := version PolkaSmith;
     frame_system.PalletInfo := "PalletInfo";
     frame_system.OnNewAccount := Empty;
     frame_system.OnKilledAccount := Empty;
     frame_system.AccountData := Path "pallet_balances::AccountData" [named "Balance"];
     frame_system.SystemWeightInfo := Empty;
     frame_system.SS58Prefix := Networks.SS58PREFIX (time PolkaSmith);
     frame_system.OnSetCode :=
       Path "cumulus_pallet_parachain_system::ParachainSetCode" [named "Self"] |}.
Definition polkasmith_pallet_aura : pallet_aura.Config :=
  {| pallet_aura.AuthorityId := "AuraId" |}.
Definition polkasmith_pallet_timestamp : pallet_timestamp.Config :=
  {| pallet_timestamp.Moment := "Moment";
     pallet_timestamp.OnTimestampSet := Empty;
     pallet_timestamp.MinimumPeriod := Networks.MinimumPeriod (time PolkaSmith);
     pallet_timestamp.WeightInfo := Empty |}.
Definition polkasmith_pallet_balances : pallet_balances.Config :=
  {| pallet_balances.MaxLocks := Runtime.MaxLocks;
     pallet_balances.Balance := "Balance";
     pallet_balances.Event := "Event";
     pallet_balances.DustRemoval := Empty;
     pallet_balances.ExistentialDeposit := Networks.ExistentialDeposit;
     pallet_balances.AccountStore := InRuntime "System";
     pallet_balances.WeightInfo := Empty |}.
Definition polkasmith_pallet_transaction_payment : pallet_transaction_payment.Config :=
  {| pallet_transaction_payment.OnChargeTransaction :=
       Path "pallet_transaction_payment::CurrencyAdapter" [InRuntime "Balances"; Empty];
     pallet_transaction_payment.TransactionByteFee := Runtime.TransactionByteFee;
     pallet_transaction_payment.WeightToFee := Path "IdentityFee" [named "Balance"];
     pallet_transaction_payment.FeeMultiplierUpdate := Empty |}.
Definition polkasmith_pallet_sudo : pallet_sudo.Config :=
  {| pallet_sudo.Event := "Event";
     pallet_sudo.Call := "Call" |}.
Definition polkasmith_cumulus_pallet_dmp_queue : cumulus_pallet_dmp_queue.Config :=
  {| cumulus_pallet_dmp_queue.Event := "Event";
     cumulus_pallet_dmp_queue.XcmExecutor := Path "XcmExecutor" [named "XcmConfig"];
     cumulus_pallet_dmp_queue.ExecuteOverweightOrigin :=
       Path "frame_system::EnsureRoot" [named "AccountId"] |}.
Definition polkasmith_cumulus_pallet_parachain_system : cumulus_pallet_parachain_system.Config :=
  {| cumulus_pallet_parachain_system.Event := "Event";
     cumulus_pallet_parachain_system.OnValidationData := Empty;
     cumulus_pallet_parachain_system.SelfParaId := InRuntime "ParachainInfo";
     cumulus_pallet_parachain_system.OutboundXcmpMessageSource := InRuntime "XcmpQueue";
     cumulus_pallet_parachain_system.DmpMessageHandler := InRuntime "DmpQueue";
     cumulus_pallet_parachain_system.ReservedDmpWeight :=
       Runtime.ReservedDmpWeight MAXIMUM_BLOCK_WEIGHT;
     cumulus_pallet_parachain_system.XcmpMessageHandler := InRuntime "XcmpQueue";
     cumulus_pallet_parachain_system.ReservedXcmpWeight :=
       Runtime.ReservedXcmpWeight MAXIMUM_BLOCK_WEIGHT |}.
Definition polkasmith_parachain_info : parachain_info.Config :=
  parachain_info.mkConfig.
Definition polkasmith_cumulus_pallet_aura_ext : cumulus_pallet_aura_ext.Config :=
  cumulus_pallet_aura_ext.mkConfig.
Definition polkasmith_cumulus_pallet_xcm : cumulus_pallet_xcm.Config :=
  {| cumulus_pallet_xcm.Event := "Event";
     cumulus_pallet_xcm.XcmExecutor := Path "XcmExecutor" [named "XcmConfig"] |}.
Definition polkasmith_cumulus_pallet_xcmp_queue : cumulus_pallet_xcmp_queue.Config :=
  {| cumulus_pallet_xcmp_queue.Event := "Event";
     cumulus_pallet_xcmp_queue.XcmExecutor := Path "XcmExecutor" [named "XcmConfig"];
     cumulus_pallet_xcmp_queue.ChannelInfo := InRuntime "ParachainSystem" |}.
Definition polkasmith_cumulus_ping : cumulus_ping.Config :=
  {| cumulus_ping.Event := "Event";
     cumulus_ping.Origin := "Origin";
     cumulus_ping.Call := "Call";
     cumulus_ping.XcmSender := "XcmRouter" |}.
Definition polkasmith_pallet_ethereum : pallet_ethereum.Config :=
  {| pallet_ethereum.Event := "Event";
     pallet_ethereum.FindAuthor := Empty;
     pallet_ethereum.StateRoot := "pallet_ethereum::IntermediateStateRoot" |}.
Definition polkasmith_pallet_evm : pallet_evm.Config :=
  {| pallet_evm.FeeCalculator := Empty;
     pallet_evm.GasWeightMapping := Empty;
     pallet_evm.CallOrigin := "EnsureAddressTruncated";
     pallet_evm.WithdrawOrigin := "EnsureAddressTruncated";
     pallet_evm.AddressMapping := Path "HashedAddressMapping" [named "BlakeTwo256"];
     pallet_evm.Currency := InRuntime "Balances";
     pallet_evm.Event := "Event";
     pallet_evm.Runner := Path "pallet_evm::runner::stack::Runner" [named "Self"];
     pallet_evm.Precompiles := Path "precompiles::PolkafoundryPrecompiles" [named "Self"];
     pallet_evm.ChainId := Runtime.ChainId PolkaSmith;
     pallet_evm.BlockGasLimit := Runtime.BlockGasLimit;
     pallet_evm.OnChargeTransaction := Empty |}.

(** ** A runtime *)

Record RuntimeConfig := mkRuntimeConfig {
  the_frame_system : frame_system.Config;
  the_pallet_aura : pallet_aura.Config;
  the_pallet_timestamp : pallet_timestamp.Config;
  the_pallet_balances : pallet_balances.Config;
  the_pallet_transaction_payment : pallet_transaction_payment.Config;
  the_pallet_sudo : pallet_sudo.Config;
  the_cumulus_pallet_dmp_queue : cumulus_pallet_dmp_queue.Config;
  the_cumulus_pallet_parachain_system : cumulus_pallet_parachain_system.Config;
  the_parachain_info : parachain_info.Config;
  the_cumulus_pallet_aura_ext : cumulus_pallet_aura_ext.Config;
  the_cumulus_pallet_xcm : cumulus_pallet_xcm.Config;
  the_cumulus_pallet_xcmp_queue : cumulus_pallet_xcmp_queue.Config;
  the_cumulus_ping : cumulus_ping.Config;
  the_pallet_ethereum : pallet_ethereum.Config;
  the_pallet_evm : pallet_evm.Config;
  the_pallet_crowdloan_rewards : option pallet_crowdloan_rewards.Config;
  the_pallet_treasury : option pallet_treasury.Config;
}.

Definition halongbay_config : RuntimeConfig :=
  {| the_frame_system := halongbay_frame_system;
     the_pallet_aura := halongbay_pallet_aura;
     the_pallet_timestamp := halongbay_pallet_timestamp;
     the_pallet_balances := halongbay_pallet_balances;
     the_pallet_transaction_payment := halongbay_pallet_transaction_payment;
     the_pallet_sudo := halongbay_pallet_sudo;
     the_cumulus_pallet_dmp_queue := halongbay_cumulus_pallet_dmp_queue;
     the_cumulus_pallet_parachain_system := halongbay_cumulus_pallet_parachain_system;
     the_parachain_info := halongbay_parachain_info;
     the_cumulus_pallet_aura_ext := halongbay_cumulus_pallet_aura_ext;
     the_cumulus_pallet_xcm := halongbay_cumulus_pallet_xcm;
     the_cumulus_pallet_xcmp_queue := halongbay_cumulus_pallet_xcmp_queue;
     the_cumulus_ping := halongbay_cumulus_ping;
     the_pallet_ethereum := halongbay_pallet_ethereum;
     the_pallet_evm := halongbay_pallet_evm;
     the_pallet_crowdloan_rewards := Some halongbay_pallet_crowdloan_rewards;
     the_pallet_treasury := Some halongbay_pallet_treasury |}.
Definition polkafoundry_config : RuntimeConfig :=
  {| the_frame_system := polkafoundry_frame_system;
     the_pallet_aura := polkafoundry_pallet_aura;
     the_pallet_timestamp := polkafoundry_pallet_timestamp;
     the_pallet_balances := polkafoundry_pallet_balances;
     the_pallet_transaction_payment := polkafoundry_pallet_transaction_payment;
     the_pallet_sudo := polkafoundry_pallet_sudo;
     the_cumulus_pallet_dmp_queue := polkafoundry_cumulus_pallet_dmp_queue;
     the_cumulus_pallet_parachain_system := polkafoundry_cumulus_pallet_parachain_system;
     the_parachain_info := polkafoundry_parachain_info;
     the_cumulus_pallet_aura_ext := polkafoundry_cumulus_pallet_aura_ext;
     the_cumulus_pallet_xcm := polkafoundry_cumulus_pallet_xcm;
     the_cumulus_pallet_xcmp_queue := polkafoundry_cumulus_pallet_xcmp_queue;
     the_cumulus_ping := polkafoundry_cumulus_ping;
     the_pallet_ethereum := polkafoundry_pallet_ethereum;
     the_pallet_evm := polkafoundry_pallet_evm;
     the_pallet_crowdloan_rewards := None;
     the_pallet_treasury := None |}.
Definition polkasmith_config : RuntimeConfig :=
  {| the_frame_system := polkasmith_frame_system;
     the_pallet_aura := polkasmith_pallet_aura;
     the_pallet_timestamp := polkasmith_pallet_timestamp;
     the_pallet_balances := polkasmith_pallet_balances;
     the_pallet_transaction_payment := polkasmith_pallet_transaction_payment;
     the_pallet_sudo := polkasmith_pallet_sudo;
     the_cumulus_pallet_dmp_queue := polkasmith_cumulus_pallet_dmp_queue;
     the_cumulus_pallet_parachain_system := polkasmith_cumulus_pallet_parachain_system;
     the_parachain_info := polkasmith_parachain_info;
     the_cumulus_pallet_aura_ext := polkasmith_cumulus_pallet_aura_ext;
     the_cumulus_pallet_xcm := polkasmith_cumulus_pallet_xcm;
     the_cumulus_pallet_xcmp_queue := polkasmith_cumulus_pallet_xcmp_queue;
     the_cumulus_ping := polkasmith_cumulus_ping;
     the_pallet_ethereum := polkasmith_pallet_ethereum;
     the_pallet_evm := polkasmith_pallet_evm;
     the_pallet_crowdloan_rewards := None;
     the_pallet_treasury := None |}.
Definition runtime_config (c : ForceChain) : RuntimeConfig :=
  match c with
  | PolkaFoundry => polkafoundry_config
  | PolkaSmith => polkasmith_config
  | Halongbay => halongbay_config
  end.

(** [native_version] *)
Record NativeVersion := mkNativeVersion {
  runtime_version : RuntimeVersion;
  can_author_with : gset Z;
}.
Definition halongbay_native_version : NativeVersion :=
  {| runtime_version := version Halongbay; can_author_with := ∅ |}.
Definition polkafoundry_native_version : NativeVersion :=
  {| runtime_version := version PolkaFoundry; can_author_with := ∅ |}.
Definition polkasmith_native_version : NativeVersion :=
  {| runtime_version := version PolkaSmith; can_author_with := ∅ |}.

(** The types a configuration names, pallet by pallet. *)
Definition config_types (r : RuntimeConfig) : list TypeExpr :=
  frame_system.types (the_frame_system r) ++ pallet_aura.types (the_pallet_aura r)
  ++ pallet_timestamp.types (the_pallet_timestamp r)
  ++ pallet_balances.types (the_pallet_balances r)
  ++ pallet_transaction_payment.types (the_pallet_transaction_payment r)
  ++ pallet_sudo.types (the_pallet_sudo r)
  ++ cumulus_pallet_dmp_queue.types (the_cumulus_pallet_dmp_queue r)
  ++ cumulus_pallet_parachain_system.types (the_cumulus_pallet_parachain_system r)
  ++ cumulus_pallet_xcm.types (the_cumulus_pallet_xcm r)
  ++ cumulus_pallet_xcmp_queue.types (the_cumulus_pallet_xcmp_queue r)
  ++ cumulus_ping.types (the_cumulus_ping r) ++ pallet_ethereum.types (the_pallet_ethereum r)
  ++ pallet_evm.types (the_pallet_evm r).
(** Those of the pallets not every runtime has. *)
Definition extra_types (r : RuntimeConfig) : list TypeExpr :=
  from_option pallet_crowdloan_rewards.types [] (the_pallet_crowdloan_rewards r)
  ++ from_option pallet_treasury.types [] (the_pallet_treasury r).
(** The crates of the pallets that are configured. *)
Definition configured (r : RuntimeConfig) : list string :=
  ["frame_system"; "pallet_aura"; "pallet_timestamp"; "pallet_balances";
   "pallet_transaction_payment"; "pallet_sudo"; "cumulus_pallet_dmp_queue";
   "cumulus_pallet_parachain_system"; "parachain_info";
   "cumulus_pallet_aura_ext"; "cumulus_pallet_xcm"; "cumulus_pallet_xcmp_queue"; "cumulus_ping";
   "pallet_ethereum"; "pallet_evm"]
  ++ (if the_pallet_crowdloan_rewards r then ["pallet_crowdloan_rewards"] else [])
  ++ (if the_pallet_treasury r then ["pallet_treasury"] else []).

(** The wiring is closed: each pallet a configuration relies on is a pallet of
    that very runtime, and the pallets of the runtime are the configured ones,
    [pallet_xcm], and the collective flip, which has nothing to configure. *)
Theorem wiring_closed c :
  let r := runtime_config c in
  Forall (fun p => p ∈ (pallet_name <$> pallets c))
    (flat_map mentions (config_types r ++ extra_types r)) /\
  (pallet_path <$> pallets c)
    ≡ₚ "pallet_randomness_collective_flip" :: "pallet_xcm" :: configured r.
Proof.
  intros r. split.
  - destruct c; apply (bool_decide_eq_true_1 _); by vm_compute.
  - apply (bool_decide_eq_true_1 _). by destruct c; vm_compute.
Qed.

(** The three runtimes configure the pallets they share with the same types and,
    but for what identifies a network and times its blocks, the same constants. *)
Theorem runtimes_alike c :
  let r := runtime_config c in let r' := runtime_config PolkaSmith in
  config_types r = config_types r' /\
  the_pallet_balances r = the_pallet_balances r' /\
  the_pallet_transaction_payment r = the_pallet_transaction_payment r' /\
  the_cumulus_pallet_parachain_system r = the_cumulus_pallet_parachain_system r' /\
  pallet_evm.BlockGasLimit (the_pallet_evm r) = pallet_evm.BlockGasLimit (the_pallet_evm r') /\
  frame_system.Version (the_frame_system r) = version c /\
  frame_system.SS58Prefix (the_frame_system r) = SS58PREFIX (time c) /\
  pallet_evm.ChainId (the_pallet_evm r) = CHAIN_ID (time c) /\
  2 * pallet_timestamp.MinimumPeriod (the_pallet_timestamp r) = MILLISECS_PER_BLOCK (time c).
Proof. by destruct c. Qed.

(** Messages arrive at queues of the runtime: those of the relay chain at one,
    those of siblings at another, which sends too and asks the parachain system
    for its channels; all of them execute messages with the one [XcmConfig], and
    what the two queues may use in a block is at most half of it. *)
Theorem message_paths c :
  0 <= MAXIMUM_BLOCK_WEIGHT ->
  let r := runtime_config c in
  let parachain := the_cumulus_pallet_parachain_system r in
  let executor := Path "XcmExecutor" [named "XcmConfig"] in
  cumulus_pallet_parachain_system.DmpMessageHandler parachain = InRuntime "DmpQueue" /\
  cumulus_pallet_parachain_system.XcmpMessageHandler parachain = InRuntime "XcmpQueue" /\
  cumulus_pallet_parachain_system.OutboundXcmpMessageSource parachain = InRuntime "XcmpQueue" /\
  cumulus_pallet_xcmp_queue.ChannelInfo (the_cumulus_pallet_xcmp_queue r)
    = InRuntime "ParachainSystem" /\
  cumulus_pallet_dmp_queue.XcmExecutor (the_cumulus_pallet_dmp_queue r) = executor /\
  cumulus_pallet_xcmp_queue.XcmExecutor (the_cumulus_pallet_xcmp_queue r) = executor /\
  cumulus_pallet_xcm.XcmExecutor (the_cumulus_pallet_xcm r) = executor /\
  cumulus_pallet_parachain_system.ReservedDmpWeight parachain
    + cumulus_pallet_parachain_system.ReservedXcmpWeight parachain <= MAXIMUM_BLOCK_WEIGHT / 2.
Proof.
  intros Hw r parachain executor. split_and!; try by destruct c.
  assert (MAXIMUM_BLOCK_WEIGHT / 4 + MAXIMUM_BLOCK_WEIGHT / 4 <= MAXIMUM_BLOCK_WEIGHT / 2)
    by (Z.to_euclidean_division_equations; lia).
  by destruct c.
Qed.
End Config.

(** ** Parameters for the staking pallet

    Halongbay declares them; the [Config] that would use them is commented out. *)
Module staking_parameters.
Definition BlocksPerRound : Z := 600.
Definition MaxCollatorsPerNominator : Z := 5.
Definition MaxNominationsPerCollator : Z := 2.
Definition BondDuration : Z := 2.
Definition MinCollatorStake : Z := 500.
Definition MinNominatorStake : Z := 100.
Definition PayoutDuration : Z := 2.
Definition DesiredTarget : Z := 2.
End staking_parameters.

(** The parameters are those the pallet is tested with, but for the length of a
    round; a collator may stake as little as the existential deposit; and a
    round of Halongbay takes twice the time its payout is computed for. *)
Theorem staged_staking :
  let p := mock_config in
  (staking_parameters.MaxCollatorsPerNominator, staking_parameters.MaxNominationsPerCollator,
   staking_parameters.BondDuration, staking_parameters.MinCollatorStake,
   staking_parameters.MinNominatorStake, staking_parameters.PayoutDuration,
   staking_parameters.DesiredTarget)
  = (@MAX_COLLATORS_PER_NOMINATOR p, @MaxNominationsPerCollator p, @BondDuration p,
     @MinCollatorStake p, @MinNominatorStake p, @PayoutDuration p, @DesiredTarget p) /\
  staking_parameters.BlocksPerRound = 60 * @BlocksPerRound p /\
  staking_parameters.MinCollatorStake = ExistentialDeposit /\
  staking_parameters.BlocksPerRound * MILLISECS_PER_BLOCK (time Halongbay)
    = 2 * (staking_parameters.BlocksPerRound *32 6000).
Proof. vm_compute. repeat split. Qed.

(** ** [frame_benchmarking::Benchmark] *)

Section Benchmark.
Context {BenchmarkConfig BenchmarkBatch : Type}.
(** [hex_literal::hex!] *)
Context (hex : string -> list byte).
(** The arguments of a benchmark: its configuration and the storage keys that
    are not counted. *)
Definition Params : Type := BenchmarkConfig * list (list byte).
(** [add_benchmark!]: the batches with those of a pallet added, or the error it
    returns from the function with. *)
Context (add_benchmark : Params -> list BenchmarkBatch -> string -> list BenchmarkBatch + string).

(** Several [add_benchmark!] in a row. *)
Fixpoint add_benchmarks (params : Params) (batches : list BenchmarkBatch) (pallets : list string)
    : list BenchmarkBatch + string :=
  match pallets with
  | [] => inl batches
  | p :: pallets =>
      match add_benchmark params batches p with
      | inl batches => add_benchmarks params batches pallets
      | inr e => inr e
      end
  end.
Definition found (r : list BenchmarkBatch + string) : list BenchmarkBatch + string :=
  match r with
  | inl [] => inr "Benchmark not found for this pallet."
  | r => r
  end.

Definition halongbay_dispatch_benchmark (config : BenchmarkConfig)
    : list BenchmarkBatch + string :=
  let whitelist :=
    [ (* Block Number *)
     hex "26aa394eea5630e07c48ae0c9558cef702a5c1b19ab7a04f536c519aca4983ac";
     (* Total Issuance *)
     hex "c2261276cc9d1f8598ea4b6a74b15c2f57c875e4cff74148e4628f264b974c80";
     (* Execution Phase *)
     hex "26aa394eea5630e07c48ae0c9558cef7ff553b5a9862a516939d82b3d3d8661a";
     (* Event Count *)
     hex "26aa394eea5630e07c48ae0c9558cef70a98fdbe9ce6c55837576c60c7af3850";
     (* System Events *)
     hex "26aa394eea5630e07c48ae0c9558cef780d41e5e16056765bc8461851072c9d7"] in
  let batches := [] in
  let params := (config, whitelist) in
  found (add_benchmarks params batches ["frame_system"; "pallet_balances"; "pallet_timestamp"]).
Definition polkafoundry_dispatch_benchmark (config : BenchmarkConfig)
    : list BenchmarkBatch + string :=
  let whitelist :=
    [ (* Block Number *)
     hex "26aa394eea5630e07c48ae0c9558cef702a5c1b19ab7a04f536c519aca4983ac";
     (* Total Issuance *)
     hex "c2261276cc9d1f8598ea4b6a74b15c2f57c875e4cff74148e4628f264b974c80";
     (* Execution Phase *)
     hex "26aa394eea5630e07c48ae0c9558cef7ff553b5a9862a516939d82b3d3d8661a";
     (* Event Count *)
     hex "26aa394eea5630e07c48ae0c9558cef70a98fdbe9ce6c55837576c60c7af3850";
     (* System Events *)
     hex "26aa394eea5630e07c48ae0c9558cef780d41e5e16056765bc8461851072c9d7"] in
  let batches := [] in
  let params := (config, whitelist) in
  found (add_benchmarks params batches ["frame_system"; "pallet_balances"; "pallet_timestamp"]).
Definition polkasmith_dispatch_benchmark (config : BenchmarkConfig)
    : list BenchmarkBatch + string :=
  let whitelist :=
    [ (* Block Number *)
     hex "26aa394eea5630e07c48ae0c9558cef702a5c1b19ab7a04f536c519aca4983ac";
     (* Total Issuance *)
     hex "c2261276cc9d1f8598ea4b6a74b15c2f57c875e4cff74148e4628f264b974c80";
     (* Execution Phase *)
     hex "26aa394eea5630e07c48ae0c9558cef7ff553b5a9862a516939d82b3d3d8661a";
     (* Event Count *)
     hex "26aa394eea5630e07c48ae0c9558cef70a98fdbe9ce6c55837576c60c7af3850";
     (* System Events *)
     hex "26aa394eea5630e07c48ae0c9558cef780d41e5e16056765bc8461851072c9d7"] in
  let batches := [] in
  let params := (config, whitelist) in
  found (add_benchmarks params batches ["frame_system"; "pallet_balances"; "pallet_timestamp"]).
Definition dispatch_benchmark (c : ForceChain) : BenchmarkConfig -> list BenchmarkBatch + string :=
  match c with
  | PolkaFoundry => polkafoundry_dispatch_benchmark
  | PolkaSmith => polkasmith_dispatch_benchmark
  | Halongbay => halongbay_dispatch_benchmark
  end.

(** A macro that adds to the batches, whatever they are, what [of_pallet] has. *)
Context (of_pallet : Params -> string -> list BenchmarkBatch + string).
Hypothesis add_benchmark_appends : forall params batches p,
  add_benchmark params batches p
  = match of_pallet params p with inl new => inl (batches ++ new) | inr e => inr e end.

Lemma add_benchmarks_appends params batches pallets bs :
  add_benchmarks params batches pallets = inl bs ->
  exists news, Forall2 (fun p new => of_pallet params p = inl new) pallets news /\
    bs = batches ++ concat news.
Proof using add_benchmark_appends.
  revert batches. induction pallets as [|p pallets IH]; intros batches H; simpl in H.
  - exists []. split; [constructor|]. injection H as <-. by rewrite app_nil_r.
  - rewrite add_benchmark_appends in H. destruct (of_pallet params p) as [new|e] eqn:Hp; [|done].
    destruct (IH _ H) as (news & Hn & ->). exists (new :: news). split; [by constructor|].
    simpl. by rewrite app_assoc.
Qed.

(** The benchmarks of the three runtimes run alike: the batches of the system, the
    balances and the timestamp pallets, in this order, and an error when there
    are none. *)
Theorem dispatch_benchmark_spec c config bs :
  dispatch_benchmark c config = inl bs ->
  bs <> [] /\ exists keys system balances timestamp,
    of_pallet (config, keys) "frame_system" = inl system /\
    of_pallet (config, keys) "pallet_balances" = inl balances /\
    of_pallet (config, keys) "pallet_timestamp" = inl timestamp /\
    bs = system ++ balances ++ timestamp.
Proof using add_benchmark_appends.
  intros H. assert (exists keys, found (add_benchmarks (config, keys) []
    ["frame_system"; "pallet_balances"; "pallet_timestamp"]) = inl bs) as [keys Hf]
    by (destruct c; eexists; apply H).
  destruct (add_benchmarks _ _ _) as [bs'|e] eqn:Ha; [|done]. destruct bs' as [|b bs']; [done|].
  injection Hf as <-. split; [done|].
  destruct (add_benchmarks_appends _ _ _ _ Ha) as (news & Hn & ->).
  apply Forall2_cons_inv_l in Hn as (x & l1 & Hx & Hn & ->).
  apply Forall2_cons_inv_l in Hn as (y & l2 & Hy & Hn & ->).
  apply Forall2_cons_inv_l in Hn as (z & l3 & Hz & Hn & ->).
  apply Forall2_nil_inv_l in Hn as ->. exists keys, x, y, z. simpl. by rewrite app_nil_r.
Qed.
End Benchmark.
