(* ===== verification/MockRuntimes.v ===== *)
(** * The runtimes of the tests

    The runtimes the mocks put together: [pallets/polkafoundry-staking/src/mock.rs],
    [pallets/crowdloan-rewards/src/mock.rs], [pallets/treasury/src/mock.rs] and the
    tests in [pallets/author-inherent/src/lib.rs].  Their configurations are
    compared with those of the runtimes. *)
From Stdlib Require Import Strings.Byte.
From S2P Require Import Prelude StakingTypes Externals Networks Runtime RuntimeConfig.

#[local] Open Scope string_scope.
#[local] Open Scope Z_scope.
#[local] Open Scope list_scope.

(** ** The configurations only tests have *)

Module pallet_utility.
Record Config := mkConfig {
  Event : TypeExpr;
  Call : TypeExpr;
  WeightInfo : TypeExpr;
}.
Definition types (c : Config) : list TypeExpr := [Event c; Call c; WeightInfo c].
End pallet_utility.

Module onchain.
Record Config := mkConfig {
  AccountId : TypeExpr;
  BlockNumber : TypeExpr;
  BlockWeights : TypeExpr;
  Accuracy : TypeExpr;
  DataProvider : TypeExpr;
}.
Definition types (c : Config) : list TypeExpr :=
  [AccountId c; BlockNumber c; BlockWeights c; Accuracy c; DataProvider c].
End onchain.

(** [()] in the place of a constant stands for the default of its type. *)
Definition default_version : RuntimeVersion := mkRuntimeVersion "" "" 0 0 0 0.

Section Tests.
Import Part.
#[local] Abbreviation pallet name path parts := (mkPallet name path parts None).

(** [pallets/polkafoundry-staking/src/mock.rs] *)

Definition staking_test_frame_system : frame_system.Config :=
  {| frame_system.BaseCallFilter := Empty;
     frame_system.BlockWeights := Empty;
     frame_system.BlockLength := Empty;
     frame_system.Origin := "Origin";
     frame_system.Index := "u64";
     frame_system.Call := "Call";
     frame_system.BlockNumber := "u64";
     frame_system.Hash := "H256";
     frame_system.Hashing := "BlakeTwo256";
     frame_system.AccountId := "AccountId";
     frame_system.Lookup := Path "IdentityLookup" [named "Self::AccountId"];
     frame_system.Header := "Header";
     frame_system.Event := "Event";
     frame_system.BlockHashCount := 250;
     frame_system.DbWeight := Empty;
     frame_system.Version := default_version;
     frame_system.PalletInfo := "PalletInfo";
     frame_system.AccountData := Path "pallet_balances::AccountData" [named "Balance"];
     frame_system.OnNewAccount := Empty;
     frame_system.OnKilledAccount := Empty;
     frame_system.OnSetCode := Empty;
     frame_system.SystemWeightInfo := Empty;
     frame_system.SS58Prefix := 0 |}.
Definition staking_test_pallet_balances : pallet_balances.Config :=
  {| pallet_balances.MaxLocks := 0;
     pallet_balances.Balance := "Balance";
     pallet_balances.Event := "Event";
     pallet_balances.DustRemoval := Empty;
     pallet_balances.ExistentialDeposit := 1;
     pallet_balances.AccountStore := InRuntime "System";
     pallet_balances.WeightInfo := Empty |}.
Definition staking_test_pallet_utility : pallet_utility.Config :=
  {| pallet_utility.Event := "Event";
     pallet_utility.Call := "Call";
     pallet_utility.WeightInfo := Empty |}.
Definition staking_test_onchain : onchain.Config :=
  {| onchain.AccountId := "u64";
     onchain.BlockNumber := "u64";
     onchain.BlockWeights := "BlockWeights";
     onchain.Accuracy := "Perbill";
     onchain.DataProvider := InRuntime "Staking" |}.
Definition staking_test_pallets : list PalletDecl :=
  [pallet "System" "frame_system" [Pallet; Call; Config; Storage; EventT];
   pallet "Balances" "pallet_balances" [Pallet; Call; Storage; ConfigT; EventT];
   pallet "Staking" "stake" [Pallet; Call; Storage; EventT];
   pallet "Utility" "pallet_utility" [Pallet; Call; Storage; Event]].

(** [pallets/crowdloan-rewards/src/mock.rs] *)

Definition crowdloan_test_frame_system : frame_system.Config :=
  {| frame_system.BaseCallFilter := Empty;
     frame_system.BlockWeights := Empty;
     frame_system.BlockLength := Empty;
     frame_system.Origin := "Origin";
     frame_system.Index := "u64";
     frame_system.Call := "Call";
     frame_system.BlockNumber := "u64";
     frame_system.Hash := "H256";
     frame_system.Hashing := "BlakeTwo256";
     frame_system.AccountId := "AccountId";
     frame_system.Lookup := Path "IdentityLookup" [named "Self::AccountId"];
     frame_system.Header := "Header";
     frame_system.Event := "Event";
     frame_system.BlockHashCount := 250;
     frame_system.DbWeight := Empty;
     frame_system.Version := default_version;
     frame_system.PalletInfo := "PalletInfo";
     frame_system.AccountData := Path "pallet_balances::AccountData" [named "Balance"];
     frame_system.OnNewAccount := Empty;
     frame_system.OnKilledAccount := Empty;
     frame_system.OnSetCode := Empty;
     frame_system.SystemWeightInfo := Empty;
     frame_system.SS58Prefix := 0 |}.
Definition crowdloan_test_pallet_balances : pallet_balances.Config :=
  {| pallet_balances.MaxLocks := 0;
     pallet_balances.Balance := "Balance";
     pallet_balances.Event := "Event";
     pallet_balances.DustRemoval := Empty;
     pallet_balances.ExistentialDeposit := 1;
     pallet_balances.AccountStore := InRuntime "System";
     pallet_balances.WeightInfo := Empty |}.
Definition crowdloan_test_pallet_utility : pallet_utility.Config :=
  {| pallet_utility.Event := "Event";
     pallet_utility.Call := "Call";
     pallet_utility.WeightInfo := Empty |}.
Definition crowdloan_test_pallet_treasury : pallet_treasury.Config :=
  {| pallet_treasury.PalletId := String.list_byte_of_string "Treasury";
     pallet_treasury.Currency := InRuntime "Balances";
     pallet_treasury.Event := "Event" |}.
Definition crowdloan_test_pallet_crowdloan_rewards : pallet_crowdloan_rewards.Config :=
  {| pallet_crowdloan_rewards.Event := "Event";
     pallet_crowdloan_rewards.RelayChainAccountId := Path "array" [named "u8"; named "32"] |}.
Definition crowdloan_test_pallets : list PalletDecl :=
  [pallet "System" "frame_system" [Pallet; Call; Config; Storage; EventT];
   pallet "Balances" "pallet_balances" [Pallet; Call; Storage; ConfigT; EventT];
   pallet "Crowdloan" "pallet_crowdloan_rewards" [Pallet; Call; Storage; EventT];
   pallet "Utility" "pallet_utility" [Pallet; Call; Storage; Event];
   pallet "Treasury" "pallet_treasury" [Pallet; Call; Storage; EventT]].

(** [pallets/treasury/src/mock.rs] *)

Definition treasury_test_frame_system : frame_system.Config :=
  {| frame_system.BaseCallFilter := Empty;
     frame_system.BlockWeights := Empty;
     frame_system.BlockLength := Empty;
     frame_system.Origin := "Origin";
     frame_system.Index := "u64";
     frame_system.Call := "Call";
     frame_system.BlockNumber := "u64";
     frame_system.Hash := "H256";
     frame_system.Hashing := "BlakeTwo256";
     frame_system.AccountId := "AccountId";
     frame_system.Lookup := Path "IdentityLookup" [named "Self::AccountId"];
     frame_system.Header := "Header";
     frame_system.Event := "Event";
     frame_system.BlockHashCount := 250;
     frame_system.DbWeight := Empty;
     frame_system.Version := default_version;
     frame_system.PalletInfo := "PalletInfo";
     frame_system.AccountData := Path "pallet_balances::AccountData" [named "Balance"];
     frame_system.OnNewAccount := Empty;
     frame_system.OnKilledAccount := Empty;
     frame_system.OnSetCode := Empty;
     frame_system.SystemWeightInfo := Empty;
     frame_system.SS58Prefix := 0 |}.
Definition treasury_test_pallet_balances : pallet_balances.Config :=
  {| pallet_balances.MaxLocks := 0;
     pallet_balances.Balance := "Balance";
     pallet_balances.Event := "Event";
     pallet_balances.DustRemoval := Empty;
     pallet_balances.ExistentialDeposit := 500;
     pallet_balances.AccountStore := InRuntime "System";
     pallet_balances.WeightInfo := Empty |}.
Definition treasury_test_pallet_treasury : pallet_treasury.Config :=
  {| pallet_treasury.PalletId := String.list_byte_of_string "Treasury";
     pallet_treasury.Currency := InRuntime "Balances";
     pallet_treasury.Event := "Event" |}.
Definition treasury_test_pallets : list PalletDecl :=
  [pallet "System" "frame_system" [Pallet; Call; Config; Storage; EventT];
   pallet "Balances" "pallet_balances" [Pallet; Call; Storage; ConfigT; EventT];
   pallet "Treasury" "pallet_treasury" [Pallet; Call; Storage; EventT]].

(** [pallets/author-inherent/src/lib.rs] *)

(** [OnSetCode] is missing: the [impl] is no configuration until one is given. *)
Definition author_test_frame_system (OnSetCode : TypeExpr) : frame_system.Config :=
  {| frame_system.BaseCallFilter := Empty;
     frame_system.BlockWeights := Empty;
     frame_system.BlockLength := Empty;
     frame_system.DbWeight := Empty;
     frame_system.Origin := "Origin";
     frame_system.Index := "u64";
     frame_system.BlockNumber := "u64";
     frame_system.Call := "Call";
     frame_system.Hash := "H256";
     frame_system.Hashing := "BlakeTwo256";
     frame_system.AccountId := "u64";
     frame_system.Lookup := Path "IdentityLookup" [named "Self::AccountId"];
     frame_system.Header := "Header";
     frame_system.Event := Empty;
     frame_system.BlockHashCount := 250;
     frame_system.Version := default_version;
     frame_system.PalletInfo := "PalletInfo";
     frame_system.AccountData := Empty;
     frame_system.OnNewAccount := Empty;
     frame_system.OnKilledAccount := Empty;
     frame_system.SystemWeightInfo := Empty;
     frame_system.SS58Prefix := 0;
     frame_system.OnSetCode := OnSetCode |}.
Definition author_test_pallets : list PalletDecl :=
  [pallet "System" "frame_system" [Pallet; Call; Config; Storage; EventT];
   pallet "AuthorInherent" "author_inherent" [Pallet; Call; Storage; Inherent]].

(** ** The test runtimes are closed *)

(** The types of the configurations of a mock. *)
Definition staking_test_types : list TypeExpr :=
  frame_system.types staking_test_frame_system
  ++ pallet_balances.types staking_test_pallet_balances
  ++ pallet_utility.types staking_test_pallet_utility ++ onchain.types staking_test_onchain.
Definition crowdloan_test_types : list TypeExpr :=
  frame_system.types crowdloan_test_frame_system
  ++ pallet_balances.types crowdloan_test_pallet_balances
  ++ pallet_utility.types crowdloan_test_pallet_utility
  ++ pallet_treasury.types crowdloan_test_pallet_treasury
  ++ pallet_crowdloan_rewards.types crowdloan_test_pallet_crowdloan_rewards.
Definition treasury_test_types : list TypeExpr :=
  frame_system.types treasury_test_frame_system
  ++ pallet_balances.types treasury_test_pallet_balances
  ++ pallet_treasury.types treasury_test_pallet_treasury.

Definition closed (types : list TypeExpr) (pallets : list PalletDecl) : Prop :=
  Forall (fun p => p ∈ (pallet_name <$> pallets)) (flat_map mentions types).
#[export] Instance closed_dec types pallets : Decision (closed types pallets).
Proof. unfold closed. apply _. Defined.

(** Each mock relies on its own pallets only. *)
Theorem test_wiring_closed onsetcode :
  closed staking_test_types staking_test_pallets /\
  closed crowdloan_test_types crowdloan_test_pallets /\
  closed treasury_test_types treasury_test_pallets /\
  (mentions onsetcode = [] ->
   closed (frame_system.types (author_test_frame_system onsetcode)) author_test_pallets).
Proof.
  split_and!; try (apply (bool_decide_eq_true_1 _); by vm_compute).
  intros H. unfold closed. simpl. by rewrite H.
Qed.

(** ** Tests and runtime *)

(** The treasury is tested with the existential deposit and the account the
    Halongbay runtime gives it; the crowdloan pallet with the same account, but an
    existential deposit of one instead; and no mock identifies itself by the
    version of a runtime. *)
Theorem tests_against_halongbay maximum :
  let r := runtime_config maximum Halongbay in
  pallet_balances.ExistentialDeposit treasury_test_pallet_balances
    = pallet_balances.ExistentialDeposit (the_pallet_balances r) /\
  pallet_balances.ExistentialDeposit crowdloan_test_pallet_balances
    < pallet_balances.ExistentialDeposit (the_pallet_balances r) /\
  Some treasury_test_pallet_treasury = the_pallet_treasury r /\
  Some crowdloan_test_pallet_treasury = the_pallet_treasury r /\
  frame_system.BlockHashCount staking_test_frame_system
    = frame_system.BlockHashCount (the_frame_system r) /\
  Forall (fun c => frame_system.Version c <> frame_system.Version (the_frame_system r))
    [staking_test_frame_system; crowdloan_test_frame_system; treasury_test_frame_system].
Proof. vm_compute. split_and!; try done. by repeat constructor. Qed.
End Tests.
