(* ===== verification/NodeStartup.v ===== *)
(** * Starting the node

    Starting the node is a sequence of requests to Substrate, Cumulus and
    Polkadot: build this, spawn that, start the network.  A request is recorded
    with the arguments that the node's own code decides; some requests can fail,
    and then the [?] of the source ends the start.  [Startup] is the monad of
    such computations, [follow] the one that works off a plan of requests. *)
From S2P Require Import Prelude Networks.

(** [Result] with errors as the text they display. *)
Notation Result := (outcome string).

Definition rbind {A B} (r : Result A) (k : A -> Result B) : Result B :=
  match r with Ok a => k a | Err m => Err m | Panic => Panic end.

#[export] Instance outcome_eq_dec `{EqDecision E, EqDecision A} : EqDecision (outcome E A).
Proof. solve_decision. Defined.

(** ** Data *)

(** [sc_service::Role] *)
Inductive Role := Full | Light | Authority.
#[export] Instance Role_eq_dec : EqDecision Role.
Proof. solve_decision. Defined.

(** [Role::is_authority] *)
Definition is_authority_role (r : Role) : bool := bool_decide (r = Authority).

(** [cli::Sealing] *)
Inductive Sealing := Manual | Instant.

Inductive ImportQueue := ManualSealQueue | AuraQueue.

(** The modules of the RPC handler. *)
Inductive RpcModule :=
  | SystemApi | TransactionPaymentApi | EthApi (converter : ForceChain) (is_authority : bool)
  | EthFilterApi (max_stored_filters : Z) | NetApi | Web3Api | EthPubSubApi | ManualSealApi.

(** The tasks the node's own code spawns. *)
Inductive Task :=
  | TelemetryTask | AuthorshipTask (sealing : Sealing)
  | FrontierFilterPool | FrontierPendingTransactions.

Inductive KeystoreConfig := InMemory | KeystorePath (path : string).

(** The parts of [sc_service::Configuration] that are looked at or changed;
    [spec_extensions] is what [Extensions::try_get] finds in the specification. *)
Record Configuration := mkConfiguration {
  chain_spec_id : string;
  spec_extensions : option Extensions;
  role : Role;
  offchain_worker_enabled : bool;
  telemetry_endpoints : option (list string);
  config_force_authoring : bool;
  config_keystore : KeystoreConfig;
  config_base_path : option string;
}.

(** ** Requests *)

Inductive Request :=
  | NewTelemetryWorker (buffer_size : Z)
  | NewFullParts (c : ForceChain) (keystore : KeystoreConfig) (telemetry : bool)
  | NewTransactionPool (is_authority : bool)
  | SlotDuration (c : ForceChain)
  | NewImportQueue (q : ImportQueue) (telemetry : bool)
  | BuildPolkadotFullNode (telemetry_worker : bool)
  (** the parachain whose announcements the network validates, if any *)
  | BuildNetwork (announce_validator : option Z)
  | BuildOffchainWorkers
  | SpawnTasks (rpc_extensions : list RpcModule) (telemetry : bool)
  | Spawn (essential : bool) (t : Task)
  | BuildAuraConsensus (force_authoring telemetry : bool)
  | StartCollator (para_id : Z)
  | StartFullNode (para_id : Z)
  | StartNetwork
  | CreateRunner
  | GenerateGenesisBlock (spec_id : string)
  (** with the arguments of [RelayChainCli::new] *)
  | CreateRelayConfiguration (base_path chain_id : option string) (args : list string).

(** The requests the source puts a [?] behind. *)
Definition fallible (r : Request) : bool :=
  match r with
  | NewTelemetryWorker _ | NewFullParts _ _ _ | SlotDuration _ | NewImportQueue AuraQueue _
  | BuildPolkadotFullNode _ | BuildNetwork _ | SpawnTasks _ _ | StartCollator _ | StartFullNode _
  | CreateRunner | GenerateGenesisBlock _ | CreateRelayConfiguration _ _ _ => true
  | NewTransactionPool _ | NewImportQueue ManualSealQueue _ | BuildOffchainWorkers | Spawn _ _
  | BuildAuraConsensus _ _ | StartNetwork => false
  end.

(** The crates the node is built on. *)
Class Services := {
  (** the error, if any, a request ends in after the requests made so far *)
  answers : list Request -> Request -> option string;
  (** [cumulus_client_service::prepare_node_config] *)
  prepare_node_config : Configuration -> Configuration;
  (** [Path::join] *)
  path_join : string -> string -> string;
  (** [executable_name] of the command line *)
  executable_name : string;
}.
(** It turns off the announcing of blocks, which is no field here. *)
Class ServicesLaws `{!Services} : Prop := {
  prepare_keeps config : prepare_node_config config = config;
}.

(** A start: the requests made so far, to a result and the requests made. *)
Definition Startup (A : Type) : Type := M (list Request) string A.

Section Startup.
Context `{SV : !Services}.

Definition answer (asked : list Request) (r : Request) : option string :=
  if fallible r then answers asked r else None.

Definition ask (r : Request) : Startup unit := fun asked =>
  (match answer asked r with None => Ok tt | Some e => Err e end, asked ++ [r]).

Definition map_err {A} (g : string -> string) (m : Startup A) : Startup A := fun asked =>
  match m asked with
  | (Err e, asked) => (Err (g e), asked)
  | r => r
  end.

Definition lift {A} (r : Result A) : Startup A := fun asked => (r, asked).

Definition only_if (b : bool) (m : Startup unit) : Startup unit := if b then m else ret tt.

(** ** Plans *)

(** What the node makes of the error of a request ([map_err] in [run]). *)
Definition reported (r : Request) (e : string) : string :=
  match r with
  | GenerateGenesisBlock _ => "Error generate genesis block " ++ e
  | CreateRelayConfiguration _ _ _ => "Relay chain argument error: " ++ e
  | _ => e
  end.

(** Working off a plan, up to the first request that fails. *)
Fixpoint follow (plan : list Request) : Startup unit :=
  match plan with
  | [] => ret tt
  | r :: plan => map_err (reported r) (ask r) ;;; follow plan
  end.

(** No request of a plan fails after those made before it. *)
Definition unfailing (asked plan : list Request) : Prop :=
  forall l r l', plan = l ++ r :: l' -> answer (asked ++ l) r = None.

(** Two starts that cannot be told apart. *)
Definition same {A} (m m' : Startup A) : Prop := forall asked, m asked = m' asked.
#[local] Infix "==" := same (at level 70).

#[export] Instance same_equiv A : Equivalence (@same A).
Proof. split; [by intros m s | by intros m n H s | intros m n o H H' s; by rewrite H, H']. Qed.

#[export] Instance bind_proper A B :
  Proper (same ==> pointwise_relation _ same ==> same) (@bind (list Request) string A B).
Proof.
  intros m m' Hm k k' Hk s. unfold bind. rewrite (Hm s). destruct (m' s) as [[] ?]; [|done..].
  apply Hk.
Qed.

Lemma then_same {A B} (m m' : Startup A) (k k' : Startup B) :
  m == m' -> k == k' -> (m ;;; k) == (m' ;;; k').
Proof. intros Hm Hk. apply bind_proper; [done|]. by intros _. Qed.

Lemma bind_assoc_same {A B C} (m : Startup A) (k : A -> Startup B) (h : B -> Startup C) :
  bind (bind m k) h == bind m (fun a => bind (k a) h).
Proof. intros s. apply bind_assoc. Qed.

Lemma bind_ret_same {A B} (a : A) (k : A -> Startup B) : bind (ret a) k == k a.
Proof. done. Qed.

(** A request whose error is passed on as it is. *)
Lemma ask_plain r : (forall e, reported r e = e) -> ask r == follow [r].
Proof.
  intros Hr s. simpl. unfold bind, map_err, ask. destruct (answer s r); simpl; by rewrite ?Hr.
Qed.

Lemma ask_mapped r : map_err (reported r) (ask r) == follow [r].
Proof.
  intros s. simpl. unfold bind. by destruct (map_err _ _ s) as [[[]| |] ?].
Qed.

Lemma follow_app l l' : follow (l ++ l') == (follow l ;;; follow l').
Proof.
  induction l as [|r l IH]; simpl; [by rewrite bind_ret_same|].
  rewrite bind_assoc_same. f_equiv. intros ?. apply IH.
Qed.

Lemma follow_bind {B} l l' (k : Startup B) :
  (follow l ;;; follow l' ;;; k) == (follow (l ++ l') ;;; k).
Proof. by rewrite follow_app, bind_assoc_same. Qed.

Lemma bind_unit (m : Startup unit) : (m ;;; ret tt) == m.
Proof. intros s. unfold bind. by destruct (m s) as [[[]| |] ?]. Qed.

Lemma unfailing_nil asked : unfailing asked [].
Proof. by intros [|??] ??. Qed.

Lemma unfailing_cons asked r plan :
  unfailing asked (r :: plan) <-> answer asked r = None /\ unfailing (asked ++ [r]) plan.
Proof.
  split.
  - intros H. split; [rewrite <- (app_nil_r asked); by apply (H [] r plan)|].
    intros l r' l' ->. rewrite <- app_assoc. by apply (H (r :: l) r' l').
  - intros [Hr H] [|x l] r' l' Heq; simplify_eq/=; [by rewrite app_nil_r|].
    specialize (H l r' l' eq_refl). by rewrite <- app_assoc in H.
Qed.

(** What following a plan and then ending in [v] comes to: either nothing failed
    and the whole plan was asked, or the last request made is the first one of
    the plan that failed, and its error is the result. *)
Lemma follow_spec {A} (v : Result A) plan asked :
  let '(res, asked') := (follow plan ;;; lift v) asked in
  (unfailing asked plan /\ res = v /\ asked' = asked ++ plan) \/
  (exists l r l' e, plan = l ++ r :: l' /\ unfailing asked l /\
     answer (asked ++ l) r = Some e /\ res = Err (reported r e) /\ asked' = asked ++ l ++ [r]).
Proof.
  revert asked. induction plan as [|r plan IH]; intros asked; simpl.
  { left. split_and!; [apply unfailing_nil|done|by rewrite app_nil_r]. }
  rewrite bind_assoc. unfold bind at 1, map_err, ask.
  destruct (answer asked r) as [e|] eqn:Hr; simpl.
  - right. exists [], r, plan, e. rewrite app_nil_r. split_and!; try done. apply unfailing_nil.
  - specialize (IH (asked ++ [r])). destruct ((follow plan ;;; lift v) (asked ++ [r])) as [res asked'].
    destruct IH as [(Hu & -> & ->)|(l & r' & l' & e & -> & Hu & Ha & -> & ->)].
    + left. rewrite <- app_assoc. split_and!; [by apply unfailing_cons|done|done].
    + right. exists (r :: l), r', l', e. rewrite <- !app_assoc in *. simpl in *.
      split_and!; try done. by apply unfailing_cons.
Qed.
End Startup.
Infix "==" := same (at level 70) : pallet_scope.
