(* ===== verification/NodeService.v ===== *)
(** * The node's services

    [node/src/service.rs]: identification of a chain by its id, [new_partial],
    [new_chain_ops], [start_node], [start_node_impl] and [start_dev];
    [node/src/rpc.rs]: [create_full].  They are starts ([NodeStartup]): the
    requests they make of Substrate, Cumulus and Polkadot, with the arguments
    they decide, in order, and the errors they pass on or raise. *)
From S2P Require Import Prelude StakingTypes Networks NodeStartup.

(** The cargo features the node was compiled with. *)
Definition Features : Type := ForceChain -> bool.

Definition not_available (c : ForceChain) : string :=
  match c with
  | PolkaFoundry => "PolkaFoundry runtime is not available. Please compile the node with `--features polkafoundry` to enable it."
  | PolkaSmith => "PolkaSmith runtime is not available. Please compile the node with `--features polkasmith` to enable it."
  | Halongbay => "Halongbay runtime is not available. Please compile the node with `--features halongbay` to enable it."
  end%string.

(** A network that was compiled in; an error otherwise. *)
Definition available {A} (f : Features) (c : ForceChain) (a : A) : Result A :=
  if f c then Ok a else Err (not_available c).
(** The same where the other [cfg] branch panics. *)
Definition compiled {A} (f : Features) (c : ForceChain) (a : A) : Result A :=
  if f c then Ok a else Panic.

(** ** [IdentifyVariant] *)

Definition starts_with (p s : string) : bool := String.prefix p s.

Definition is_polkafoundry (id : string) : bool :=
  starts_with "polkafoundry]" id || starts_with "pkf" id.
Definition is_polkasmith (id : string) : bool :=
  starts_with "polkasmith" id || starts_with "pks" id.
Definition is_halongbay (id : string) : bool :=
  starts_with "halongbay" id || starts_with "hlb" id.

(** ** [create_full] *)

(** [FullDeps], as far as the handler depends on it: whether there is a filter
    pool and a sink for sealing commands. *)
Record FullDeps := mkFullDeps {
  is_authority : bool;
  filter_pool : bool;
  command_sink : bool;
}.

(** The modules the handler is extended with, in order. *)
Definition create_full (f : Features) (deps : FullDeps) (runtime : option ForceChain)
    : Result (list RpcModule) :=
  let converter := match runtime with
                   | Some PolkaFoundry => PolkaFoundry
                   | Some PolkaSmith => PolkaSmith
                   | _ => Halongbay
                   end in
  compiled f converter
    ([SystemApi; TransactionPaymentApi; EthApi converter (is_authority deps)]
     ++ (if filter_pool deps then [EthFilterApi 500] else [])
     ++ [NetApi; Web3Api; EthPubSubApi]
     ++ (if command_sink deps then [ManualSealApi] else [])).

Section Service.
Context `{SV : !Services}.

(** ** [new_partial] *)

(** The components that depend on the arguments or that are [Some]: the runtime
    the client executes, the longest-chain rule, the import queue, the pools of
    pending transactions and of filters, telemetry and the handle of its worker. *)
Record PartialComponents := mkPartial {
  client : ForceChain;
  select_chain : bool;
  import_queue : ImportQueue;
  partial_pending : bool;
  partial_filters : bool;
  partial_telemetry : bool;
  partial_telemetry_worker : bool;
}.

(** Telemetry is there when the configuration names an endpoint. *)
Definition new_telemetry (config : Configuration) : Startup bool :=
  match telemetry_endpoints config with
  | Some (_ :: _) => ask (NewTelemetryWorker 16) ;;; ret true
  | Some [] | None => ret false
  end.

(** [new_partial::<RuntimeApi of c>(config, dev)] *)
Definition new_partial (c : ForceChain) (config : Configuration) (dev : bool)
    : Startup PartialComponents :=
  let! telemetry := new_telemetry config in
  ask (NewFullParts c (config_keystore config) telemetry) ;;;
  only_if telemetry (ask (Spawn false TelemetryTask)) ;;;
  ask (NewTransactionPool (is_authority_role (role config))) ;;;
  ask (SlotDuration c) ;;;
  let select_chain := dev in
  let import_queue := if dev then ManualSealQueue else AuraQueue in
  ask (NewImportQueue import_queue (negb dev && telemetry)) ;;;
  ret {| client := c;
         select_chain := select_chain;
         import_queue := import_queue;
         partial_pending := true;
         partial_filters := true;
         partial_telemetry := telemetry;
         partial_telemetry_worker := telemetry |}.

Definition set_keystore (config : Configuration) (k : KeystoreConfig) : Configuration :=
  {| chain_spec_id := chain_spec_id config;
     spec_extensions := spec_extensions config;
     role := role config;
     offchain_worker_enabled := offchain_worker_enabled config;
     telemetry_endpoints := telemetry_endpoints config;
     config_force_authoring := config_force_authoring config;
     config_keystore := k;
     config_base_path := config_base_path config |}.

Definition new_chain_ops (f : Features) (config : Configuration) : Startup PartialComponents :=
  let config := set_keystore config InMemory in
  if is_polkafoundry (chain_spec_id config) then
    if f PolkaFoundry then new_partial PolkaFoundry config false
    else throw "Polkafoundry runtime is not available. Please compile the node with `--features polkafoundry` to enable it."%string
  else if is_polkasmith (chain_spec_id config) then
    if f PolkaSmith then new_partial PolkaSmith config false else throw (not_available PolkaSmith)
  else
    if f Halongbay then new_partial Halongbay config true else throw (not_available Halongbay).

(** ** [start_node] *)

(** [start_node_impl::<RuntimeApi of c>]; the collator's key and the relay
    chain's configuration are only handed on, the author id and the builder of
    RPC extensions are not used.  [spawn_tasks] is what calls [create_full]. *)
Definition start_node_impl (f : Features) (c : ForceChain) (parachain_config : Configuration)
    (id : Z) (build_consensus : bool -> bool -> Startup unit) (runtime : ForceChain)
    : Startup ForceChain :=
  if bool_decide (role parachain_config = Light) then throw "Light client not supported!"%string
  else
  let parachain_config := prepare_node_config parachain_config in
  let! params := new_partial c parachain_config false in
  ask (BuildPolkadotFullNode (partial_telemetry_worker params)) ;;;
  let force_authoring := config_force_authoring parachain_config in
  let validator := is_authority_role (role parachain_config) in
  ask (BuildNetwork (Some id)) ;;;
  let deps := mkFullDeps validator (partial_filters params) false in
  only_if (offchain_worker_enabled parachain_config) (ask BuildOffchainWorkers) ;;;
  let! rpc := lift (create_full f deps (Some runtime)) in
  ask (SpawnTasks rpc (partial_telemetry params)) ;;;
  only_if (partial_filters params) (ask (Spawn true FrontierFilterPool)) ;;;
  only_if (partial_pending params) (ask (Spawn true FrontierPendingTransactions)) ;;;
  (if validator then
     build_consensus (partial_telemetry params) force_authoring ;;; ask (StartCollator id)
   else ask (StartFullNode id)) ;;;
  ask StartNetwork ;;;
  ret (client params).

Definition start_node (f : Features) (c : ForceChain) (parachain_config : Configuration)
    (author_id : option AccountId) (id : Z) (runtime : ForceChain) : Startup ForceChain :=
  start_node_impl f c parachain_config id
    (fun telemetry force_authoring =>
       ask (SlotDuration c) ;;; ask (BuildAuraConsensus force_authoring telemetry))
    runtime.

(** ** [start_dev] *)

(** It expects [new_partial] to yield a longest-chain rule. *)
Definition start_dev (f : Features) (config : Configuration) (author_id : AccountId) (sealing : Sealing)
    (validator : bool) : Startup unit :=
  let! params := new_partial Halongbay config true in
  (if select_chain params then ret tt else panic) ;;;
  ask (BuildNetwork None) ;;;
  only_if (offchain_worker_enabled config) (ask BuildOffchainWorkers) ;;;
  let command_sink := validator && match sealing with Manual => true | Instant => false end in
  only_if validator (ask (Spawn true (AuthorshipTask sealing))) ;;;
  let deps := mkFullDeps validator (partial_filters params) command_sink in
  let! rpc := lift (create_full f deps None) in
  ask (SpawnTasks rpc false) ;;;
  only_if (partial_filters params) (ask (Spawn true FrontierFilterPool)) ;;;
  only_if (partial_pending params) (ask (Spawn true FrontierPendingTransactions)) ;;;
  ask StartNetwork.

(** ** What a start comes to *)

(** How the node takes part in the chain: it collates for a parachain, follows
    one, seals blocks itself, or does none of it (development mode without
    [--validator]). *)
Inductive Consensus :=
  | Collator (para_id : Z) | FullNode (para_id : Z) | Sealer (sealing : Sealing) | Idle.

(** The first request of a kind. *)
Definition seek {A} (g : Request -> option A) (asked : list Request) : option A :=
  head (omap g asked).
Definition runtime_of : list Request -> option ForceChain :=
  seek (fun r => match r with NewFullParts c _ _ => Some c | _ => None end).
Definition modules_of (asked : list Request) : list RpcModule :=
  default [] (seek (fun r => match r with SpawnTasks ms _ => Some ms | _ => None end) asked).
Definition consensus_of (asked : list Request) : Consensus :=
  default Idle (seek (fun r => match r with
                               | StartCollator id => Some (Collator id)
                               | StartFullNode id => Some (FullNode id)
                               | Spawn _ (AuthorshipTask s) => Some (Sealer s)
                               | _ => None
                               end) asked).

(** What a node serves and maintains, by the requests of its start. *)
Record node_ok (f : Features) (asked : list Request) : Prop := {
  node_runtime : exists c, runtime_of asked = Some c /\ f c = true /\
    forall c', (exists a, EthApi c' a ∈ modules_of asked) <-> c' = c;
  node_nodup : NoDup (modules_of asked);
  node_filters : (exists k, EthFilterApi k ∈ modules_of asked) /\ Spawn true FrontierFilterPool ∈ asked;
  node_pending : Spawn true FrontierPendingTransactions ∈ asked;
  node_seal : ManualSealApi ∈ modules_of asked <-> consensus_of asked = Sealer Manual;
  node_authors s : Spawn true (AuthorshipTask s) ∈ asked <-> consensus_of asked = Sealer s;
  node_network : exists before, asked = before ++ [StartNetwork] /\ StartNetwork ∉ before;
}.

(** ** Plans *)

(** Whether the node reports telemetry. *)
Definition telemetry_on (config : Configuration) : bool :=
  match telemetry_endpoints config with Some (_ :: _) => true | _ => false end.

Definition partial_plan (c : ForceChain) (config : Configuration) (dev : bool) : list Request :=
  (if telemetry_on config then [NewTelemetryWorker 16] else [])
  ++ NewFullParts c (config_keystore config) (telemetry_on config)
  :: (if telemetry_on config then [Spawn false TelemetryTask] else [])
  ++ [NewTransactionPool (is_authority_role (role config)); SlotDuration c;
      if dev then NewImportQueue ManualSealQueue false
      else NewImportQueue AuraQueue (telemetry_on config)].

Definition partial_of (c : ForceChain) (config : Configuration) (dev : bool) : PartialComponents :=
  {| client := c; select_chain := dev;
     import_queue := if dev then ManualSealQueue else AuraQueue;
     partial_pending := true; partial_filters := true;
     partial_telemetry := telemetry_on config; partial_telemetry_worker := telemetry_on config |}.

(** The modules of a node with a filter pool. *)
Definition rpc_modules (c : ForceChain) (authority sink : bool) : list RpcModule :=
  [SystemApi; TransactionPaymentApi; EthApi c authority; EthFilterApi 500; NetApi; Web3Api;
   EthPubSubApi] ++ (if sink then [ManualSealApi] else []).

Definition offchain_plan (config : Configuration) : list Request :=
  if offchain_worker_enabled config then [BuildOffchainWorkers] else [].

Definition node_plan (c : ForceChain) (config : Configuration) (id : Z) : list Request :=
  let authority := is_authority_role (role config) in
  partial_plan c config false
  ++ BuildPolkadotFullNode (telemetry_on config) :: BuildNetwork (Some id) :: offchain_plan config
  ++ SpawnTasks (rpc_modules c authority false) (telemetry_on config)
  :: Spawn true FrontierFilterPool :: Spawn true FrontierPendingTransactions
  :: (if authority then
        [SlotDuration c; BuildAuraConsensus (config_force_authoring config) (telemetry_on config);
         StartCollator id]
      else [StartFullNode id])
  ++ [StartNetwork].

Definition dev_plan (config : Configuration) (sealing : Sealing) (validator : bool) : list Request :=
  let sink := validator && match sealing with Manual => true | Instant => false end in
  partial_plan Halongbay config true
  ++ BuildNetwork None :: offchain_plan config
  ++ (if validator then [Spawn true (AuthorshipTask sealing)] else [])
  ++ [SpawnTasks (rpc_modules Halongbay validator sink) false;
      Spawn true FrontierFilterPool; Spawn true FrontierPendingTransactions; StartNetwork].
End Service.

(** Compare a start with its plan, request by request. *)
Ltac run_start := repeat progress (unfold bind, ret, throw, panic, lift, ask, map_err; simpl).
Ltac follow_plan :=
  intros asked; run_start;
  repeat (match goal with |- context [answer ?a ?r] => destruct (answer a r) end; run_start; [done|]);
  try done.

Section ServicePlans.
Context `{SV : !Services}.

Lemma new_partial_plan c config dev :
  new_partial c config dev == (follow (partial_plan c config dev) ;;; ret (partial_of c config dev)).
Proof.
  unfold new_partial, new_telemetry, partial_plan, partial_of, telemetry_on.
  destruct (telemetry_endpoints config) as [[|e es]|], dev; follow_plan.
Qed.

Lemma create_full_modules f c authority sink :
  f c = true ->
  create_full f (mkFullDeps authority true sink) (Some c) = Ok (rpc_modules c authority sink).
Proof. intros Hc. unfold create_full, compiled. by destruct c; rewrite Hc; simpl. Qed.

(** A node whose network was compiled in, and whose role is not that of a light
    client, starts by its plan. *)
Lemma start_node_plan `{!ServicesLaws} f c config author id :
  f c = true ->
  start_node f c config author id c ==
  (if decide (role config = Light) then throw "Light client not supported!"%string
   else follow (node_plan c config id) ;;; ret c).
Proof.
  intros Hc. unfold start_node, start_node_impl. rewrite prepare_keeps, bool_decide_decide.
  destruct (decide (role config = Light)); [done|].
  unfold node_plan. rewrite follow_app, bind_assoc_same. rewrite new_partial_plan, bind_assoc_same.
  apply then_same; [done|]. rewrite bind_ret_same. simpl.
  rewrite create_full_modules by done. unfold offchain_plan.
  destruct (offchain_worker_enabled config), (is_authority_role (role config)); follow_plan.
Qed.

Lemma start_dev_plan f config author sealing validator :
  f Halongbay = true ->
  start_dev f config author sealing validator == follow (dev_plan config sealing validator).
Proof.
  intros Hc. unfold start_dev, dev_plan. rewrite follow_app.
  rewrite new_partial_plan, bind_assoc_same.
  apply then_same; [done|]. rewrite bind_ret_same. simpl.
  unfold create_full, compiled. rewrite Hc. unfold offchain_plan, rpc_modules.
  destruct (offchain_worker_enabled config), validator, sealing; follow_plan.
Qed.

(** ** Properties *)

Lemma rpc_modules_spec c authority sink :
  NoDup (rpc_modules c authority sink) /\
  (forall c' a, EthApi c' a ∈ rpc_modules c authority sink <-> c' = c /\ a = authority) /\
  EthFilterApi 500 ∈ rpc_modules c authority sink /\
  (ManualSealApi ∈ rpc_modules c authority sink <-> sink = true).
Proof.
  unfold rpc_modules. assert (forall (m m' : RpcModule) l, m ∈ m' :: l <-> m = m' \/ m ∈ l) as Hc
    by (intros; apply elem_of_cons).
  assert (forall m : RpcModule, m ∈ [] <-> False) as Hn.
  { intros m. pose proof (not_elem_of_nil m). tauto. }
  destruct sink; simpl;
    (split; [repeat (apply NoDup_cons; split; [rewrite ?Hc, Hn; intuition congruence|]);
             apply NoDup_nil_2|]);
    split_and!; intros; rewrite ?Hc, Hn; intuition congruence.
Qed.

Lemma follow_ok {A} (a a' : A) plan asked asked' :
  (follow plan ;;; ret a) asked = (Ok a', asked') ->
  a' = a /\ asked' = asked ++ plan /\ unfailing asked plan.
Proof.
  intros H. pose proof (follow_spec (Ok a) plan asked) as Hf. change (lift (Ok a)) with (ret (S := list Request) (E := string) a) in Hf.
  rewrite H in Hf. destruct Hf as [(?&?&?)|(?&?&?&?&?&?&?&?&?)]; by simplify_eq.
Qed.

(** The network a chain specification is taken to be of. *)
Definition identified (id : string) : ForceChain :=
  if is_polkafoundry id then PolkaFoundry else if is_polkasmith id then PolkaSmith else Halongbay.
Definition refusal (c : ForceChain) : string :=
  match c with
  | PolkaFoundry => "Polkafoundry runtime is not available. Please compile the node with `--features polkafoundry` to enable it."
  | _ => not_available c
  end.
Definition ops_dev (c : ForceChain) : bool :=
  match c with Halongbay => true | PolkaFoundry | PolkaSmith => false end.

Lemma new_chain_ops_plan f config :
  let c := identified (chain_spec_id config) in
  let config' := set_keystore config InMemory in
  new_chain_ops f config ==
  (if f c then follow (partial_plan c config' (ops_dev c)) ;;; ret (partial_of c config' (ops_dev c))
   else throw (refusal c)).
Proof.
  intros c config'. unfold new_chain_ops, c, identified. simpl.
  destruct (is_polkafoundry _); [|destruct (is_polkasmith _)];
    (destruct (f _); [apply new_partial_plan | done]).
Qed.

Lemma new_chain_ops_ok f config asked p asked' :
  new_chain_ops f config asked = (Ok p, asked') ->
  let c := identified (chain_spec_id config) in
  f c = true /\ p = partial_of c (set_keystore config InMemory) (ops_dev c) /\
  asked' = asked ++ partial_plan c (set_keystore config InMemory) (ops_dev c).
Proof.
  intros H. rewrite new_chain_ops_plan in H. intros c. fold c in H.
  destruct (f c); [|done]. apply follow_ok in H. tauto.
Qed.

Lemma new_chain_ops_no_panic f config asked : (new_chain_ops f config asked).1 <> Panic.
Proof.
  rewrite new_chain_ops_plan. destruct (f _); [|done].
  match goal with |- ((follow ?p ;;; ret ?v) asked).1 <> _ =>
    pose proof (follow_spec (Ok v) p asked) as H;
    change (lift (Ok v)) with (ret (S := list Request) (E := string) v) in H;
    destruct ((follow p ;;; ret v) asked) as [res ?] end.
  destruct H as [(?&->&?)|(?&?&?&?&?&?&?&->&?)]; done.
Qed.

(** The requests the command line makes before it starts the node. *)
Definition preparatory (r : Request) : bool :=
  match r with
  | CreateRunner | GenerateGenesisBlock _ | CreateRelayConfiguration _ _ _ => true
  | _ => false
  end.

Lemma seek_prepared {A} (g : Request -> option A) pre plan :
  (forall r, preparatory r = true -> g r = None) -> Forall preparatory pre ->
  seek g (pre ++ plan) = seek g plan.
Proof.
  intros Hg Hpre. unfold seek. induction Hpre as [|r pre Hr Hpre IH]; [done|].
  simpl. rewrite Hg; [exact IH|]. by apply Is_true_eq_true.
Qed.

Lemma not_prepared r pre plan :
  preparatory r = false -> Forall preparatory pre -> r ∈ pre ++ plan <-> r ∈ plan.
Proof.
  intros Hr Hpre. rewrite elem_of_app, Forall_forall in *. split; [|tauto].
  intros [Hin|?]; [|done]. specialize (Hpre r Hin). by rewrite Hr in Hpre.
Qed.

(** The plan of a node behind a preparation, without its last request. *)
Lemma node_ok_prepared f pre plan :
  Forall preparatory pre -> node_ok f plan -> node_ok f (pre ++ plan).
Proof.
  intros Hpre [Hr Hn Hf Hp Hs Ha (before & -> & Hb)].
  assert (runtime_of (pre ++ before ++ [StartNetwork]) = runtime_of (before ++ [StartNetwork])) as Er
    by (apply seek_prepared; [by intros []|done]).
  assert (modules_of (pre ++ before ++ [StartNetwork]) = modules_of (before ++ [StartNetwork])) as Em
    by (unfold modules_of; f_equal; apply seek_prepared; [by intros []|done]).
  assert (consensus_of (pre ++ before ++ [StartNetwork]) = consensus_of (before ++ [StartNetwork])) as Ec
    by (unfold consensus_of; f_equal; apply seek_prepared; [by intros []|done]).
  split; rewrite ?Er, ?Em, ?Ec, ?not_prepared by done; try done.
  - intros s. by rewrite not_prepared.
  - exists (pre ++ before). rewrite app_assoc. split; [done|]. by rewrite not_prepared.
Qed.

#[local] Arguments rpc_modules : simpl never.

Ltac member := repeat (apply elem_of_cons; first [by left | right]).
Ltac members := rewrite ?elem_of_cons, ?elem_of_app, ?elem_of_nil; intuition congruence.
Ltac network_last :=
  match goal with |- exists before, ?l = _ /\ _ =>
    exists (List.removelast l); split; [reflexivity | simpl; members] end.
Ltac node_parts Hd He Hf Hs :=
  split; cbn [app];
  [ eexists; split; [reflexivity|]; split; [done|]; intros c'; split;
    [ by intros [a [-> _]%He] | intros ->; eexists; by apply He ]
  | exact Hd
  | split; [by exists 500 | member]
  | member
  | etrans; [exact Hs|]; unfold consensus_of, seek; simpl; intuition congruence
  | intros s; unfold consensus_of, seek; simpl; members
  | ].

Lemma node_plan_ok f c config id : f c = true -> node_ok f (node_plan c config id).
Proof.
  intros Hc. unfold node_plan, partial_plan, offchain_plan.
  set (auth := is_authority_role (role config)).
  destruct (rpc_modules_spec c auth false) as (Hd & He & Hf & Hs).
  destruct (telemetry_on config), (offchain_worker_enabled config), auth; node_parts Hd He Hf Hs.
  all: network_last.
Qed.

Lemma dev_plan_ok f config sealing validator :
  f Halongbay = true -> node_ok f (dev_plan config sealing validator).
Proof.
  intros Hc. unfold dev_plan, partial_plan, offchain_plan.
  destruct (rpc_modules_spec Halongbay validator
    (validator && match sealing with Manual => true | Instant => false end)) as (Hd & He & Hf & Hs).
  destruct (telemetry_on config), (offchain_worker_enabled config), validator, sealing;
    node_parts Hd He Hf Hs.
  all: network_last.
Qed.

(** The network that is run and the part it takes. *)
Lemma node_plan_part c config id pre :
  Forall preparatory pre ->
  runtime_of (pre ++ node_plan c config id) = Some c /\
  consensus_of (pre ++ node_plan c config id)
  = if decide (role config = Authority) then Collator id else FullNode id.
Proof.
  intros Hpre. unfold runtime_of, consensus_of.
  rewrite !seek_prepared by (done || by intros []).
  unfold node_plan, partial_plan, offchain_plan, is_authority_role. rewrite bool_decide_decide.
  destruct (telemetry_on config), (offchain_worker_enabled config), (decide (role config = Authority));
    done.
Qed.

Lemma dev_plan_part config sealing validator pre :
  Forall preparatory pre ->
  runtime_of (pre ++ dev_plan config sealing validator) = Some Halongbay /\
  consensus_of (pre ++ dev_plan config sealing validator) = if validator then Sealer sealing else Idle.
Proof.
  intros Hpre. unfold runtime_of, consensus_of.
  rewrite !seek_prepared by (done || by intros []).
  unfold dev_plan, partial_plan, offchain_plan.
  destruct (telemetry_on config), (offchain_worker_enabled config), validator; done.
Qed.

(** The chain of a PolkaFoundry staging specification is not recognised: the
    prefix it is compared with ends in a bracket.  Chain operations build a
    Halongbay client for it, with the development import queue, while those of
    the other two networks build their own. *)
Theorem polkafoundry_not_identified f wasm spec c config asked p asked' :
  staging c (Some wasm) = inr spec -> chain_spec_id config = spec_id spec ->
  new_chain_ops f config asked = (Ok p, asked') ->
  match c with
  | PolkaSmith => client p = PolkaSmith /\ import_queue p = AuraQueue
  | PolkaFoundry | Halongbay => client p = Halongbay /\ import_queue p = ManualSealQueue
  end.
Proof.
  intros Hs Hid (_ & -> & _)%new_chain_ops_ok. rewrite Hid. destruct c; simpl in Hs; by simplify_eq.
Qed.
End ServicePlans.

(** ** Services that never fail *)

#[export] Instance willing : Services := {|
  answers _ _ := None;
  prepare_node_config config := config;
  path_join p q := (p ++ "/" ++ q)%string;
  executable_name := "polkafoundry"%string;
|}.
#[export] Instance willing_laws : ServicesLaws.
Proof. done. Qed.

(** A validator's configuration, with one telemetry endpoint. *)
Definition validator_config (spec_id : string) : Configuration :=
  {| chain_spec_id := spec_id; spec_extensions := None; role := Authority;
     offchain_worker_enabled := true; telemetry_endpoints := Some ["wss://telemetry"%string];
     config_force_authoring := false; config_keystore := KeystorePath "keystore";
     config_base_path := Some "base"%string |}.

Lemma polkafoundry_not_identified_witness :
  exists spec p asked', staging PolkaFoundry (Some []) = inr spec /\
    new_chain_ops (fun _ => true) (validator_config (spec_id spec)) [] = (Ok p, asked') /\
    client p = Halongbay /\ import_queue p = ManualSealQueue.
Proof.
  eexists _, _, _. split; [reflexivity|]. split; [vm_compute; reflexivity|].
  refine (polkafoundry_not_identified (fun _ => true) [] _ PolkaFoundry (validator_config _) [] _ _
           eq_refl eq_refl _); vm_compute; reflexivity.
Defined.
