(* ===== verification/NodeInherents.v ===== *)
(** * The inherents of the node's blocks

    [node/src/service.rs]: which data the node puts into the blocks it authors
    and checks in those it imports, and the provider of spoofed parachain data
    that stands in for the relay chain in development mode.  Together with
    [AuthorInherent] this shows what becomes of the author the command line
    asks for. *)
From Stdlib Require Import Strings.Byte.
From S2P Require Import Prelude StakingTypes Networks NodeStartup NodeService AuthorInherent.

(** The types of [sp_inherents] and [cumulus_primitives_parachain_inherent]. *)
Section Inherents.
Context `{AC : !AccountCodec} {D : Type} `{ID : !InherentData D}.

(** The identifiers of the timestamp, the slot and the parachain data. *)
Class KnownInherents := {
  TIMESTAMP_IDENTIFIER : Identifier;
  SLOT_IDENTIFIER : Identifier;
  PARACHAIN_INHERENT_IDENTIFIER : Identifier;
  (** [timestamp "timstap0"], [slot "auraslot"], [parachain "sysi1337"]: eight
      bytes of which none is ["author__"] *)
  known_not_author :
    INHERENT_IDENTIFIER <> TIMESTAMP_IDENTIFIER /\ INHERENT_IDENTIFIER <> SLOT_IDENTIFIER /\
    INHERENT_IDENTIFIER <> PARACHAIN_INHERENT_IDENTIFIER;
}.
Context `{KI : !KnownInherents}.

(** What the providers put in: the encoded time, the encoded slot that the time
    falls into, and the encoded parachain data. *)
Context (time slot : list byte).

(** The providers of [service.rs]; [ParachainProvider] carries the data read off
    the relay chain, [AuthorProvider] is the one of the author inherent pallet. *)
Inductive Provider :=
  | TimestampProvider
  | SlotProvider
  | ParachainProvider (data : list byte)
  | MockParachainProvider
  | AuthorProvider (author : AccountId).

(** [RelayStateSproofBuilder::default().into_state_root_and_proof()] and the
    encoding of [ParachainInherentData]. *)
Record ParachainInherentData := mkParachainInherentData {
  relay_parent_storage_root : list byte;
  relay_chain_state : list byte;
  (** [parent_head], [relay_parent_number], [max_pov_size] and the messages are
      at their defaults *)
  rest_is_default : bool;
}.
Context (sproof : list byte * list byte) (encode_parachain : ParachainInherentData -> list byte).

(** [MockParachainInherentDataProvider::provide_inherent_data] *)
Definition mock_provide_inherent_data (inherent_data : D) : option D :=
  let '(relay_storage_root, proof) := sproof in
  let data := mkParachainInherentData relay_storage_root proof true in
  put_data PARACHAIN_INHERENT_IDENTIFIER (encode_parachain data) inherent_data.

(** [MockParachainInherentDataProvider::try_handle_error]: [None] is not ours or
    not readable, [Some m] the application error with message [m]. *)
Definition mock_try_handle_error {E} (decode_error : list byte -> option E) (debug : E -> string)
    (identifier : Identifier) (error : list byte) : option string :=
  if bool_decide (identifier <> PARACHAIN_INHERENT_IDENTIFIER) then None
  else match decode_error error with
       | None => None
       | Some error => Some (debug error)
       end.

Definition provide (p : Provider) (d : D) : option D :=
  match p with
  | TimestampProvider => put_data TIMESTAMP_IDENTIFIER time d
  | SlotProvider => put_data SLOT_IDENTIFIER slot d
  | ParachainProvider data => put_data PARACHAIN_INHERENT_IDENTIFIER data d
  | MockParachainProvider => mock_provide_inherent_data d
  | AuthorProvider author => provide_inherent_data (encode author) d
  end.

(** A tuple of providers puts in everything, in order. *)
Fixpoint provide_all (ps : list Provider) (d : D) : option D :=
  match ps with
  | [] => Some d
  | p :: ps => match provide p d with Some d => provide_all ps d | None => None end
  end.

(** [create_inherent_data_providers] of [start_node], [parachain_inherent] being
    what [create_at_with_client] returned. *)
Definition collator_providers (parachain_inherent : option (list byte)) : Result (list Provider) :=
  match parachain_inherent with
  | Some data => Ok [TimestampProvider; SlotProvider; ParachainProvider data]
  | None => Err "Failed to create parachain inherent"
  end.
(** ... of [start_dev] *)
Definition sealer_providers : list Provider := [TimestampProvider; MockParachainProvider].
(** ... and of the import queue of [new_partial]. *)
Definition import_providers (q : ImportQueue) : list Provider :=
  match q with AuraQueue => [TimestampProvider; SlotProvider] | ManualSealQueue => [] end.

(** What a node that takes part in the chain in a given way puts into a block
    it authors; the other nodes author none. *)
Definition authoring_providers (c : Consensus) (parachain_inherent : option (list byte))
    : Result (option (list Provider)) :=
  match c with
  | Collator _ => rbind (collator_providers parachain_inherent) (fun ps => Ok (Some ps))
  | Sealer _ => Ok (Some sealer_providers)
  | FullNode _ | Idle => Ok None
  end.

Context `{IDL : !InherentDataLaws D}.

Lemma provide_all_author ps d d' :
  (forall a, ~ AuthorProvider a ∈ ps) -> provide_all ps d = Some d' ->
  get_data INHERENT_IDENTIFIER d' = get_data INHERENT_IDENTIFIER d.
Proof using IDL KI.
  destruct known_not_author as (Ht & Hs & Hp).
  revert d. induction ps as [|p ps IH]; intros d Hna H; simpl in H; [by simplify_eq|].
  destruct (provide p d) as [d1|] eqn:E; [|done].
  rewrite (IH d1) by (done || (intros a Ha; apply (Hna a); by right)).
  destruct p as [| |data| |a]; simpl in E; unfold mock_provide_inherent_data in E;
    [| | |destruct sproof|by destruct (Hna a); left]; by eapply get_put_other.
Qed.

Lemma authoring_no_author c inh ps a :
  authoring_providers c inh = Ok (Some ps) -> ~ AuthorProvider a ∈ ps.
Proof using Type.
  unfold authoring_providers, collator_providers, sealer_providers. intros H Ha.
  destruct c, inh; simpl in H; simplify_eq;
    repeat (apply elem_of_cons in Ha as [?|Ha]; [done|]); by apply elem_of_nil in Ha.
Qed.

(** [C39] Whatever the command line says, a node states no author: the inherent data of
    every block it authors has none, the author inherent pallet creates no
    extrinsic from it, and, were the pallet in the runtime, a block with that
    and any signed calls would be refused. *)
Theorem author_never_stated c inh ps d s signed :
  authoring_providers c inh = Ok (Some ps) -> provide_all ps data_new = Some d ->
  create_inherent d = Ok None /\
  (run_block ((fun x : AccountId * AccountId => (Signed x.1, x.2)) <$> signed) s).1 = Panic.
Proof using IDL KI.
  intros Hps Hd. split.
  - unfold create_inherent. rewrite (provide_all_author ps data_new d);
      [|intros a; by eapply authoring_no_author | done]. by rewrite get_data_new.
  - unfold run_block, on_finalize. unfold_monad. rewrite apply_extrinsics_spec. simpl.
    assert (stated_authors ((fun x : AccountId * AccountId => (Signed x.1, x.2)) <$> signed) = []) as ->
      by (induction signed; done). done.
Qed.

(** With the pallet's own provider in the tuple the author would be stated. *)
Theorem author_stated_with_provider `{!AccountCodecLaws} ps d d' author :
  (author < 2 ^ 256)%N -> (forall a, ~ AuthorProvider a ∈ ps) ->
  provide_all (AuthorProvider author :: ps) d = Some d' ->
  create_inherent d' = Ok (Some (set_author_call author)).
Proof using IDL KI.
  intros Hau Hna Hps. simpl in Hps. destruct (provide_inherent_data _ d) as [d1|] eqn:E; [|done].
  unfold create_inherent. rewrite (provide_all_author ps d1 d' Hna Hps).
  unfold provide_inherent_data in E. by rewrite (get_put_data _ _ _ _ E), decode_encode.
Qed.

(** The mock answers for the errors of its own inherent and for no other. *)
Theorem mock_handles_own {E} (decode_error : list byte -> option E) debug i error m :
  mock_try_handle_error decode_error debug i error = Some m ->
  i = PARACHAIN_INHERENT_IDENTIFIER /\ exists e, decode_error error = Some e /\ m = debug e.
Proof using Type.
  unfold mock_try_handle_error. intros Hm. case_bool_decide as Hi; [done|].
  destruct (decode_error error); simplify_eq. eauto.
Qed.
End Inherents.

(** ** Witnesses *)

Definition id_of (s : string) : Identifier := String.list_byte_of_string s.
#[export] Instance known_inherents : KnownInherents.
Proof.
  refine {| TIMESTAMP_IDENTIFIER := id_of "timstap0"; SLOT_IDENTIFIER := id_of "auraslot";
            PARACHAIN_INHERENT_IDENTIFIER := id_of "sysi1337" |}.
  by split_and!; vm_compute.
Defined.

Lemma author_never_stated_witness :
  exists ps d, authoring_providers (Collator 1111) (Some [x01]) = Ok (Some ps) /\
    provide_all (D := InherentList) [x02] [x03] ([], []) (fun _ => []) ps data_new = Some d /\
    create_inherent d = Ok None /\ (run_block [(Signed 5%N, 6%N)] (mkAuthorState None [])).1 = Panic.
Proof.
  eexists _, _. split; [reflexivity|]. split; [vm_compute; reflexivity|].
  refine (author_never_stated (D := InherentList) [x02] [x03] ([], []) (fun _ => [])
    (Collator 1111) (Some [x01]) _ _ (mkAuthorState None []) [(5%N, 6%N)] eq_refl _).
  vm_compute. reflexivity.
Defined.
