(* ===== verification/NodeClient.v ===== *)
(** * The node's client

    [node/src/client.rs]: [Client], one of the full clients of the networks the
    node was compiled with, seen through the interfaces that chain operations
    use.  Every method is answered by the full client inside; the interfaces
    are type classes, as they are traits in the code. *)
From S2P Require Import Prelude StakingTypes Networks NodeStartup NodeService.

Section Client.

(** The types of [sp_blockchain], [sp_storage] and [sp_runtime]. *)
Context {BlockId StorageKey StorageData PrefixedStorageKey ChildInfo Hash Extrinsic SignedBlock
  BlockStatus Justifications ClientInfo Bytes BlockchainError : Type}.

(** [sp_blockchain::Result] *)
Definition BResult (A : Type) : Type := A + BlockchainError.

(** [sc_client_api::UsageProvider] *)
Class UsageProvider (C : Type) := { usage_info : C -> ClientInfo }.

(** [sc_client_api::StorageProvider]; an iterator over keys is the list of
    what it yields. *)
Class StorageProvider (C : Type) := {
  storage : C -> BlockId -> StorageKey -> BResult (option StorageData);
  storage_keys : C -> BlockId -> StorageKey -> BResult (list StorageKey);
  storage_hash : C -> BlockId -> StorageKey -> BResult (option Hash);
  storage_pairs : C -> BlockId -> StorageKey -> BResult (list (StorageKey * StorageData));
  storage_keys_iter :
    C -> BlockId -> option StorageKey -> option StorageKey -> BResult (list StorageKey);
  child_storage : C -> BlockId -> ChildInfo -> StorageKey -> BResult (option StorageData);
  child_storage_keys : C -> BlockId -> ChildInfo -> StorageKey -> BResult (list StorageKey);
  child_storage_hash : C -> BlockId -> ChildInfo -> StorageKey -> BResult (option Hash);
  max_key_changes_range : C -> BlockNumber -> BlockId -> BResult (option (BlockNumber * BlockId));
  key_changes : C -> BlockNumber -> BlockId -> option PrefixedStorageKey -> StorageKey ->
    BResult (list (BlockNumber * Z));
}.

(** [sc_client_api::BlockBackend] *)
Class BlockBackend (C : Type) := {
  block_body : C -> BlockId -> BResult (option (list Extrinsic));
  block : C -> BlockId -> BResult (option SignedBlock);
  block_status : C -> BlockId -> BResult BlockStatus;
  justifications : C -> BlockId -> BResult (option Justifications);
  block_hash : C -> BlockNumber -> BResult (option Hash);
  indexed_transaction : C -> Hash -> BResult (option Bytes);
  has_indexed_transaction : C -> Hash -> BResult bool;
}.

(** The full clients [FullClient<RuntimeApi, Executor>] of the three networks. *)
Context {PkfClient PksClient HlbClient : Type}.

(** [enum Client]; its variants are those of [ForceChain] with the client inside. *)
Inductive Client :=
  | PolkaFoundryClient (client : PkfClient)
  | PolkaSmithClient (client : PksClient)
  | HalongbayClient (client : HlbClient).

Section Delegation.
Context `{!UsageProvider PkfClient, !UsageProvider PksClient, !UsageProvider HlbClient}.
Context `{!StorageProvider PkfClient, !StorageProvider PksClient, !StorageProvider HlbClient}.
Context `{!BlockBackend PkfClient, !BlockBackend PksClient, !BlockBackend HlbClient}.
Implicit Types self : Client.

Definition Client_usage_info self : ClientInfo :=
  match self with
  | PolkaFoundryClient client => usage_info client
  | PolkaSmithClient client => usage_info client
  | HalongbayClient client => usage_info client
  end.

Definition Client_storage self (id : BlockId) (key : StorageKey) :=
  match self with
  | PolkaFoundryClient client => storage client id key
  | PolkaSmithClient client => storage client id key
  | HalongbayClient client => storage client id key
  end.
Definition Client_storage_keys self (id : BlockId) (key_prefix : StorageKey) :=
  match self with
  | PolkaFoundryClient client => storage_keys client id key_prefix
  | PolkaSmithClient client => storage_keys client id key_prefix
  | HalongbayClient client => storage_keys client id key_prefix
  end.
Definition Client_storage_hash self (id : BlockId) (key : StorageKey) :=
  match self with
  | PolkaFoundryClient client => storage_hash client id key
  | PolkaSmithClient client => storage_hash client id key
  | HalongbayClient client => storage_hash client id key
  end.
Definition Client_storage_pairs self (id : BlockId) (key_prefix : StorageKey) :=
  match self with
  | PolkaFoundryClient client => storage_pairs client id key_prefix
  | PolkaSmithClient client => storage_pairs client id key_prefix
  | HalongbayClient client => storage_pairs client id key_prefix
  end.
Definition Client_storage_keys_iter self (id : BlockId) (prefix start_key : option StorageKey) :=
  match self with
  | PolkaFoundryClient client => storage_keys_iter client id prefix start_key
  | PolkaSmithClient client => storage_keys_iter client id prefix start_key
  | HalongbayClient client => storage_keys_iter client id prefix start_key
  end.
Definition Client_child_storage self (id : BlockId) (child_info : ChildInfo) (key : StorageKey) :=
  match self with
  | PolkaFoundryClient client => child_storage client id child_info key
  | PolkaSmithClient client => child_storage client id child_info key
  | HalongbayClient client => child_storage client id child_info key
  end.
Definition Client_child_storage_keys self (id : BlockId) (child_info : ChildInfo)
    (key_prefix : StorageKey) :=
  match self with
  | PolkaFoundryClient client => child_storage_keys client id child_info key_prefix
  | PolkaSmithClient client => child_storage_keys client id child_info key_prefix
  | HalongbayClient client => child_storage_keys client id child_info key_prefix
  end.
Definition Client_child_storage_hash self (id : BlockId) (child_info : ChildInfo)
    (key : StorageKey) :=
  match self with
  | PolkaFoundryClient client => child_storage_hash client id child_info key
  | PolkaSmithClient client => child_storage_hash client id child_info key
  | HalongbayClient client => child_storage_hash client id child_info key
  end.
Definition Client_max_key_changes_range self (first : BlockNumber) (last : BlockId) :=
  match self with
  | PolkaFoundryClient client => max_key_changes_range client first last
  | PolkaSmithClient client => max_key_changes_range client first last
  | HalongbayClient client => max_key_changes_range client first last
  end.
Definition Client_key_changes self (first : BlockNumber) (last : BlockId)
    (storage_key : option PrefixedStorageKey) (key : StorageKey) :=
  match self with
  | PolkaFoundryClient client => key_changes client first last storage_key key
  | PolkaSmithClient client => key_changes client first last storage_key key
  | HalongbayClient client => key_changes client first last storage_key key
  end.

Definition Client_block_body self (id : BlockId) :=
  match self with
  | PolkaFoundryClient client => block_body client id
  | PolkaSmithClient client => block_body client id
  | HalongbayClient client => block_body client id
  end.
Definition Client_block self (id : BlockId) :=
  match self with
  | PolkaFoundryClient client => block client id
  | PolkaSmithClient client => block client id
  | HalongbayClient client => block client id
  end.
Definition Client_block_status self (id : BlockId) :=
  match self with
  | PolkaFoundryClient client => block_status client id
  | PolkaSmithClient client => block_status client id
  | HalongbayClient client => block_status client id
  end.
Definition Client_justifications self (id : BlockId) :=
  match self with
  | PolkaFoundryClient client => justifications client id
  | PolkaSmithClient client => justifications client id
  | HalongbayClient client => justifications client id
  end.
Definition Client_block_hash self (number : BlockNumber) :=
  match self with
  | PolkaFoundryClient client => block_hash client number
  | PolkaSmithClient client => block_hash client number
  | HalongbayClient client => block_hash client number
  end.
Definition Client_indexed_transaction self (hash : Hash) :=
  match self with
  | PolkaFoundryClient client => indexed_transaction client hash
  | PolkaSmithClient client => indexed_transaction client hash
  | HalongbayClient client => indexed_transaction client hash
  end.
Definition Client_has_indexed_transaction self (hash : Hash) :=
  match self with
  | PolkaFoundryClient client => has_indexed_transaction client hash
  | PolkaSmithClient client => has_indexed_transaction client hash
  | HalongbayClient client => has_indexed_transaction client hash
  end.

#[export] Instance Client_UsageProvider : UsageProvider Client := {| usage_info := Client_usage_info |}.
#[export] Instance Client_StorageProvider : StorageProvider Client := {|
  storage := Client_storage;
  storage_keys := Client_storage_keys;
  storage_hash := Client_storage_hash;
  storage_pairs := Client_storage_pairs;
  storage_keys_iter := Client_storage_keys_iter;
  child_storage := Client_child_storage;
  child_storage_keys := Client_child_storage_keys;
  child_storage_hash := Client_child_storage_hash;
  max_key_changes_range := Client_max_key_changes_range;
  key_changes := Client_key_changes;
|}.
#[export] Instance Client_BlockBackend : BlockBackend Client := {|
  block_body := Client_block_body;
  block := Client_block;
  block_status := Client_block_status;
  justifications := Client_justifications;
  block_hash := Client_block_hash;
  indexed_transaction := Client_indexed_transaction;
  has_indexed_transaction := Client_has_indexed_transaction;
|}.
End Delegation.

(** ** What a user of the interfaces can ask *)

Inductive Query : Type -> Type :=
  | q_usage_info : Query ClientInfo
  | q_storage (id : BlockId) (key : StorageKey) : Query (BResult (option StorageData))
  | q_storage_keys (id : BlockId) (key_prefix : StorageKey) : Query (BResult (list StorageKey))
  | q_storage_hash (id : BlockId) (key : StorageKey) : Query (BResult (option Hash))
  | q_storage_pairs (id : BlockId) (key_prefix : StorageKey) :
      Query (BResult (list (StorageKey * StorageData)))
  | q_storage_keys_iter (id : BlockId) (prefix start_key : option StorageKey) :
      Query (BResult (list StorageKey))
  | q_child_storage (id : BlockId) (child : ChildInfo) (key : StorageKey) :
      Query (BResult (option StorageData))
  | q_child_storage_keys (id : BlockId) (child : ChildInfo) (key_prefix : StorageKey) :
      Query (BResult (list StorageKey))
  | q_child_storage_hash (id : BlockId) (child : ChildInfo) (key : StorageKey) :
      Query (BResult (option Hash))
  | q_max_key_changes_range (first : BlockNumber) (last : BlockId) :
      Query (BResult (option (BlockNumber * BlockId)))
  | q_key_changes (first : BlockNumber) (last : BlockId)
      (storage_key : option PrefixedStorageKey) (key : StorageKey) :
      Query (BResult (list (BlockNumber * Z)))
  | q_block_body (id : BlockId) : Query (BResult (option (list Extrinsic)))
  | q_block (id : BlockId) : Query (BResult (option SignedBlock))
  | q_block_status (id : BlockId) : Query (BResult BlockStatus)
  | q_justifications (id : BlockId) : Query (BResult (option Justifications))
  | q_block_hash (number : BlockNumber) : Query (BResult (option Hash))
  | q_indexed_transaction (hash : Hash) : Query (BResult (option Bytes))
  | q_has_indexed_transaction (hash : Hash) : Query (BResult bool).

(** The answer of an implementation of the three interfaces. *)
Definition ask {C} `{!UsageProvider C, !StorageProvider C, !BlockBackend C} (c : C)
    {A} (q : Query A) : A :=
  match q with
  | q_usage_info => usage_info c
  | q_storage id key => storage c id key
  | q_storage_keys id key_prefix => storage_keys c id key_prefix
  | q_storage_hash id key => storage_hash c id key
  | q_storage_pairs id key_prefix => storage_pairs c id key_prefix
  | q_storage_keys_iter id prefix start_key => storage_keys_iter c id prefix start_key
  | q_child_storage id child key => child_storage c id child key
  | q_child_storage_keys id child key_prefix => child_storage_keys c id child key_prefix
  | q_child_storage_hash id child key => child_storage_hash c id child key
  | q_max_key_changes_range first last => max_key_changes_range c first last
  | q_key_changes first last storage_key key => key_changes c first last storage_key key
  | q_block_body id => block_body c id
  | q_block id => block c id
  | q_block_status id => block_status c id
  | q_justifications id => justifications c id
  | q_block_hash number => block_hash c number
  | q_indexed_transaction hash => indexed_transaction c hash
  | q_has_indexed_transaction hash => has_indexed_transaction c hash
  end.

(** A chain operation, as far as its client goes: it asks, and goes on as the
    answers say. *)
Inductive Session (R : Type) : Type :=
  | Done (r : R)
  | Ask {A : Type} (q : Query A) (k : A -> Session R).
Arguments Done {R} r.
Arguments Ask {R A} q k.

Fixpoint run_session {C} `{!UsageProvider C, !StorageProvider C, !BlockBackend C} (c : C)
    {R} (p : Session R) : R :=
  match p with
  | Done r => r
  | Ask q k => run_session c (k (ask c q))
  end.

Section Transparency.
Context `{!UsageProvider PkfClient, !UsageProvider PksClient, !UsageProvider HlbClient}.
Context `{!StorageProvider PkfClient, !StorageProvider PksClient, !StorageProvider HlbClient}.
Context `{!BlockBackend PkfClient, !BlockBackend PksClient, !BlockBackend HlbClient}.
(** The full clients that [new_partial] builds. *)
Context (pkf : PkfClient) (pks : PksClient) (hlb : HlbClient).

Definition client_of (c : ForceChain) : Client :=
  match c with
  | PolkaFoundry => PolkaFoundryClient pkf
  | PolkaSmith => PolkaSmithClient pks
  | Halongbay => HalongbayClient hlb
  end.

(** The client of [new_chain_ops], whose parts [NodeService] models. *)
Definition chain_ops_client `{!Services} (f : Features) (config : Configuration) : Startup Client :=
  let! params := new_chain_ops f config in ret (client_of (client params)).

(** A whole session with the full client of network [c]. *)
Definition run_full {R} (c : ForceChain) (p : Session R) : R :=
  match c with
  | PolkaFoundry => run_session pkf p
  | PolkaSmith => run_session pks p
  | Halongbay => run_session hlb p
  end.

Lemma ask_client_of c {A} (q : Query A) :
  ask (client_of c) q =
  match c with PolkaFoundry => ask pkf q | PolkaSmith => ask pks q | Halongbay => ask hlb q end.
Proof using Type. by destruct c, q. Qed.

Lemma session_client_of c {R} (p : Session R) : run_session (client_of c) p = run_full c p.
Proof using Type.
  induction p as [r|A q k IH]; simpl; [by destruct c|]. rewrite IH, ask_client_of. by destruct c.
Qed.

(** Chain operations talk to the full client of one compiled network and
    cannot tell: whatever an operation asks of the client that [new_chain_ops]
    hands it, in whatever order and depending on the answers, it ends as it
    would with that network's full client; the network is the one the id of the
    specification is identified as, and its client was built on a key store in
    memory. *)
Theorem chain_ops_transparent `{!Services} {R} f config asked c asked' (p : Session R) :
  chain_ops_client f config asked = (Ok c, asked') ->
  let id := chain_spec_id config in
  let n := if is_polkafoundry id then PolkaFoundry else if is_polkasmith id then PolkaSmith
           else Halongbay in
  f n = true /\ run_session c p = run_full n p /\
  exists before after telemetry, asked' = asked ++ before ++ NewFullParts n InMemory telemetry :: after.
Proof using Type.
  unfold chain_ops_client. unfold bind. destruct (new_chain_ops f config asked) as [[q| |] ?] eqn:Hq;
    [|done..].
  unfold ret. intros ?; simplify_eq. apply new_chain_ops_ok in Hq as (Hf & -> & ->).
  split_and!; [exact Hf | apply session_client_of |]. unfold partial_plan. simpl. eauto.
Qed.
End Transparency.
End Client.
Arguments Done {_ _ _ _ _ _ _ _ _ _ _ _ _ R} r.
Arguments Ask {_ _ _ _ _ _ _ _ _ _ _ _ _ R A} q k.

(** ** A client that knows one number *)

(** Every type of the interfaces is a number or [unit]; the client [n] stores
    [n] under every key and has [n] in its status. *)
#[local] Instance number_UsageProvider : UsageProvider (ClientInfo := Z) Z := {| usage_info n := n |}.
#[local] Instance number_StorageProvider :
    StorageProvider (BlockId := unit) (StorageKey := unit) (StorageData := Z)
      (PrefixedStorageKey := unit) (ChildInfo := unit) (Hash := Z) (BlockchainError := unit) Z := {|
  storage n _ _ := inl (Some n);
  storage_keys n _ _ := inl [tt];
  storage_hash n _ _ := inl None;
  storage_pairs n _ _ := inl [(tt, n)];
  storage_keys_iter n _ _ _ := inl [tt];
  child_storage n _ _ _ := inl None;
  child_storage_keys n _ _ _ := inl [];
  child_storage_hash n _ _ _ := inl None;
  max_key_changes_range n _ _ := inr tt;
  key_changes n _ _ _ _ := inr tt;
|}.
#[local] Instance number_BlockBackend :
    BlockBackend (BlockId := unit) (Hash := Z) (Extrinsic := unit) (SignedBlock := unit)
      (BlockStatus := Z) (Justifications := unit) (Bytes := unit) (BlockchainError := unit) Z := {|
  block_body n _ := inl None;
  block n _ := inl None;
  block_status n _ := inl n;
  justifications n _ := inl None;
  block_hash n _ := inl None;
  indexed_transaction n _ := inl None;
  has_indexed_transaction n _ := inl false;
|}.

(** A session that asks for the status, then for the storage if it is positive. *)
Definition number_session : Session (BlockId := unit) (StorageKey := unit) (StorageData := Z)
    (PrefixedStorageKey := unit) (ChildInfo := unit) (Hash := Z) (Extrinsic := unit)
    (SignedBlock := unit) (BlockStatus := Z) (Justifications := unit) (ClientInfo := Z)
    (Bytes := unit) (BlockchainError := unit) Z :=
  Ask (q_block_status tt) (fun r =>
    match r with
    | inl n => if 0 <? n then Ask (q_storage tt tt) (fun d =>
                 match d with inl (Some v) => Done (10 * v) | _ => Done 0 end)
               else Done n
    | inr _ => Done 0
    end).

Lemma chain_ops_transparent_witness :
  exists c asked',
    chain_ops_client 1 2 3 (fun _ => true) (validator_config "pks_local") [] = (Ok c, asked') /\
    run_session c number_session = run_full 1 2 3 PolkaSmith number_session.
Proof.
  eexists _, _. split; [vm_compute; reflexivity|].
  refine (proj1 (proj2 (chain_ops_transparent 1 2 3 (fun _ => true) (validator_config "pks_local") []
    _ _ number_session _))).
  vm_compute; reflexivity.
Defined.

Example number_session_runs : run_full 1 2 3 PolkaSmith number_session = 20.
Proof. reflexivity. Qed.
