(* ===== verification/NodeCommand.v ===== *)
(** * The node's command line

    [node/src/command.rs]: chain names, which chain specification an id loads,
    the native runtime of a specification, and [run] without a subcommand, with
    the arguments of [node/src/cli.rs]. *)
From Stdlib Require Import Ascii.
From S2P Require Import Prelude StakingTypes Networks NodeStartup NodeService.

(** [chain_name]: the first enabled network returns. *)
Definition chain_name (f : Features) : option string :=
  if f PolkaFoundry then Some "PolkaFoundry"%string
  else if f PolkaSmith then Some "PolkaSmith"%string
  else if f Halongbay then Some "Halongbay"%string
  else None.

(** ** [SubstrateCli]: how the programs present themselves *)

Record CliTexts := mkTexts {
  impl_name : string;
  impl_version : string;
  description : string;
  author : string;
  support_url : string;
  copyright_start_year : Z;
}.

Definition newline : string := String (ascii_of_nat 10) EmptyString.

(** [usage] is the executable the description ends with, [version] and [authors]
    come from the build. *)
Definition description_text (name usage : string) : string :=
  (name ++ " Parachain Collator" ++ newline ++ newline ++
   "The command-line arguments provided first will be passed to the parachain node, " ++
   "while the arguments provided after -- will be passed to the relaychain node." ++
   newline ++ newline ++ usage ++ " [parachain-args] -- [relaychain-args]")%string.

(** [impl SubstrateCli for Cli]; without a network the program does not compile. *)
Definition Cli_texts (f : Features) (version authors executable : string) : option CliTexts :=
  (fun name => {|
     impl_name := (name ++ " Parachain Collator")%string;
     impl_version := version;
     description := description_text name executable;
     author := authors;
     support_url := "https://github.com/polkafoundry/newpolka/issues/new"%string;
     copyright_start_year := 2019 |}) <$> chain_name f.

(** [impl SubstrateCli for RelayChainCli] *)
Definition RelayChainCli_texts (f : Features) (version authors : string) : option CliTexts :=
  (fun name => {|
     impl_name := (name ++ " Parachain Collator")%string;
     impl_version := version;
     description := description_text name "rococo-collator";
     author := authors;
     support_url := "https://github.com/polkafoundry/newpolka/issues/new"%string;
     copyright_start_year := 2019 |}) <$> chain_name f.

(** The relay chain's command line presents itself as the node's would if the
    executable were called [rococo-collator]. *)
Theorem relay_texts f version authors :
  RelayChainCli_texts f version authors = Cli_texts f version authors "rococo-collator".
Proof. reflexivity. Qed.

(** ** Chain specifications *)

(** Where [load_spec] takes a specification from: the one compiled in, the
    staging one of the network, or a JSON file. *)
Inductive SpecSource :=
  | ConfigSpec (c : ForceChain)
  | Staging (c : ForceChain)
  | JsonFile (c : ForceChain) (path : string).

(** [Path::file_name] on Unix: the last component, which is not [..]; empty
    components and [.] are not components. *)
Fixpoint components (cur : string) (path : string) : list string :=
  match path with
  | EmptyString => [cur]
  | String c path =>
      if Ascii.eqb c "/"%char then cur :: components "" path
      else components (cur ++ String c "") path
  end.
Definition file_name (path : string) : option string :=
  match last (filter (fun c => c <> ""%string /\ c <> "."%string) (components "" path)) with
  | Some c => if decide (c = ".."%string) then None else Some c
  | None => None
  end.

(** What opening a specification reads: the runtime blobs of the build, and
    whether [from_json_bytes] and [from_json_file] of [sc_service] fail. *)
Class SpecFiles := {
  WASM_BINARY : ForceChain -> option (list Byte.byte);
  from_json_bytes_error : ForceChain -> option string;
  from_json_file_error : ForceChain -> string -> option string;
}.

Section Specs.
Context `{SF : !SpecFiles}.

(** The error of [*_config], [*_staging_testnet_config] or [from_json_file]. *)
Definition spec_error (src : SpecSource) : option string :=
  match src with
  | ConfigSpec c => from_json_bytes_error c
  | Staging c =>
      match staging c (WASM_BINARY c) with inl e => Some e | inr _ => None end
  | JsonFile c path => from_json_file_error c path
  end.
(** Its [?]. *)
Definition open_spec (src : SpecSource) : Result SpecSource :=
  match spec_error src with Some e => Err e | None => Ok src end.

(** The match arms are compiled in with their network: without it the id falls
    through to the path arm. *)
Definition load_spec (f : Features) (id : string) : Result SpecSource :=
  if f PolkaFoundry && String.eqb id "polkafoundry" then open_spec (ConfigSpec PolkaFoundry)
  else if f PolkaFoundry && String.eqb id "polkafoundry-dev" then open_spec (Staging PolkaFoundry)
  else if f PolkaSmith && String.eqb id "polkasmith" then open_spec (ConfigSpec PolkaSmith)
  else if f PolkaSmith && String.eqb id "polkasmith-dev" then open_spec (Staging PolkaSmith)
  else if f Halongbay && String.eqb id "halongbay" then open_spec (ConfigSpec Halongbay)
  else if f Halongbay && String.eqb id "" then open_spec (Staging Halongbay)
  else
    let starts_with prefix :=
      match file_name id with Some s => starts_with prefix s | None => false end in
    if starts_with "polkafoundry"%string then rbind (available f PolkaFoundry (JsonFile PolkaFoundry id)) open_spec
    else if starts_with "polkasmith"%string then rbind (available f PolkaSmith (JsonFile PolkaSmith id)) open_spec
    else rbind (available f Halongbay (JsonFile Halongbay id)) open_spec.
End Specs.
#[global] Arguments open_spec {_} _ : simpl never.

(** [native_runtime_version]: the network whose version is returned. *)
Definition native_runtime_version (f : Features) (chain_spec_id : string) : Result ForceChain :=
  if is_polkafoundry chain_spec_id then compiled f PolkaFoundry PolkaFoundry
  else if is_polkasmith chain_spec_id then compiled f PolkaSmith PolkaSmith
  else compiled f Halongbay Halongbay.

(** ** [run] without a subcommand *)

(** The arguments [run] looks at; [base_validator] is [--validator]. *)
Record RunCmd := mkRunCmd {
  base_validator : bool;
  collator_flag : bool;
  author_id : option AccountId;
  start_dev_flag : bool;
  sealing : Sealing;
  parachain_id_arg : option Z;
  force_chain : ForceChain;
  relaychain_args : list string;
}.

Section Run.
Context `{SV : !Services}.

(** [config] is the configuration of the runner that [create_runner] makes. *)
Definition run (f : Features) (config : Configuration) (cli : RunCmd) : Startup unit :=
  ask CreateRunner ;;;
  let collator := base_validator cli || collator_flag cli in
  ensure (negb (collator && bool_decide (author_id cli = None)))
    "Collator nodes must specify an author account id"%string ;;;
  if start_dev_flag cli then
    let author_id := default tung (author_id cli) in
    if f Halongbay then start_dev f config author_id (sealing cli) collator
    else throw (not_available Halongbay)
  else
    let extension := spec_extensions config in
    let relay_chain_id := relay_chain <$> extension in
    let para_id := para_id <$> extension in
    let id := default 1111 (parachain_id_arg cli ∪ para_id) in
    map_err (fun e => "Error generate genesis block " ++ e)%string
      (ask (GenerateGenesisBlock (chain_spec_id config))) ;;;
    map_err (fun e => "Relay chain argument error: " ++ e)%string
      (ask (CreateRelayConfiguration ((fun x => path_join x "polkadot") <$> config_base_path config)
              relay_chain_id (executable_name :: relaychain_args cli))) ;;;
    if f (force_chain cli)
    then start_node f (force_chain cli) config (author_id cli) id (force_chain cli) ;;; ret tt
    else panic.

(** ** Properties *)

(** The network of a specification source. *)
Definition source_chain (src : SpecSource) : ForceChain :=
  match src with ConfigSpec c | Staging c | JsonFile c _ => c end.

(** Loading a specification never yields a network that was not compiled in:
    it fails, naming a missing one, or with the error of opening a specification
    of a compiled network.  The id of each compiled network opens that network's
    own specification. *)
Theorem load_spec_available `{!SpecFiles} f id :
  match load_spec f id with
  | Ok src => f (source_chain src) = true /\ spec_error src = None
  | Err m => (exists c, f c = false /\ m = not_available c) \/
             (exists src, f (source_chain src) = true /\ spec_error src = Some m)
  | Panic => False
  end /\
  (f PolkaFoundry = true -> load_spec f "polkafoundry" = open_spec (ConfigSpec PolkaFoundry)) /\
  (f PolkaSmith = true -> load_spec f "polkasmith" = open_spec (ConfigSpec PolkaSmith)) /\
  (f Halongbay = true -> load_spec f "halongbay" = open_spec (ConfigSpec Halongbay)).
Proof.
  split; [|split_and!; intros Hf; unfold load_spec; rewrite Hf; simpl;
            by rewrite ?andb_false_r].
  assert (forall src, f (source_chain src) = true ->
    match open_spec src with
    | Ok src => f (source_chain src) = true /\ spec_error src = None
    | Err m => (exists c, f c = false /\ m = not_available c) \/
               (exists src, f (source_chain src) = true /\ spec_error src = Some m)
    | Panic => False
    end) as Hopen.
  { intros src Hsrc. unfold open_spec. destruct (spec_error src) as [m|] eqn:He; [right; by exists src|done]. }
  unfold load_spec, available.
  destruct (f PolkaFoundry) eqn:H1, (f PolkaSmith) eqn:H2, (f Halongbay) eqn:H3; simpl;
    repeat (match goal with |- context [if ?b then _ else _] => destruct b end; simpl);
    first [by apply Hopen | left; first [by exists PolkaFoundry | by exists PolkaSmith | by exists Halongbay]].
Qed.

(** The plan of a run and how it ends if nothing fails. *)
Definition run_plan (f : Features) (config : Configuration) (cli : RunCmd)
    : list Request * Result unit :=
  let collator := base_validator cli || collator_flag cli in
  let id := default (default 1111 (para_id <$> spec_extensions config)) (parachain_id_arg cli) in
  let prepared :=
    [CreateRunner; GenerateGenesisBlock (chain_spec_id config);
     CreateRelayConfiguration ((fun x => path_join x "polkadot") <$> config_base_path config)
       (relay_chain <$> spec_extensions config) (executable_name :: relaychain_args cli)] in
  if collator && bool_decide (author_id cli = None)
  then ([CreateRunner], Err "Collator nodes must specify an author account id"%string)
  else if start_dev_flag cli then
    if f Halongbay then (CreateRunner :: dev_plan config (sealing cli) collator, Ok tt)
    else ([CreateRunner], Err (not_available Halongbay))
  else if f (force_chain cli) then
    if decide (role config = Light) then (prepared, Err "Light client not supported!"%string)
    else (prepared ++ node_plan (force_chain cli) config id, Ok tt)
  else (prepared, Panic).

(** The requests before a node for a parachain is started. *)
Lemma prepared_follows {A} spec base chain args (k : Startup A) :
  (ask CreateRunner ;;; ret tt ;;;
   map_err (fun e => "Error generate genesis block " ++ e)%string (ask (GenerateGenesisBlock spec)) ;;;
   map_err (fun e => "Relay chain argument error: " ++ e)%string
     (ask (CreateRelayConfiguration base chain args)) ;;; k)
  == (follow [CreateRunner; GenerateGenesisBlock spec; CreateRelayConfiguration base chain args] ;;; k).
Proof. follow_plan. Qed.

Lemma run_follows `{!ServicesLaws} f config cli :
  run f config cli ==
  (follow (run_plan f config cli).1 ;;; lift (run_plan f config cli).2).
Proof.
  unfold run, run_plan.
  assert (default (default 1111 (para_id <$> spec_extensions config)) (parachain_id_arg cli)
          = default 1111 (parachain_id_arg cli ∪ (para_id <$> spec_extensions config))) as ->
    by (by destruct (parachain_id_arg cli), (spec_extensions config)).
  set (id := default 1111 _).
  destruct (_ && bool_decide _); cbn [negb ensure fst snd]; [follow_plan|].
  destruct (start_dev_flag cli); [|destruct (f (force_chain cli)) eqn:Hf].
  - destruct (f Halongbay) eqn:Hh; [|follow_plan]. simpl.
    rewrite bind_assoc_same, (ask_mapped CreateRunner), (ask_plain CreateRunner) by done.
    apply then_same; [done|]. rewrite bind_ret_same, start_dev_plan by done.
    symmetry. apply bind_unit.
  - etrans; [apply prepared_follows|].
    etrans; [apply then_same; [reflexivity|]; apply then_same; [by apply start_node_plan|reflexivity]|].
    destruct (decide (role config = Light)); cbn [fst snd]; [by apply then_same|].
    etrans; [|apply follow_bind]. apply then_same; [reflexivity|]. apply bind_assoc_same.
  - apply prepared_follows.
Qed.

Lemma prepared_ok f spec base chain args plan :
  node_ok f plan ->
  node_ok f ([CreateRunner; GenerateGenesisBlock spec; CreateRelayConfiguration base chain args] ++ plan).
Proof. apply node_ok_prepared. repeat constructor. Qed.

Lemma run_plan_ok f config cli :
  (run_plan f config cli).2 = Ok tt -> node_ok f (run_plan f config cli).1.
Proof.
  unfold run_plan. repeat case_match; cbn [fst snd]; try done; intros _.
  - apply (node_ok_prepared _ [CreateRunner]); [repeat constructor|]. by apply dev_plan_ok.
  - apply prepared_ok. by apply node_plan_ok.
Qed.

Lemma run_plan_refused f config cli :
  (run_plan f config cli).2 <> Ok tt -> StartNetwork ∉ (run_plan f config cli).1.
Proof.
  unfold run_plan. repeat case_match; cbn [fst snd]; try done; intros _;
    rewrite ?elem_of_cons, ?elem_of_nil; intuition congruence.
Qed.

(** The network is started after everything else. *)
Lemma run_plan_network f config cli l r l' :
  (run_plan f config cli).1 = l ++ r :: l' -> StartNetwork ∉ l.
Proof.
  intros Hp. destruct (decide ((run_plan f config cli).2 = Ok tt)) as [Hv|Hv].
  - destruct (node_network _ _ (run_plan_ok _ _ _ Hv)) as (before & Hb & Hn).
    rewrite Hb in Hp. destruct (app_eq_inv _ _ _ _ Hp) as [(k & -> & _)|(k & -> & Hk)].
    + intros Hin. apply Hn. set_solver.
    + destruct k; [by rewrite app_nil_r|]. by destruct k.
  - pose proof (run_plan_refused _ _ _ Hv) as Hn. rewrite Hp in Hn. set_solver.
Qed.

Lemma run_ok `{!ServicesLaws} f config cli asked :
  run f config cli [] = (Ok tt, asked) ->
  asked = (run_plan f config cli).1 /\ (run_plan f config cli).2 = Ok tt.
Proof.
  rewrite run_follows. intros Hrun.
  pose proof (follow_spec (run_plan f config cli).2 (run_plan f config cli).1 []) as Hf.
  rewrite Hrun in Hf. by destruct Hf as [(_ & <- & ->)|(?&?&?&?&?&?&?&?&?)].
Qed.

(** [C38] What is started without a subcommand, and what fails.  A run that
    succeeds made no request that failed; a collator had an author id;
    development mode runs Halongbay and seals exactly for a collator; otherwise
    the node runs the network that was forced and compiled in and takes part, as
    the configured role says, in the parachain of the command line, else of the
    specification, else 1111.  A run that fails, and one that panics, never
    starts the network; it ends in the error of the last request it made, or for
    one of three reasons of its own. *)
Theorem run_spec `{!ServicesLaws} f config cli :
  let collator := base_validator cli || collator_flag cli in
  let '(res, asked) := run f config cli [] in
  match res with
  | Ok _ =>
      unfailing [] asked /\ last asked = Some StartNetwork /\
      (collator = true -> is_Some (author_id cli)) /\
      if start_dev_flag cli then
        runtime_of asked = Some Halongbay /\ f Halongbay = true /\
        consensus_of asked = (if collator then Sealer (sealing cli) else Idle)
      else
        let id := default (default 1111 (para_id <$> spec_extensions config)) (parachain_id_arg cli) in
        runtime_of asked = Some (force_chain cli) /\ f (force_chain cli) = true /\
        role config <> Light /\
        consensus_of asked = if decide (role config = Authority) then Collator id else FullNode id
  | Err m =>
      StartNetwork ∉ asked /\
      ((exists before r e, asked = before ++ [r] /\ answer before r = Some e /\ m = reported r e) \/
       (collator = true /\ author_id cli = None) \/
       (start_dev_flag cli = true /\ f Halongbay = false) \/
       (start_dev_flag cli = false /\ role config = Light))
  | Panic =>
      StartNetwork ∉ asked /\ start_dev_flag cli = false /\ f (force_chain cli) = false
  end.
Proof.
  intros collator. rewrite run_follows. pose proof (run_plan_ok f config cli) as Hok.
  pose proof (run_plan_refused f config cli) as Hno. pose proof (run_plan_network f config cli) as Hnet.
  pose proof (follow_spec (run_plan f config cli).2 (run_plan f config cli).1 []) as Hf.
  destruct ((follow _ ;;; _) []) as [res asked].
  destruct Hf as [(Hu & -> & ->)|(l & r & l' & e & Hp & Hu & Ha & -> & ->)].
  2: { split; [|left; by exists l, r, e]. specialize (Hnet l r l' Hp). simpl.
       rewrite elem_of_app, elem_of_cons, elem_of_nil. intros [?|[<-|[]]]; [done|].
       by unfold answer in Ha. }
  unfold run_plan in *. clear Hnet. fold collator in Hok, Hno, Hu |- *. rewrite ?app_nil_l.
  destruct (collator && bool_decide (author_id cli = None)) eqn:Hb; cbn [fst snd] in *.
  { apply andb_true_iff in Hb as [? Hb%bool_decide_eq_true]. split; [by apply Hno|]. tauto. }
  assert (collator = true -> is_Some (author_id cli)) as Hs.
  { intros Ht. rewrite Ht in Hb. destruct (author_id cli); [eauto|]. done. }
  destruct (start_dev_flag cli); [destruct (f Halongbay)|destruct (f (force_chain cli)) eqn:Hf;
    [destruct (decide (role config = Light))|]]; cbn [fst snd] in *.
  all: try (split; [by apply Hno|tauto]).
  all: destruct (node_network _ _ (Hok eq_refl)) as (before & Hlast & _);
    apply (f_equal last) in Hlast; rewrite last_snoc in Hlast.
  - destruct (dev_plan_part config (sealing cli) collator [CreateRunner]) as [Hr Hc];
      [by repeat constructor|].
    by split_and!.
  - match goal with |- context [?pre ++ node_plan ?n ?g ?i] =>
      destruct (node_plan_part n g i pre) as [Hr Hc]; [by repeat constructor|] end.
    by split_and!.
Qed.

(** A node that was started is coherent whichever way it was started: it runs
    a network that was compiled in, serves every RPC module once, converts
    Ethereum transactions for the network it runs and no other, maintains the
    pools it serves, offers manual sealing exactly when it seals manually, and
    starts the network last. *)
Theorem run_coherent `{!ServicesLaws} f config cli asked :
  run f config cli [] = (Ok tt, asked) -> node_ok f asked.
Proof.
  intros [-> Hv]%run_ok. by apply run_plan_ok.
Qed.

(** [--collator] is documented to be the same as [--validator], but outside
    development mode only the configured role decides: given an author id, the
    flag changes nothing, and a node that is not an authority collates for
    nothing. *)
Theorem collator_flag_ignored `{!ServicesLaws} f config base author dev_sealing para chain args :
  let cmd collator :=
    mkRunCmd base collator (Some author) false dev_sealing para chain args in
  run f config (cmd true) [] = run f config (cmd false) [] /\
  (role config = Full -> forall asked id,
   run f config (cmd true) [] = (Ok tt, asked) -> consensus_of asked <> Collator id).
Proof.
  cbv zeta. split; [by destruct base|]. intros Hr asked id [-> Hv]%run_ok. revert Hv.
  unfold run_plan. cbn [author_id start_dev_flag force_chain]. rewrite andb_false_r.
  destruct (f chain); [|done]. destruct (decide _); [done|]. intros _. cbn [fst].
  match goal with |- context [?pre ++ node_plan ?n ?g ?i] =>
    destruct (node_plan_part n g i pre) as [_ ->]; [by repeat constructor|] end.
  by rewrite Hr.
Qed.

End Run.

(** A collator for a staging specification, and a node whose network cannot be
    built. *)
Definition collate_cmd : RunCmd :=
  {| base_validator := true; collator_flag := false; author_id := Some tung;
     start_dev_flag := false; sealing := Instant; parachain_id_arg := None;
     force_chain := PolkaSmith; relaychain_args := [] |}.
Definition no_network : Services := {|
  answers _ r := match r with BuildNetwork _ => Some "no port"%string | _ => None end;
  prepare_node_config config := config;
  path_join p q := (p ++ "/" ++ q)%string;
  executable_name := "polkafoundry"%string;
|}.

Lemma run_spec_witness :
  ServicesLaws /\
  let '(res, asked) := run (fun _ => true) (validator_config "pks") collate_cmd [] in
  res = Ok tt /\ last asked = Some StartNetwork /\ consensus_of asked = Collator 1111.
Proof.
  split; [exact willing_laws|].
  pose proof (run_spec (fun _ => true) (validator_config "pks") collate_cmd) as H.
  vm_compute in H |- *. destruct H as (_ & Hl & _ & _ & _ & _ & Hc). by split_and!.
Defined.

(** Without a network the start ends in its error, before any task of the node's
    own but telemetry is spawned. *)
Example run_no_network :
  run (SV := no_network) (fun _ => true) (validator_config "pks") collate_cmd [] =
  (Err "no port"%string,
   [CreateRunner; GenerateGenesisBlock "pks";
    CreateRelayConfiguration (Some "base/polkadot"%string) None ["polkafoundry"%string];
    NewTelemetryWorker 16; NewFullParts PolkaSmith (KeystorePath "keystore") true;
    Spawn false TelemetryTask; NewTransactionPool true; SlotDuration PolkaSmith;
    NewImportQueue AuraQueue true; BuildPolkadotFullNode true; BuildNetwork (Some 1111)]).
Proof. reflexivity. Qed.

Lemma run_coherent_witness :
  exists asked, run (fun _ => true) (validator_config "pks") collate_cmd [] = (Ok tt, asked) /\
    node_ok (fun _ => true) asked.
Proof.
  eexists. split; [vm_compute; reflexivity|].
  refine (run_coherent (fun _ => true) (validator_config "pks") collate_cmd _ _).
  vm_compute; reflexivity.
Defined.
