(* ===== verification/NodeSubcommand.v ===== *)
(** * The node's subcommands and its relay chain arguments

    [node/src/command.rs]: [run] with a subcommand, the export of genesis state
    and wasm, and [RelayChainCli], the configuration of the relay chain node
    that runs inside a collator; their arguments are in [node/src/cli.rs]. *)
From Stdlib Require Import Strings.Byte.
From S2P Require Import Prelude StakingTypes Networks NodeStartup NodeService NodeCommand.

(** ** Subcommands *)

Record ExportGenesisStateCommand := mkExportGenesisState {
  egs_output : option string;
  egs_parachain_id : Z;
  egs_raw : bool;
  egs_chain : option string;
}.
Record ExportGenesisWasmCommand := mkExportGenesisWasm {
  egw_output : option string;
  egw_raw : bool;
  egw_chain : option string;
}.

Inductive Subcommand :=
  | ExportGenesisState (params : ExportGenesisStateCommand)
  | ExportGenesisWasm (params : ExportGenesisWasmCommand)
  | BuildSpec | CheckBlock | ExportBlocks | ExportState | ImportBlocks | PurgeChain | Revert.

(** What a subcommand that succeeds does: runs the command of [sc_cli] with the
    parts of the node it is given, or writes bytes to a file or to standard
    output. *)
Inductive Outcome :=
  | RunBuildSpec | RunPurgeChain
  | RunCheckBlock (client : ForceChain) (import_queue : ImportQueue)
  | RunExportBlocks (client : ForceChain)
  | RunExportState (client : ForceChain)
  | RunImportBlocks (client : ForceChain) (import_queue : ImportQueue)
  | RunRevert (client : ForceChain)
  | Written (output : option string) (buf : list byte).

Definition byte_string (s : string) : list byte := String.list_byte_of_string s.

(** What the Substrate crates make of a specification that is open, and how they print bytes. *)
Class GenesisTools := {
  (** [ChainSpec::build_storage], the [top] map *)
  build_storage : SpecSource -> string + gmap string (list byte);
  (** [generate_genesis_block] and the encoding of its header *)
  genesis_header : SpecSource -> string + list byte;
  (** [well_known_keys::CODE] *)
  CODE : string;
  (** [HexDisplay] with [{:?}], and what reads it back *)
  hex_display : list byte -> list byte;
  hex_read : list byte -> option (list byte);
}.
(** Two digits for each byte. *)
Class GenesisToolsLaws `{!GenesisTools} : Prop := {
  hex_read_display b : hex_read (hex_display b) = Some b;
}.

Section Subcommands.
Context `{SV : !Services, SF : !SpecFiles, GT : !GenesisTools}.

Definition lift_error {A} (r : string + A) : Result A :=
  match r with inl m => Err m | inr a => Ok a end.

Definition extract_genesis_wasm (chain_spec : SpecSource) : Result (list byte) :=
  rbind (lift_error (build_storage chain_spec)) (fun storage =>
    match storage !! CODE with
    | Some wasm => Ok wasm
    | None => Err "Could not find wasm file in genesis state!"
    end).

(** [output_buf] *)
Definition output_buf (raw : bool) (blob : list byte) : list byte :=
  if raw then blob else byte_string "0x" ++ hex_display blob.

Definition export_genesis_state (f : Features) (params : ExportGenesisStateCommand) : Result Outcome :=
  rbind (load_spec f (default ""%string (egs_chain params))) (fun spec =>
  rbind (lift_error (genesis_header spec)) (fun raw_header =>
    Ok (Written (egs_output params) (output_buf (egs_raw params) raw_header)))).

Definition export_genesis_wasm (f : Features) (params : ExportGenesisWasmCommand) : Result Outcome :=
  rbind (load_spec f (default ""%string (egw_chain params))) (fun spec =>
  rbind (extract_genesis_wasm spec) (fun raw_wasm_blob =>
    Ok (Written (egw_output params) (output_buf (egw_raw params) raw_wasm_blob)))).

(** A subcommand that works on the chain's database. *)
Definition chain_op (f : Features) (config : Configuration) (k : PartialComponents -> Outcome)
    : Startup Outcome :=
  ask CreateRunner ;;;
  let! params := new_chain_ops f config in
  ret (k params).

(** The arms of [run] for a subcommand; [config] is the configuration of the
    runner. *)
Definition run_subcommand (f : Features) (config : Configuration) (cmd : Subcommand)
    : Startup Outcome :=
  match cmd with
  | BuildSpec => ask CreateRunner ;;; ret RunBuildSpec
  | CheckBlock => chain_op f config (fun p => RunCheckBlock (client p) (import_queue p))
  | ExportBlocks => chain_op f config (fun p => RunExportBlocks (client p))
  | ExportState => chain_op f config (fun p => RunExportState (client p))
  | ImportBlocks => chain_op f config (fun p => RunImportBlocks (client p) (import_queue p))
  | PurgeChain => ask CreateRunner ;;; ret RunPurgeChain
  | Revert => chain_op f config (fun p => RunRevert (client p))
  | ExportGenesisState params => lift (export_genesis_state f params)
  | ExportGenesisWasm params => lift (export_genesis_wasm f params)
  end.

(** The network whose client an outcome works on. *)
Definition outcome_client (o : Outcome) : option ForceChain :=
  match o with
  | RunCheckBlock c _ | RunExportBlocks c | RunExportState c | RunImportBlocks c _ | RunRevert c =>
      Some c
  | _ => None
  end.
Definition is_chain_op (cmd : Subcommand) : bool :=
  match cmd with
  | CheckBlock | ExportBlocks | ExportState | ImportBlocks | Revert => true
  | _ => false
  end.

Lemma chain_op_run f config k asked :
  match chain_op f config k asked with
  | (Ok o, asked') =>
      let c := identified (chain_spec_id config) in
      let config' := set_keystore config InMemory in
      f c = true /\ o = k (partial_of c config' (ops_dev c)) /\
      asked' = asked ++ CreateRunner :: partial_plan c config' (ops_dev c)
  | (Err _, _) => True
  | (Panic, _) => False
  end.
Proof.
  unfold chain_op. unfold bind at 1, ask. destruct (answer asked CreateRunner); [done|]. unfold bind.
  destruct (new_chain_ops f config (asked ++ [CreateRunner])) as [[p| |] asked'] eqn:Hc; simpl.
  - apply new_chain_ops_ok in Hc as (Hf & -> & ->). by rewrite <- app_assoc.
  - done.
  - by apply (new_chain_ops_no_panic f config (asked ++ [CreateRunner])); rewrite Hc.
Qed.

Lemma export_no_panic f cmd :
  match cmd with
  | ExportGenesisState params => export_genesis_state f params <> Panic
  | ExportGenesisWasm params => export_genesis_wasm f params <> Panic
  | _ => True
  end.
Proof using Type.
  pose proof (load_spec_available f) as Hl. destruct cmd as [params|params| | | | | | |]; try done.
  - unfold export_genesis_state. destruct (Hl (default ""%string (egs_chain params))) as [Hs _]. clear Hl.
    destruct (load_spec f _) as [src|m|]; simpl; try done. by destruct (genesis_header src).
  - unfold export_genesis_wasm, extract_genesis_wasm.
    destruct (Hl (default ""%string (egw_chain params))) as [Hs _]. clear Hl.
    destruct (load_spec f _) as [src|m|]; simpl; try done.
    destruct (build_storage src) as [m|top]; simpl; [done|]. by destruct (top !! CODE); simpl.
Qed.

(** Chain operations work on the client of one compiled network, the one the
    specification's id is identified as, and on no key store but one in memory;
    the other subcommands work on no client.  No subcommand panics or starts a
    network. *)
Theorem subcommand_client f config cmd :
  match run_subcommand f config cmd [] with
  | (Ok o, asked) =>
      let c := identified (chain_spec_id config) in
      StartNetwork ∉ asked /\
      if is_chain_op cmd then
        f c = true /\ outcome_client o = Some c /\
        forall c' k tele, NewFullParts c' k tele ∈ asked -> c' = c /\ k = InMemory
      else outcome_client o = None /\ forall c' k tele, NewFullParts c' k tele ∉ asked
  | (Err _, _) => True
  | (Panic, _) => False
  end.
Proof.
  pose proof (export_no_panic f cmd) as Hx.
  assert (forall k, outcome_client (k (partial_of (identified (chain_spec_id config))
      (set_keystore config InMemory) (ops_dev (identified (chain_spec_id config)))))
      = Some (identified (chain_spec_id config)) ->
    match chain_op f config k [] with
    | (Ok o, asked) =>
        let c := identified (chain_spec_id config) in
        StartNetwork ∉ asked /\ f c = true /\ outcome_client o = Some c /\
        forall c' ks tele, NewFullParts c' ks tele ∈ asked -> c' = c /\ ks = InMemory
    | (Err _, _) => True
    | (Panic, _) => False
    end) as Hop.
  { intros k Hk. pose proof (chain_op_run f config k []) as H.
    destruct (chain_op f config k []) as [[o| |] asked]; try done. destruct H as (Hf & -> & ->).
    unfold partial_plan. set (c := identified _) in *.
    destruct (telemetry_on _), (ops_dev c); simpl;
      (split_and!; [rewrite ?elem_of_cons, elem_of_nil; intuition congruence|done|done|
        intros c' ks tele; rewrite ?elem_of_cons, elem_of_nil; intuition congruence]). }
  destruct cmd as [params|params| | | | | | |]; simpl; try (by apply Hop).
  - destruct (export_genesis_state f params) as [o| |] eqn:He; try done. simpl.
    split_and!; [set_solver| |set_solver]. unfold export_genesis_state, rbind in He. by repeat case_match; simplify_eq.
  - destruct (export_genesis_wasm f params) as [o| |] eqn:He; try done. simpl.
    split_and!; [set_solver| |set_solver]. unfold export_genesis_wasm, rbind in He. by repeat case_match; simplify_eq.
  - unfold bind, ask. destruct (answer [] CreateRunner); simpl; [done|]. split_and!; set_solver.
  - unfold bind, ask. destruct (answer [] CreateRunner); simpl; [done|]. split_and!; set_solver.
Qed.

(** [C40] The wasm round trip: what [export-genesis-wasm] writes, read back as it
    was written, is exactly the code in the genesis storage of the
    specification that [--chain] names, or of the staging specification of
    Halongbay without it, and that specification is of a network the node was
    compiled with. *)
Theorem export_wasm_roundtrip `{!GenesisToolsLaws} f params output buf :
  export_genesis_wasm f params = Ok (Written output buf) ->
  output = egw_output params /\
  exists spec top code,
    load_spec f (default ""%string (egw_chain params)) = Ok spec /\ f (source_chain spec) = true /\
    build_storage spec = inr top /\ top !! CODE = Some code /\
    (if egw_raw params then Some buf
     else if decide (take 2 buf = byte_string "0x") then hex_read (drop 2 buf) else None) = Some code /\
    (egw_chain params = None -> f Halongbay = true -> spec = Staging Halongbay).
Proof.
  unfold export_genesis_wasm, extract_genesis_wasm. intros Hw.
  destruct (load_spec_available f (default ""%string (egw_chain params))) as [Hs _].
  destruct (load_spec f _) as [spec|m|] eqn:Hl; simpl in Hw; try done. destruct Hs as [Hs _].
  destruct (build_storage spec) as [m|top] eqn:Hb; simpl in Hw; [done|].
  destruct (top !! CODE) as [code|] eqn:Hc; simpl in Hw; [|done]. simplify_eq.
  split; [done|]. exists spec, top, code. split_and!; try done.
  - unfold output_buf. destruct (egw_raw params); [done|]. simpl. apply hex_read_display.
  - intros Hn Hh. rewrite Hn in Hl. unfold load_spec in Hl. rewrite Hh in Hl. simpl in Hl.
    rewrite !andb_false_r in Hl. unfold open_spec in Hl. by case_match; simplify_eq.
Qed.

(** [--parachain-id] of [export-genesis-state] is documented as the id of the
    parachain the state is for; it has no influence on what is written. *)
Theorem export_state_ignores_parachain_id f output raw chain id id' :
  export_genesis_state f (mkExportGenesisState output id raw chain)
  = export_genesis_state f (mkExportGenesisState output id' raw chain).
Proof. reflexivity. Qed.
End Subcommands.

(** ** [RelayChainCli] *)

Section Relay.
(** The types of [sc_cli] and [sc_service]. *)
Context {SharedParams ImportParams NetworkParams KeystoreParams SocketAddr PrometheusConfig
  PoolOptions RpcMethods ExtTransport : Type}.

(** [sc_cli::CliConfiguration], as far as [RelayChainCli] overrides it. *)
Class CliConfiguration (C : Type) := {
  shared_params : C -> SharedParams;
  import_params : C -> option ImportParams;
  network_params : C -> option NetworkParams;
  keystore_params : C -> option KeystoreParams;
  rpc_http : C -> Z -> Result (option SocketAddr);
  rpc_ipc : C -> Result (option string);
  rpc_ws : C -> Z -> Result (option SocketAddr);
  prometheus_config : C -> Z -> Result (option PrometheusConfig);
  chain_id : C -> bool -> Result string;
  cli_role : C -> bool -> Result Role;
  transaction_pool : C -> Result PoolOptions;
  state_cache_child_ratio : C -> Result (option Z);
  rpc_methods : C -> Result RpcMethods;
  rpc_ws_max_connections : C -> Result (option Z);
  rpc_cors : C -> bool -> Result (option (list string));
  telemetry_external_transport : C -> Result (option ExtTransport);
  default_heap_pages : C -> Result (option Z);
  force_authoring : C -> Result bool;
  disable_grandpa : C -> Result bool;
  max_runtime_instances : C -> Result (option Z);
  announce_block : C -> Result bool;
}.

(** [polkadot_cli::RunCmd], with [SharedParams::base_path] and [from_iter]. *)
Context {PolkadotRunCmd : Type} `{!CliConfiguration PolkadotRunCmd}.
Context (shared_base_path : SharedParams -> option string)
  (from_iter : list string -> PolkadotRunCmd) `{SV : !Services}.

Record RelayChainCli := mkRelayChainCli {
  relay_base : PolkadotRunCmd;
  relay_chain_id : option string;
  relay_base_path : option string;
}.
Implicit Types self : RelayChainCli.

(** [RelayChainCli::new] *)
Definition relay_new (base_path chain_id : option string) (relay_chain_args : list string)
    : RelayChainCli :=
  mkRelayChainCli (from_iter relay_chain_args) chain_id base_path.

(** [DefaultConfigurationValues] *)
Definition p2p_listen_port : Z := 30334.
Definition rpc_ws_listen_port : Z := 9945.
Definition rpc_http_listen_port : Z := 9934.
Definition prometheus_listen_port : Z := 9616.

Definition Relay_shared_params self := shared_params (relay_base self).
Definition Relay_import_params self := import_params (relay_base self).
Definition Relay_network_params self := network_params (relay_base self).
Definition Relay_keystore_params self := keystore_params (relay_base self).
Definition Relay_base_path self : Result (option string) :=
  Ok (match shared_base_path (Relay_shared_params self) with
       | Some p => Some p
       | None => relay_base_path self
       end).
Definition Relay_rpc_http self (default_listen_port : Z) := rpc_http (relay_base self) default_listen_port.
Definition Relay_rpc_ipc self := rpc_ipc (relay_base self).
Definition Relay_rpc_ws self (default_listen_port : Z) := rpc_ws (relay_base self) default_listen_port.
Definition Relay_prometheus_config self (default_listen_port : Z) :=
  prometheus_config (relay_base self) default_listen_port.
(** [unreachable!] *)
Definition Relay_init self : Result unit := Panic.
Definition Relay_chain_id self (is_dev : bool) : Result string :=
  rbind (chain_id (relay_base self) is_dev) (fun chain_id =>
    Ok (if decide (chain_id = ""%string) then default ""%string (relay_chain_id self) else chain_id)).
Definition Relay_role self (is_dev : bool) := cli_role (relay_base self) is_dev.
Definition Relay_transaction_pool self := transaction_pool (relay_base self).
Definition Relay_state_cache_child_ratio self := state_cache_child_ratio (relay_base self).
Definition Relay_rpc_methods self := rpc_methods (relay_base self).
Definition Relay_rpc_ws_max_connections self := rpc_ws_max_connections (relay_base self).
Definition Relay_rpc_cors self (is_dev : bool) := rpc_cors (relay_base self) is_dev.
Definition Relay_telemetry_external_transport self := telemetry_external_transport (relay_base self).
Definition Relay_default_heap_pages self := default_heap_pages (relay_base self).
Definition Relay_force_authoring self := force_authoring (relay_base self).
Definition Relay_disable_grandpa self := disable_grandpa (relay_base self).
Definition Relay_max_runtime_instances self := max_runtime_instances (relay_base self).
Definition Relay_announce_block self := announce_block (relay_base self).

#[export] Instance Relay_CliConfiguration : CliConfiguration RelayChainCli := {|
  shared_params := Relay_shared_params;
  import_params := Relay_import_params;
  network_params := Relay_network_params;
  keystore_params := Relay_keystore_params;
  rpc_http := Relay_rpc_http;
  rpc_ipc := Relay_rpc_ipc;
  rpc_ws := Relay_rpc_ws;
  prometheus_config := Relay_prometheus_config;
  chain_id := Relay_chain_id;
  cli_role := Relay_role;
  transaction_pool := Relay_transaction_pool;
  state_cache_child_ratio := Relay_state_cache_child_ratio;
  rpc_methods := Relay_rpc_methods;
  rpc_ws_max_connections := Relay_rpc_ws_max_connections;
  rpc_cors := Relay_rpc_cors;
  telemetry_external_transport := Relay_telemetry_external_transport;
  default_heap_pages := Relay_default_heap_pages;
  force_authoring := Relay_force_authoring;
  disable_grandpa := Relay_disable_grandpa;
  max_runtime_instances := Relay_max_runtime_instances;
  announce_block := Relay_announce_block;
|}.

(** The relay chain arguments [run] makes for a collator. *)
Definition run_relay_cli (config : Configuration) (cli : RunCmd) : RelayChainCli :=
  relay_new ((fun x => path_join x "polkadot") <$> config_base_path config)
    (relay_chain <$> spec_extensions config) (executable_name :: relaychain_args cli).

(** They are what the configuration of the relay chain node is made from. *)
Theorem relay_configured `{!ServicesLaws} f config cli base chain args :
  CreateRelayConfiguration base chain args ∈ (run f config cli []).2 ->
  start_dev_flag cli = false /\ relay_new base chain args = run_relay_cli config cli.
Proof using Type.
  rewrite run_follows. intros Hin.
  assert (CreateRelayConfiguration base chain args ∈ (run_plan f config cli).1) as Hp.
  { pose proof (follow_spec (run_plan f config cli).2 (run_plan f config cli).1 []) as Hf.
    destruct ((follow _ ;;; _) []) as [res asked]. simpl in Hin.
    destruct Hf as [(_ & _ & ->)|(l & r & l' & e & -> & _ & _ & _ & ->)]; [done|set_solver]. }
  clear Hin. revert Hp. unfold run_plan, dev_plan, node_plan, partial_plan, offchain_plan, run_relay_cli.
  repeat case_match; cbn [fst app]; rewrite ?elem_of_cons, ?elem_of_nil; intuition congruence.
Qed.

(** The relay chain node inside a collator follows the chain its own arguments
    name, else the one the parachain's specification extends; it keeps its data
    where its own arguments say, else beside the parachain's. *)
Theorem relay_chain_followed config cli is_dev own :
  let polkadot := from_iter (executable_name :: relaychain_args cli) in
  chain_id polkadot is_dev = Ok own ->
  chain_id (run_relay_cli config cli) is_dev
    = Ok (if decide (own = ""%string)
          then default ""%string (relay_chain <$> spec_extensions config) else own) /\
  Relay_base_path (run_relay_cli config cli)
    = Ok (shared_base_path (shared_params polkadot)
          ∪ ((fun x => path_join x "polkadot") <$> config_base_path config)).
Proof using Type.
  intros polkadot Hown. split.
  - simpl. unfold Relay_chain_id. simpl. fold polkadot. by rewrite Hown.
  - unfold Relay_base_path, Relay_shared_params. simpl. fold polkadot.
    by destruct (shared_base_path _), (config_base_path config).
Qed.
End Relay.

(** ** Witnesses *)

(** A build with the runtimes of two networks and no specification of the third. *)
#[export] Instance two_networks : SpecFiles := {|
  WASM_BINARY c := if decide (c = PolkaSmith) then None else Some (byte_string "wasm");
  from_json_bytes_error c := if decide (c = PolkaSmith) then Some "no such file"%string else None;
  from_json_file_error c path := None;
|}.

(** Specifications whose code is the name of their source, printed as letters
    doubled. *)
#[export] Instance letter_tools : GenesisTools := {|
  build_storage s := match s with
                     | Staging Halongbay => inr {[":code"%string := byte_string "wasm"]}
                     | JsonFile c p => inr {[":code"%string := byte_string p]}
                     | _ => inl "no storage"%string
                     end;
  genesis_header s := inl "no header"%string;
  CODE := ":code"%string;
  hex_display b := b ++ b;
  hex_read b := Some (take (Nat.div2 (length b)) b);
|}.
#[export] Instance letter_tools_laws : GenesisToolsLaws.
Proof.
  split. intros b. simpl. rewrite length_app.
  assert (Nat.div2 (length b + length b) = length b) as ->.
  { replace (length b + length b)%nat with (2 * length b)%nat by lia. apply Nat.div2_double. }
  by rewrite take_app_length.
Qed.

Lemma export_wasm_roundtrip_witness :
  let params := mkExportGenesisWasm None false None in
  exists buf, export_genesis_wasm (fun _ => true) params = Ok (Written None buf) /\
    exists spec top code,
      load_spec (fun _ => true) "" = Ok spec /\ (fun _ : ForceChain => true) (source_chain spec) = true /\
      build_storage spec = inr top /\ top !! CODE = Some code /\
      (if decide (take 2 buf = byte_string "0x") then hex_read (drop 2 buf) else None) = Some code /\
      (egw_chain params = None -> true = true -> spec = Staging Halongbay).
Proof.
  intros params. eexists. split; [vm_compute; reflexivity|].
  exact (proj2 (export_wasm_roundtrip (fun _ => true) params None _ eq_refl)).
Defined.
